(* ===== verification/_CoqProject ===== *)
-Q . S2P
Prelude.v
Riscv.v
CString.v
HashMap.v
HashSet.v
Queue.v
Address.v
Asm.v
Page.v
PageTable.v
Uvm.v
Fork.v
Ring.v
Uart.v
Console.v
Stdio.v
Shell.v
SpinMutex.v
SleepMutex.v
Buffer.v
Virtio.v
FsState.v
Log.v
LogSpace.v
Txn.v
Block.v
Inode.v
InodeWrite.v
MakeDisk.v
File.v
FileWrite.v
Scheduler.v
Fairness.v
Process.v
Exec.v
Syscall.v
WriteCall.v
Trap.v
ForkChild.v
Boot.v
Vectors.v
UserWrite.v
