(* ===== verification/Prelude.v ===== *)
(** * ORFOS: a verification library for the kernel

    ORFOS is a small multi-hart kernel for 64-bit RISC-V, written in C++.  This
    library translates its code into definitions of Rocq that compute, and proves
    what each part promises to the parts that use it.  This file is the root: its
    header describes the whole library, and its contents are the prelude that
    every other file requires.  Paths of sources are below [src/].

    ** How the code is modelled

    - A function of the kernel that changes state is a definition in the monad
      [M S A]: a state of type [S] gives a value and a next state, or a [fault].  A
      fault is what stops the code short of returning: a failed [assert], a
      [panic], the use of a null or dangling pointer, an access outside an array, a
      [sleep] that gives the processor away, or fuel that ran out.  A method [m] of
      a class is a definition [m] that takes the fields it uses; the order of the
      statements, the early returns and the error values are those of the code.
    - An integer type is [Z] with the conversions written out: [u8], [u16], [u32],
      [u64] wrap, [s16], [s32] wrap to the signed range.
    - Physical memory is a finite map from addresses to bytes ([pmem]); page
      tables, trap frames, the free list of pages, user memory and the kernel's
      local structures that are passed by address all live in it.  A [char] array
      that is not passed by address is a list of bytes.  Both are a [ByteStore],
      the class over which the string library and the little-endian accessors
      ([ld16], [st64] and the others) are written.
    - Objects that are only reached through pointers (buffers, inodes, files,
      processes, queue nodes) are entries of finite maps or lists, and a pointer is
      a key.  Allocating such an object takes a fresh key; the page it also takes
      in the kernel is not taken from the modelled free list.
    - A loop is a [Fixpoint].  Where the code bounds it, the bound is the fuel and
      the comment of the definition says why it suffices; where a theorem is about
      a result, it says that the operation returns ([runs], or an equation with
      [Ok]), so that fuel which runs out would contradict it.
    - Critical sections under a spin lock are single operations in every file but
      [SpinMutex] and [Scheduler], where the interleaving of harts is the subject.

    ** Files, from the bottom up

    - [Prelude]: machine integers, faults, the monad with its rules for total
      correctness ([runs]) and for what an operation leaves alone ([keeps]), byte
      stores.
    - [CString]: [kernel/lib/string.cpp] and its copy in [user/lib].
    - [HashMap], [HashSet]: [kernel/lib/hash_map.h] and [hash_set.h].
    - [Queue]: [kernel/lib/queue.h], nodes in a heap.
    - [Address], [Page], [PageTable], [Uvm], [Fork]: [kernel/memory]: the bit
      fields of addresses and entries, the free list, the Sv39 tables ([walk],
      [map], [copyin], [copyout], [copyinString]), growing and copying the memory
      of a process, the kernel's own table.  [Fork] has no definitions of the
      program: it is the proof of [copyUserVirtualMemory].
    - [Ring], [Uart], [Console]: [kernel/console]: the ring-buffer lemmas, the
      driver, the line editor, [printf] and the line reader.
    - [SpinMutex], [SleepMutex]: [kernel/mutex], with [Cpu] of [process/cpu.h].
    - [Virtio], [Buffer]: [kernel/fs/virtio.cpp] and [buffer.cpp].  [Buffer] states
      the interface of a buffer cache as a class of operations ([BufferOps]) and a
      class of laws ([BufferLaws]); everything above is proved against the class,
      and the cache of the source is its instance.
    - [FsState], [Log], [LogSpace], [Txn], [Block]: the state of the file system,
      the write-ahead log with crashes between any two disk writes, the space the
      operations reserve in it, the rules for code between [beginOp] and [endOp],
      the bitmap and the mounting of a disk.
    - [Inode], [InodeWrite]: [kernel/fs/inode.cpp]; the second file proves writing.
    - [File], [FileWrite]: [kernel/fs/file.cpp] and [device.cpp]; the second file
      proves writing through an open file down to the disk.
    - [Scheduler]: [kernel/process/scheduler.cpp] and [sleep.cpp], as steps of
      harts, with an abstract scheduler they refine.
    - [Process], [Exec], [Syscall]: [kernel/process/process.cpp] and
      [user_init_proc.cpp], [kernel/elf/exec.cpp], [kernel/syscall].  Their state
      [Machine] joins files, console and memory ([FileState]), the scheduler and
      the table of processes; [System] adds the table of system calls.
    - [WriteCall]: the [write] system call on an open file, from the trap frame to
      the disk; it has no definitions of the program.
    - [Fairness]: the order in which the scheduler serves ready processes, proved
      over the abstract scheduler and carried over to the code.
    - [Riscv], [Trap]: the control registers ([kernel/arch/riscv.h]) and
      [kernel/ie]: causes, interrupt controller, clock, traps from the kernel and
      from user programs.  [TrapState] adds the registers of a hart and the
      accesses to the interrupt controllers to [System]; what the processor does
      when it takes a trap or returns from one is in [Riscv].
    - [Asm]: the routines in assembly: the context switch ([process/context.S]),
      the vectors of user, kernel and timer traps ([ie/user_vector.S],
      [kernel_vector.S]), [boot/entry.S] and the stubs of [user/lib/syscall.S], as
      lists of instructions that run on the general registers, the control
      registers and the memory of a hart.
    - [Vectors]: the vectors around the handlers of [Trap].  A [World] is the
      general registers and a [TrapState], whose registers and memory the assembly
      shares.  [UserWrite] joins them with [WriteCall]: a program that writes.
    - [ForkChild]: [returnFork] of [process.cpp], where a forked process starts.
    - [Boot]: [kernel/boot], as a step relation of all harts, each with the list
      of statements of [main] it has still to run.
    - [MakeDisk]: [disk/make_disk.cpp], the host program that builds the image;
      it shares the layout of inodes and directories with [Inode].
    - [Stdio], [Shell]: [user/lib] and the programs [init], [sh] and [echo].  A
      program has the state it can see, its input, its output and the calls it
      made, and the results of its calls are a function of the calls so far.

    ** What the theorems show

    - Memory: the free list holds every page once, [allocate] returns pages that
      are cleared but for their last byte and panics on an empty list; [map] installs exactly the requested
      translations, the walk agrees with the Sv39 translation, copies to and from
      user memory agree with byte-by-byte translation; growing a process adds
      zeroed pages that overlap nothing, below the trap pages of its table, and
      [fork] copies every page into a table that shares the trampoline only.  The
      theorems on page tables assume that the last byte of every free page is zero
      ([PageTable.wf_clean]), which [memset] does not see to.
    - Disk: after a crash between any two disk writes of a commit, recovery leaves
      all of the transaction or none of it, and may itself be repeated; running
      operations never exceed the space they reserved; only the last [endOp]
      commits; the bitmap operations, [read] and [write] of inodes and of open
      files do what a file of bytes does, in the direct blocks a file has already
      (behind them [bmap] does not read the indirect block, so the property fails),
      with the block of the inode outside the log; in this range a [write] system
      call that returns has its bytes on the disk, and one that a crash interrupts
      leaves, after recovery, the old file with the bytes of a number of whole
      operations.
    - Concurrency: at most one hart holds a spin lock, and with interrupts off;
      when one hart makes all the steps and at most two sleep channels fall into a
      bucket of the sleep table, the scheduler refines a list and a finite map and
      loses no process, and an execution of two harts that run one process is exhibited.
    - Processes: after any sequence of system calls of any processes, the count of
      every open file is the number of descriptors that name it; [fork] duplicates
      the descriptors; [exec] replaces the program or changes no process, and puts
      the arguments on the new stack exactly when they fit; the table of system
      calls sends each code to its function; closed descriptors are refused.
    - Console and containers: the line discipline, whole lines to readers, the hash
      map and the queue as a finite map and a list.
    - Fairness: a ready process runs after at most as many picks of the scheduler
      as there were entries in front of it.
    - Traps and boot: an interrupt served in the kernel is transparent to the code
      it interrupted, whatever ran in between; each claimed interrupt is served by
      its driver and completed; the return to a user program enters it in user mode with its page table, and
      the child of [fork] with the registers of its parent and the result 0; no
      hart uses what hart 0 has not initialised, in any interleaving.
    - Assembly: a thread that is switched away from goes on where it was when it is
      switched back to; an interrupt leaves the registers of the kernel as they
      were; a system call comes back to the caller of its stub with the result and
      with its other registers; the timer interrupt re-arms itself.  A program that
      calls [write], in the range above, finds its bytes on the disk when the stub
      returns.
    - The image that [make_disk] builds holds exactly the given files, with a root
      directory that agrees with them and a bitmap that marks every block an inode
      names; no block has two owners; a kernel that has read
      nothing yet sees the bytes of the files that need no indirect block.
    - User programs: [vprintf] formats as the kernel's [printf] does, but for [%x],
      [%u] and [%l]; the shell passes the words of the first line to [exec], when
      its uninitialised structure holds zeros.
    A theorem with hypotheses is followed by its application at a concrete state.
    Theorems whose statement the code makes surprising (an iterator without an end,
    a lost wakeup, a bound that is ignored) are part of the library as well.

    ** Bounds and fuel

    Loops over user-controlled sizes take the number of pages or blocks of the
    size, plus one or two for its ends, as fuel.  [Exec] takes [2 ^ 16] rounds for
    program headers, which a 16-bit count cannot exceed.  [kernel_string] scans one
    page, the size of the buffers it is called with.  Polling loops of devices take
    a number of polls as a parameter of the definition.

    ** Parameters

    The registers of devices (UART, virtio, interrupt controller, clock) are
    functions of the accesses made so far; the addresses of code, of stack
    variables and of global mutexes, the contents of uninitialised local arrays,
    and the hash of the sleep table are variables of the sections that use them.

    ** Not modelled

    - What the C++ compiler makes of the kernel: a compiled function is its model,
      with any effect on the general registers its callers allow ([compiled] in
      [Vectors]); its stack frames are not in the memory of the model.  The harts of
      [Scheduler] change threads by a change of place, not through [Asm].
    - The translation of addresses in [Asm] is a parameter that the theorems
      constrain to the pages the routines touch; the walk of the tables is in
      [PageTable].
    - The TLB and the fences that flush it, [wfi], and [read_ra].
    - The memory order of the harts: shared state changes one statement, or one
      atomic instruction in [SpinMutex], at a time.
    - The placement of C++ objects in memory, and the pages they take: operator
      new is modelled ([Page.operator_new]), and objects are kept in maps.
    - [init.S], the first user program, is a list of bytes given to
      [startUserInitProcess]. *)

From Stdlib Require Export ZArith Lia.
From stdpp Require Export base tactics list numbers gmap.

#[global] Open Scope Z_scope.

Create HintDb orfos.

Create Rewrite HintDb orfos.

(** ** Machine integers

    Values of the C++ integer types are elements of [Z]; every conversion to a
    [w]-bit type is written out with [wrap] (unsigned) or [swrap] (signed). *)

Definition wrap (w z : Z) : Z := z mod 2 ^ w.

Definition swrap (w z : Z) : Z :=
  let r := wrap w z in if r <? 2 ^ (w - 1) then r else r - 2 ^ w.

Abbreviation u8 := (wrap 8).
Abbreviation u16 := (wrap 16).
Abbreviation u32 := (wrap 32).
Abbreviation u64 := (wrap 64).
Abbreviation s16 := (swrap 16).
Abbreviation s32 := (swrap 32).

(** ** Faults and the state monad *)

(** What stops a kernel operation short of returning: a failed [assert], a
    call of [lib::panic], a dereference of a null or dangling pointer, an
    access outside an array, a call of [process::sleep] (the operation waits
    for another process), or fuel that ran out. *)
Inductive fault :=
  | AssertFailed
  | KernelPanic
  | NullDeref
  | OutOfRange
  | WouldSleep
  | NoFuel.

#[export] Instance fault_eq_dec : EqDecision fault.
Proof. solve_decision. Defined.

Inductive result (A : Type) :=
  | Ok (a : A)
  | Err (f : fault).
Arguments Ok {A} a.
Arguments Err {A} f.

Definition result_value {A} (r : result A) : option A :=
  match r with Ok a => Some a | Err _ => None end.

(** A kernel operation on state [S]: it faults, or it returns a value and the
    next state. *)
Definition M (S A : Type) : Type := S → result (A * S).

Section monad.
Context {S : Type}.

#[export] Instance M_ret : MRet (M S) := λ A a s, Ok (a, s).

#[export] Instance M_bind : MBind (M S) := λ A B k c s,
  match c s with
  | Ok (a, s') => k a s'
  | Err f => Err f
  end.

Definition fail {A} (f : fault) : M S A := λ _, Err f.

Definition get_state : M S S := λ s, Ok (s, s).

Definition put_state (s : S) : M S unit := λ _, Ok (tt, s).

Definition gets {A} (f : S → A) : M S A := λ s, Ok (f s, s).

Definition modify (f : S → S) : M S unit := λ s, Ok (tt, f s).

(** [assert(b)] of the C++ code. *)
Definition assert (b : bool) : M S unit :=
  if b then mret tt else fail AssertFailed.

(** [for (i = start; i < start + n; ++i) body(i)]. *)
Fixpoint for_range (n : nat) (start : Z) (body : Z → M S unit) : M S unit :=
  match n with
  | O => mret tt
  | Datatypes.S n' => body start ;; for_range n' (start + 1) body
  end.

(** [for (i = i0; i < n; ++i) body(i)], for a loop of at most [fuel] rounds. *)
Fixpoint for_lt (fuel : nat) (i n : Z) (body : Z → M S unit) : M S unit :=
  if i <? n then
    match fuel with
    | O => fail NoFuel
    | Datatypes.S f => body i ;; for_lt f (i + 1) n body
    end
  else mret tt.

(** Total correctness: [c] started in [s] returns, with a value and a state
    that satisfy [Q]. *)
Definition runs {A} (c : M S A) (s : S) (Q : A → S → Prop) : Prop :=
  match c s with
  | Ok (a, s') => Q a s'
  | Err _ => False
  end.

Lemma runs_ok {A} (c : M S A) s a s' (Q : A → S → Prop) :
  c s = Ok (a, s') → Q a s' → runs c s Q.
Proof. unfold runs. by intros ->. Qed.

Lemma runs_inv {A} (c : M S A) s (Q : A → S → Prop) :
  runs c s Q → ∃ a s', c s = Ok (a, s') ∧ Q a s'.
Proof. unfold runs. destruct (c s) as [[a s']|]; naive_solver. Qed.

Lemma runs_mono {A} (c : M S A) s (Q Q' : A → S → Prop) :
  runs c s Q → (∀ a s', Q a s' → Q' a s') → runs c s Q'.
Proof. unfold runs. destruct (c s) as [[a s']|]; naive_solver. Qed.

Lemma runs_ret {A} (a : A) s (Q : A → S → Prop) : Q a s → runs (mret a) s Q.
Proof. done. Qed.

Lemma runs_bind {A B} (c : M S A) (k : A → M S B) s (Q : B → S → Prop) :
  runs c s (λ a s', runs (k a) s' Q) → runs (c ≫= k) s Q.
Proof. unfold runs, mbind, M_bind. by destruct (c s) as [[a s']|]. Qed.

Lemma runs_assert b s (Q : unit → S → Prop) : b = true → Q tt s → runs (assert b) s Q.
Proof. by intros ->. Qed.

Lemma runs_gets {A} (f : S → A) s (Q : A → S → Prop) : Q (f s) s → runs (gets f) s Q.
Proof. done. Qed.

Lemma runs_modify (f : S → S) s (Q : unit → S → Prop) : Q tt (f s) → runs (modify f) s Q.
Proof. done. Qed.

Lemma runs_get_state s (Q : S → S → Prop) : Q s s → runs get_state s Q.
Proof. done. Qed.

Lemma runs_put_state s' s (Q : unit → S → Prop) : Q tt s' → runs (put_state s') s Q.
Proof. done. Qed.

(** The loop rule: [I] holds before each round. *)
Lemma runs_for_lt (I : Z → S → Prop) fuel i n body s (Q : unit → S → Prop) :
  I i s → i <= n → n - i <= Z.of_nat fuel →
  (∀ j s, i <= j < n → I j s → runs (body j) s (λ _ s', I (j + 1) s')) →
  (∀ s, I n s → Q tt s) →
  runs (for_lt fuel i n body) s Q.
Proof.
  revert i s; induction fuel as [|f IH]; intros i s Hi Hle Hf Hb Hq; cbn [for_lt];
    destruct (Z.ltb_spec i n).
  - lia.
  - apply Hq. by replace n with i by lia.
  - apply runs_bind. eapply runs_mono; [by apply Hb|]. intros a s' Hs'.
    apply IH; [done|lia|lia| |done]. intros j s'' Hj. apply Hb. lia.
  - apply Hq. by replace n with i by lia.
Qed.

Lemma bind_ok {A B} (c : M S A) (k : A → M S B) s a s' :
  c s = Ok (a, s') → (c ≫= k) s = k a s'.
Proof. intros H. unfold mbind, M_bind. by rewrite H. Qed.

Lemma bind_inv {A B} (c : M S A) (k : A → M S B) s r :
  (c ≫= k) s = Ok r → ∃ a s', c s = Ok (a, s') ∧ k a s' = Ok r.
Proof.
  unfold mbind, M_bind. destruct (c s) as [[a s']|]; naive_solver.
Qed.

Lemma assert_inv b s r : assert b s = Ok r → b = true ∧ r = (tt, s).
Proof. unfold assert, mret, M_ret, fail. destruct b; naive_solver. Qed.

Lemma assert_ok b s a s' : assert b s = Ok (a, s') → b = true ∧ s' = s.
Proof. intros [? E]%assert_inv. by injection E. Qed.
End monad.

#[export] Hint Resolve runs_ret runs_assert runs_gets runs_modify : orfos.

(** Step over the administrative binds of a [runs] goal. *)
Ltac runs_step :=
  lazymatch goal with
  | |- runs (mbind _ _) _ _ => apply runs_bind
  | |- runs (mret _) _ _ => apply runs_ret
  | |- runs (gets _) _ _ => apply runs_gets; cbv beta
  | |- runs (modify _) _ _ => apply runs_modify; cbv beta
  | |- runs get_state _ _ => apply runs_get_state
  | |- runs (put_state _) _ _ => apply runs_put_state
  end.

(** Run the monadic program of hypothesis [H] backwards, one bind at a time. *)
Ltac run_inv H :=
  repeat match type of H with
  | (mbind _ _) _ = Ok _ =>
      let a := fresh "a" in let s := fresh "s" in
      let H1 := fresh "Hrun" in let H2 := fresh "Hrun" in
      apply bind_inv in H; destruct H as (a & s & H1 & H2);
      rename H2 into H
  end.

(** ** Operations that keep a part of the state *)

Definition keeps {S A B} (f : S → B) (c : M S A) : Prop :=
  ∀ s a s', c s = Ok (a, s') → f s' = f s.

Section keeps.
Context {S B : Type} (f : S → B).

Lemma keeps_bind {A C} (c : M S A) (k : A → M S C) :
  keeps f c → (∀ a, keeps f (k a)) → keeps f (c ≫= k).
Proof. intros Hc Hk s b s' (a & s1 & E1 & E2)%bind_inv. by rewrite (Hk a _ _ _ E2), (Hc _ _ _ E1). Qed.

Lemma keeps_ret {A} (a : A) : keeps f (mret a).
Proof. by intros s b s' [= _ <-]. Qed.

Lemma keeps_fail {A} e : keeps f (fail e : M S A).
Proof. done. Qed.

Lemma keeps_gets {A} (g : S → A) : keeps f (gets g).
Proof. by intros s b s' [= _ <-]. Qed.

Lemma keeps_modify g : (∀ s, f (g s) = f s) → keeps f (modify g).
Proof. by intros Hg s b s' [= _ <-]. Qed.

Lemma keeps_assert b : keeps f (assert b).
Proof. intros s a s' [_ E]%assert_inv. by simplify_eq. Qed.

Lemma keeps_for_lt fuel i n body : (∀ j, keeps f (body j)) → keeps f (for_lt fuel i n body).
Proof.
  intros Hb. revert i; induction fuel as [|k IH]; intros i; cbn [for_lt]; destruct (i <? n);
    auto using keeps_ret, keeps_fail, keeps_bind.
Qed.
End keeps.

Create HintDb keeps.
#[export] Hint Resolve keeps_ret keeps_fail keeps_gets keeps_assert : keeps.

(** Go through the statements of an operation that keeps [f]. *)
Ltac keeps_steps :=
  repeat first
    [ solve [auto with keeps]
    | lazymatch goal with
      | |- keeps _ (mbind _ _) => apply keeps_bind; [|intros ?]
      | |- keeps _ (for_lt _ _ _ _) => apply keeps_for_lt; intros ?
      | |- keeps _ (match ?x with _ => _ end) => destruct x
      end ].

(** ** Lemmas on machine integers *)

Lemma wrap_range w z : 0 <= w → 0 <= wrap w z < 2 ^ w.
Proof. intros. apply Z.mod_pos_bound, Z.pow_pos_nonneg; lia. Qed.

Lemma wrap_small w z : 0 <= z < 2 ^ w → wrap w z = z.
Proof. apply Z.mod_small. Qed.

Lemma wrap_wrap w z : wrap w (wrap w z) = wrap w z.
Proof. apply Zmod_mod. Qed.

Lemma wrap_add_l w a b : wrap w (wrap w a + b) = wrap w (a + b).
Proof. apply Zplus_mod_idemp_l. Qed.

Lemma wrap_sub_l w a b : wrap w (wrap w a - b) = wrap w (a - b).
Proof. apply Zminus_mod_idemp_l. Qed.

Lemma swrap_small w z : 0 < w → - 2 ^ (w - 1) <= z < 2 ^ (w - 1) → swrap w z = z.
Proof.
  intros Hw Hz. unfold swrap.
  assert (2 ^ w = 2 * 2 ^ (w - 1)) as E.
  { rewrite <- Z.pow_succ_r by lia. f_equal. lia. }
  destruct (Z.neg_nonneg_cases z).
  - assert (wrap w z = z + 2 ^ w) as ->.
    { unfold wrap. rewrite <- (Z.mod_add z 1) by lia.
      rewrite Z.mul_1_l. apply Z.mod_small. lia. }
    destruct (Z.ltb_spec (z + 2 ^ w) (2 ^ (w - 1))); lia.
  - rewrite wrap_small by lia.
    destruct (Z.ltb_spec z (2 ^ (w - 1))); lia.
Qed.

Lemma ones_pow2 n : 2 ^ n - 1 = Z.ones n.
Proof. rewrite Z.ones_equiv. lia. Qed.

(** Bits [n ..] of [a] and bits [0 .. n-1] of [b] do not meet. *)
Lemma land_high_low a b n : 0 <= n → 0 <= b < 2 ^ n → Z.land (a * 2 ^ n) b = 0.
Proof.
  intros Hn Hb. apply Z.bits_inj'. intros i Hi. rewrite Z.land_spec, Z.bits_0.
  destruct (Z.lt_ge_cases i n).
  - by rewrite Z.mul_pow2_bits_low.
  - destruct (decide (b = 0)) as [->|]; [by rewrite Z.bits_0, andb_false_r|].
    rewrite (Z.bits_above_log2 b i); [by rewrite andb_false_r|lia|].
    apply Z.log2_lt_pow2; [lia|]. apply (Z.lt_le_trans _ (2 ^ n)); [lia|].
    by apply Z.pow_le_mono_r.
Qed.

Lemma lor_high_low a b n : 0 <= n → 0 <= b < 2 ^ n → Z.lor (a * 2 ^ n) b = a * 2 ^ n + b.
Proof.
  intros Hn Hb. rewrite <- Z.add_lor_land, land_high_low by done. lia.
Qed.

Lemma lor_range a b n : 0 <= n → 0 <= a < 2 ^ n → 0 <= b < 2 ^ n → 0 <= Z.lor a b < 2 ^ n.
Proof.
  intros Hn Ha Hb.
  assert (Z.lor a b = Z.lor a b mod 2 ^ n) as ->; [|apply Z.mod_pos_bound; lia].
  rewrite <- Z.land_ones, Z.land_lor_distr_l, !Z.land_ones by done.
  by rewrite !Z.mod_small.
Qed.

(** A prefix of a concatenation ends in the first part or in the second. *)
Lemma prefix_app_cases {A} (l l1 l2 : list A) :
  l `prefix_of` l1 ++ l2 → l `prefix_of` l1 ∨ ∃ l', l = l1 ++ l' ∧ l' `prefix_of` l2.
Proof.
  intros [k E]. symmetry in E. apply app_eq_inv in E as [(k' & -> & ->)|(k' & -> & ->)].
  - right. exists k'. split; [done|]. by exists k.
  - left. by exists k'.
Qed.

#[export] Hint Resolve wrap_range wrap_small swrap_small : orfos.

(** Decide every boolean comparison of [Z] the goal branches on. *)
Ltac bool_cases :=
  repeat match goal with
  | |- context [?a =? ?b] => destruct (Z.eqb_spec a b)
  | |- context [?a <? ?b] => destruct (Z.ltb_spec a b)
  | |- context [?a <=? ?b] => destruct (Z.leb_spec a b)
  end; simpl; try lia.

(** [lia] with quotients and remainders by constants. *)
Ltac dlia := Z.to_euclidean_division_equations; lia.

(** ** Byte stores

    Physical memory and the data of a disk buffer are both arrays of bytes.
    The string library, the page-table code and the on-disk structures are
    written once over this interface. *)

Class ByteStore (T : Type) := {
  ld8 : T → Z → Z;
  st8 : T → Z → Z → T;
  valid_addr : T → Z → Prop;
}.

Class ByteStoreLaws (T : Type) `{ByteStore T} := {
  ld8_byte t a : 0 <= ld8 t a < 256;
  ld8_st8_eq t a v : valid_addr t a → ld8 (st8 t a v) a = v mod 256;
  ld8_st8_ne t a b v : a ≠ b → ld8 (st8 t a v) b = ld8 t b;
  valid_addr_st8 t a v b : valid_addr (st8 t a v) b ↔ valid_addr t b;
}.

(** Physical memory: a finite map from addresses to bytes, zero elsewhere. *)
Abbreviation pmem := (gmap Z Z).

#[export] Instance pmem_store : ByteStore pmem := {|
  ld8 m a := default 0 (m !! a) mod 256;
  st8 m a v := <[a := v mod 256]> m;
  valid_addr m a := True;
|}.

#[export] Instance pmem_laws : ByteStoreLaws pmem.
Proof.
  split.
  - intros m a. apply Z.mod_pos_bound. lia.
  - intros m a v _. unfold ld8, st8; simpl. rewrite lookup_insert_eq; simpl.
    apply Zmod_mod.
  - intros m a b v Hne. unfold ld8, st8; simpl. by rewrite lookup_insert_ne.
  - done.
Qed.

(** The data of a buffer or another fixed-size [char] array. *)
Abbreviation bytes := (list Z).

#[export] Instance bytes_store : ByteStore bytes := {|
  ld8 l a := if 0 <=? a then default 0 (l !! Z.to_nat a) mod 256 else 0;
  st8 l a v := if 0 <=? a then <[Z.to_nat a := v mod 256]> l else l;
  valid_addr l a := 0 <= a < Z.of_nat (length l);
|}.

#[export] Instance bytes_laws : ByteStoreLaws bytes.
Proof.
  split.
  - intros l a. unfold ld8; simpl. bool_cases. apply Z.mod_pos_bound. lia.
  - intros l a v Ha. unfold ld8, st8, valid_addr in *; simpl in *. bool_cases.
    rewrite list_lookup_insert_eq by lia. apply Zmod_mod.
  - intros l a b v Hne. unfold ld8, st8; simpl. bool_cases.
    rewrite list_lookup_insert_ne by lia. done.
  - intros l a v b. unfold st8, valid_addr; simpl. bool_cases.
    by rewrite length_insert.
Qed.

Lemma length_st8 (l : bytes) a v : length (st8 l a v) = length l.
Proof. unfold st8; simpl. bool_cases. by rewrite length_insert. Qed.

(** Little-endian fields of [n] bytes (the RISC-V byte order). *)
Section little_endian.
Context {T} `{ByteStore T}.

Fixpoint ldN (n : nat) (t : T) (a : Z) : Z :=
  match n with
  | O => 0
  | S n' => ld8 t a + 256 * ldN n' t (a + 1)
  end.

Fixpoint stN (n : nat) (t : T) (a v : Z) : T :=
  match n with
  | O => t
  | S n' => stN n' (st8 t a v) (a + 1) (v / 256)
  end.

(** Write the bytes of [bs] at consecutive addresses from [a] on. *)
Fixpoint put_bytes (t : T) (a : Z) (bs : bytes) : T :=
  match bs with
  | [] => t
  | b :: bs' => put_bytes (st8 t a b) (a + 1) bs'
  end.

(** The [n] bytes at addresses [a], [a+1], ... *)
Fixpoint get_bytes (n : nat) (t : T) (a : Z) : bytes :=
  match n with
  | O => []
  | S n' => ld8 t a :: get_bytes n' t (a + 1)
  end.
End little_endian.

Abbreviation ld16 := (ldN 2).
Abbreviation ld32 := (ldN 4).
Abbreviation ld64 := (ldN 8).
Abbreviation st16 := (stN 2).
Abbreviation st32 := (stN 4).
Abbreviation st64 := (stN 8).

Section little_endian_lemmas.
Context {T} `{ByteStoreLaws T}.
Implicit Types (t : T) (a b v : Z) (n : nat).

Lemma ldN_range n t a : 0 <= ldN n t a < 2 ^ (8 * Z.of_nat n).
Proof.
  revert a; induction n as [|n IH]; intros a; [simpl; lia|].
  cbn [ldN]. specialize (IH (a + 1)). pose proof (ld8_byte t a).
  replace (8 * Z.of_nat (S n)) with (8 + 8 * Z.of_nat n) by lia.
  rewrite Z.pow_add_r by lia. change (2 ^ 8) with 256. nia.
Qed.

Lemma ldN_ext n (T' : Type) `{ByteStore T'} t (t' : T') a a' :
  (∀ i, 0 <= i < Z.of_nat n → ld8 t (a + i) = ld8 t' (a' + i)) →
  ldN n t a = ldN n t' a'.
Proof.
  revert a a'; induction n as [|n IH]; intros a a' E; [done|]. cbn [ldN].
  assert (ld8 t a = ld8 t' a') as ->.
  { specialize (E 0). rewrite !Z.add_0_r in E. apply E. lia. }
  do 2 f_equal. apply IH. intros i Hi. rewrite <- !Z.add_assoc. apply E. lia.
Qed.

Lemma ld8_stN_ne n t a v b :
  b < a ∨ a + Z.of_nat n <= b → ld8 (stN n t a v) b = ld8 t b.
Proof.
  revert t a v; induction n as [|n IH]; intros t a v Hb; [done|]. cbn [stN].
  rewrite IH by lia. apply ld8_st8_ne. lia.
Qed.

Lemma valid_addr_stN n t a v b : valid_addr (stN n t a v) b ↔ valid_addr t b.
Proof.
  revert t a v; induction n as [|n IH]; intros t a v; [done|]. cbn [stN].
  rewrite IH. apply valid_addr_st8.
Qed.

Lemma ldN_stN_eq n t a v :
  (∀ i, 0 <= i < Z.of_nat n → valid_addr t (a + i)) →
  ldN n (stN n t a v) a = v mod 2 ^ (8 * Z.of_nat n).
Proof.
  revert t a v; induction n as [|n IH]; intros t a v Hv.
  { simpl. by rewrite Z.mod_1_r. }
  cbn [stN ldN]. rewrite ld8_stN_ne by lia.
  rewrite ld8_st8_eq by (rewrite <- (Z.add_0_r a); apply Hv; lia).
  rewrite IH.
  - replace (8 * Z.of_nat (S n)) with (8 + 8 * Z.of_nat n) by lia.
    rewrite Z.pow_add_r by lia. change (2 ^ 8) with 256.
    rewrite Z.rem_mul_r by lia. done.
  - intros i Hi. rewrite valid_addr_st8, <- Z.add_assoc. apply Hv. lia.
Qed.

Lemma ldN_stN_ne n k t a v b :
  b + Z.of_nat k <= a ∨ a + Z.of_nat n <= b →
  ldN k (stN n t a v) b = ldN k t b.
Proof. intros Hd. apply ldN_ext. intros i Hi. apply ld8_stN_ne. lia. Qed.

Lemma ld8_stN_zero n t a k :
  (∀ i, 0 <= i < Z.of_nat n → valid_addr t (a + i)) → 0 <= k < Z.of_nat n →
  ld8 (stN n t a 0) (a + k) = 0.
Proof.
  revert t a k; induction n as [|n IH]; intros t a k Hv Hk; [lia|]. cbn [stN].
  change (0 / 256) with 0. destruct (decide (k = 0)) as [->|].
  - rewrite ld8_stN_ne by lia. rewrite Z.add_0_r, ld8_st8_eq; [done|].
    rewrite <- (Z.add_0_r a). apply Hv. lia.
  - replace (a + k) with (a + 1 + (k - 1)) by lia. apply IH; [|lia].
    intros i Hi. rewrite valid_addr_st8, <- Z.add_assoc. apply Hv. lia.
Qed.

Lemma ld8_put_bytes_ne t a bs b :
  b < a ∨ a + Z.of_nat (length bs) <= b → ld8 (put_bytes t a bs) b = ld8 t b.
Proof.
  revert t a; induction bs as [|x bs IH]; intros t a Hb; [done|].
  cbn [put_bytes length] in *. rewrite IH by lia. apply ld8_st8_ne. lia.
Qed.

Lemma valid_addr_put_bytes t a bs b :
  valid_addr (put_bytes t a bs) b ↔ valid_addr t b.
Proof.
  revert t a; induction bs as [|x bs IH]; intros t a; [done|]. cbn [put_bytes].
  rewrite IH. apply valid_addr_st8.
Qed.

Lemma ld8_put_bytes_eq t a bs i :
  0 <= i < Z.of_nat (length bs) → valid_addr t (a + i) →
  ld8 (put_bytes t a bs) (a + i) = default 0 (bs !! Z.to_nat i) mod 256.
Proof.
  revert t a i; induction bs as [|x bs IH]; intros t a i Hi Hv; simpl in Hi; [lia|].
  cbn [put_bytes]. destruct (decide (i = 0)) as [->|].
  - rewrite ld8_put_bytes_ne by lia. rewrite Z.add_0_r in *.
    by rewrite ld8_st8_eq.
  - replace (a + i) with (a + 1 + (i - 1)) in * by lia.
    rewrite IH; [|lia|by rewrite valid_addr_st8].
    replace (Z.to_nat i) with (S (Z.to_nat (i - 1))) by lia. done.
Qed.

Lemma length_get_bytes n t a : length (get_bytes n t a) = n.
Proof. revert a; induction n; intros a; simpl; auto. Qed.

Lemma lookup_get_bytes n t a (i : nat) :
  (i < n)%nat → get_bytes n t a !! i = Some (ld8 t (a + Z.of_nat i)).
Proof.
  revert a i; induction n as [|n IH]; intros a [|i] Hi; simpl; [lia|lia| |].
  - by rewrite Z.add_0_r.
  - rewrite IH by lia. do 2 f_equal. lia.
Qed.
End little_endian_lemmas.

Lemma length_stN n (l : bytes) a v : length (stN n l a v) = length l.
Proof.
  revert l a v; induction n as [|n IH]; intros l a v; [done|]. cbn [stN].
  by rewrite IH, length_st8.
Qed.

Lemma length_put_bytes (l : bytes) a bs : length (put_bytes l a bs) = length l.
Proof.
  revert l a; induction bs as [|x bs IH]; intros l a; [done|]. cbn [put_bytes].
  by rewrite IH, length_st8.
Qed.

(** Two stores with the same bytes everywhere. *)
Definition same_bytes {T} `{ByteStore T} (t1 t2 : T) : Prop :=
  ∀ a, ld8 t1 a = ld8 t2 a.

#[export] Instance same_bytes_equiv {T} `{ByteStore T} :
  Equivalence (same_bytes (T := T)).
Proof.
  split.
  - by intros t a.
  - intros t1 t2 E a. by symmetry.
  - intros t1 t2 t3 E1 E2 a. by rewrite E1.
Qed.

#[export] Instance ldN_proper {T} `{ByteStoreLaws T} n :
  Proper (same_bytes ==> eq ==> eq) (ldN (T := T) n).
Proof. intros t1 t2 E a b <-. apply ldN_ext. intros i _. apply E. Qed.

#[export] Hint Rewrite @length_stN @length_put_bytes @length_st8
  @length_get_bytes : orfos.

#[global] Arguments ldN : simpl never.
#[global] Arguments stN : simpl never.
#[global] Arguments ld8 : simpl never.
#[global] Arguments st8 : simpl never.
#[global] Arguments put_bytes : simpl never.
