(* ===== verification/Riscv.v ===== *)
(** * Control and status registers

    [kernel/arch/riscv.h] and [riscv_macros.h]: the registers of one hart and the
    inline functions that read and write them.  A register holds what was written
    to it.  The supervisor's status register is not here: the spin locks change
    it, and it is the member [sstatus] of [SpinMutex.Cpu].  What the processor
    does when it takes a trap and when it returns from one is stated on the
    values of the registers, after the privileged architecture. *)

From S2P Require Import Prelude.

#[local] Open Scope Z_scope.

Module Riscv.

(** ** Definitions *)

Definition MSTATUS_MPP_MASK : Z := Z.shiftl 3 11.
Definition MSTATUS_MPP_S : Z := Z.shiftl 1 11.
Definition MSTATUS_MIE : Z := Z.shiftl 1 3.
Definition MIE_MTIE : Z := Z.shiftl 1 7.
Definition SSTATUS_SIE : Z := Z.shiftl 1 1.
Definition SSTATUS_SPP : Z := Z.shiftl 1 8.
Definition SSTATUS_SPIE : Z := Z.shiftl 1 5.
Definition SIE_SEIE : Z := Z.shiftl 1 9.
Definition SIE_STIE : Z := Z.shiftl 1 5.
Definition SIE_SSIE : Z := Z.shiftl 1 1.

Inductive reg :=
  | Mhartid | Mstatus | Mepc | Mie | Medeleg | Mideleg | Mtvec | Mscratch | Mcounteren | Time
  | Pmpcfg0 | Pmpaddr0 | Sip | Sie | Sscratch | Sepc | Stvec | Satp | Scause | Stval | Sp | Tp.

#[export] Instance reg_eq_dec : EqDecision reg.
Proof. solve_decision. Defined.

Definition Regs : Type := reg → Z.

Definition update (r : reg) (x : Z) (m : Regs) : Regs := λ r', if decide (r' = r) then x else m r'.

Definition read (r : reg) : M Regs Z := gets (λ m, m r).
Definition write (r : reg) (x : Z) : M Regs unit := modify (update r x).

Definition read_mhartid : M Regs Z := read Mhartid.
Definition read_mstatus : M Regs Z := read Mstatus.
Definition write_mstatus (x : Z) : M Regs unit := write Mstatus x.
Definition write_mepc (x : Z) : M Regs unit := write Mepc x.
Definition read_mie : M Regs Z := read Mie.
Definition write_mie (x : Z) : M Regs unit := write Mie x.
Definition read_medeleg : M Regs Z := read Medeleg.
Definition write_medeleg (x : Z) : M Regs unit := write Medeleg x.
Definition read_mideleg : M Regs Z := read Mideleg.
Definition write_mideleg (x : Z) : M Regs unit := write Mideleg x.
Definition write_mtvec (x : Z) : M Regs unit := write Mtvec x.
Definition write_mscratch (x : Z) : M Regs unit := write Mscratch x.
Definition read_mcounteren : M Regs Z := read Mcounteren.
Definition write_mcounteren (x : Z) : M Regs unit := write Mcounteren x.
Definition read_time : M Regs Z := read Time.
Definition write_pmpcfg0 (x : Z) : M Regs unit := write Pmpcfg0 x.
Definition write_pmpaddr0 (x : Z) : M Regs unit := write Pmpaddr0 x.
Definition read_sip : M Regs Z := read Sip.
Definition write_sip (x : Z) : M Regs unit := write Sip x.
Definition read_sie : M Regs Z := read Sie.
Definition write_sie (x : Z) : M Regs unit := write Sie x.
Definition read_sepc : M Regs Z := read Sepc.
Definition write_sepc (x : Z) : M Regs unit := write Sepc x.
Definition read_stvec : M Regs Z := read Stvec.
Definition write_stvec (x : Z) : M Regs unit := write Stvec x.
Definition read_satp : M Regs Z := read Satp.
Definition write_satp (x : Z) : M Regs unit := write Satp x.
Definition read_scause : M Regs Z := read Scause.
Definition read_stval : M Regs Z := read Stval.
Definition read_sp : M Regs Z := read Sp.
Definition read_tp : M Regs Z := read Tp.
Definition write_tp (x : Z) : M Regs unit := write Tp x.

(** ** Traps *)

(** [x] with the bits of [mask] set, or cleared. *)
Definition set_bits (b : bool) (mask x : Z) : Z := if b then Z.lor x mask else Z.land x (Z.lnot mask).

Definition has (x mask : Z) : bool := negb (Z.land x mask =? 0).

(** The supervisor's status when a trap is taken, from supervisor mode or from
    user mode: interrupts go off, their bit and the mode are remembered. *)
Definition taken_status (supervisor : bool) (st : Z) : Z :=
  set_bits supervisor SSTATUS_SPP (set_bits false SSTATUS_SIE (set_bits (has st SSTATUS_SIE) SSTATUS_SPIE st)).

(** [sret]: the status, and whether the processor stays in supervisor mode. *)
Definition returned_status (st : Z) : Z :=
  set_bits false SSTATUS_SPP (set_bits true SSTATUS_SPIE (set_bits (has st SSTATUS_SPIE) SSTATUS_SIE st)).

(** The registers when an interrupt with this cause is taken at [pc]. *)
Definition taken_regs (pc cause : Z) (m : Regs) : Regs :=
  update Stval 0 (update Scause cause (update Sepc pc m)).

(** [mret]: where it goes, and the mode it goes to. *)
Definition mret_target (m : Regs) : Z * Z := (m Mepc, Z.shiftr (Z.land (m Mstatus) MSTATUS_MPP_MASK) 11).

(** ** Lemmas *)

Lemma update_eq r x m : update r x m r = x.
Proof. unfold update. by rewrite decide_True. Qed.

Lemma update_ne r r' x m : r' ≠ r → update r x m r' = m r'.
Proof. intros. unfold update. by rewrite decide_False. Qed.

(** Single bits. *)
Lemma testbit_set_bits b k x j : 0 <= k → 0 <= j →
  Z.testbit (set_bits b (Z.shiftl 1 k) x) j = if decide (j = k) then b else Z.testbit x j.
Proof.
  intros Hk Hj. assert (Z.testbit (Z.shiftl 1 k) j = bool_decide (j = k)) as E.
  { rewrite Z.shiftl_mul_pow2, Z.mul_1_l by done. rewrite Z.pow2_bits_eqb by done.
    destruct (Z.eqb_spec k j); case_bool_decide; congruence. }
  unfold set_bits. destruct b; rewrite ?Z.lor_spec, ?Z.land_spec, ?Z.lnot_spec, E by done;
    case_bool_decide; case_decide; try done; by rewrite ?orb_true_r, ?orb_false_r, ?andb_true_r, ?andb_false_r.
Qed.

Lemma has_testbit x k : 0 <= k → has x (Z.shiftl 1 k) = Z.testbit x k.
Proof.
  intros Hk. unfold has. rewrite Z.shiftl_mul_pow2, Z.mul_1_l by done.
  destruct (Z.testbit x k) eqn:E.
  - apply negb_true_iff, Z.eqb_neq. intros E0. assert (Z.testbit (Z.land x (2 ^ k)) k = true) as Ht.
    { by rewrite Z.land_spec, E, Z.pow2_bits_true. }
    by rewrite E0, Z.bits_0 in Ht.
  - apply negb_false_iff, Z.eqb_eq, Z.bits_inj'. intros i Hi.
    rewrite Z.land_spec, Z.bits_0, Z.pow2_bits_eqb by done.
    destruct (Z.eqb_spec k i) as [->|]; [by rewrite E|by rewrite andb_false_r].
Qed.

Lemma land_lnot_set x k : Z.land x (Z.lnot (Z.shiftl 1 k)) = set_bits false (Z.shiftl 1 k) x.
Proof. done. Qed.

Lemma lor_set x k : Z.lor x (Z.shiftl 1 k) = set_bits true (Z.shiftl 1 k) x.
Proof. done. Qed.

(** Taking a trap in supervisor mode with interrupts on, and returning. *)
Lemma returned_taken st j : has st SSTATUS_SIE = true → 0 <= j →
  Z.testbit (returned_status (taken_status true st)) j =
    if decide (j = 5) then true else if decide (j = 8) then false else Z.testbit st j.
Proof.
  intros Hs Hj. unfold returned_status, taken_status, SSTATUS_SPP, SSTATUS_SIE, SSTATUS_SPIE in *.
  rewrite has_testbit, ?testbit_set_bits, Hs by done. rewrite has_testbit in Hs by done.
  repeat case_decide; simplify_eq; try done.
Qed.

(** The status the kernel prepares for the return to a user program. *)
Lemma user_status st :
  let st' := Z.lor (Z.land (Z.land st (Z.lnot SSTATUS_SIE)) (Z.lnot SSTATUS_SPP)) SSTATUS_SPIE in
  has st' SSTATUS_SIE = false ∧ has (returned_status st') SSTATUS_SIE = true ∧ has st' SSTATUS_SPP = false.
Proof.
  unfold returned_status, SSTATUS_SPP, SSTATUS_SIE, SSTATUS_SPIE. cbv zeta.
  rewrite !land_lnot_set, lor_set.
  split_and!; rewrite ?has_testbit, ?testbit_set_bits by done; try done.
Qed.

End Riscv.
