(* ===== verification/CString.v ===== *)
(** * The C string library

    [kernel/lib/string.cpp] (and its copy [user/lib/string.cpp]) over any byte
    store: a pointer is an address of the store, a loop with a counter is a
    recursion on the number of iterations the counter allows, and a loop that
    runs until a NUL byte takes fuel.  [strncpy] and [strncmp] take two stores,
    because their callers pass pointers into two different objects. *)

From S2P Require Import Prelude.

Module CString.

(** ** Definitions *)

Section functions.
Context {T} `{ByteStore T}.

(** [k] iterations of [*d++ = *s++]. *)
Fixpoint copy_up (k : nat) (t : T) (d s : Z) : T :=
  match k with
  | O => t
  | S k' => copy_up k' (st8 t d (ld8 t s)) (d + 1) (s + 1)
  end.

(** [k] iterations of [*--d = *--s]. *)
Fixpoint copy_down (k : nat) (t : T) (d s : Z) : T :=
  match k with
  | O => t
  | S k' => copy_down k' (st8 t (d - 1) (ld8 t (s - 1))) (d - 1) (s - 1)
  end.

(** [while (--n)] runs its body [n - 1] times, and [2^64 - 1] times when
    [n = 0]: the decrement is unsigned. *)
Definition pre_decrement_count (n : Z) : nat := Z.to_nat (u64 (n - 1)).

Definition memcpy (t : T) (dest src n : Z) : T :=
  copy_up (pre_decrement_count n) t dest src.

Definition memmove (t : T) (dst src n : Z) : T :=
  if n =? 0 then t
  else if (src <? dst) && (dst <? src + n)
  then copy_down (Z.to_nat n) t (dst + n) (src + n)
  else copy_up (Z.to_nat n) t dst src.

(** [k] iterations of [*d++ = c]. *)
Fixpoint fill_up (k : nat) (t : T) (d c : Z) : T :=
  match k with
  | O => t
  | S k' => fill_up k' (st8 t d c) (d + 1) c
  end.

Definition memset (t : T) (dest ch n : Z) : T :=
  fill_up (pre_decrement_count n) t dest ch.

(** The loop of [strlen]: [ss] runs from [s] to the first NUL. *)
Fixpoint strlen_loop (fuel : nat) (t : T) (ss : Z) : option Z :=
  match fuel with
  | O => None
  | S f => if ld8 t ss =? 0 then Some ss else strlen_loop f t (ss + 1)
  end.

Definition strlen (fuel : nat) (t : T) (s : Z) : option Z :=
  ss ← strlen_loop fuel t s; Some (ss - s).

(** The second loop of [strncpy]: [while (n-- > 0) *s++ = 0]. *)
Definition strncpy_pad (k : nat) (t : T) (s : Z) : T := fill_up k t s 0.
End functions.

Section two_stores.
Context {T U} `{ByteStore T} `{ByteStore U}.

(** [strncmp] does not look at its bound [n]: the loop runs until the strings
    differ or both end. *)
Fixpoint strncmp (fuel : nat) (t : T) (s1 : Z) (u : U) (s2 : Z) (n : Z) : option Z :=
  match fuel with
  | O => None
  | S f =>
      if ld8 t s1 =? ld8 u s2 then
        if ld8 t s1 =? 0 then Some 0
        else strncmp f t (s1 + 1) u (s2 + 1) n
      else Some (ld8 t s1 - ld8 u s2)
  end.

(** The first loop copies up to and including the NUL, the second pads the
    rest of the [n] bytes. *)
Fixpoint strncpy_loop (k : nat) (t : T) (s : Z) (u : U) (p : Z) : T :=
  match k with
  | O => t
  | S k' =>
      let c := ld8 u p in
      let t' := st8 t s c in
      if c =? 0 then strncpy_pad k' t' (s + 1)
      else strncpy_loop k' t' (s + 1) u (p + 1)
  end.

Definition strncpy (t : T) (s : Z) (u : U) (p : Z) (n : Z) : T :=
  strncpy_loop (Z.to_nat n) t s u p.
End two_stores.

(** The bytes of [l], none of them NUL, followed by a NUL, are at [a]. *)
Definition cstr {T} `{ByteStore T} (t : T) (a : Z) (l : bytes) : Prop :=
  (∀ i c, l !! i = Some c → ld8 t (a + Z.of_nat i) = c ∧ c ≠ 0) ∧
  ld8 t (a + Z.of_nat (length l)) = 0.

(** ** Lemmas *)

Section lemmas.
Context {T} `{ByteStoreLaws T}.
Implicit Types (t : T) (d s a : Z) (k : nat).

Lemma ld8_copy_up_ne k t d s a :
  a < d ∨ d + Z.of_nat k <= a → ld8 (copy_up k t d s) a = ld8 t a.
Proof.
  revert t d s; induction k as [|k IH]; intros t d s Ha; [done|]. cbn [copy_up].
  rewrite IH by lia. apply ld8_st8_ne. lia.
Qed.

Lemma ld8_copy_down_ne k t d s a :
  a < d - Z.of_nat k ∨ d <= a → ld8 (copy_down k t d s) a = ld8 t a.
Proof.
  revert t d s; induction k as [|k IH]; intros t d s Ha; [done|]. cbn [copy_down].
  rewrite IH by lia. apply ld8_st8_ne. lia.
Qed.

Lemma ld8_copy_up k t d s i :
  (∀ j, 0 <= j < Z.of_nat k → valid_addr t (d + j)) →
  d <= s ∨ s + Z.of_nat k <= d → 0 <= i < Z.of_nat k →
  ld8 (copy_up k t d s) (d + i) = ld8 t (s + i).
Proof.
  revert t d s i; induction k as [|k IH]; intros t d s i Hv Hd Hi; [lia|].
  cbn [copy_up]. destruct (decide (i = 0)) as [->|].
  - rewrite ld8_copy_up_ne by lia. rewrite !Z.add_0_r.
    rewrite ld8_st8_eq by (rewrite <- (Z.add_0_r d); apply Hv; lia).
    apply Z.mod_small, ld8_byte.
  - replace (d + i) with (d + 1 + (i - 1)) by lia.
    rewrite IH; [|intros j Hj; rewrite valid_addr_st8, <- Z.add_assoc; apply Hv; lia|lia|lia].
    rewrite ld8_st8_ne by lia. f_equal. lia.
Qed.

Lemma ld8_copy_down k t d s i :
  (∀ j, 1 <= j <= Z.of_nat k → valid_addr t (d - j)) →
  s <= d → 1 <= i <= Z.of_nat k →
  ld8 (copy_down k t d s) (d - i) = ld8 t (s - i).
Proof.
  revert t d s i; induction k as [|k IH]; intros t d s i Hv Hd Hi; [lia|].
  cbn [copy_down]. destruct (decide (i = 1)) as [->|].
  - rewrite ld8_copy_down_ne by lia.
    rewrite ld8_st8_eq by (apply Hv; lia). apply Z.mod_small, ld8_byte.
  - replace (d - i) with (d - 1 - (i - 1)) by lia.
    rewrite IH; [|intros j Hj; rewrite valid_addr_st8;
      replace (d - 1 - j) with (d - (j + 1)) by lia; apply Hv; lia|lia|lia].
    rewrite ld8_st8_ne by lia. f_equal. lia.
Qed.

Lemma ld8_fill_up_ne k t d c a :
  a < d ∨ d + Z.of_nat k <= a → ld8 (fill_up k t d c) a = ld8 t a.
Proof.
  revert t d; induction k as [|k IH]; intros t d Ha; [done|]. cbn [fill_up].
  rewrite IH by lia. apply ld8_st8_ne. lia.
Qed.

Lemma ld8_fill_up_eq k t d c i :
  (∀ j, 0 <= j < Z.of_nat k → valid_addr t (d + j)) →
  0 <= i < Z.of_nat k → ld8 (fill_up k t d c) (d + i) = c mod 256.
Proof.
  revert t d i; induction k as [|k IH]; intros t d i Hv Hi; [lia|].
  cbn [fill_up]. destruct (decide (i = 0)) as [->|].
  - rewrite ld8_fill_up_ne by lia. rewrite Z.add_0_r. apply ld8_st8_eq.
    rewrite <- (Z.add_0_r d). apply Hv. lia.
  - replace (d + i) with (d + 1 + (i - 1)) by lia.
    apply IH; [|lia]. intros j Hj. rewrite valid_addr_st8, <- Z.add_assoc.
    apply Hv. lia.
Qed.

Lemma valid_addr_fill_up k t d c a : valid_addr (fill_up k t d c) a ↔ valid_addr t a.
Proof.
  revert t d; induction k as [|k IH]; intros t d; [done|]. cbn [fill_up].
  rewrite IH. apply valid_addr_st8.
Qed.

Lemma pre_decrement_count_pos n :
  1 <= n < 2 ^ 64 → Z.of_nat (pre_decrement_count n) = n - 1.
Proof.
  intros Hn. unfold pre_decrement_count. rewrite wrap_small by lia. lia.
Qed.

(** [memset] leaves the bytes outside [dest .. dest + n - 2] alone. *)
Lemma ld8_memset_ne t dest ch n a :
  1 <= n < 2 ^ 64 → a < dest ∨ dest + n - 1 <= a →
  ld8 (memset t dest ch n) a = ld8 t a.
Proof.
  intros Hn Ha. unfold memset. apply ld8_fill_up_ne.
  rewrite pre_decrement_count_pos by done. lia.
Qed.

Lemma ld8_memset_eq t dest ch n i :
  1 <= n < 2 ^ 64 → (∀ j, 0 <= j < n - 1 → valid_addr t (dest + j)) →
  0 <= i < n - 1 → ld8 (memset t dest ch n) (dest + i) = ch mod 256.
Proof.
  intros Hn Hv Hi. unfold memset.
  apply ld8_fill_up_eq; rewrite pre_decrement_count_pos by done; [done|lia].
Qed.
End lemmas.

(** What [memmove] does to each byte. *)
Lemma memmove_spec {T} `{ByteStoreLaws T} (t : T) (dst src n : Z)
    (Hn : 0 <= n)
    (Hvalid : ∀ j, 0 <= j < n → valid_addr t (dst + j)) :
  (∀ i, 0 <= i < n → ld8 (memmove t dst src n) (dst + i) = ld8 t (src + i)) ∧
  (∀ a, a < dst ∨ dst + n <= a → ld8 (memmove t dst src n) a = ld8 t a).
Proof.
  unfold memmove. destruct (Z.eqb_spec n 0) as [->|Hn0]; [split; [lia|done]|].
  destruct ((src <? dst) && (dst <? src + n)) eqn:E.
  - apply andb_true_iff in E as [?%Z.ltb_lt ?%Z.ltb_lt]. split.
    + intros i Hi. replace (dst + i) with (dst + n - (n - i)) by lia.
      rewrite ld8_copy_down; [f_equal; lia| |lia|lia].
      intros j Hj. replace (dst + n - j) with (dst + (n - j)) by lia. apply Hvalid. lia.
    + intros a Ha. apply ld8_copy_down_ne. lia.
  - apply andb_false_iff in E. rewrite !Z.ltb_ge in E. split.
    + intros i Hi. apply ld8_copy_up; [|lia|lia]. intros j Hj. apply Hvalid. lia.
    + intros a Ha. apply ld8_copy_up_ne. lia.
Qed.

(** [memmove] copies exactly [n] bytes, reading the source as it was before
    the call, for every pair of addresses and every overlap of the two ranges,
    and changes no byte outside the destination. *)
Theorem memmove_copies {T} `{ByteStoreLaws T} (t : T) (dst src n : Z)
    (Hn : 0 <= n)
    (Hvalid : ∀ j, 0 <= j < n → valid_addr t (dst + j)) :
  (∀ i, 0 <= i < n → ld8 (memmove t dst src n) (dst + i) = ld8 t (src + i)) ∧
  (∀ a, a < dst ∨ dst + n <= a → ld8 (memmove t dst src n) a = ld8 t a).
Proof. by apply memmove_spec. Qed.

Lemma memmove_copies_witness :
  let m := put_bytes (∅ : pmem) 100 [1; 2; 3; 4; 5] in
  get_bytes 6 (memmove m 101 100 5) 100 = [1; 1; 2; 3; 4; 5] ∧
  ld8 (memmove m 101 100 5) (101 + 4) = ld8 m (100 + 4).
Proof.
  split; [vm_compute; reflexivity|].
  destruct (memmove_copies (put_bytes (∅ : pmem) 100 [1; 2; 3; 4; 5]) 101 100 5)
    as [Hcopy _]; [lia|intros; exact I|].
  apply Hcopy. lia.
Defined.

(** [memset] stops one byte short: a call with count [n >= 1] fills
    [n - 1] bytes and leaves byte [n - 1] of the object as it was. *)
Theorem memset_short {T} `{ByteStoreLaws T} (t : T) (dest ch n : Z)
    (Hn : 1 <= n < 2 ^ 64)
    (Hvalid : ∀ j, 0 <= j < n → valid_addr t (dest + j)) :
  (∀ i, 0 <= i < n - 1 → ld8 (memset t dest ch n) (dest + i) = ch mod 256) ∧
  ld8 (memset t dest ch n) (dest + n - 1) = ld8 t (dest + n - 1) ∧
  (∀ a, a < dest ∨ dest + n <= a → ld8 (memset t dest ch n) a = ld8 t a).
Proof.
  split_and!.
  - intros i Hi. apply ld8_memset_eq; [done| |done].
    intros j Hj. apply Hvalid. lia.
  - apply ld8_memset_ne; lia.
  - intros a Ha. apply ld8_memset_ne; lia.
Qed.

Lemma memset_short_witness :
  memset [7; 7; 7; 7] 0 0 4 = [0; 0; 0; 7] ∧
  ld8 (memset [7; 7; 7; 7] 0 0 4) (0 + 4 - 1) = ld8 [7; 7; 7; 7] (0 + 4 - 1).
Proof.
  split; [vm_compute; reflexivity|].
  destruct (memset_short [7; 7; 7; 7] 0 0 4) as (_ & Hlast & _); [lia| |exact Hlast].
  intros j Hj. unfold valid_addr; simpl. lia.
Defined.

(** *** NUL-terminated strings *)

Section one_string.
Context {T} `{ByteStoreLaws T}.
Implicit Types (t : T) (l : bytes).

Lemma cstr_nil t a : cstr t a [] ↔ ld8 t a = 0.
Proof.
  unfold cstr. simpl. rewrite Z.add_0_r. split; [by intros [_ ?]|].
  intros ?. split; [|done]. intros i c ?. by rewrite lookup_nil in *.
Qed.

Lemma cstr_cons t a c l :
  cstr t a (c :: l) ↔ ld8 t a = c ∧ c ≠ 0 ∧ cstr t (a + 1) l.
Proof.
  unfold cstr. cbn [length]. split.
  - intros [Hl He]. destruct (Hl 0%nat c eq_refl) as [Hc ?].
    rewrite Z.add_0_r in Hc. split_and!; [done|done| |].
    + intros i c' Hi. destruct (Hl (S i) c' Hi) as [<- ?]. split; [f_equal; lia|done].
    + rewrite <- He. f_equal. lia.
  - intros (Hc & ? & Hl & He). split.
    + intros [|i] c' Hi; simpl in Hi.
      * injection Hi as <-. by rewrite Z.add_0_r.
      * destruct (Hl i c' Hi) as [<- ?]. split; [f_equal; lia|done].
    + rewrite <- He. f_equal. lia.
Qed.

Lemma strlen_loop_cstr fuel t a l :
  cstr t a l → (length l < fuel)%nat →
  strlen_loop fuel t a = Some (a + Z.of_nat (length l)).
Proof.
  revert fuel a; induction l as [|c l IH]; intros [|fuel] a Hs Hf;
    simpl in Hf; try lia; cbn [strlen_loop].
  - apply cstr_nil in Hs as ->. simpl. f_equal. lia.
  - apply cstr_cons in Hs as (-> & Hc & Hs). rewrite (proj2 (Z.eqb_neq c 0) Hc).
    rewrite IH by (done || lia). simpl. f_equal. lia.
Qed.

End one_string.

Section two_strings.
Context {T U} `{ByteStoreLaws T} `{ByteStoreLaws U}.
Implicit Types (t : T) (u : U) (l : bytes).

Lemma strncmp_cstr fuel t a l u b l' n :
  cstr t a l → cstr u b l' → (length l < fuel)%nat →
  ∃ r, strncmp fuel t a u b n = Some r ∧ (r = 0 ↔ l = l').
Proof.
  revert fuel a b l'; induction l as [|c l IH]; intros [|fuel] a b l' Hl Hl' Hf;
    simpl in Hf; try lia; cbn [strncmp].
  - apply cstr_nil in Hl as ->. destruct l' as [|c' l'].
    + apply cstr_nil in Hl' as ->. by exists 0.
    + apply cstr_cons in Hl' as (-> & Hc' & _).
      rewrite (proj2 (Z.eqb_neq 0 c')) by done. exists (0 - c'). split; [done|].
      split; [lia|done].
  - apply cstr_cons in Hl as (-> & Hc & Hl). destruct l' as [|c' l'].
    + apply cstr_nil in Hl' as ->. rewrite (proj2 (Z.eqb_neq c 0) Hc).
      exists (c - 0). split; [done|]. split; [lia|done].
    + apply cstr_cons in Hl' as (-> & Hc' & Hl').
      destruct (Z.eqb_spec c c') as [<-|Hne].
      * rewrite (proj2 (Z.eqb_neq c 0) Hc).
        destruct (IH fuel (a + 1) (b + 1) l' Hl Hl' ltac:(lia)) as (r & -> & Hr).
        exists r. split; [done|]. rewrite Hr. split; [by intros ->|by intros [= ->]].
      * exists (c - c'). split; [done|]. split; [lia|naive_solver].
Qed.

Lemma ld8_strncpy_loop_ne k t s u p a :
  a < s ∨ s + Z.of_nat k <= a → ld8 (strncpy_loop k t s u p) a = ld8 t a.
Proof.
  revert t s p; induction k as [|k IH]; intros t s p Ha; [done|].
  cbn [strncpy_loop]. destruct (ld8 u p =? 0).
  - unfold strncpy_pad. rewrite ld8_fill_up_ne by lia. apply ld8_st8_ne. lia.
  - rewrite IH by lia. apply ld8_st8_ne. lia.
Qed.

Lemma ld8_strncpy_loop k t s u p l i :
  cstr u p l → (∀ j, 0 <= j < Z.of_nat k → valid_addr t (s + j)) →
  0 <= i < Z.of_nat k →
  ld8 (strncpy_loop k t s u p) (s + i) = default 0 (l !! Z.to_nat i).
Proof.
  revert t s p l i; induction k as [|k IH]; intros t s p l i Hl Hv Hi; [lia|].
  cbn [strncpy_loop]. destruct l as [|c l].
  - apply cstr_nil in Hl as ->. simpl. unfold strncpy_pad.
    destruct (decide (i = 0)) as [->|].
    + rewrite ld8_fill_up_ne by lia. rewrite Z.add_0_r, ld8_st8_eq; [done|].
      rewrite <- (Z.add_0_r s). apply Hv. lia.
    + replace (s + i) with (s + 1 + (i - 1)) by lia.
      apply ld8_fill_up_eq; [|lia]. intros j Hj.
      rewrite valid_addr_st8, <- Z.add_assoc. apply Hv. lia.
  - apply cstr_cons in Hl as (Hc & Hc0 & Hl). rewrite Hc.
    rewrite (proj2 (Z.eqb_neq c 0) Hc0). destruct (decide (i = 0)) as [->|].
    + rewrite ld8_strncpy_loop_ne by lia. rewrite Z.add_0_r, ld8_st8_eq.
      * simpl. apply Z.mod_small. rewrite <- Hc. apply ld8_byte.
      * rewrite <- (Z.add_0_r s). apply Hv. lia.
    + replace (s + i) with (s + 1 + (i - 1)) by lia.
      rewrite (IH _ _ _ l); [| |intros j Hj; rewrite valid_addr_st8, <- Z.add_assoc; apply Hv; lia|lia].
      * replace (Z.to_nat i) with (S (Z.to_nat (i - 1))) by lia. done.
      * done.
Qed.
End two_strings.

(** On two NUL-terminated strings, and whatever bound [n] is passed,
    [strncmp] returns, and returns zero exactly when the strings are equal: the
    bound is not consulted. *)
Theorem strncmp_decides_equality {T U} `{ByteStoreLaws T} `{ByteStoreLaws U}
    (fuel : nat) (t : T) (s1 : Z) (l1 : bytes) (u : U) (s2 : Z) (l2 : bytes) (n : Z)
    (Hs1 : cstr t s1 l1) (Hs2 : cstr u s2 l2) (Hfuel : (length l1 < fuel)%nat) :
  ∃ r, strncmp fuel t s1 u s2 n = Some r ∧ (r = 0 ↔ l1 = l2).
Proof. by apply strncmp_cstr. Qed.

Lemma strncmp_decides_equality_witness :
  ∃ r, strncmp 10 [115; 104; 0] 0 [115; 104; 97; 0] 0 2 = Some r ∧
       (r = 0 ↔ [115; 104] = [115; 104; 97]).
Proof.
  apply (strncmp_decides_equality 10 [115; 104; 0] 0 [115; 104] [115; 104; 97; 0] 0
           [115; 104; 97] 2); [| |simpl; lia];
    repeat (apply cstr_cons; split_and!; [reflexivity|lia|]);
    apply cstr_nil; reflexivity.
Defined.

(** [strncpy] writes exactly [n] bytes: the source string cut at [n] bytes,
    padded with NULs.  When the source is shorter than [n], the destination is
    the same string. *)
Theorem strncpy_roundtrip {T U} `{ByteStoreLaws T} `{ByteStoreLaws U}
    (t : T) (s : Z) (u : U) (p : Z) (l : bytes) (n : Z)
    (Hl : cstr u p l) (Hn : 0 <= n)
    (Hvalid : ∀ j, 0 <= j < n → valid_addr t (s + j)) :
  (∀ i, 0 <= i < n → ld8 (strncpy t s u p n) (s + i) = default 0 (l !! Z.to_nat i)) ∧
  (∀ a, a < s ∨ s + n <= a → ld8 (strncpy t s u p n) a = ld8 t a) ∧
  (Z.of_nat (length l) < n → cstr (strncpy t s u p n) s l).
Proof.
  assert (∀ i, 0 <= i < n →
    ld8 (strncpy t s u p n) (s + i) = default 0 (l !! Z.to_nat i)) as Hin.
  { intros i Hi. apply ld8_strncpy_loop; [done| |lia]. intros j Hj. apply Hvalid. lia. }
  split_and!; [done| |].
  - intros a Ha. apply ld8_strncpy_loop_ne. lia.
  - intros Hlen. split.
    + intros i c Hi. pose proof (lookup_lt_Some _ _ _ Hi).
      rewrite Hin by lia. rewrite Nat2Z.id, Hi. split; [done|].
      by destruct Hl as [Hl _]; destruct (Hl i c Hi).
    + rewrite Hin by lia. rewrite Nat2Z.id. by rewrite lookup_ge_None_2 by lia.
Qed.

Lemma strncpy_roundtrip_witness :
  strncpy [9; 9; 9; 9; 9] 0 [115; 104; 0] 0 4 = [115; 104; 0; 0; 9] ∧
  cstr (strncpy [9; 9; 9; 9; 9] 0 [115; 104; 0] 0 4) 0 [115; 104].
Proof.
  split; [vm_compute; reflexivity|].
  destruct (strncpy_roundtrip [9; 9; 9; 9; 9] 0 [115; 104; 0] 0 [115; 104] 4)
    as (_ & _ & Hc).
  - repeat (apply cstr_cons; split_and!; [reflexivity|lia|]).
    apply cstr_nil; reflexivity.
  - lia.
  - intros j Hj. unfold valid_addr; simpl. lia.
  - apply Hc. simpl. lia.
Defined.

#[global] Arguments memset : simpl never.
#[global] Arguments memcpy : simpl never.
#[global] Arguments memmove : simpl never.
#[global] Arguments strncpy : simpl never.

End CString.
