(* ===== verification/HashMap.v ===== *)
(** * The chained hash table

    [kernel/lib/hash_map.h].  A [Node*] is the
    suffix of its bucket's chain that starts at the node, the null pointer is
    the empty suffix, and following [next] takes the tail: a node is reachable
    from one bucket only, so the suffix determines everything the code can do
    through the pointer. *)

From S2P Require Import Prelude.

Module HashMap.

(** ** Definitions *)

(** [struct Node]: the pair [kv]; its [next] pointer is the rest of the chain. *)
Record Node {K V : Type} := mkNode { kv_first : K; kv_second : V }.
Arguments Node : clear implicits.
Arguments mkNode {K V} _ _.

(** [class HashMap]: [2^capacity] buckets. *)
Record HashMap {K V : Type} := mkHashMap {
  capacity : Z;
  capacityMask : Z;
  nodes : list (list (Node K V));
}.
Arguments HashMap : clear implicits.
Arguments mkHashMap {K V} _ _ _.

Section operations.
Context {K V : Type} `{EqDecision K}.
(** [std::hash<Key>] and the value-initialised [Value{}]. *)
Variable makeHash : K → Z.
Variable dflt : V.
Implicit Types (h : HashMap K V) (k : K) (v : V).

Abbreviation chain := (list (Node K V)).

(** [for (i = 0; i < capacity; ++i) capacityMask |= 1 << i], where [1 << i] is
    an [int] that is then converted to [size_t]. *)
Fixpoint mask_loop (n : nat) (i mask : Z) : Z :=
  match n with
  | O => mask
  | S n' => mask_loop n' (i + 1) (Z.lor mask (u64 (s32 (Z.shiftl 1 i))))
  end.

(** The constructor [HashMap(size_t capacity)]. *)
Definition make (cap : Z) : HashMap K V :=
  mkHashMap cap (mask_loop (Z.to_nat cap) 0 0)
    (replicate (Z.to_nat (Z.shiftl 1 cap)) []).

Definition index h k : nat := Z.to_nat (Z.land (makeHash k) (capacityMask h)).

(** [nodes[index]]. *)
Definition bucket h k : chain := default [] (nodes h !! index h k).

Definition set_bucket h k (c : chain) : HashMap K V :=
  mkHashMap (capacity h) (capacityMask h) (<[index h k := c]> (nodes h)).

(** The search loop of [operator[]] and [erase]: the pair of pointers
    [(prev, node)] when it stops. *)
Fixpoint walk k (prev node : chain) : chain * chain :=
  match node with
  | [] => (prev, [])
  | n :: next => if decide (kv_first n = k) then (prev, node) else walk k node next
  end.

(** [operator[]]: the value the returned reference denotes, and the table.  A
    new node is put at the head of the bucket with [prev] as its [next]. *)
Definition operator_index h k : V * HashMap K V :=
  match walk k [] (bucket h k) with
  | (_, n :: _) => (kv_second n, h)
  | (prev, []) => (dflt, set_bucket h k (mkNode k dflt :: prev))
  end.

(** Write through the reference [operator[]] returned for [k]. *)
Fixpoint chain_modify k (f : V → V) (c : chain) : chain :=
  match c with
  | [] => []
  | n :: next =>
      if decide (kv_first n = k) then mkNode (kv_first n) (f (kv_second n)) :: next
      else n :: chain_modify k f next
  end.

Definition modify_ref h k (f : V → V) : HashMap K V :=
  set_bucket h k (chain_modify k f (bucket h k)).

(** [map[key] = value]. *)
Definition assign h k v : HashMap K V :=
  modify_ref (snd (operator_index h k)) k (λ _, v).

(** Unlink the node of [k]: [prev->next = node->next], or the bucket's head
    becomes [node->next] when there is no [prev]. *)
Fixpoint unlink k (c : chain) : chain :=
  match c with
  | [] => []
  | n :: next => if decide (kv_first n = k) then next else n :: unlink k next
  end.

Definition erase h k : HashMap K V := set_bucket h k (unlink k (bucket h k)).

Definition contains h k : bool :=
  match snd (walk k [] (bucket h k)) with [] => false | _ => true end.

(** [size()] counts the buckets that are not empty. *)
Definition size h : Z :=
  Z.of_nat (length (filter (λ c : chain, c ≠ []) (nodes h))).

Definition empty h : bool := forallb (λ c : chain, match c with [] => true | _ => false end) (nodes h).

(** [Iterator]: the bucket number and the node pointer. *)
Record Iterator := mkIterator { vecIndex : Z; elem : chain }.

Definition begin_iter h : Iterator := mkIterator 0 (default [] (nodes h !! 0%nat)).

Definition end_iter h : Iterator := mkIterator (Z.of_nat (length (nodes h))) [].

(** [Iterator::operator++]. *)
Definition iter_next h (it : Iterator) : result Iterator :=
  match elem it with
  | [] => Err NullDeref
  | _ :: (_ :: _) as next => Ok (mkIterator (vecIndex it) (tail (elem it)))
  | [_] =>
      if vecIndex it <? u64 (Z.of_nat (length (nodes h)) - 1)
      then Ok (mkIterator (vecIndex it + 1)
                 (default [] (nodes h !! Z.to_nat (vecIndex it + 1))))
      else Ok it
  end.

(** [Iterator::operator*] and [operator->]. *)
Definition iter_deref (it : Iterator) : result (Node K V) :=
  match elem it with [] => Err NullDeref | n :: _ => Ok n end.

(** [Iterator::operator++(int)]: its result, and the iterator afterwards. *)
Definition iter_post h (it : Iterator) : result (Iterator * Iterator) :=
  match iter_next h it with Ok it' => Ok (it, it') | Err e => Err e end.

(** [Iterator::operator==] and [!=], of iterators of one table: within one bucket
    two node pointers are equal when the same number of nodes follows. *)
Definition iter_eq (it it' : Iterator) : bool :=
  if negb (vecIndex it =? vecIndex it') then false
  else if negb (Nat.eqb (length (elem it)) (length (elem it'))) then false
  else true.

Definition iter_ne (it it' : Iterator) : bool := negb (iter_eq it it').

(** [cbegin] and [cend], which [begin] and [end] of a constant table call. *)
Definition cend_iter h : Iterator := mkIterator (Z.of_nat (length (nodes h))) [].

Definition cbegin_iter h : Iterator :=
  match nodes h with [] => cend_iter h | c :: _ => mkIterator 0 c end.

(** ** Abstraction: the value stored for a key *)

Definition chain_lookup k (c : chain) : option V :=
  kv_second <$> head (snd (walk k [] c)).

Definition lookup h k : option V := chain_lookup k (bucket h k).

(** The key an insertion of [k] drops: the head of a bucket of two nodes. *)
Definition evicted h k : option K :=
  match bucket h k, lookup h k with
  | n :: _ :: _, None => Some (kv_first n)
  | _, _ => None
  end.

(** The state invariant of the table. *)
Record inv h : Prop := {
  inv_capacity : 0 <= capacity h <= 31;
  inv_mask : capacityMask h = 2 ^ capacity h - 1;
  inv_length : Z.of_nat (length (nodes h)) = 2 ^ capacity h;
  inv_hash : ∀ i c n, nodes h !! i = Some c → n ∈ c → index h (kv_first n) = i;
  inv_nodup : ∀ i c, nodes h !! i = Some c → NoDup (kv_first <$> c);
  inv_short : ∀ i c, nodes h !! i = Some c → (length c <= 2)%nat;
}.

(** Sequences of table operations. *)
Inductive op :=
  | OpIndex (k : K)
  | OpAssign (k : K) (v : V)
  | OpErase (k : K).

Definition op_key (o : op) : K :=
  match o with OpIndex k | OpAssign k _ | OpErase k => k end.

Definition step h (o : op) : HashMap K V :=
  match o with
  | OpIndex k => snd (operator_index h k)
  | OpAssign k v => assign h k v
  | OpErase k => erase h k
  end.

Definition run h (os : list op) : HashMap K V := fold_left step os h.
End operations.

(** ** Lemmas *)

Section lemmas.
Context {K V : Type} `{EqDecision K}.
Variable makeHash : K → Z.
Variable dflt : V.
Implicit Types (h : HashMap K V) (k : K) (v : V).

Abbreviation chain := (list (Node K V)).
Abbreviation index := (index makeHash).
Abbreviation bucket := (bucket makeHash).
Abbreviation set_bucket := (set_bucket makeHash).
Abbreviation lookup := (lookup makeHash).
Abbreviation inv := (inv makeHash).

Lemma mask_loop_spec n i :
  0 <= i → i + Z.of_nat n <= 31 → mask_loop n i (2 ^ i - 1) = 2 ^ (i + Z.of_nat n) - 1.
Proof.
  revert i; induction n as [|n IH]; intros i Hi Hn; cbn [mask_loop].
  { do 2 f_equal. lia. }
  assert (0 < 2 ^ i) by (apply Z.pow_pos_nonneg; lia).
  assert (2 ^ i <= 2 ^ 30) by (apply Z.pow_le_mono_r; lia).
  rewrite Z.shiftl_mul_pow2, Z.mul_1_l by lia.
  rewrite swrap_small, wrap_small by (change (2 ^ (32 - 1)) with (2 * 2 ^ 30); lia).
  replace (Z.lor (2 ^ i - 1) (2 ^ i)) with (2 ^ (i + 1) - 1).
  { rewrite IH by lia. do 2 f_equal. lia. }
  rewrite !ones_pow2. apply Z.bits_inj'. intros j Hj.
  rewrite Z.lor_spec, !Z.testbit_ones_nonneg, Z.pow2_bits_eqb by lia. bool_cases.
Qed.

Lemma index_lt h k : inv h → (index h k < length (nodes h))%nat.
Proof.
  intros Hi. unfold index. rewrite (inv_mask _ _ Hi).
  pose proof (inv_capacity _ _ Hi). pose proof (inv_length _ _ Hi).
  rewrite ones_pow2, Z.land_ones by lia.
  assert (0 < 2 ^ capacity h) by (apply Z.pow_pos_nonneg; lia).
  pose proof (Z.mod_pos_bound (makeHash k) (2 ^ capacity h)). lia.
Qed.

Lemma snd_walk k prev prev' (c : chain) : snd (walk k prev c) = snd (walk k prev' c).
Proof.
  revert prev prev'; induction c as [|n c IH]; intros prev prev'; simpl; [done|].
  by case_decide.
Qed.

Lemma chain_lookup_nil k : chain_lookup k ([] : chain) = None.
Proof. done. Qed.

Lemma chain_lookup_cons k n (c : chain) :
  chain_lookup k (n :: c) =
  if decide (kv_first n = k) then Some (kv_second n) else chain_lookup k c.
Proof.
  unfold chain_lookup. simpl. case_decide; [done|].
  by rewrite (snd_walk k (n :: c) []).
Qed.

Lemma chain_lookup_None k (c : chain) :
  chain_lookup k c = None ↔ k ∉ kv_first <$> c.
Proof.
  induction c as [|n c IH]; [split; [intros _; apply not_elem_of_nil|done]|].
  rewrite chain_lookup_cons, fmap_cons, not_elem_of_cons, <- IH.
  case_decide as Hd; split; [done|by intros [[] _]|by intros|by intros [_ ?]].
Qed.

Lemma walk_absent k prev (c : chain) :
  chain_lookup k c = None →
  walk k prev c = (match last c with Some n => [n] | None => prev end, []).
Proof.
  revert prev; induction c as [|n c IH]; intros prev; [done|].
  rewrite chain_lookup_cons. simpl. case_decide; [done|]. intros Hc.
  rewrite IH by done. rewrite last_cons. destruct (last c) eqn:L; [done|].
  by apply last_None in L as ->.
Qed.

Lemma walk_present k prev (c : chain) v :
  chain_lookup k c = Some v →
  ∃ prev' n next, walk k prev c = (prev', n :: next) ∧ kv_second n = v.
Proof.
  revert prev; induction c as [|n c IH]; intros prev; [done|].
  rewrite chain_lookup_cons. simpl. case_decide; [naive_solver|]. apply IH.
Qed.

Lemma contains_lookup h k : contains makeHash h k = bool_decide (is_Some (lookup h k)).
Proof.
  unfold contains, lookup, chain_lookup.
  by destruct (snd (walk k [] (bucket h k))) as [|n c].
Qed.

Lemma chain_lookup_modify k f (c : chain) k' :
  chain_lookup k' (chain_modify k f c) =
  if decide (k' = k) then f <$> chain_lookup k c else chain_lookup k' c.
Proof.
  induction c as [|n c IH]; simpl.
  { by case_decide. }
  destruct (decide (kv_first n = k)) as [<-|Hne]; rewrite !chain_lookup_cons; simpl.
  - repeat case_decide; simpl in *; congruence.
  - rewrite IH. repeat case_decide; simpl in *; congruence.
Qed.

Lemma chain_lookup_unlink k (c : chain) k' :
  NoDup (kv_first <$> c) →
  chain_lookup k' (unlink k c) = if decide (k' = k) then None else chain_lookup k' c.
Proof.
  induction c as [|n c IH]; simpl.
  { by case_decide. }
  rewrite NoDup_cons. intros [Hn Hc]. specialize (IH Hc).
  destruct (decide (kv_first n = k)) as [<-|Hne]; rewrite ?chain_lookup_cons.
  - destruct (decide (k' = kv_first n)) as [->|]; [by apply chain_lookup_None|].
    by rewrite decide_False by congruence.
  - rewrite IH. repeat case_decide; congruence.
Qed.

Lemma keys_chain_modify k f (c : chain) :
  kv_first <$> chain_modify k f c = kv_first <$> c.
Proof.
  induction c as [|n c IH]; simpl; [done|]. case_decide; csimpl; [done|by rewrite IH].
Qed.

Lemma sublist_unlink k (c : chain) : unlink k c `sublist_of` c.
Proof.
  induction c as [|n c IH]; simpl; [done|]. case_decide.
  - by apply sublist_cons.
  - by apply sublist_skip.
Qed.

Lemma lookup_set_bucket h k c k' : inv h →
  lookup (set_bucket h k c) k' =
  if decide (index h k' = index h k) then chain_lookup k' c else lookup h k'.
Proof.
  intros Hi. unfold lookup, bucket, set_bucket, index. simpl.
  pose proof (index_lt h k Hi) as Hlt. unfold index in Hlt.
  case_decide as Hd.
  - rewrite Hd, list_lookup_insert_eq by done. done.
  - by rewrite list_lookup_insert_ne.
Qed.

Lemma bucket_in h k : inv h → nodes h !! index h k = Some (bucket h k).
Proof.
  intros Hi. unfold bucket.
  destruct (lookup_lt_is_Some_2 (nodes h) (index h k) (index_lt h k Hi)) as [c Hc].
  by rewrite Hc.
Qed.

Lemma inv_set_bucket h k c : inv h →
  Forall (λ n, index h (kv_first n) = index h k) c →
  NoDup (kv_first <$> c) → (length c <= 2)%nat → inv (set_bucket h k c).
Proof.
  intros Hi Hc Hnd Hlen. pose proof (index_lt h k Hi) as Hlt.
  assert (∀ i c', <[index h k := c]> (nodes h) !! i = Some c' →
            (i = index h k ∧ c' = c) ∨ nodes h !! i = Some c') as Hlook.
  { intros i c'. destruct (decide (i = index h k)) as [->|].
    - rewrite list_lookup_insert_eq by done. naive_solver.
    - rewrite list_lookup_insert_ne by done. naive_solver. }
  split; simpl.
  - apply (inv_capacity _ _ Hi).
  - apply (inv_mask _ _ Hi).
  - rewrite length_insert. apply (inv_length _ _ Hi).
  - intros i c' n [[-> ->]|Hin]%Hlook Hn.
    + rewrite Forall_forall in Hc. by apply Hc.
    + by apply (inv_hash _ _ Hi i c').
  - intros i c' [[-> ->]|Hin]%Hlook; [done|]. by apply (inv_nodup _ _ Hi i).
  - intros i c' [[-> ->]|Hin]%Hlook; [done|]. by apply (inv_short _ _ Hi i).
Qed.

Lemma bucket_hash h k : inv h →
  Forall (λ n, index h (kv_first n) = index h k) (bucket h k).
Proof.
  intros Hi. apply Forall_forall. intros n Hn.
  by apply (inv_hash _ _ Hi _ _ n (bucket_in h k Hi)).
Qed.

Lemma inv_make cap : 0 <= cap <= 31 → inv (make cap : HashMap K V).
Proof.
  intros Hc. assert (0 < 2 ^ cap) by (apply Z.pow_pos_nonneg; lia).
  split; simpl.
  - done.
  - replace 0 with (2 ^ 0 - 1) at 2 by done. rewrite mask_loop_spec by lia.
    do 2 f_equal. lia.
  - rewrite length_replicate, Z.shiftl_mul_pow2 by lia. lia.
  - intros i c n [-> _]%lookup_replicate Hn. by apply not_elem_of_nil in Hn.
  - intros i c [-> _]%lookup_replicate. constructor.
  - intros i c [-> _]%lookup_replicate. simpl. lia.
Qed.

Lemma inv_operator_index h k : inv h → inv (snd (operator_index makeHash dflt h k)).
Proof.
  intros Hi. unfold operator_index.
  destruct (lookup h k) as [v|] eqn:E; unfold lookup in E.
  - destruct (walk_present k [] _ v E) as (p & n & c & -> & _). done.
  - rewrite (walk_absent k [] _ E). simpl.
    pose proof (bucket_hash h k Hi) as Hb. apply chain_lookup_None in E.
    apply inv_set_bucket; [done|..].
    + constructor; [done|]. destruct (last (bucket h k)) as [n|] eqn:L; [|done].
      constructor; [|done]. rewrite Forall_forall in Hb.
      apply Hb, last_Some_elem_of, L.
    + rewrite fmap_cons. apply NoDup_cons.
      destruct (last (bucket h k)) as [n|] eqn:L; simpl.
      * split; [|apply NoDup_singleton].
        intros ->%list_elem_of_singleton. apply E, list_elem_of_fmap.
        exists n. split; [done|]. by apply last_Some_elem_of.
      * split; [apply not_elem_of_nil|constructor].
    + destruct (last _); simpl; lia.
Qed.

Lemma inv_modify_ref h k f : inv h → inv (modify_ref makeHash h k f).
Proof.
  intros Hi. pose proof (bucket_in h k Hi) as Hb.
  apply inv_set_bucket; [done|..].
  - rewrite <- (Forall_fmap kv_first (λ x, index h x = index h k)).
    rewrite keys_chain_modify. apply Forall_fmap. by apply bucket_hash.
  - rewrite keys_chain_modify. by apply (inv_nodup _ _ Hi _ _ Hb).
  - rewrite <- (length_fmap kv_first), keys_chain_modify, length_fmap.
    by apply (inv_short _ _ Hi _ _ Hb).
Qed.

Lemma inv_erase h k : inv h → inv (erase makeHash h k).
Proof.
  intros Hi. pose proof (bucket_in h k Hi) as Hb.
  pose proof (sublist_unlink k (bucket h k)) as Hs.
  apply inv_set_bucket; [done|..].
  - pose proof (bucket_hash h k Hi) as Hh. rewrite Forall_forall in *.
    intros n Hn. by apply Hh, (elem_of_sublist _ _ _ Hn).
  - apply (sublist_NoDup _ (kv_first <$> bucket h k)); [|by apply fmap_sublist].
    by apply (inv_nodup _ _ Hi _ _ Hb).
  - apply sublist_length in Hs. pose proof (inv_short _ _ Hi _ _ Hb). lia.
Qed.

Lemma inv_step h o : inv h → inv (step makeHash dflt h o).
Proof.
  destruct o; simpl; auto using inv_operator_index, inv_erase.
  intros. unfold assign. auto using inv_modify_ref, inv_operator_index.
Qed.

Lemma inv_run h os : inv h → inv (run makeHash dflt h os).
Proof. revert h; induction os as [|o os IH]; intros h Hi; simpl; auto using inv_step. Qed.

Lemma lookup_make cap k : lookup (make cap : HashMap K V) k = None.
Proof.
  unfold lookup, bucket, make. simpl.
  destruct (replicate _ _ !! _) as [c|] eqn:E; [|done].
  by apply lookup_replicate in E as [-> _].
Qed.

Lemma lookup_operator_index h k k' : inv h →
  lookup (snd (operator_index makeHash dflt h k)) k' =
  if decide (k' = k) then Some (default dflt (lookup h k))
  else if decide (evicted makeHash h k = Some k') then None else lookup h k'.
Proof.
  intros Hi. unfold operator_index, evicted.
  destruct (lookup h k) as [v|] eqn:E.
  - destruct (walk_present k [] _ v E) as (p & n & c & -> & _). simpl.
    rewrite (decide_False (P := match bucket h k with [] => None | _ => _ end = _))
      by by destruct (bucket h k) as [|? [|??]].
    by case_decide as Hk; [rewrite Hk|].
  - rewrite (walk_absent k [] _ E). simpl. rewrite lookup_set_bucket by done.
    pose proof (bucket_hash h k Hi) as Hb.
    pose proof (inv_short _ _ Hi _ _ (bucket_in h k Hi)) as Hs.
    pose proof (inv_nodup _ _ Hi _ _ (bucket_in h k Hi)) as Hnd.
    assert (index h k' = index h k → lookup h k' = chain_lookup k' (bucket h k)) as Hk'.
    { intros Eq. unfold lookup, bucket. by rewrite Eq. }
    destruct (bucket h k) as [|n1 [|n2 [|]]]; simpl in Hs; try lia;
      rewrite ?Forall_cons in Hb; case_decide as Hd; rewrite ?chain_lookup_cons; simpl.
    + rewrite (Hk' Hd). repeat case_decide; congruence.
    + repeat case_decide; congruence.
    + rewrite (Hk' Hd), chain_lookup_cons. repeat case_decide; congruence.
    + repeat case_decide; congruence.
    + rewrite (Hk' Hd), !chain_lookup_cons. rewrite !fmap_cons, !NoDup_cons in Hnd.
      destruct Hnd as [Hn1 _]. rewrite not_elem_of_cons in Hn1.
      repeat case_decide; simplify_eq/=; destruct_and?; done || congruence.
    + repeat case_decide; simplify_eq/=; destruct_and?; done || congruence.
Qed.

Lemma operator_index_present h k v :
  lookup h k = Some v → operator_index makeHash dflt h k = (v, h).
Proof.
  intros E. unfold operator_index, lookup in *.
  by destruct (walk_present k [] _ v E) as (p & n & c & -> & <-).
Qed.

Lemma lookup_modify_ref h k f k' : inv h →
  lookup (modify_ref makeHash h k f) k' =
  if decide (k' = k) then f <$> lookup h k else lookup h k'.
Proof.
  intros Hi. unfold modify_ref. rewrite lookup_set_bucket by done.
  rewrite chain_lookup_modify. unfold lookup, bucket.
  repeat case_decide; congruence.
Qed.

Lemma lookup_assign h k v k' : inv h →
  lookup (assign makeHash dflt h k v) k' =
  if decide (k' = k) then Some v
  else if decide (evicted makeHash h k = Some k') then None else lookup h k'.
Proof.
  intros Hi. unfold assign. rewrite lookup_modify_ref by by apply inv_operator_index.
  rewrite !lookup_operator_index by done.
  destruct (decide (k' = k)); [|done]. by rewrite decide_True by done.
Qed.

Lemma lookup_erase h k k' : inv h →
  lookup (erase makeHash h k) k' = if decide (k' = k) then None else lookup h k'.
Proof.
  intros Hi. unfold erase. rewrite lookup_set_bucket by done.
  rewrite chain_lookup_unlink by apply (inv_nodup _ _ Hi _ _ (bucket_in h k Hi)).
  unfold lookup, bucket. repeat case_decide; congruence.
Qed.
End lemmas.

(** ** Properties *)

(** C40: Every table reached from the constructor by any sequence of
    [operator[]], assignments and [erase] keeps the invariant: [2^capacity]
    buckets under a mask of [capacity] ones, every node in the bucket its hash
    selects, no key twice, and never more than two nodes in a bucket. *)
Theorem hash_map_invariant {K V} `{EqDecision K} (makeHash : K → Z) (dflt : V)
    (cap : Z) (os : list op) (Hcap : 0 <= cap <= 31) :
  inv makeHash (run makeHash dflt (make cap) os).
Proof. by apply inv_run, inv_make. Qed.

Lemma hash_map_invariant_witness :
  inv (λ k, Z.abs k) (run (λ k, Z.abs k) 0 (make 2) [OpAssign 1 10; OpAssign 5 50; OpErase 1]).
Proof. apply (hash_map_invariant (λ k, Z.abs k) 0 2). lia. Defined.

(** [map[k] = v] stores [v] under [k] and changes the value of no other
    key, except that inserting a new key into a bucket of two nodes drops the
    bucket's first node (the new node's [next] is the last node of the chain). *)
Theorem hash_map_assign {K V} `{EqDecision K} (makeHash : K → Z) (dflt : V)
    (h : HashMap K V) (k k' : K) (v : V)
    (Hinv : inv makeHash h) :
  lookup makeHash (assign makeHash dflt h k v) k' =
  if decide (k' = k) then Some v
  else if decide (evicted makeHash h k = Some k') then None
  else lookup makeHash h k'.
Proof. by apply lookup_assign. Qed.

Lemma hash_map_assign_witness :
  let h := run (λ k, Z.abs k) 0 (make 2) [OpAssign 1 10; OpAssign 5 50] in
  lookup (λ k, Z.abs k) (assign (λ k, Z.abs k) 0 h 9 90) 5 = None ∧
  lookup (λ k, Z.abs k) (assign (λ k, Z.abs k) 0 h 9 90) 1 = Some 10.
Proof.
  intros h. split; [|vm_compute; reflexivity].
  rewrite (hash_map_assign (λ k, Z.abs k) 0 h 9 5 90); [vm_compute; reflexivity|].
  apply inv_run, inv_make. lia.
Defined.

(** *** Refinement of a finite map *)

Section refinement.
Context {K V : Type} `{Countable K}.
Variable makeHash : K → Z.
Variable dflt : V.
Hypothesis makeHash_nonneg : ∀ k, 0 <= makeHash k.

(** The table holds exactly the bindings of [m]. *)
Definition refines (h : HashMap K V) (m : gmap K V) : Prop :=
  ∀ k, lookup makeHash h k = m !! k.

(** The specification of the operations on a finite map. *)
Definition spec_step (m : gmap K V) (o : op) : gmap K V :=
  match o with
  | OpIndex k => match m !! k with Some _ => m | None => <[k := dflt]> m end
  | OpAssign k v => <[k := v]> m
  | OpErase k => delete k m
  end.

(** At most two of the keys [ks] fall into the same bucket. *)
Definition at_most_two (mask : Z) (ks : gset K) : Prop :=
  ∀ k1 k2 k3, k1 ∈ ks → k2 ∈ ks → k3 ∈ ks →
  Z.land (makeHash k1) mask = Z.land (makeHash k2) mask →
  Z.land (makeHash k1) mask = Z.land (makeHash k3) mask →
  k1 = k2 ∨ k1 = k3 ∨ k2 = k3.

Lemma refines_no_eviction h m k ks :
  inv makeHash h → refines h m → dom m ⊆ ks → k ∈ ks →
  at_most_two (capacityMask h) ks → evicted makeHash h k = None.
Proof.
  intros Hi Hr Hd Hk H2. unfold evicted. specialize (Hr k) as Hrk.
  destruct (bucket makeHash h k) as [|n1 [|n2 c]] eqn:Eb; [done|done|].
  destruct (lookup makeHash h k) eqn:El; [done|]. exfalso.
  pose proof (bucket_hash makeHash h k Hi) as Hh.
  pose proof (inv_nodup _ _ Hi _ _ (bucket_in makeHash h k Hi)) as Hnd.
  rewrite Eb in Hh, Hnd. rewrite !fmap_cons, !NoDup_cons, not_elem_of_cons in Hnd.
  rewrite !Forall_cons in Hh. destruct Hh as (Hh1 & Hh2 & _).
  destruct Hnd as [[Hne _] _].
  assert (∀ n, n = n1 ∨ n = n2 → kv_first n ≠ k ∧ kv_first n ∈ ks) as Hks.
  { intros n Hn. split.
    - intros <-. unfold lookup in El. rewrite Eb, !chain_lookup_cons in El.
      destruct Hn as [->| ->]; repeat case_decide; congruence.
    - apply Hd, elem_of_dom. rewrite <- Hr. unfold lookup.
      assert (bucket makeHash h (kv_first n) = n1 :: n2 :: c) as ->.
      { unfold bucket. destruct Hn as [->| ->]; rewrite ?Hh1, ?Hh2; by rewrite <- Eb. }
      rewrite !chain_lookup_cons. destruct Hn as [->| ->]; repeat case_decide; naive_solver. }
  unfold index in Hh1, Hh2.
  assert (∀ x, 0 <= Z.land (makeHash x) (capacityMask h)) as Hp.
  { intros x. apply Z.land_nonneg. left. apply makeHash_nonneg. }
  destruct (Hks n1) as [? ?]; [by left|]. destruct (Hks n2) as [? ?]; [by right|].
  pose proof (Hp k). pose proof (Hp (kv_first n1)). pose proof (Hp (kv_first n2)).
  destruct (H2 k (kv_first n1) (kv_first n2)) as [?|[?|?]]; try congruence; lia.
Qed.

Lemma refines_step h m o ks :
  inv makeHash h → refines h m → dom m ⊆ ks → op_key o ∈ ks →
  at_most_two (capacityMask h) ks → refines (step makeHash dflt h o) (spec_step m o).
Proof.
  intros Hi Hr Hd Hk H2 k'.
  pose proof (refines_no_eviction h m (op_key o) ks Hi Hr Hd Hk H2) as He.
  destruct o as [k|k v|k]; simpl in *.
  - rewrite lookup_operator_index, He, !Hr by done.
    destruct (m !! k) eqn:Em; simpl; repeat case_decide; simplify_map_eq; done.
  - rewrite lookup_assign, He, Hr by done.
    repeat case_decide; simplify_map_eq; done.
  - rewrite lookup_erase, Hr by done. repeat case_decide; simplify_map_eq; done.
Qed.

Lemma capacityMask_step h o : capacityMask (step makeHash dflt h o) = capacityMask h.
Proof.
  destruct o; simpl; unfold assign, modify_ref, operator_index, erase; simpl;
    try done; by destruct (walk _ _ _) as [? []].
Qed.

Lemma dom_spec_step m o ks :
  dom m ⊆ ks → op_key o ∈ ks → dom (spec_step m o) ⊆ ks.
Proof.
  destruct o as [k|k v|k]; simpl; intros.
  - destruct (m !! k); [done|]. set_solver.
  - set_solver.
  - set_solver.
Qed.

Lemma refines_run os h m ks :
  inv makeHash h → refines h m → dom m ⊆ ks → Forall (λ o, op_key o ∈ ks) os →
  at_most_two (capacityMask h) ks →
  refines (run makeHash dflt h os) (fold_left spec_step os m).
Proof.
  revert h m; induction os as [|o os IH]; intros h m Hi Hr Hd Hos H2; [done|].
  apply Forall_cons in Hos as [Ho Hos]. simpl. apply IH.
  - by apply inv_step.
  - by apply (refines_step _ _ _ ks).
  - by apply dom_spec_step.
  - done.
  - by rewrite capacityMask_step.
Qed.
End refinement.

(** C39: as long as the keys in use put at most two keys in a bucket, a table
    started by the constructor and driven by any sequence of operations holds
    exactly the bindings of the finite map driven by the same sequence. *)
Theorem hash_map_refines_gmap {K V} `{Countable K} (makeHash : K → Z) (dflt : V)
    (cap : Z) (ks : gset K) (os : list op)
    (Hhash : ∀ k, 0 <= makeHash k) (Hcap : 0 <= cap <= 31)
    (Hkeys : Forall (λ o, op_key o ∈ ks) os)
    (Htwo : at_most_two makeHash (2 ^ cap - 1) ks) :
  ∀ k, lookup makeHash (run makeHash dflt (make cap) os) k =
       fold_left (spec_step dflt) os ∅ !! k.
Proof.
  pose proof (inv_make makeHash (V := V) cap Hcap) as Hi.
  apply (refines_run makeHash dflt Hhash os (make cap) ∅ ks); [done| |set_solver|done|].
  - intros k. by rewrite lookup_make, lookup_empty.
  - by rewrite (inv_mask _ _ Hi).
Qed.

Lemma hash_map_refines_gmap_witness :
  lookup (λ k, Z.abs k) (run (λ k, Z.abs k) 0 (make 2)
    [OpAssign 1 10; OpAssign 5 50; OpErase 1; OpIndex 1]) 1 = Some 0.
Proof.
  etrans.
  - apply (hash_map_refines_gmap (λ k, Z.abs k) 0 2 {[1; 5]}).
    + apply Z.abs_nonneg.
    + lia.
    + repeat (constructor; [simpl; set_solver|]). constructor.
    + intros k1 k2 k3. rewrite !elem_of_union, !elem_of_singleton. lia.
  - vm_compute. reflexivity.
Defined.

(** [operator++] stays inside the bucket array. *)
Lemma iter_next_inside {K V} (h : HashMap K V) (it it' : Iterator) :
  0 <= vecIndex it < Z.of_nat (length (nodes h)) → Z.of_nat (length (nodes h)) < 2 ^ 64 → iter_next h it = Ok it' →
  0 <= vecIndex it' < Z.of_nat (length (nodes h)).
Proof.
  intros Hin Hsize Hnext. unfold iter_next in Hnext. destruct (elem it) as [|n [|n' c]]; [done| |].
  - rewrite wrap_small in Hnext by lia.
    destruct (Z.ltb_spec (vecIndex it) (Z.of_nat (length (nodes h)) - 1)); injection Hnext as <-; simpl; lia.
  - injection Hnext as <-. simpl. lia.
Qed.

(** Iterating over a table never arrives at [end()]: [operator++] stays
    inside the bucket array, so a [begin() .. end()] loop does not stop at the
    end of a table. *)
Theorem iterator_never_ends {K V} (h : HashMap K V) (it it' : Iterator)
    (Hin : 0 <= vecIndex it < Z.of_nat (length (nodes h)))
    (Hsize : Z.of_nat (length (nodes h)) < 2 ^ 64)
    (Hnext : iter_next h it = Ok it') :
  0 <= vecIndex it' < Z.of_nat (length (nodes h)) ∧ it' ≠ end_iter h.
Proof.
  pose proof (iter_next_inside h it it' Hin Hsize Hnext) as Hb.
  split; [done|]. intros ->. simpl in Hb. lia.
Qed.

(** The comparison is equality for iterators into the same bucket. *)
Lemma iter_eq_spec {K V} (it it' : @Iterator K V) (c pre pre' : list (Node K V)) :
  pre ++ elem it = c → pre' ++ elem it' = c → iter_eq it it' = true ↔ it = it'.
Proof.
  destruct it as [i e], it' as [i' e']. unfold iter_eq. simpl. intros E E'. split.
  - destruct (Z.eqb_spec i i') as [->|]; [simpl|done]. destruct (Nat.eqb_spec (length e) (length e')) as [El|]; [simpl|done].
    intros _. f_equal. rewrite <- E' in E. apply app_inj_2 in E as [_ E]; [done|exact El].
  - intros [= -> ->]. by rewrite Z.eqb_refl, Nat.eqb_refl.
Qed.

(** So a loop over a table, which goes on while the comparison with [end] fails,
    never stops there. *)
Lemma iterator_differs_from_end {K V} (h : HashMap K V) (it it' : Iterator)
    (Hin : 0 <= vecIndex it < Z.of_nat (length (nodes h)))
    (Hsize : Z.of_nat (length (nodes h)) < 2 ^ 64)
    (Hnext : iter_next h it = Ok it') :
  iter_ne it' (end_iter h) = true ∧ cend_iter h = end_iter h ∧ (nodes h ≠ [] → cbegin_iter h = begin_iter h).
Proof.
  pose proof (iter_next_inside h it it' Hin Hsize Hnext) as Hb.
  split; [|split; [done|]].
  - unfold iter_ne, iter_eq. simpl. by destruct (Z.eqb_spec (vecIndex it') (Z.of_nat (length (nodes h)))); [lia|].
  - intros Hn. unfold cbegin_iter, begin_iter. by destruct (nodes h).
Qed.

Lemma iterator_never_ends_witness :
  let h := run (λ k, Z.abs k) 0 (make 1) [OpAssign 0 10; OpAssign 1 20] in
  ∃ it', iter_next h (begin_iter h) = Ok it' ∧ it' ≠ end_iter h.
Proof.
  intros h. eexists. split; [vm_compute; reflexivity|].
  apply (iterator_never_ends h (begin_iter h)); vm_compute; [split; congruence|done|reflexivity].
Defined.

End HashMap.
