(* ===== verification/HashSet.v ===== *)
(** * The hash set

    [kernel/lib/hash_set.h]: a [HashMap] from each value to itself.  The first
    theorem refines it to a finite set, and the section on iterators shows what
    the iteration over a constant set visits. *)

From S2P Require Import Prelude HashMap.

Module HashSet.

(** ** Definitions *)

(** [class HashSet]. *)
Record HashSet {T : Type} := mkHashSet { container : HashMap.HashMap T T }.
Arguments HashSet : clear implicits.
Arguments mkHashSet {T} _.

Section operations.
Context {T : Type} `{EqDecision T}.
(** [std::hash<T>] and the value-initialised [T{}]. *)
Variable makeHash : T → Z.
Variable dflt : T.
Implicit Types (s : HashSet T) (value : T).

Definition make (capacity : Z) : HashSet T := mkHashSet (HashMap.make capacity).

(** [container[value] = value]. *)
Definition insert s value : HashSet T :=
  mkHashSet (HashMap.assign makeHash dflt (container s) value value).

Definition erase s value : HashSet T := mkHashSet (HashMap.erase makeHash (container s) value).

Definition contains s value : bool := HashMap.contains makeHash (container s) value.

Definition empty s : bool := HashMap.empty (container s).

Definition size s : Z := HashMap.size (container s).

(** [Iterator]: it wraps an iterator of the container. *)
Record Iterator := mkIterator { itr : @HashMap.Iterator T T }.

(** [operator*]: [itr->first]. *)
Definition deref (it : Iterator) : result T :=
  match HashMap.elem (itr it) with [] => Err NullDeref | n :: _ => Ok (HashMap.kv_first n) end.

(** [operator++]. *)
Definition next s (it : Iterator) : result Iterator :=
  match HashMap.iter_next (container s) (itr it) with Ok i => Ok (mkIterator i) | Err e => Err e end.

(** [operator++(int)]. *)
Definition post s (it : Iterator) : result (Iterator * Iterator) :=
  match next s it with Ok it' => Ok (it, it') | Err e => Err e end.

(** [operator==] and [!=]. *)
Definition iter_eq (it it' : Iterator) : bool := HashMap.iter_eq (itr it) (itr it').
Definition iter_ne (it it' : Iterator) : bool := negb (iter_eq it it').

Definition end_iter s : Iterator := mkIterator (HashMap.end_iter (container s)).

Definition begin_iter s : Iterator :=
  if empty s then end_iter s else mkIterator (HashMap.begin_iter (container s)).

(** [cend] builds its iterator from [container.begin()]; the [end] of a constant
    set is [cend]. *)
Definition cend s : Iterator := mkIterator (HashMap.begin_iter (container s)).

Definition cbegin s : Iterator :=
  if empty s then cend s else mkIterator (HashMap.begin_iter (container s)).

(** Sequences of operations. *)
Inductive op :=
  | Insert (value : T)
  | Erase (value : T).

Definition op_value (o : op) : T := match o with Insert x | Erase x => x end.

Definition step s (o : op) : HashSet T :=
  match o with Insert x => insert s x | Erase x => erase s x end.

Definition run s (os : list op) : HashSet T := fold_left step os s.
End operations.

(** ** Lemmas *)

Section lemmas.
Context {T : Type} `{EqDecision T}.
Variable makeHash : T → Z.
Variable dflt : T.
Implicit Types (s : HashSet T).

Definition map_op (o : op) : @HashMap.op T T :=
  match o with Insert x => HashMap.OpAssign x x | Erase x => HashMap.OpErase x end.

Lemma container_run s os :
  container (run makeHash dflt s os) = HashMap.run makeHash dflt (container s) (map_op <$> os).
Proof.
  unfold run, HashMap.run. revert s; induction os as [|o os IH]; intros s; [done|].
  simpl. rewrite IH. by destruct o.
Qed.

(** A table that satisfies its invariant is empty when it has no binding. *)
Lemma empty_lookup (h : HashMap.HashMap T T) : HashMap.inv makeHash h →
  (HashMap.empty h = true ↔ ∀ x, HashMap.lookup makeHash h x = None).
Proof.
  intros Hi. unfold HashMap.empty. rewrite List.forallb_forall. split.
  - intros He x. unfold HashMap.lookup.
    specialize (He _ (proj1 (list_elem_of_In _ _) (list_elem_of_lookup_2 _ _ _ (HashMap.bucket_in makeHash h x Hi)))).
    by destruct (HashMap.bucket makeHash h x).
  - intros Hn c [i Ec]%list_elem_of_In%list_elem_of_lookup. destruct c as [|n c]; [done|]. exfalso.
    pose proof (HashMap.inv_hash _ _ Hi _ _ n Ec ltac:(by left)) as Hh.
    specialize (Hn (HashMap.kv_first n)). unfold HashMap.lookup, HashMap.bucket in Hn.
    rewrite Hh, Ec in Hn. cbn in Hn. rewrite HashMap.chain_lookup_cons in Hn. by case_decide.
Qed.
End lemmas.

(** *** Iterators *)

(** The two iterators of a constant set are equal, whatever it holds: a loop
    over a constant set visits nothing. *)
Lemma constant_iteration_empty {T} (s : HashSet T) : cbegin s = cend s.
Proof. unfold cbegin. by destruct (empty s). Qed.

(** ** Properties *)

(** The specification of the operations on a finite set. *)
Definition spec_step {T} `{Countable T} (m : gset T) (o : op) : gset T :=
  match o with Insert x => {[x]} ∪ m | Erase x => m ∖ {[x]} end.

Lemma spec_step_map {T} `{Countable T} dflt os : ∀ (m : gset T) (h : gmap T T),
  (∀ x, h !! x = if decide (x ∈ m) then Some x else None) →
  ∀ x, fold_left (HashMap.spec_step dflt) (map_op <$> os) h !! x =
       if decide (x ∈ fold_left spec_step os m) then Some x else None.
Proof.
  induction os as [|o os IH]; intros m h Hm; [done|]. cbn. apply IH. intros x.
  destruct o as [y|y]; cbn; destruct (decide (y = x)) as [->|Hy]; simplify_map_eq; rewrite ?Hm;
    repeat case_decide; set_solver.
Qed.

(** As long as the values in use put at most two of them in a bucket, a set
    started by the constructor and driven by insertions and erasures contains
    exactly the elements of the finite set driven by the same sequence, and
    [empty] tells whether there are none. *)
Theorem hash_set_refines_gset {T} `{Countable T} (makeHash : T → Z) (dflt : T)
    (cap : Z) (ks : gset T) (os : list op)
    (Hhash : ∀ k, 0 <= makeHash k) (Hcap : 0 <= cap <= 31)
    (Hvalues : Forall (λ o, op_value o ∈ ks) os)
    (Htwo : HashMap.at_most_two makeHash (2 ^ cap - 1) ks) :
  let s := run makeHash dflt (make cap) os in
  let m := fold_left spec_step os ∅ in
  (∀ x, contains makeHash s x = bool_decide (x ∈ m)) ∧ (empty s = true ↔ m = ∅).
Proof.
  intros s m.
  pose proof (HashMap.inv_make makeHash (V := T) cap Hcap) as Hi.
  assert (HashMap.inv makeHash (container s)) as His.
  { unfold s. rewrite container_run. by apply HashMap.inv_run. }
  assert (∀ x, HashMap.lookup makeHash (container s) x = if decide (x ∈ m) then Some x else None) as Hl.
  { intros x. unfold s. rewrite container_run. cbn.
    unfold m. rewrite <- (spec_step_map dflt os ∅ ∅); [|intros y; by rewrite decide_False, lookup_empty by set_solver].
    apply (HashMap.refines_run makeHash dflt Hhash _ _ ∅ ks); [done| |set_solver| |].
    - intros k. by rewrite HashMap.lookup_make, lookup_empty.
    - apply Forall_fmap. eapply Forall_impl; [exact Hvalues|]. by intros [].
    - by rewrite (HashMap.inv_mask _ _ Hi). }
  split.
  - intros x. unfold contains. rewrite HashMap.contains_lookup, Hl.
    apply bool_decide_ext. case_decide; naive_solver.
  - unfold empty. rewrite (empty_lookup makeHash _ His). split.
    + intros Hn. apply set_eq. intros x. specialize (Hn x). rewrite Hl in Hn. case_decide; set_solver.
    + intros Hm x. by rewrite Hl, Hm, decide_False by set_solver.
Qed.

(** 1 and 5 share a bucket of a set of four buckets. *)
Lemma hash_set_refines_gset_witness :
  contains Z.abs (run Z.abs 0 (make 2) [Insert 1; Insert 5; Erase 1]) 5 = true ∧
  empty (run Z.abs 0 (make 2) [Insert 1; Insert 5; Erase 1]) = false.
Proof.
  destruct (hash_set_refines_gset Z.abs 0 2 {[1; 5]} [Insert 1; Insert 5; Erase 1]) as [Hc He].
  - apply Z.abs_nonneg.
  - lia.
  - repeat (constructor; [simpl; set_solver|]). constructor.
  - intros k1 k2 k3. rewrite !elem_of_union, !elem_of_singleton. lia.
  - split; [rewrite Hc; vm_compute; reflexivity|].
    apply not_true_iff_false. intros E. apply He in E. vm_compute in E. discriminate E.
Defined.

End HashSet.
