(* ===== verification/Queue.v ===== *)
(** * The linked queue

    [kernel/lib/queue.h], with the allocation functions of [kernel/lib/new.cpp]
    it depends on: [operator new] takes a node no pointer denotes yet, and
    [operator delete] does nothing, so a deleted node keeps its contents. *)

From S2P Require Import Prelude.

Module Queue.

(** ** Definitions *)

(** A [Node*]; [None] is the null pointer. *)
Abbreviation ptr := (option positive).

(** [QueueContainer::Node]. *)
Record Node {V : Type} := mkNode { next : ptr; value : V }.
Arguments Node : clear implicits.
Arguments mkNode {V} _ _.

(** [QueueContainer]: its nodes live in the kernel heap, which all queues share. *)
Record QueueContainer := mkQueue { head : ptr; tail : ptr }.

Section operations.
Context {V : Type}.
Implicit Types (h : gmap positive (Node V)) (q : QueueContainer) (v : V).

(** [new Node{...}]. *)
Definition new_node h (n : Node V) : positive * gmap positive (Node V) :=
  let p := fresh (dom h) in (p, <[p := n]> h).

(** [operator delete] has an empty body. *)
Definition delete_node h (p : positive) : gmap positive (Node V) := h.

Definition make : QueueContainer := mkQueue None None.

Definition empty q : bool :=
  match head q, tail q with None, None => true | _, _ => false end.

(** [front()]: [assert(!empty())], then [head->value]. *)
Definition front h q : result V :=
  if empty q then Err AssertFailed
  else match head q ≫= (h !!.) with
       | Some n => Ok (value n)
       | None => Err NullDeref
       end.

(** [back()]: [tail->value]. *)
Definition back h q : result V :=
  match tail q ≫= (h !!.) with
  | Some n => Ok (value n)
  | None => Err NullDeref
  end.

Definition push_back h q v : result (gmap positive (Node V) * QueueContainer) :=
  let '(p, h') := new_node h (mkNode None v) in
  match head q with
  | None => Ok (h', mkQueue (Some p) (Some p))
  | Some _ =>
      match tail q with
      | None => Err NullDeref
      | Some t =>
          match h' !! t with
          | None => Err NullDeref
          | Some n => Ok (<[t := mkNode (Some p) (value n)]> h', mkQueue (head q) (Some p))
          end
      end
  end.

(** [emplace_back], whose result type promises a reference that it does not return. *)
Definition emplace_back h q v : result (gmap positive (Node V) * QueueContainer) := push_back h q v.

Definition pop_front h q : result (gmap positive (Node V) * QueueContainer) :=
  if empty q then Err AssertFailed
  else match head q with
       | None => Err NullDeref
       | Some p =>
           match h !! p with
           | None => Err NullDeref
           | Some n =>
               let hd := next n in
               let tl := match hd with None => None | Some _ => tail q end in
               Ok (delete_node h p, mkQueue hd tl)
           end
       end.

(** The destructor: delete every node from [head] on. *)
Fixpoint destroy (fuel : nat) h (elem : ptr) : result (gmap positive (Node V) * QueueContainer) :=
  match elem with
  | None => Ok (h, make)
  | Some p =>
      match fuel with
      | O => Err NoFuel
      | S f =>
          match h !! p with
          | None => Err NullDeref
          | Some n => destroy f (delete_node h p) (next n)
          end
      end
  end.

(** ** Representation

    [repr h q ps l]: the nodes [ps], in this order, hold the values [l] of the
    queue [q] in heap [h]. *)
Record repr h q (ps : list positive) (l : list V) : Prop := {
  repr_length : length ps = length l;
  repr_nodup : NoDup ps;
  repr_head : head q = ps !! 0%nat;
  repr_tail : tail q = last ps;
  repr_node : ∀ i p v, ps !! i = Some p → l !! i = Some v →
    h !! p = Some (mkNode (ps !! S i) v);
}.

(** Queue operations and their specification on a list of values. *)
Inductive op := Push (v : V) | Pop.

Definition run_op (o : op) (s : gmap positive (Node V) * QueueContainer) :
    result (gmap positive (Node V) * QueueContainer) :=
  match o with
  | Push v => push_back (fst s) (snd s) v
  | Pop => pop_front (fst s) (snd s)
  end.

Definition spec_op (o : op) (l : list V) : option (list V) :=
  match o with
  | Push v => Some (l ++ [v])
  | Pop => match l with [] => None | _ :: l' => Some l' end
  end.

Fixpoint run (os : list op) (s : gmap positive (Node V) * QueueContainer) :
    result (gmap positive (Node V) * QueueContainer) :=
  match os with
  | [] => Ok s
  | o :: os' => match run_op o s with Ok s' => run os' s' | Err f => Err f end
  end.

Fixpoint spec_run (os : list op) (l : list V) : option (list V) :=
  match os with
  | [] => Some l
  | o :: os' => spec_op o l ≫= spec_run os'
  end.
End operations.

(** ** Lemmas *)

Section lemmas.
Context {V : Type}.
Implicit Types (h : gmap positive (Node V)) (q : QueueContainer) (v : V).

Lemma repr_make h : repr h make [] [].
Proof. split; try done. constructor. Qed.

Lemma repr_empty h q ps l : repr h q ps l → empty q = match l with [] => true | _ => false end.
Proof.
  intros [Hlen _ Hh Ht _]. unfold empty. rewrite Hh, Ht.
  destruct ps as [|p ps], l as [|v l]; simpl in *; by try lia.
Qed.

Lemma repr_values h q ps l p :
  repr h q ps l → p ∈ ps → ∃ i v, ps !! i = Some p ∧ l !! i = Some v ∧
  h !! p = Some (mkNode (ps !! S i) v).
Proof.
  intros [Hlen _ _ _ Hn] [i Hi]%list_elem_of_lookup.
  destruct (lookup_lt_is_Some_2 l i) as [v Hv].
  { rewrite <- Hlen. by apply (lookup_lt_Some _ _ _ Hi). }
  eauto 10.
Qed.

Lemma repr_dom h q ps l p : repr h q ps l → p ∈ ps → p ∈ dom h.
Proof.
  intros Hr Hp. destruct (repr_values _ _ _ _ _ Hr Hp) as (i & v & _ & _ & E).
  apply elem_of_dom. eauto.
Qed.

(** A heap that agrees on the nodes of a queue represents the same queue. *)
Lemma repr_frame h h' q ps l :
  repr h q ps l → (∀ p, p ∈ ps → h' !! p = h !! p) → repr h' q ps l.
Proof.
  intros [] Hf. split; auto. intros i p v Hp Hv. rewrite Hf; eauto.
  by apply (list_elem_of_lookup_2 _ i).
Qed.

Lemma repr_front h q ps v l : repr h q ps (v :: l) → front h q = Ok v.
Proof.
  intros Hr. unfold front. rewrite (repr_empty _ _ _ _ Hr).
  destruct Hr as [Hlen _ Hh _ Hn]. destruct ps as [|p ps]; [done|].
  rewrite Hh. simpl. by rewrite (Hn 0%nat p v eq_refl eq_refl).
Qed.

(** The nodes after the two writes of [push_back]. *)
Lemma push_nodes h ps' t p l w v :
  NoDup (ps' ++ [t]) → (∀ x, x ∈ ps' ++ [t] → x ≠ p) →
  l !! length ps' = Some w →
  (∀ i x u, (ps' ++ [t]) !! i = Some x → l !! i = Some u →
     h !! x = Some (mkNode ((ps' ++ [t]) !! S i) u)) →
  length l = S (length ps') → t ≠ p →
  ∀ i x u, ((ps' ++ [t]) ++ [p]) !! i = Some x → (l ++ [v]) !! i = Some u →
    <[t := mkNode (Some p) w]> (<[p := mkNode None v]> h) !! x =
    Some (mkNode (((ps' ++ [t]) ++ [p]) !! S i) u).
Proof.
  intros Hnd Hp Hw Hn Hlen Htp i x u Hx Hu.
  assert (length (ps' ++ [t]) = length l) as Hlen' by (rewrite length_app; simpl; lia).
  apply lookup_snoc_Some in Hx as [[Hi Hx]|[Hi ->]].
  - rewrite lookup_app_l in Hu by lia.
    destruct (decide (i = length ps')) as [->|Hne].
    + assert (x = t) as ->.
      { rewrite list_lookup_middle in Hx by done. by injection Hx. }
      rewrite lookup_insert_eq, lookup_app_r, Hlen', Hlen, Nat.sub_diag by lia.
      simpl. congruence.
    + assert (x ≠ t) as Hxt.
      { intros ->. apply Hne, (NoDup_lookup _ _ _ t Hnd Hx).
        by apply list_lookup_middle. }
      rewrite lookup_insert_ne by done.
      rewrite lookup_insert_ne by (apply not_eq_sym, Hp, (list_elem_of_lookup_2 _ i), Hx).
      rewrite (Hn i x u Hx Hu). do 2 f_equal. symmetry. apply lookup_app_l. lia.
  - rewrite lookup_insert_ne, lookup_insert_eq by done. subst i.
    rewrite lookup_app_r, Hlen', Nat.sub_diag in Hu by lia. simpl in Hu.
    injection Hu as <-. do 2 f_equal. symmetry. apply lookup_ge_None_2.
    rewrite length_app. simpl. lia.
Qed.

Lemma repr_back h q ps l v : repr h q ps (l ++ [v]) → back h q = Ok v.
Proof.
  intros [Hlen _ _ Htl Hn]. unfold back. destruct ps as [|p ps _] using rev_ind.
  { rewrite length_app in Hlen. simpl in Hlen. lia. }
  rewrite Htl, last_snoc. simpl. rewrite !length_app in Hlen. simpl in Hlen.
  rewrite (Hn (length ps) p v); [done|by apply list_lookup_middle|].
  apply list_lookup_middle. lia.
Qed.

Lemma repr_push h q ps l v : repr h q ps l →
  ∃ h' q' p, push_back h q v = Ok (h', q') ∧ p ∉ dom h ∧
    repr h' q' (ps ++ [p]) (l ++ [v]) ∧ dom h' = ({[p]} ∪ dom h) ∧
    (∀ x, x ∈ dom h → x ∉ ps → h' !! x = h !! x).
Proof.
  intros Hr. unfold push_back, new_node. set (p := fresh (dom h)).
  assert (p ∉ dom h) as Hp by apply is_fresh.
  assert (∀ x, x ∈ ps → x ≠ p) as Hps.
  { intros x Hx ->. by apply Hp, (repr_dom _ _ _ _ _ Hr). }
  destruct (last ps) as [t|] eqn:El;
    [apply last_Some in El as [ps' ->]|apply last_None in El as ->]; cycle 1.
  - pose proof (repr_length _ _ _ _ Hr) as Hlen. destruct l; [|done].
    rewrite (repr_head _ _ _ _ Hr). simpl. eexists _, _, p. split_and!; [done|done| | |].
    + split; simpl; [done|apply NoDup_singleton|done|done|].
      intros [|i] x w Hx Hw; simplify_eq/=. apply lookup_insert_eq.
    + by rewrite dom_insert_L.
    + intros x Hx _. apply lookup_insert_ne. by intros <-.
  - destruct (repr_values _ _ _ _ t Hr) as (i & w & Hi & Hw & Ht); [set_solver|].
    assert (t ≠ p) as Htp by (apply Hps; set_solver).
    assert (t ∈ dom h) as Htd by (apply (repr_dom _ _ _ _ _ Hr); set_solver).
    destruct Hr as [Hlen Hnd Hh Htl Hn]. rewrite Hh, Htl, last_snoc.
    assert ((ps' ++ [t]) !! 0%nat = hd_error (ps' ++ [t])) as -> by (by destruct ps').
    destruct (hd_error (ps' ++ [t])) as [x0|] eqn:Ex0; [|by destruct ps'].
    rewrite lookup_insert_ne, Ht by done. simpl.
    eexists _, _, p. split_and!; [done|done| | |].
    + assert (i = length ps') as ->.
      { apply (NoDup_lookup (ps' ++ [t]) _ _ t Hnd Hi). by apply list_lookup_middle. }
      rewrite length_app in Hlen; simpl in Hlen.
      split; simpl.
      * rewrite !length_app; simpl. lia.
      * apply NoDup_app. split_and!; [done| |apply NoDup_singleton].
        intros x Hx ->%list_elem_of_singleton. by apply (Hps p).
      * by destruct ps'; simpl in *.
      * by rewrite last_snoc.
      * apply push_nodes; [done|done|done|done|lia|done].
    + rewrite !dom_insert_L. clear - Htd. set_solver.
    + intros x Hx Hnx. rewrite !lookup_insert_ne; [done|set_solver|set_solver].
Qed.

Lemma repr_pop h q ps v l : repr h q ps (v :: l) →
  ∃ q' p ps', ps = p :: ps' ∧ pop_front h q = Ok (h, q') ∧ repr h q' ps' l.
Proof.
  intros Hr. unfold pop_front. rewrite (repr_empty _ _ _ _ Hr).
  destruct Hr as [Hlen Hnd Hh Ht Hn]. destruct ps as [|p ps]; [done|].
  rewrite Hh. simpl. rewrite (Hn 0%nat p v eq_refl eq_refl). simpl.
  eexists _, p, ps. split_and!; [done|done|].
  apply NoDup_cons in Hnd as [_ Hnd]. split; simpl in *; [lia|done|done| |].
  - rewrite Ht, last_cons. destruct (ps !! 0%nat) eqn:E0.
    + destruct (last ps) eqn:El; [done|]. by apply last_None in El as ->.
    + by destruct ps.
  - intros i x u Hx Hu. by apply (Hn (S i)).
Qed.

Lemma repr_run_op o h q ps l : repr h q ps l →
  match spec_op o l with
  | Some l' => ∃ h' q' ps', run_op o (h, q) = Ok (h', q') ∧ repr h' q' ps' l'
  | None => run_op o (h, q) = Err AssertFailed
  end.
Proof.
  intros Hr. destruct o as [v|]; simpl.
  - destruct (repr_push _ _ _ _ v Hr) as (h' & q' & p & E & _ & Hr' & _). eauto.
  - destruct l as [|v l].
    + unfold pop_front. by rewrite (repr_empty _ _ _ _ Hr).
    + destruct (repr_pop _ _ _ _ _ Hr) as (q' & p & ps' & _ & E & Hr'). eauto.
Qed.

Lemma destroy_repr fuel h q ps l :
  repr h q ps l → (length l <= fuel)%nat → destroy fuel h (head q) = Ok (h, make).
Proof.
  revert fuel q ps; induction l as [|v l IH]; intros fuel q ps Hr Hf.
  - destruct Hr as [Hlen _ Hh _ _]. destruct ps; [|done]. rewrite Hh.
    by destruct fuel.
  - destruct fuel as [|fuel]; simpl in Hf; [lia|].
    destruct Hr as [Hlen Hnd Hh Ht Hn]. destruct ps as [|p ps]; [done|].
    rewrite Hh. simpl. rewrite (Hn 0%nat p v eq_refl eq_refl). simpl.
    apply (IH fuel (mkQueue (ps !! 0%nat) (last ps)) ps); [|lia].
    apply NoDup_cons in Hnd as [_ Hnd]. split; simpl in *; [lia|done|done|done|].
    intros i x u Hx Hu. by apply (Hn (S i)).
Qed.
End lemmas.

(** ** Properties *)

(** The linked queue implements a list of values: from an empty queue, any
    sequence of [push_back] and [pop_front] calls returns exactly when the list
    specification has a result, leaves nodes that represent the specified list
    in order, with [front()] its first element, and faults with the failed
    [assert(!empty())] of [pop_front] exactly when the specification pops from
    an empty list. *)
Theorem queue_refines_list {V} (os : list (@op V)) (h : gmap positive (Node V)) :
  match spec_run os [] with
  | Some l => ∃ h' q ps, run os (h, make) = Ok (h', q) ∧ repr h' q ps l ∧
      (∀ v l', l = v :: l' → front h' q = Ok v)
  | None => run os (h, make) = Err AssertFailed
  end.
Proof.
  assert (∀ (os : list (@op V)) h q ps (l : list V), repr h q ps l →
    match spec_run os l with
    | Some l' => ∃ h' q' ps', run os (h, q) = Ok (h', q') ∧ repr h' q' ps' l'
    | None => run os (h, q) = Err AssertFailed
    end) as Hgen.
  { clear. induction os as [|o os IH]; intros h q ps l Hr; simpl; [eauto|].
    pose proof (repr_run_op o _ _ _ _ Hr) as Ho.
    destruct (spec_op o l) as [l1|]; simpl.
    - destruct Ho as (h' & q' & ps' & -> & Hr'). by apply (IH h' q' ps').
    - by rewrite Ho. }
  specialize (Hgen os h make [] [] (repr_make h)).
  destruct (spec_run os []); [|done].
  destruct Hgen as (h' & q' & ps' & E & Hr). exists h', q', ps'.
  split_and!; [done|done|]. intros v l' ->. by apply (repr_front _ _ _ _ _ Hr).
Qed.

End Queue.
