(* ===== verification/Address.v ===== *)
(** * Virtual addresses and page-table entries

    [kernel/memory/va.h], [va.cpp], [pte.h], [pte.cpp] and the address-space
    constants of [kernel/arch/config.h].  The unions [VirtualAddress] and
    [PageTableEntry] are their 64-bit word; a bit field is a shift and a mask. *)

From S2P Require Import Prelude.

Module Address.

(** ** Definitions *)

Definition PAGE_SIZE : Z := 4096.

(** [1ull << (9 + 9 + 9 + 12 - 1)]. *)
Definition MAX_VIRTUAL_ADDRESS : Z := Z.shiftl 1 (9 + 9 + 9 + 12 - 1).

Definition TRAMPOLINE : Z := MAX_VIRTUAL_ADDRESS - PAGE_SIZE.

Definition TRAPFRAME : Z := TRAMPOLINE - PAGE_SIZE.

(** [~(PAGE_SIZE - 1)] is an [int] that the [&] converts to [uint64_t]. *)
Definition page_mask : Z := u64 (Z.lnot (PAGE_SIZE - 1)).

Definition roundUp (a : Z) : Z := Z.land (u64 (u64 (a + PAGE_SIZE) - 1)) page_mask.

Definition roundDown (a : Z) : Z := Z.land a page_mask.

Definition va_add (a b : Z) : Z := u64 (a + b).

Definition va_sub (a b : Z) : Z := u64 (a - b).

(** The bit fields of [VirtualAddress::va]. *)
Definition pageOffset (a : Z) : Z := Z.land a (Z.ones 12).
Definition vpn0 (a : Z) : Z := Z.land (Z.shiftr a 12) (Z.ones 9).
Definition vpn1 (a : Z) : Z := Z.land (Z.shiftr a 21) (Z.ones 9).
Definition vpn2 (a : Z) : Z := Z.land (Z.shiftr a 30) (Z.ones 9).

Definition PTE_V : Z := Z.shiftl 1 0.
Definition PTE_R : Z := Z.shiftl 1 1.
Definition PTE_W : Z := Z.shiftl 1 2.
Definition PTE_X : Z := Z.shiftl 1 3.
Definition PTE_U : Z := Z.shiftl 1 4.

(** The bit fields [pte.v] and [pte.u], read and written. *)
Definition pte_v (raw : Z) : bool := Z.testbit raw 0.
Definition pte_u (raw : Z) : bool := Z.testbit raw 4.
Definition set_v (raw : Z) : Z := Z.lor raw PTE_V.
Definition clear_u (raw : Z) : Z := Z.ldiff raw PTE_U.

Definition toPhysicalAddress (raw : Z) : Z := u64 (Z.shiftl (Z.shiftr raw 10) 12).

Definition fromPhysicalAddress (address : Z) : Z := u64 (Z.shiftl (Z.shiftr address 12) 10).

(** [flags()]: the low ten bits, as [uint16_t]. *)
Definition flags (raw : Z) : Z := u16 (Z.land raw 0x3FF).

(** ** Lemmas *)

Lemma roundDown_spec a : 0 <= a < 2 ^ 64 → roundDown a = a - a mod 4096.
Proof.
  intros Ha. unfold roundDown.
  replace page_mask with (Z.shiftl (Z.ones 52) 12) by reflexivity.
  replace (a - a mod 4096) with (Z.shiftl (Z.shiftr a 12) 12).
  2:{ rewrite Z.shiftl_mul_pow2, Z.shiftr_div_pow2 by lia. change (2 ^ 12) with 4096. dlia. }
  apply Z.bits_inj'. intros i Hi. rewrite Z.land_spec, !Z.shiftl_spec by done.
  destruct (Z.lt_ge_cases i 12).
  - by rewrite !(Z.testbit_neg_r _ (i - 12)) by lia; rewrite andb_false_r.
  - rewrite Z.shiftr_spec, Z.testbit_ones_nonneg by lia.
    replace (i - 12 + 12) with i by lia.
    destruct (Z.ltb_spec (i - 12) 52); [by rewrite andb_true_r|].
    rewrite andb_false_r. symmetry.
    destruct (decide (a = 0)) as [->|]; [apply Z.bits_0|].
    apply Z.bits_above_log2; [lia|].
    apply Z.log2_lt_pow2; [lia|]. apply (Z.lt_le_trans _ (2 ^ 64)); [lia|].
    apply Z.pow_le_mono_r; lia.
Qed.

Lemma roundUp_spec a :
  0 <= a <= 2 ^ 64 - 4096 → roundUp a = (a + 4095) / 4096 * 4096.
Proof.
  intros Ha. unfold roundUp. fold (roundDown (u64 (u64 (a + PAGE_SIZE) - 1))).
  rewrite wrap_sub_l. unfold PAGE_SIZE. replace (a + 4096 - 1) with (a + 4095) by lia.
  rewrite wrap_small by lia. rewrite roundDown_spec by lia. dlia.
Qed.

Lemma bit_field a n k : 0 <= n → 0 <= k → Z.land (Z.shiftr a n) (Z.ones k) = (a / 2 ^ n) mod 2 ^ k.
Proof. intros. by rewrite Z.land_ones, Z.shiftr_div_pow2. Qed.

Lemma vpn0_spec a : vpn0 a = a / 4096 mod 512.
Proof. apply bit_field; lia. Qed.

Lemma vpn1_spec a : vpn1 a = a / 2097152 mod 512.
Proof. apply bit_field; lia. Qed.

Lemma vpn2_spec a : vpn2 a = a / 1073741824 mod 512.
Proof. apply bit_field; lia. Qed.

(** The three table indices determine the page of a canonical address. *)
Lemma vpn_inj a b :
  0 <= a < MAX_VIRTUAL_ADDRESS → 0 <= b < MAX_VIRTUAL_ADDRESS →
  vpn2 a = vpn2 b → vpn1 a = vpn1 b → vpn0 a = vpn0 b → a / 4096 = b / 4096.
Proof.
  rewrite !vpn0_spec, !vpn1_spec, !vpn2_spec.
  change MAX_VIRTUAL_ADDRESS with 274877906944. dlia.
Qed.

Lemma toPhysicalAddress_spec raw :
  toPhysicalAddress raw = (raw / 1024 * 4096) mod 2 ^ 64.
Proof.
  unfold toPhysicalAddress, wrap. by rewrite Z.shiftl_mul_pow2, Z.shiftr_div_pow2.
Qed.

Lemma fromPhysicalAddress_spec a :
  0 <= a < 2 ^ 64 → fromPhysicalAddress a = a / 4096 * 1024.
Proof.
  intros Ha. unfold fromPhysicalAddress.
  rewrite Z.shiftl_mul_pow2, Z.shiftr_div_pow2 by lia.
  change (2 ^ 12) with 4096. change (2 ^ 10) with 1024.
  apply wrap_small. dlia.
Qed.

Lemma toPhysicalAddress_aligned raw : toPhysicalAddress raw mod 4096 = 0.
Proof. rewrite toPhysicalAddress_spec. change (2 ^ 64) with 18446744073709551616. dlia. Qed.

(** The entry [map] builds from zero: flags, the valid bit, and the page number. *)
Lemma leaf_entry_spec pa fl :
  0 <= pa < 2 ^ 64 → 0 <= fl < 1024 →
  Z.lor (set_v (Z.lor 0 fl)) (fromPhysicalAddress pa) = pa / 4096 * 1024 + Z.lor fl 1.
Proof.
  intros Hpa Hfl. unfold set_v, PTE_V. rewrite Z.lor_0_l, fromPhysicalAddress_spec by done.
  rewrite Z.lor_comm. change 1024 with (2 ^ 10). change (Z.shiftl 1 0) with 1.
  apply lor_high_low; [lia|]. apply lor_range; lia.
Qed.

Lemma entry_low raw hi lo : 0 <= lo < 1024 → raw = hi * 1024 + lo →
  raw / 1024 = hi ∧ raw mod 1024 = lo ∧ flags raw = lo ∧
  ∀ i, 0 <= i < 10 → Z.testbit raw i = Z.testbit lo i.
Proof.
  intros Hlo ->. split_and!; [dlia|dlia| |].
  - unfold flags. change 0x3FF with (Z.ones 10). rewrite Z.land_ones by lia.
    change (2 ^ 10) with 1024. rewrite Z.add_comm, Z.mod_add, Z.mod_small by lia.
    apply wrap_small. lia.
  - intros i Hi. rewrite <- (Z.mod_pow2_bits_low (hi * 1024 + lo) 10 i) by lia.
    change (2 ^ 10) with 1024. by rewrite Z.add_comm, Z.mod_add, Z.mod_small by lia.
Qed.

(** The entry [map] builds decodes to what it was built from. *)
Lemma leaf_entry_decode pa fl :
  0 <= pa < 2 ^ 64 → pa mod 4096 = 0 → 0 <= fl < 1024 →
  let raw := Z.lor (set_v (Z.lor 0 fl)) (fromPhysicalAddress pa) in
  toPhysicalAddress raw = pa ∧ flags raw = Z.lor fl PTE_V ∧ pte_v raw = true ∧
  pte_u raw = Z.testbit fl 4.
Proof.
  intros Hpa Hal Hfl raw. pose proof (leaf_entry_spec pa fl Hpa Hfl) as E. fold raw in E.
  assert (0 <= Z.lor fl 1 < 1024) as Hl by (apply (lor_range fl 1 10); lia).
  destruct (entry_low raw _ _ Hl E) as (Hhi & _ & Hf & Hb).
  unfold pte_v, pte_u. rewrite !Hb, !Z.lor_spec by lia. split_and!.
  - rewrite toPhysicalAddress_spec, Hhi, Z.mod_small by dlia. dlia.
  - exact Hf.
  - apply orb_true_r.
  - apply orb_false_r.
Qed.

(** A page-table entry built from a page-aligned physical address and
    flags of the low ten bits decodes to the same address and flags (with the
    valid bit set), whatever the address. *)
Theorem pte_roundtrip (pa fl : Z)
    (Hpa : 0 <= pa < 2 ^ 64) (Halign : pa mod 4096 = 0) (Hfl : 0 <= fl < 1024) :
  let raw := Z.lor (set_v (Z.lor 0 fl)) (fromPhysicalAddress pa) in
  toPhysicalAddress raw = pa ∧ flags raw = Z.lor fl PTE_V ∧ pte_v raw = true ∧
  pte_u raw = Z.testbit fl 4 ∧ toPhysicalAddress (fromPhysicalAddress pa) = pa.
Proof.
  intros raw. destruct (leaf_entry_decode pa fl Hpa Halign Hfl) as (E1 & E2 & E3 & E4).
  split_and!; [exact E1|exact E2|exact E3|exact E4|].
  rewrite toPhysicalAddress_spec, fromPhysicalAddress_spec by done.
  rewrite Z.div_mul, Z.mod_small by dlia. dlia.
Qed.

Lemma pte_roundtrip_witness :
  toPhysicalAddress (Z.lor (set_v (Z.lor 0 (Z.lor PTE_R PTE_U))) (fromPhysicalAddress 0x80042000))
  = 0x80042000.
Proof. apply (pte_roundtrip 0x80042000 (Z.lor PTE_R PTE_U)); vm_compute; done. Defined.

(** [roundDown] and [roundUp] are the nearest page boundaries on either
    side of the address, and the three page-number fields of two canonical
    addresses agree only on the same page. *)
Theorem rounding_and_indices (a b : Z)
    (Ha : 0 <= a < MAX_VIRTUAL_ADDRESS) (Hb : 0 <= b < MAX_VIRTUAL_ADDRESS) :
  (roundDown a mod PAGE_SIZE = 0 ∧ roundDown a <= a < roundDown a + PAGE_SIZE) ∧
  (roundUp a mod PAGE_SIZE = 0 ∧ roundUp a - PAGE_SIZE < a <= roundUp a) ∧
  (roundDown a = roundDown b ↔ vpn2 a = vpn2 b ∧ vpn1 a = vpn1 b ∧ vpn0 a = vpn0 b).
Proof.
  unfold PAGE_SIZE. pose proof (vpn_inj a b Ha Hb) as Hinj.
  change MAX_VIRTUAL_ADDRESS with 274877906944 in *.
  rewrite !roundDown_spec, roundUp_spec by lia. split_and!; try dlia. split.
  - intros E. rewrite !vpn0_spec, !vpn1_spec, !vpn2_spec. dlia.
  - intros (E2 & E1 & E0). specialize (Hinj E2 E1 E0). dlia.
Qed.

Lemma rounding_and_indices_witness :
  roundDown 0x12345 <= 0x12345 < roundDown 0x12345 + PAGE_SIZE ∧ roundUp 0x12345 = 0x13000.
Proof.
  split; [|vm_compute; reflexivity].
  apply (rounding_and_indices 0x12345 0x12345); vm_compute; split; congruence.
Defined.

End Address.
