(* ===== verification/Asm.v ===== *)
(** * Assembly

    The routines of the kernel and of the user library that are written in
    assembly: [context.S], [user_vector.S], [kernel_vector.S], [entry.S] and
    [user/lib/syscall.S].  A routine is the list of its instructions, executed on
    the general registers, the control registers and the memory of a hart; an
    access to memory is translated as [satp] says. *)

From S2P Require Import Prelude Riscv Address.
Import Address.

#[local] Open Scope Z_scope.

Module Asm.

(** ** Definitions *)

(** *** The machine *)

Inductive gpr :=
  | Zero | Ra | Sp | Gp | Tp | T0 | T1 | T2 | S0 | S1
  | A0 | A1 | A2 | A3 | A4 | A5 | A6 | A7
  | S2 | S3 | S4 | S5 | S6 | S7 | S8 | S9 | S10 | S11 | T3 | T4 | T5 | T6.

#[export] Instance gpr_eq_dec : EqDecision gpr.
Proof. solve_decision. Defined.

Definition Gprs : Type := gpr → Z.

Record Hart := mkHart {
  gprs : Gprs;
  csrs : Riscv.Regs;
  memory : pmem;
}.

(** [r] holds [x]; the register [zero] holds nothing. *)
Definition put (r : gpr) (x : Z) (g : Gprs) : Gprs :=
  λ r', if decide (r' = r) then (if decide (r = Zero) then 0 else u64 x) else g r'.

Definition set_gprs (g : Gprs) (h : Hart) : Hart := mkHart g (csrs h) (memory h).
Definition set_csrs (c : Riscv.Regs) (h : Hart) : Hart := mkHart (gprs h) c (memory h).
Definition set_memory (m : pmem) (h : Hart) : Hart := mkHart (gprs h) (csrs h) m.

(** The instructions the routines use.  [Li] is also [la] with the address of its
    symbol. *)
Inductive instr :=
  | Sd (rs : gpr) (off : Z) (base : gpr)
  | Ld (rd : gpr) (off : Z) (base : gpr)
  | Li (rd : gpr) (x : Z)
  | Addi (rd rs : gpr) (x : Z)
  | Add (rd rs1 rs2 : gpr)
  | Mul (rd rs1 rs2 : gpr)
  | Csrr (rd : gpr) (c : Riscv.reg)
  | Csrw (c : Riscv.reg) (rs : gpr)
  | Csrrw (rd : gpr) (c : Riscv.reg) (rs : gpr)
  | SfenceVma.

Section machine.
(** The physical address of a virtual one, under a value of [satp]. *)
Variable translate : Z → Z → option Z.

Definition get_gpr (r : gpr) : M Hart Z := gets (λ h, gprs h r).
Definition set_gpr (r : gpr) (x : Z) : M Hart unit := modify (λ h, set_gprs (put r x (gprs h)) h).
Definition get_csr (c : Riscv.reg) : M Hart Z := gets (λ h, csrs h c).
Definition set_csr (c : Riscv.reg) (x : Z) : M Hart unit := modify (λ h, set_csrs (Riscv.update c x (csrs h)) h).

Definition physical (va : Z) : M Hart Z := λ h,
  match translate (csrs h Riscv.Satp) va with Some pa => Ok (pa, h) | None => Err OutOfRange end.

Definition execute (i : instr) : M Hart unit :=
  match i with
  | Sd rs off base =>
      b ← get_gpr base; pa ← physical (u64 (b + off)); x ← get_gpr rs;
      modify (λ h, set_memory (st64 (memory h) pa x) h)
  | Ld rd off base =>
      b ← get_gpr base; pa ← physical (u64 (b + off)); x ← gets (λ h, ld64 (memory h) pa);
      set_gpr rd x
  | Li rd x => set_gpr rd x
  | Addi rd rs x => a ← get_gpr rs; set_gpr rd (a + x)
  | Add rd rs1 rs2 => a ← get_gpr rs1; b ← get_gpr rs2; set_gpr rd (a + b)
  | Mul rd rs1 rs2 => a ← get_gpr rs1; b ← get_gpr rs2; set_gpr rd (a * b)
  | Csrr rd c => x ← get_csr c; set_gpr rd x
  | Csrw c rs => x ← get_gpr rs; set_csr c x
  | Csrrw rd c rs => x ← get_gpr rs; old ← get_csr c; set_csr c x ;; set_gpr rd old
  | SfenceVma => mret tt
  end.

Fixpoint run (code : list instr) : M Hart unit :=
  match code with
  | [] => mret tt
  | i :: rest => execute i ;; run rest
  end.

(** How a routine ends: the place it goes to. *)
Definition ret : M Hart Z := get_gpr Ra.
Definition jr (r : gpr) : M Hart Z := get_gpr r.
Definition sret : M Hart Z := get_csr Riscv.Sepc.
Definition mret_ : M Hart Z := get_csr Riscv.Mepc.

(** *** [context.S] *)

Definition switch_code : list instr :=
  [Sd Ra 0 A0; Sd Sp 8 A0; Sd S0 16 A0; Sd S1 24 A0; Sd S2 32 A0; Sd S3 40 A0; Sd S4 48 A0;
   Sd S5 56 A0; Sd S6 64 A0; Sd S7 72 A0; Sd S8 80 A0; Sd S9 88 A0; Sd S10 96 A0; Sd S11 104 A0;
   Ld Ra 0 A1; Ld Sp 8 A1; Ld S0 16 A1; Ld S1 24 A1; Ld S2 32 A1; Ld S3 40 A1; Ld S4 48 A1;
   Ld S5 56 A1; Ld S6 64 A1; Ld S7 72 A1; Ld S8 80 A1; Ld S9 88 A1; Ld S10 96 A1; Ld S11 104 A1].

Definition orfos_switchContext : M Hart Z := run switch_code ;; ret.

(** [switchContext] of [context.cpp]: the call with its two arguments. *)
Definition switchContext (oldContext newContext : Z) : M Hart Z :=
  set_gpr A0 oldContext ;; set_gpr A1 newContext ;; orfos_switchContext.

(** [struct Context]: its members, in order. *)
Definition Context : list gpr := [Ra; Sp; S0; S1; S2; S3; S4; S5; S6; S7; S8; S9; S10; S11].

(** *** [user_vector.S] *)

(** The end of [struct TrapFrame], from its member [ra]: the registers of the
    user program, in order. *)
Definition TrapFrame : list gpr :=
  [Ra; Sp; Gp; Tp; T0; T1; T2; S0; S1; A0; A1; A2; A3; A4; A5; A6; A7;
   S2; S3; S4; S5; S6; S7; S8; S9; S10; S11; T3; T4; T5; T6].

Definition user_vector_code : list instr :=
  [Csrw Riscv.Sscratch A0;
   Li A0 TRAPFRAME;
   Sd Ra 40 A0; Sd Sp 48 A0; Sd Gp 56 A0; Sd Tp 64 A0; Sd T0 72 A0; Sd T1 80 A0; Sd T2 88 A0;
   Sd S0 96 A0; Sd S1 104 A0; Sd A1 120 A0; Sd A2 128 A0; Sd A3 136 A0; Sd A4 144 A0; Sd A5 152 A0;
   Sd A6 160 A0; Sd A7 168 A0; Sd S2 176 A0; Sd S3 184 A0; Sd S4 192 A0; Sd S5 200 A0; Sd S6 208 A0;
   Sd S7 216 A0; Sd S8 224 A0; Sd S9 232 A0; Sd S10 240 A0; Sd S11 248 A0; Sd T3 256 A0; Sd T4 264 A0;
   Sd T5 272 A0; Sd T6 280 A0;
   Csrr T0 Riscv.Sscratch;
   Sd T0 112 A0;
   Ld Sp 8 A0;
   Ld Tp 32 A0;
   Ld T0 16 A0;
   Ld T1 0 A0;
   SfenceVma;
   Csrw Riscv.Satp T1;
   SfenceVma].

Definition orfos_userVector : M Hart Z := run user_vector_code ;; jr T0.

Definition return_user_code : list instr :=
  [SfenceVma;
   Csrw Riscv.Satp A0;
   SfenceVma;
   Li A0 TRAPFRAME;
   Ld Ra 40 A0; Ld Sp 48 A0; Ld Gp 56 A0; Ld Tp 64 A0; Ld T0 72 A0; Ld T1 80 A0; Ld T2 88 A0;
   Ld S0 96 A0; Ld S1 104 A0; Ld A1 120 A0; Ld A2 128 A0; Ld A3 136 A0; Ld A4 144 A0; Ld A5 152 A0;
   Ld A6 160 A0; Ld A7 168 A0; Ld S2 176 A0; Ld S3 184 A0; Ld S4 192 A0; Ld S5 200 A0; Ld S6 208 A0;
   Ld S7 216 A0; Ld S8 224 A0; Ld S9 232 A0; Ld S10 240 A0; Ld S11 248 A0; Ld T3 256 A0; Ld T4 264 A0;
   Ld T5 272 A0; Ld T6 280 A0;
   Ld A0 112 A0].

Definition orfos_returnUser : M Hart Z := run return_user_code ;; sret.

(** *** [kernel_vector.S] *)

Definition kernel_save : list instr :=
  [Addi Sp Sp (-256);
   Sd Ra 0 Sp; Sd Sp 8 Sp; Sd Gp 16 Sp; Sd Tp 24 Sp; Sd T0 32 Sp; Sd T1 40 Sp; Sd T2 48 Sp; Sd S0 56 Sp;
   Sd S1 64 Sp; Sd A0 72 Sp; Sd A1 80 Sp; Sd A2 88 Sp; Sd A3 96 Sp; Sd A4 104 Sp; Sd A5 112 Sp;
   Sd A6 120 Sp; Sd A7 128 Sp; Sd S2 136 Sp; Sd S3 144 Sp; Sd S4 152 Sp; Sd S5 160 Sp; Sd S6 168 Sp;
   Sd S7 176 Sp; Sd S8 184 Sp; Sd S9 192 Sp; Sd S10 200 Sp; Sd S11 208 Sp; Sd T3 216 Sp; Sd T4 224 Sp;
   Sd T5 232 Sp; Sd T6 240 Sp].

Definition kernel_restore : list instr :=
  [Ld Ra 0 Sp; Ld Sp 8 Sp; Ld Gp 16 Sp; Ld T0 32 Sp; Ld T1 40 Sp; Ld T2 48 Sp; Ld S0 56 Sp;
   Ld S1 64 Sp; Ld A0 72 Sp; Ld A1 80 Sp; Ld A2 88 Sp; Ld A3 96 Sp; Ld A4 104 Sp; Ld A5 112 Sp;
   Ld A6 120 Sp; Ld A7 128 Sp; Ld S2 136 Sp; Ld S3 144 Sp; Ld S4 152 Sp; Ld S5 160 Sp; Ld S6 168 Sp;
   Ld S7 176 Sp; Ld S8 184 Sp; Ld S9 192 Sp; Ld S10 200 Sp; Ld S11 208 Sp; Ld T3 216 Sp; Ld T4 224 Sp;
   Ld T5 232 Sp; Ld T6 240 Sp;
   Addi Sp Sp 256].

(** The vector up to its call of [orfos_kernelTrap], and from there on; [link] is
    the address behind the call. *)
Definition kernelVector_entry (link : Z) : M Hart unit := run kernel_save ;; set_gpr Ra link.
Definition kernelVector_exit : M Hart Z := run kernel_restore ;; sret.

Definition timer_code : list instr :=
  [Csrrw A0 Riscv.Mscratch A0;
   Sd A1 0 A0; Sd A2 8 A0; Sd A3 16 A0;
   Ld A1 24 A0; Ld A2 32 A0; Ld A3 0 A1; Add A3 A3 A2; Sd A3 0 A1;
   Li A1 2; Csrw Riscv.Sip A1;
   Ld A3 16 A0; Ld A2 8 A0; Ld A1 0 A0;
   Csrrw A0 Riscv.Mscratch A0].

Definition orfos_timerVector : M Hart Z := run timer_code ;; mret_.

(** *** [entry.S]: up to the call of [orfos_start] *)

Definition entry_code (stack : Z) : list instr :=
  [Li Sp stack; Li A0 4096; Csrr A1 Riscv.Mhartid; Addi A1 A1 1; Mul A0 A0 A1; Add Sp Sp A0].

(** *** [user/lib/syscall.S]: a stub up to its [ecall] *)

Definition stub_code (key : Z) : list instr := [Li A7 key].
End machine.

(** *** Registers and their places in memory *)

(** The registers [rs] one after the other, from offset [o]. *)
Fixpoint slots (o : Z) (rs : list gpr) : list (gpr * Z) :=
  match rs with
  | [] => []
  | r :: rs => (r, o) :: slots (o + 8) rs
  end.

Definition saves (base : gpr) (l : list (gpr * Z)) : list instr := (λ p, Sd p.1 p.2 base) <$> l.
Definition restores (base : gpr) (l : list (gpr * Z)) : list instr := (λ p, Ld p.1 p.2 base) <$> l.

(** Memory after the registers were saved at [pa], and registers loaded from there. *)
Definition saved (g : Gprs) (pa : Z) (l : list (gpr * Z)) (m : pmem) : pmem :=
  fold_left (λ m p, st64 m (pa + p.2) (g p.1)) l m.
Definition restored (m : pmem) (pa : Z) (l : list (gpr * Z)) (g : Gprs) : Gprs :=
  fold_left (λ g p, put p.1 (ld64 m (pa + p.2)) g) l g.

(** The places of [l] are words of [size] bytes, and different. *)
Definition placed (size : Z) (l : list (gpr * Z)) : Prop :=
  Forall (λ p, 0 <= p.2 ∧ p.2 + 8 <= size ∧ p.2 mod 8 = 0) l ∧ NoDup l.*2.

#[export] Instance placed_dec size l : Decision (placed size l).
Proof. unfold placed. apply _. Defined.

(** The places of the user program's registers in its trap frame, and of the
    registers the kernel's vector saves on the stack. *)
Definition user_slots : list (gpr * Z) := slots 40 TrapFrame.
Definition stack_slots : list (gpr * Z) := slots 0 TrapFrame.

(** Without the register [r]. *)
Definition but (r : gpr) (l : list (gpr * Z)) : list (gpr * Z) := filter (λ p, p.1 ≠ r) l.

(** [size] bytes of virtual memory at [va] are the physical ones at [pa]. *)
Definition maps (translate : Z → Z → option Z) (satp va pa size : Z) : Prop :=
  0 <= va ∧ va + size <= 2 ^ 64 ∧ ∀ o, 0 <= o < size → translate satp (va + o) = Some (pa + o).

(** ** Lemmas *)

Lemma put_eq r x g : r ≠ Zero → put r x g r = u64 x.
Proof. intros. unfold put. by rewrite decide_True, decide_False. Qed.

Lemma put_ne r r' x g : r' ≠ r → put r x g r' = g r'.
Proof. intros. unfold put. by rewrite decide_False. Qed.

Lemma ld64_u64 (m : pmem) a : u64 (ld64 m a) = ld64 m a.
Proof. apply wrap_small, (ldN_range 8). Qed.

Lemma saved_other g pa l m a : (∀ p, p ∈ l → a < pa + p.2 ∨ pa + p.2 + 8 <= a) → ld8 (saved g pa l m) a = ld8 m a.
Proof.
  unfold saved. revert m; induction l as [|p l IH]; intros m Ha; [done|]. cbn [fold_left].
  rewrite IH by (intros q Hq; apply Ha; by right). apply ld8_stN_ne. simpl. specialize (Ha p ltac:(left)). lia.
Qed.

Lemma saved_slot g pa size l m p : placed size l → p ∈ l → ld64 (saved g pa l m) (pa + p.2) = u64 (g p.1).
Proof.
  intros [Hw Hnd]. revert m; induction l as [|q l IH]; intros m Hp; [by apply not_elem_of_nil in Hp|].
  apply Forall_cons in Hw as [Hq Hw]. apply NoDup_cons in Hnd as [Hn Hnd]. cbn [saved fold_left].
  apply elem_of_cons in Hp as [->|Hp]; [|by apply IH].
  transitivity (ld64 (st64 m (pa + q.2) (g q.1)) (pa + q.2)); [|by apply ldN_stN_eq].
  apply ldN_ext. intros i Hi. apply saved_other. intros r Hr.
  rewrite Forall_forall in Hw. specialize (Hw r Hr). assert (q.2 ≠ r.2) as Hne.
  { intros E. apply Hn. rewrite E. apply list_elem_of_fmap. eauto. }
  simpl in Hi. dlia.
Qed.

Lemma restored_other m pa l g r : r ∉ l.*1 → restored m pa l g r = g r.
Proof.
  unfold restored. revert g; induction l as [|p l IH]; intros g Hr; [done|]. cbn [fold_left].
  rewrite fmap_cons in Hr. rewrite IH by set_solver. apply put_ne. set_solver.
Qed.

Lemma restored_slot m pa l g p : NoDup l.*1 → p ∈ l → p.1 ≠ Zero → restored m pa l g p.1 = ld64 m (pa + p.2).
Proof.
  intros Hnd Hp H0. revert g; induction l as [|q l IH]; intros g; [by apply not_elem_of_nil in Hp|].
  rewrite fmap_cons in Hnd. apply NoDup_cons in Hnd as [Hn Hnd]. cbn [restored fold_left].
  apply elem_of_cons in Hp as [->|Hp]; [|by apply IH].
  transitivity (put q.1 (ld64 m (pa + q.2)) g q.1); [by apply restored_other|]. by rewrite put_eq, ld64_u64.
Qed.

(** A register without a place. *)
Lemma slot_of r o (l : list (gpr * Z)) : (r, o) ∈ l → bool_decide (r ∈ l.*1) = true.
Proof. intros Hin. apply bool_decide_true, list_elem_of_fmap. by exists (r, o). Qed.

Lemma saved_ext g g' pa l m : (∀ p, p ∈ l → g p.1 = g' p.1) → saved g pa l m = saved g' pa l m.
Proof.
  unfold saved. revert m; induction l as [|p l IH]; intros m E; [done|]. cbn [fold_left].
  rewrite (E p) by by left. apply IH. intros q Hq. apply E. by right.
Qed.

Lemma but_ne r l p : p ∈ but r l → p.1 ≠ r.
Proof. by intros [? _]%list_elem_of_filter. Qed.

(** *** Execution *)

Section rules.
Variable translate : Z → Z → option Z.
Implicit Types (h : Hart).
#[local] Abbreviation execute := (execute translate).
#[local] Abbreviation run := (run translate).

Lemma run_app l1 l2 h : run (l1 ++ l2) h = (run l1 ;; run l2) h.
Proof.
  revert h; induction l1 as [|i l1 IH]; intros h; [done|]. cbn [app Asm.run]. unfold mbind, M_bind in *.
  destruct (execute i h) as [[[] h']|]; [apply IH|done].
Qed.

Lemma runs_app l1 l2 h (Q : unit → Hart → Prop) :
  runs (run l1) h (λ _ h', runs (run l2) h' Q) → runs (run (l1 ++ l2)) h Q.
Proof. intros HQ. unfold runs. rewrite run_app. by apply runs_bind. Qed.

Lemma runs_physical va pa h (Q : Z → Hart → Prop) :
  translate (csrs h Riscv.Satp) va = Some pa → Q pa h → runs (physical translate va) h Q.
Proof. intros E HQ. unfold runs, physical. by rewrite E. Qed.

(** A store and a load in mapped memory. *)
Lemma runs_sd rs off base pa size h (Q : unit → Hart → Prop) :
  maps translate (csrs h Riscv.Satp) (gprs h base) pa size → 0 <= off → off + 8 <= size →
  Q tt (set_memory (st64 (memory h) (pa + off) (gprs h rs)) h) → runs (execute (Sd rs off base)) h Q.
Proof.
  intros (H0 & H1 & Ht) Ho Hs HQ. cbn [Asm.execute]. unfold get_gpr. runs_step. runs_step.
  rewrite wrap_small by lia. runs_step. apply (runs_physical _ (pa + off)); [apply Ht; lia|].
  runs_step. runs_step. by runs_step.
Qed.

Lemma runs_ld rd off base pa size h (Q : unit → Hart → Prop) :
  maps translate (csrs h Riscv.Satp) (gprs h base) pa size → 0 <= off → off + 8 <= size →
  Q tt (set_gprs (put rd (ld64 (memory h) (pa + off)) (gprs h)) h) → runs (execute (Ld rd off base)) h Q.
Proof.
  intros (H0 & H1 & Ht) Ho Hs HQ. cbn [Asm.execute]. unfold get_gpr, set_gpr. runs_step. runs_step.
  rewrite wrap_small by lia. runs_step. apply (runs_physical _ (pa + off)); [apply Ht; lia|].
  runs_step. runs_step. by runs_step.
Qed.

Lemma runs_saves base l pa size h (Q : unit → Hart → Prop) :
  maps translate (csrs h Riscv.Satp) (gprs h base) pa size → placed size l →
  Q tt (set_memory (saved (gprs h) pa l (memory h)) h) → runs (run (saves base l)) h Q.
Proof.
  intros Hm [Hl _]. revert h Hm; induction Hl as [|[r o] l Ho Hl IH]; intros h Hm HQ.
  - apply (runs_ret tt). by destruct h.
  - cbn [saves fmap list_fmap Asm.run fst snd]. runs_step. apply (runs_sd _ _ _ pa size); [done|apply Ho|apply Ho|].
    by apply IH.
Qed.

Lemma runs_restores base l pa size h (Q : unit → Hart → Prop) :
  maps translate (csrs h Riscv.Satp) (gprs h base) pa size → placed size l → base ≠ Zero →
  (∀ o, (base, o) ∈ l → ld64 (memory h) (pa + o) = gprs h base) →
  Q tt (set_gprs (restored (memory h) pa l (gprs h)) h) → runs (run (restores base l)) h Q.
Proof.
  intros Hm [Hl _] H0. revert h Hm; induction Hl as [|[r o] l Ho Hl IH]; intros h Hm Hb HQ.
  - apply (runs_ret tt). by destruct h.
  - cbn [restores fmap list_fmap Asm.run fst snd]. runs_step. apply (runs_ld _ _ _ pa size); [done|apply Ho|apply Ho|].
    assert (put r (ld64 (memory h) (pa + o)) (gprs h) base = gprs h base) as Eb.
    { destruct (decide (base = r)) as [<-|]; [|by apply put_ne]. rewrite put_eq, ld64_u64 by done. apply Hb. left. }
    apply IH; cbn [gprs csrs memory set_gprs].
    + by rewrite Eb.
    + intros o' Ho'. rewrite Eb. apply Hb. by right.
    + exact HQ.
Qed.

(** *** The routines *)

Lemma placed_context : placed 112 (slots 0 Context).
Proof. apply (bool_decide_unpack _). by vm_compute. Qed.

Lemma runs_switchContext h pao pan (Q : Z → Hart → Prop) :
  let m := saved (gprs h) pao (slots 0 Context) (memory h) in
  maps translate (csrs h Riscv.Satp) (gprs h A0) pao 112 → maps translate (csrs h Riscv.Satp) (gprs h A1) pan 112 →
  Q (ld64 m pan) (mkHart (restored m pan (slots 0 Context) (gprs h)) (csrs h) m) →
  runs (orfos_switchContext translate) h Q.
Proof.
  intros m Ho Hn HQ. unfold orfos_switchContext. runs_step.
  change switch_code with (saves A0 (slots 0 Context) ++ restores A1 (slots 0 Context)).
  apply runs_app. apply (runs_saves _ _ pao 112); [done|apply placed_context|].
  apply (runs_restores _ _ pan 112); [done|apply placed_context|done| |].
  - intros o Hin. by apply slot_of in Hin.
  - unfold ret, get_gpr. runs_step. cbn [gprs memory csrs set_gprs set_memory]. fold m.
    replace (restored m pan (slots 0 Context) (gprs h) Ra) with (ld64 m pan); [exact HQ|].
    symmetry. rewrite <- (Z.add_0_r pan) at 2. apply (restored_slot m pan _ _ (Ra, 0)); [|by left|done].
    apply (bool_decide_unpack _). by vm_compute.
Qed.

Lemma placed_user : placed 288 user_slots.
Proof. apply (bool_decide_unpack _). by vm_compute. Qed.

Lemma placed_user_but : placed 288 (but A0 user_slots).
Proof. apply (bool_decide_unpack _). by vm_compute. Qed.

(** Every register has a place. *)
Lemma has_user_slot r : r ≠ Zero → ∃ o, (r, o) ∈ user_slots.
Proof.
  intros H0. assert (r ∈ user_slots.*1) as ([r' o] & -> & Ho)%list_elem_of_fmap; [|by exists o].
  destruct r; (done || (apply (bool_decide_unpack _); by vm_compute)).
Qed.

Lemma has_stack_slot r : r ≠ Zero → ∃ o, (r, o) ∈ stack_slots.
Proof.
  intros H0. assert (r ∈ stack_slots.*1) as ([r' o] & -> & Ho)%list_elem_of_fmap; [|by exists o].
  destruct r; (done || (apply (bool_decide_unpack _); by vm_compute)).
Qed.

Lemma placed_stack : placed 256 stack_slots.
Proof. apply (bool_decide_unpack _). by vm_compute. Qed.

(** One instruction that does not access memory: the state it leaves. *)
Definition effect (i : instr) h : Hart :=
  match i with
  | Sd _ _ _ | Ld _ _ _ | SfenceVma => h
  | Li rd x => set_gprs (put rd x (gprs h)) h
  | Addi rd rs x => set_gprs (put rd (gprs h rs + x) (gprs h)) h
  | Add rd a b => set_gprs (put rd (gprs h a + gprs h b) (gprs h)) h
  | Mul rd a b => set_gprs (put rd (gprs h a * gprs h b) (gprs h)) h
  | Csrr rd c => set_gprs (put rd (csrs h c) (gprs h)) h
  | Csrw c rs => set_csrs (Riscv.update c (gprs h rs) (csrs h)) h
  | Csrrw rd c rs =>
      set_gprs (put rd (csrs h c) (gprs h)) (set_csrs (Riscv.update c (gprs h rs) (csrs h)) h)
  end.

Definition accesses (i : instr) : bool := match i with Sd _ _ _ | Ld _ _ _ => true | _ => false end.

Lemma runs_effect i h (Q : unit → Hart → Prop) : accesses i = false → Q tt (effect i h) → runs (execute i) h Q.
Proof. by destruct i. Qed.

Lemma runs_cons i l h (Q : unit → Hart → Prop) : runs (execute i) h (λ _ h', runs (run l) h' Q) → runs (run (i :: l)) h Q.
Proof. apply runs_bind. Qed.

(** Step over one instruction. *)
Ltac asm_step :=
  lazymatch goal with
  | |- runs (Asm.run _ (_ :: _)) _ _ => apply runs_cons
  | |- runs (Asm.run _ []) _ _ => apply (runs_ret tt)
  end;
  try (apply runs_effect; [done|]; unfold effect, set_gprs, set_csrs; cbn [gprs csrs memory]).

(** The registers as they are read. *)
Ltac read_gprs := repeat first [rewrite put_eq by done|rewrite put_ne by done].

(** A load or a store at a register that still points to the mapped memory at [pa]. *)
Ltac asm_access pa size :=
  apply runs_cons;
  lazymatch goal with
  | |- runs (Asm.execute _ (Sd _ _ _)) _ _ => apply (runs_sd _ _ _ pa size)
  | |- runs (Asm.execute _ (Ld _ _ _)) _ _ => apply (runs_ld _ _ _ pa size)
  end;
  [cbn [gprs csrs memory]; rewrite ?Riscv.update_ne, ?put_ne by done; rewrite ?put_eq by done; assumption|lia|lia|];
  unfold set_gprs, set_memory; cbn [gprs csrs memory].

(** The vector of user traps: the frame has the registers, and the kernel's stack,
    hart and page table are those the frame held. *)
Lemma runs_userVector h tf (Q : Z → Hart → Prop) :
  maps translate (csrs h Riscv.Satp) TRAPFRAME tf 288 →
  let m := st64 (saved (gprs h) tf (but A0 user_slots) (memory h)) (tf + 112) (u64 (gprs h A0)) in
  (∀ h', memory h' = m → csrs h' = Riscv.update Riscv.Satp (ld64 m tf) (Riscv.update Riscv.Sscratch (gprs h A0) (csrs h)) →
     gprs h' Sp = ld64 m (tf + 8) → gprs h' Tp = ld64 m (tf + 32) → Q (ld64 m (tf + 16)) h') →
  runs (orfos_userVector translate) h Q.
Proof.
  intros Hm m HQ. unfold orfos_userVector. runs_step.
  change user_vector_code with ([Csrw Riscv.Sscratch A0; Li A0 TRAPFRAME] ++ saves A0 (but A0 user_slots) ++
    [Csrr T0 Riscv.Sscratch; Sd T0 112 A0; Ld Sp 8 A0; Ld Tp 32 A0; Ld T0 16 A0; Ld T1 0 A0; SfenceVma; Csrw Riscv.Satp T1; SfenceVma]).
  apply runs_app. do 3 asm_step. apply runs_app.
  assert (∀ x g, put A0 x g A0 = u64 x) as H0 by (intros; by apply put_eq).
  apply (runs_saves _ _ tf 288); [|apply placed_user_but|].
  { cbn [gprs csrs set_gprs set_csrs]. rewrite Riscv.update_ne by done. rewrite put_eq by done. exact Hm. }
  cbn [gprs csrs memory set_memory set_gprs set_csrs]. asm_step.
  rewrite (saved_ext _ (gprs h)) by (intros p Hp; by apply put_ne, (but_ne _ _ _ Hp)).
  asm_access tf 288. rewrite Riscv.update_eq, put_eq by done. fold m. do 4 asm_access tf 288.
  do 3 asm_step. apply (runs_ret tt). unfold jr, get_gpr. runs_step.
  cbn [gprs csrs memory set_gprs set_csrs set_memory].
  rewrite (put_ne T1 T0), (put_eq T0), (put_eq T1), !ld64_u64, Z.add_0_r by done.
  apply HQ; cbn [gprs csrs memory set_gprs set_csrs set_memory].
  - done.
  - done.
  - by rewrite !put_ne, put_eq, ld64_u64 by done.
  - by rewrite !put_ne, put_eq, ld64_u64 by done.
Qed.

(** The return to a user program: its registers are those of the frame. *)
Lemma runs_returnUser h tf (Q : Z → Hart → Prop) :
  maps translate (gprs h A0) TRAPFRAME tf 288 →
  (∀ h', memory h' = memory h → csrs h' = Riscv.update Riscv.Satp (gprs h A0) (csrs h) →
     (∀ p, p ∈ user_slots → gprs h' p.1 = ld64 (memory h) (tf + p.2)) → gprs h' Zero = gprs h Zero →
     Q (csrs h Riscv.Sepc) h') →
  runs (orfos_returnUser translate) h Q.
Proof.
  intros Hm HQ. unfold orfos_returnUser. runs_step.
  change return_user_code with ([SfenceVma; Csrw Riscv.Satp A0; SfenceVma; Li A0 TRAPFRAME] ++
    restores A0 (but A0 user_slots) ++ [Ld A0 112 A0]).
  apply runs_app. do 5 asm_step. apply runs_app.
  apply (runs_restores _ _ tf 288); [|apply placed_user_but|done| |].
  { cbn [gprs csrs set_gprs set_csrs]. rewrite Riscv.update_eq, put_eq by done. exact Hm. }
  { by intros o [? _]%list_elem_of_filter. }
  cbn [gprs csrs memory set_memory set_gprs set_csrs].
  set (g := restored _ _ _ _). assert (g A0 = TRAPFRAME) as Eg.
  { unfold g. rewrite restored_other; [by apply put_eq|]. apply (bool_decide_unpack _). by vm_compute. }
  apply runs_cons, (runs_ld _ _ _ tf 288); [|lia|lia|].
  { cbn [gprs csrs set_gprs set_csrs]. rewrite Riscv.update_eq, Eg. exact Hm. }
  cbn [gprs csrs memory set_memory set_gprs set_csrs]. apply (runs_ret tt). unfold sret, get_csr. runs_step.
  cbn [gprs csrs memory set_gprs set_csrs set_memory]. rewrite Riscv.update_ne by done. apply HQ; cbn [gprs csrs memory set_gprs set_csrs set_memory]; try done.
  - intros p Hp. destruct (decide (p.1 = A0)) as [E|Hne].
    + rewrite E, put_eq, ld64_u64 by done. destruct p as [r o]. simpl in E. subst r.
      assert (Forall (λ q : gpr * Z, q.1 = A0 → q.2 = 112) user_slots) as HF by (repeat constructor; by intros [=]).
      rewrite Forall_forall in HF. by rewrite <- (HF _ Hp).
    + rewrite put_ne by done. apply restored_slot.
      * apply (bool_decide_unpack _). by vm_compute.
      * by apply list_elem_of_filter.
      * assert (Forall (λ q : gpr * Z, q.1 ≠ Zero) user_slots) as HF by (repeat constructor; done).
        rewrite Forall_forall in HF. by apply HF.
Qed.

(** The state in which the vector of kernel traps calls [orfos_kernelTrap]. *)
Definition at_call (link pa : Z) h : Hart :=
  let g := put Sp (gprs h Sp - 256) (gprs h) in
  mkHart (put Ra link g) (csrs h) (saved g pa stack_slots (memory h)).

(** The registers the vector restores from the stack at [pa]. *)
Definition after_call (pa : Z) h : Gprs :=
  let g := restored (memory h) pa (but Tp stack_slots) (gprs h) in put Sp (g Sp + 256) g.

Lemma runs_kernelVector_entry link h pa (Q : unit → Hart → Prop) :
  maps translate (csrs h Riscv.Satp) (u64 (gprs h Sp - 256)) pa 256 → Q tt (at_call link pa h) →
  runs (kernelVector_entry translate link) h Q.
Proof.
  intros Hm HQ. unfold kernelVector_entry. runs_step.
  change kernel_save with ([Addi Sp Sp (-256)] ++ saves Sp stack_slots).
  apply runs_app. do 2 asm_step. apply (runs_saves _ _ pa 256); [|apply placed_stack|].
  { cbn [gprs csrs set_gprs set_csrs]. by rewrite put_eq. }
  cbn [gprs csrs memory set_gprs set_csrs set_memory]. unfold set_gpr. by runs_step.
Qed.

Lemma runs_kernelVector_exit h2 pa (Q : Z → Hart → Prop) :
  maps translate (csrs h2 Riscv.Satp) (gprs h2 Sp) pa 256 → ld64 (memory h2) (pa + 8) = gprs h2 Sp →
  Q (csrs h2 Riscv.Sepc) (set_gprs (after_call pa h2) h2) → runs (kernelVector_exit translate) h2 Q.
Proof.
  intros Hm H8 HQ. unfold kernelVector_exit. runs_step.
  change kernel_restore with (restores Sp (but Tp stack_slots) ++ [Addi Sp Sp 256]).
  apply runs_app. apply (runs_restores _ _ pa 256).
  - exact Hm.
  - apply (bool_decide_unpack _). by vm_compute.
  - done.
  - intros o [_ Hin]%list_elem_of_filter.
    assert (Forall (λ q : gpr * Z, q.1 = Sp → q.2 = 8) stack_slots) as HF by (repeat constructor; by intros [=]).
    rewrite Forall_forall in HF. by rewrite (HF _ Hin eq_refl : o = 8).
  - do 2 asm_step. unfold sret, get_csr. by runs_step.
Qed.

(** The stack frame holds its own address. *)
Lemma at_call_sp link pa h : ld64 (memory (at_call link pa h)) (pa + 8) = u64 (gprs h Sp - 256).
Proof.
  unfold at_call. cbv zeta. cbn [memory]. rewrite (saved_slot _ pa 256 stack_slots _ (Sp, 8)); [|apply placed_stack|].
  - cbn [fst]. by rewrite put_eq, wrap_wrap.
  - apply (bool_decide_unpack _). by vm_compute.
Qed.

(** What the vector restores. *)
Lemma after_call_gprs link pa h h2 r :
  (∀ a, pa <= a < pa + 256 → ld8 (memory h2) a = ld8 (memory (at_call link pa h)) a) →
  r ≠ Zero → r ≠ Tp → 0 <= gprs h r < 2 ^ 64 → after_call pa h2 r = gprs h r.
Proof.
  intros Hk H0 Htp Hr. unfold after_call. cbv zeta.
  assert (∀ p, p ∈ but Tp stack_slots → restored (memory h2) pa (but Tp stack_slots) (gprs h2) p.1 =
    u64 (put Sp (gprs h Sp - 256) (gprs h) p.1)) as Hall.
  { intros p Hp. pose proof (proj1 placed_stack) as Hpl. apply list_elem_of_filter in Hp as Hp'. destruct Hp' as [_ Hin].
    rewrite Forall_forall in Hpl. destruct (Hpl p Hin) as (Hp0 & Hp1 & _). rewrite restored_slot; [|..|done|].
    - rewrite <- (saved_slot _ pa 256 stack_slots (memory h)) by (done || apply placed_stack).
      apply ldN_ext. intros i Hi. apply Hk. simpl in Hi. lia.
    - apply (bool_decide_unpack _). by vm_compute.
    - assert (Forall (λ q : gpr * Z, q.1 ≠ Zero) stack_slots) as HF by (repeat constructor; done).
      rewrite Forall_forall in HF. by apply HF. }
  destruct (decide (r = Sp)) as [->|Hsp].
  - pose proof (Hall (Sp, 8) ltac:(apply (bool_decide_unpack _); by vm_compute)) as E. cbn [fst] in E.
    rewrite put_eq, E by done. rewrite put_eq, wrap_wrap by done. unfold wrap. rewrite Zplus_mod_idemp_l. rewrite Z.sub_add. by apply Z.mod_small.
  - rewrite put_ne by done. destruct (has_stack_slot r H0) as [o Ho].
    pose proof (Hall (r, o) ltac:(by apply list_elem_of_filter)) as E. cbn [fst] in E.
    rewrite E, put_ne by done. by apply wrap_small.
Qed.

(** The memory after a timer interrupt: three words of the scratch area at [sc]
    and the comparison register. *)
Definition timer_memory (sc : Z) h : pmem :=
  let m := st64 (st64 (st64 (memory h) sc (gprs h A1)) (sc + 8) (gprs h A2)) (sc + 16) (gprs h A3) in
  let cmp := ld64 (memory h) (sc + 24) in st64 m cmp (u64 (ld64 (memory h) cmp + ld64 (memory h) (sc + 32))).

Lemma ld64_st64_ne (m : pmem) a b x : a + 8 <= b ∨ b + 8 <= a → ld64 (st64 m a x) b = ld64 m b.
Proof. intros Hd. apply ldN_stN_ne. simpl. lia. Qed.

Lemma ld64_st64_eq (m : pmem) a x : ld64 (st64 m a x) a = u64 x.
Proof. by apply ldN_stN_eq. Qed.

Lemma runs_timerVector h (Q : Z → Hart → Prop) :
  let sc := csrs h Riscv.Mscratch in let cmp := ld64 (memory h) (sc + 24) in
  (∀ r, 0 <= gprs h r < 2 ^ 64) → 0 <= sc → sc + 40 <= 2 ^ 64 → cmp + 8 <= sc ∨ sc + 40 <= cmp →
  maps translate (csrs h Riscv.Satp) sc sc 40 → maps translate (csrs h Riscv.Satp) cmp cmp 8 →
  (∀ h', memory h' = timer_memory sc h → csrs h' Riscv.Mscratch = sc → csrs h' Riscv.Sip = 2 →
     (∀ c, c ≠ Riscv.Sip → c ≠ Riscv.Mscratch → csrs h' c = csrs h c) → (∀ r, gprs h' r = gprs h r) →
     Q (csrs h Riscv.Mepc) h') →
  runs (orfos_timerVector translate) h Q.
Proof.
  intros sc cmp Hok H0 Hsc Hd Hm Hc HQ. unfold orfos_timerVector, timer_code. runs_step.
  assert (u64 sc = sc) as Esc by (apply wrap_small; lia). rewrite <- Esc in Hm at 1.
  asm_step. fold sc. do 5 asm_access sc 40.
  rewrite !(put_ne A0), Z.add_0_r by done. set (m3 := st64 _ (sc + 16) _).
  assert (∀ b, b + 8 <= sc ∨ sc + 24 <= b → ld64 m3 b = ld64 (memory h) b) as Hm3.
  { intros b Hb. unfold m3. by rewrite !ld64_st64_ne by lia. }
  rewrite (Hm3 (sc + 24)), (Hm3 (sc + 32)) by lia. fold cmp.
  assert (u64 cmp = cmp) as Ecmp by apply ld64_u64. rewrite <- Ecmp in Hc at 1.
  asm_access cmp 8. rewrite Z.add_0_r, (Hm3 cmp) by lia. asm_step. asm_access cmp 8.
  rewrite Z.add_0_r. do 2 asm_step. read_gprs. rewrite !ld64_u64.
  set (x := u64 (ld64 (memory h) cmp + ld64 (memory h) (sc + 32))). set (m' := st64 m3 cmp x).
  assert (maps translate (csrs h Riscv.Satp) (u64 sc) sc 40) as Hm' by (rewrite Esc at 1; rewrite <- Esc at 1; exact Hm).
  do 3 asm_access sc 40. rewrite Z.add_0_r.
  assert (ld64 m' sc = gprs h A1 ∧ ld64 m' (sc + 8) = gprs h A2 ∧ ld64 m' (sc + 16) = gprs h A3) as (-> & -> & ->).
  { unfold m', m3. rewrite !(ld64_st64_ne _ cmp) by lia. rewrite !(ld64_st64_ne _ (sc + 16)) by lia.
    rewrite !(ld64_st64_ne _ (sc + 8)) by lia. rewrite !ld64_st64_eq, !wrap_small by apply Hok. done. }
  do 2 asm_step. unfold mret_, get_csr. runs_step. cbn [csrs].
  rewrite !(Riscv.update_ne Riscv.Mscratch Riscv.Mepc), !(Riscv.update_ne Riscv.Sip Riscv.Mepc) by done.
  apply HQ; cbn [gprs csrs memory].
  - done.
  - rewrite Riscv.update_eq. read_gprs. exact Esc.
  - rewrite Riscv.update_ne, Riscv.update_eq by done. done.
  - intros c H1 H2. by rewrite !Riscv.update_ne by done.
  - intros r. rewrite Riscv.update_ne, Riscv.update_eq by done.
    destruct (decide (r = A0)) as [->|]; [rewrite put_eq by done; by apply wrap_small|rewrite put_ne by done].
    destruct (decide (r = A1)) as [->|]; [rewrite put_eq by done; by apply wrap_small|rewrite put_ne by done].
    destruct (decide (r = A2)) as [->|]; [rewrite put_eq by done; by apply wrap_small|rewrite put_ne by done].
    destruct (decide (r = A3)) as [->|]; [rewrite put_eq by done; by apply wrap_small|rewrite put_ne by done].
    by rewrite !put_ne by done.
Qed.
(** [_entry] gives each hart the top of its own page of [stack]. *)
Lemma runs_entry stack h (Q : unit → Hart → Prop) :
  let id := csrs h Riscv.Mhartid in 0 <= id < 8 → 0 <= stack → stack + 4096 * 8 < 2 ^ 64 →
  (∀ h', gprs h' Sp = stack + 4096 * (id + 1) → csrs h' = csrs h → memory h' = memory h → Q tt h') →
  runs (run (entry_code stack)) h Q.
Proof.
  intros id Hid H0 H1 HQ. unfold entry_code. do 6 asm_step. apply (runs_ret tt). apply HQ; [|done..].
  cbn [gprs csrs memory set_gprs set_csrs]. read_gprs. fold id.
  rewrite (wrap_small 64 id), (wrap_small 64 (id + 1)), (wrap_small 64 4096), (wrap_small 64 stack) by lia.
  rewrite (wrap_small 64 (4096 * (id + 1))) by lia. apply wrap_small. lia.
Qed.
End rules.

(** Machine mode does not translate addresses. *)
Definition bare (satp va : Z) : option Z := Some va.

Lemma maps_bare satp a size : 0 <= a → a + size <= 2 ^ 64 → maps bare satp a a size.
Proof. intros H0 H1. by split_and!. Qed.

(** *** Switching contexts *)

Lemma nodup_context : NoDup (slots 0 Context).*1.
Proof. apply (bool_decide_unpack _). by vm_compute. Qed.

Lemma context_slot r o : (r, o) ∈ slots 0 Context → r ≠ Zero ∧ r ≠ A0 ∧ r ≠ A1 ∧ 0 <= o ∧ o + 8 <= 112.
Proof.
  intros Hin. assert (Forall (λ q : gpr * Z, q.1 ≠ Zero ∧ q.1 ≠ A0 ∧ q.1 ≠ A1 ∧ 0 <= q.2 ∧ q.2 + 8 <= 112) (slots 0 Context)) as HF.
  { repeat (apply Forall_cons; split; [by split_and!|]). by apply Forall_nil. }
  rewrite Forall_forall in HF. by apply (HF (r, o)).
Qed.

Lemma switchContext_spec translate h old new pao pan :
  maps translate (csrs h Riscv.Satp) old pao 112 → maps translate (csrs h Riscv.Satp) new pan 112 →
  pao + 112 <= pan ∨ pan + 112 <= pao →
  ∃ h', switchContext translate old new h = Ok (ld64 (memory h) pan, h') ∧ csrs h' = csrs h ∧
    (∀ r o, (r, o) ∈ slots 0 Context → gprs h' r = ld64 (memory h) (pan + o)) ∧
    (∀ r o, (r, o) ∈ slots 0 Context → ld64 (memory h') (pao + o) = u64 (gprs h r)) ∧
    ∀ a, a < pao ∨ pao + 112 <= a → ld8 (memory h') a = ld8 (memory h) a.
Proof.
  intros Ho Hn Hd. set (g := put A1 new (put A0 old (gprs h))). set (l := slots 0 Context).
  set (m := saved g pao l (memory h)).
  assert (∀ a, a < pao ∨ pao + 112 <= a → ld8 m a = ld8 (memory h) a) as Hm.
  { intros a Ha. apply saved_other. intros [r o] (_ & _ & _ & H0 & H1)%context_slot. simpl. lia. }
  assert (∀ b, pan <= b → b + 8 <= pan + 112 → ld64 m b = ld64 (memory h) b) as Hw.
  { intros b Hb0 Hb. apply ldN_ext. intros i Hi. simpl in Hi. apply Hm. lia. }
  assert (runs (switchContext translate old new) h (λ pc h', pc = ld64 m pan ∧ h' = mkHart (restored m pan l g) (csrs h) m))
    as (pc & h' & E & -> & ->)%runs_inv.
  { unfold switchContext, set_gpr. runs_step. runs_step. runs_step. runs_step.
    apply (runs_switchContext translate _ pao pan); cbn [gprs csrs memory set_gprs].
    - rewrite put_ne, put_eq, wrap_small by (done || (destruct Ho; lia)). exact Ho.
    - rewrite put_eq, wrap_small by (done || (destruct Hn; lia)). exact Hn.
    - done. }
  rewrite Hw in E by lia. eexists. split; [exact E|]. cbn [gprs csrs memory]. split_and!; [done|..|exact Hm].
  - intros r o Hin. destruct (context_slot r o Hin) as (H0 & _ & _ & Ho0 & Ho1).
    etransitivity; [exact (restored_slot m pan l g (r, o) nodup_context Hin H0)|]. apply Hw; simpl; lia.
  - intros r o Hin. destruct (context_slot r o Hin) as (H0 & HA0 & HA1 & _).
    etransitivity; [exact (saved_slot g pao 112 l (memory h) (r, o) placed_context Hin)|].
    unfold g. cbn [fst]. by rewrite !put_ne by done.
Qed.

(** ** Properties *)

(** C14: A switch of contexts saves the one thread and resumes the other; and whoever
    switches back to a saved context resumes its thread where it called
    [switchContext], with its stack pointer and its callee-saved registers, however
    much ran in between and on whatever hart, as long as its [Context] was left
    alone.  Nothing but the [Context] saved to is written. *)
Theorem switch_resumes (translate : Z → Z → option Z) (h : Hart) (old new pao pan : Z)
    (Hok : ∀ r, 0 <= gprs h r < 2 ^ 64)
    (Hold : maps translate (csrs h Riscv.Satp) old pao 112) (Hnew : maps translate (csrs h Riscv.Satp) new pan 112)
    (Hapart : pao + 112 <= pan ∨ pan + 112 <= pao) :
  ∃ h1, switchContext translate old new h = Ok (ld64 (memory h) pan, h1) ∧ csrs h1 = csrs h ∧
    (∀ r o, (r, o) ∈ slots 0 Context → gprs h1 r = ld64 (memory h) (pan + o)) ∧
    (∀ a, a < pao ∨ pao + 112 <= a → ld8 (memory h1) a = ld8 (memory h) a) ∧
    ∀ h2 other pax, maps translate (csrs h2 Riscv.Satp) other pax 112 → maps translate (csrs h2 Riscv.Satp) old pao 112 →
      pao + 112 <= pax ∨ pax + 112 <= pao →
      (∀ a, pao <= a < pao + 112 → ld8 (memory h2) a = ld8 (memory h1) a) →
      ∃ h3, switchContext translate other old h2 = Ok (gprs h Ra, h3) ∧ ∀ r, r ∈ Context → gprs h3 r = gprs h r.
Proof.
  destruct (switchContext_spec translate h old new pao pan Hold Hnew Hapart) as (h1 & E1 & Ec & Hr & Hs & Hm).
  exists h1. split_and!; [done..|]. intros h2 other pax Hx Ho Hd Hk.
  destruct (switchContext_spec translate h2 other old pax pao Hx Ho ltac:(lia)) as (h3 & E3 & _ & Hr3 & _).
  assert (∀ r o, (r, o) ∈ slots 0 Context → ld64 (memory h2) (pao + o) = gprs h r) as Hback.
  { intros r o Hin. rewrite <- (wrap_small 64 (gprs h r)), <- (Hs r o Hin) by apply Hok.
    destruct (context_slot r o Hin) as (_ & _ & _ & H0 & H1). apply ldN_ext. intros i Hi. simpl in Hi. apply Hk. lia. }
  exists h3. split.
  - rewrite E3. do 2 f_equal. rewrite <- (Hback Ra 0) by (left; done). by rewrite Z.add_0_r.
  - intros r ([r' o] & -> & Hin)%(list_elem_of_fmap fst (slots 0 Context)). cbn [fst]. rewrite (Hr3 _ _ Hin). by apply Hback.
Qed.

(** Two threads in the address space of the kernel: the one that runs has its
    context at [0x1000], and the other one at [0x2000] goes on at [0x8000]. *)
Definition demo_hart : Hart :=
  mkHart (λ r, if decide (r = Ra) then 0x4000 else if decide (r = Sp) then 0x9000 else 7) (λ _, 0)
    (st64 ∅ 0x2000 0x8000).

Lemma switch_resumes_witness : ∃ h1 h3,
  switchContext bare 0x1000 0x2000 demo_hart = Ok (0x8000, h1) ∧
  switchContext bare 0x3000 0x1000 h1 = Ok (0x4000, h3) ∧ gprs h3 Sp = 0x9000 ∧ gprs h3 S11 = 7.
Proof.
  destruct (switch_resumes bare demo_hart 0x1000 0x2000 0x1000 0x2000) as (h1 & E1 & _ & _ & _ & Hback).
  - intros r. unfold demo_hart. cbn [gprs]. repeat case_decide; lia.
  - apply maps_bare; lia.
  - apply maps_bare; lia.
  - lia.
  - destruct (Hback h1 0x3000 0x3000) as (h3 & E3 & Hr); [apply maps_bare; lia|apply maps_bare; lia|lia|done|].
    exists h1, h3. split_and!; [exact E1|exact E3|..].
    + apply Hr. do 1 right. left.
    + apply Hr. apply (bool_decide_unpack _). by vm_compute.
Defined.
End Asm.
