(* ===== verification/Page.v ===== *)
(** * The physical page allocator

    [kernel/memory/page.h], [page.cpp] and the allocation path of
    [kernel/lib/new.cpp].  A [Page*] is its physical address, the null pointer
    is [0], and the free list is threaded through the first word of the free
    pages themselves. *)

From S2P Require Import Prelude CString Address.
Import CString Address.

Module Page.

(** ** Definitions *)

Definition KERNEL_BASE : Z := 0x80000000.

Definition physicalAddressStop : Z := KERNEL_BASE + 128 * 1024 * 1024.

(** Physical memory with the static members of [Page]. *)
Record KMem := mkKMem { kmem : pmem; freeList : Z; lastPage : Z }.

Definition set_kmem (m : pmem) (s : KMem) : KMem := mkKMem m (freeList s) (lastPage s).

Section operations.
(** The linker symbol [kernelPages]: the first page after the kernel image. *)
Variable kernelPages : Z.

(** [Page::from]. *)
Definition from (addr : Z) : M KMem Z :=
  assert (addr mod PAGE_SIZE =? 0) ;; mret addr.

(** [page->next = freeList; freeList = page]. *)
Definition push_free (page : Z) (s : KMem) : KMem :=
  mkKMem (st64 (kmem s) page (freeList s)) page (lastPage s).

(** The loop of [Page::initialize]; [fuel] bounds the number of pages. *)
Fixpoint initialize_loop (fuel : nat) (page : Z) : M KMem unit := λ s,
  if page <? lastPage s then
    match fuel with
    | O => Err NoFuel
    | S f =>
        let s1 := set_kmem (memset (kmem s) page 0 PAGE_SIZE) s in
        initialize_loop f (page + PAGE_SIZE) (push_free page s1)
    end
  else Ok (tt, s).

Definition initialize : M KMem unit :=
  last ← from physicalAddressStop;
  modify (λ s, mkKMem (kmem s) (freeList s) last) ;;
  initialize_loop (Z.to_nat (128 * 1024 * 1024 / PAGE_SIZE)) kernelPages.

(** [Page::allocate]. *)
Definition allocate : M KMem Z :=
  s ← get_state;
  let page := freeList s in
  if page =? 0 then fail KernelPanic
  else
    let s1 := mkKMem (kmem s) (ld64 (kmem s) page) (lastPage s) in
    put_state (set_kmem (memset (kmem s1) page 0 PAGE_SIZE) s1) ;;
    mret page.

(** [Page::free], called on the page at address [this]. *)
Definition free (this : Z) : M KMem unit :=
  s ← get_state;
  assert (this mod PAGE_SIZE =? 0) ;;
  assert (kernelPages <=? this) ;;
  assert (this <? lastPage s) ;;
  modify (λ s, set_kmem (memset (kmem s) this 0 PAGE_SIZE) s) ;;
  modify (push_free this).

(** [operator new]: the first of the pages allocated for [size] bytes. *)
Fixpoint allocate_rest (fuel : nat) (offset stop : Z) : M KMem unit :=
  if offset <? stop then
    match fuel with
    | O => fail NoFuel
    | S f => allocate ;; allocate_rest f (offset + PAGE_SIZE) stop
    end
  else mret tt.

Definition operator_new (size : Z) : M KMem Z :=
  assert (0 <? size) ;;
  if size <=? PAGE_SIZE then allocate
  else
    first ← allocate;
    let stop := u64 (u64 (u64 (size + PAGE_SIZE) - 1) / PAGE_SIZE * PAGE_SIZE) in
    allocate_rest (Z.to_nat (size / PAGE_SIZE + 1)) PAGE_SIZE stop ;;
    mret first.

(** ** Invariant *)

(** The free list starting at [head] consists of the pages [l], in order. *)
Fixpoint chain (m : pmem) (head : Z) (l : list Z) : Prop :=
  match l with
  | [] => head = 0
  | p :: l' => head = p ∧ chain m (ld64 m p) l'
  end.

Definition is_page (s : KMem) (p : Z) : Prop :=
  p mod PAGE_SIZE = 0 ∧ kernelPages <= p < lastPage s.

(** [l] is the free list of [s]. *)
Record inv (s : KMem) (l : list Z) : Prop := {
  inv_bounds : 0 < kernelPages ∧ lastPage s < 2 ^ 64;
  inv_chain : chain (kmem s) (freeList s) l;
  inv_nodup : NoDup l;
  inv_pages : Forall (is_page s) l;
}.
End operations.

(** The pages [start], [start + 4096], ... below [stop]. *)
Fixpoint pages_from (n : nat) (start : Z) : list Z :=
  match n with
  | O => []
  | S n' => start :: pages_from n' (start + PAGE_SIZE)
  end.

(** ** Lemmas *)

(** Two addresses in different pages. *)
Lemma page_disjoint p q a :
  p mod PAGE_SIZE = 0 → q mod PAGE_SIZE = 0 → p ≠ q →
  p <= a < p + PAGE_SIZE → a < q ∨ q + PAGE_SIZE <= a.
Proof. unfold PAGE_SIZE. intros. dlia. Qed.

(** The chain only depends on the first word of the free pages. *)
Lemma chain_ext m m' head l :
  (∀ p i, p ∈ l → 0 <= i < 8 → ld8 m' (p + i) = ld8 m (p + i)) →
  chain m head l → chain m' head l.
Proof.
  revert head; induction l as [|p l IH]; intros head Hm; [done|].
  cbn [chain]. intros [-> Hc]. split; [done|].
  assert (ld64 m' p = ld64 m p) as ->.
  { apply ldN_ext. intros i Hi. apply Hm; [left|done]. }
  apply IH; [|done]. intros q i Hq. apply Hm. by right.
Qed.

Lemma chain_write_page m m' head l p :
  Forall (λ q, q mod PAGE_SIZE = 0) l → p mod PAGE_SIZE = 0 → p ∉ l →
  (∀ a, a < p ∨ p + PAGE_SIZE <= a → ld8 m' a = ld8 m a) →
  chain m head l → chain m' head l.
Proof.
  intros Hl Hp Hn Hm. apply chain_ext. intros q i Hq Hi. apply Hm.
  rewrite Forall_forall in Hl. specialize (Hl q Hq).
  assert (p ≠ q) by congruence.
  apply (page_disjoint q p); auto. unfold PAGE_SIZE. lia.
Qed.

Lemma ld8_memset_page (m : pmem) p a :
  ld8 (memset m p 0 PAGE_SIZE) a =
  if decide (p <= a < p + PAGE_SIZE - 1) then 0 else ld8 m a.
Proof.
  case_decide as Ha.
  - replace a with (p + (a - p)) by lia.
    rewrite ld8_memset_eq; [done|by vm_compute|done|unfold PAGE_SIZE in *; lia].
  - apply ld8_memset_ne; [by vm_compute|unfold PAGE_SIZE in *; lia].
Qed.

Section lemmas.
Variable kernelPages : Z.

Lemma inv_aligned s l : inv kernelPages s l → Forall (λ q, q mod PAGE_SIZE = 0) l.
Proof.
  intros Hi. eapply Forall_impl; [apply (inv_pages _ _ _ Hi)|]. by intros q [? _].
Qed.

Lemma inv_page s l p : inv kernelPages s l → p ∈ l → is_page kernelPages s p.
Proof. intros Hi. apply Forall_forall, (inv_pages _ _ _ Hi). Qed.

(** Writing a page that is not free keeps the free list. *)
Lemma inv_write_page s m l p :
  inv kernelPages s l → p mod PAGE_SIZE = 0 → p ∉ l →
  (∀ a, a < p ∨ p + PAGE_SIZE <= a → ld8 m a = ld8 (kmem s) a) →
  inv kernelPages (set_kmem m s) l.
Proof.
  intros Hi Hp Hn Hm. split; simpl; try apply Hi.
  apply (chain_write_page (kmem s) _ _ _ p); auto; [by eapply inv_aligned|apply Hi].
Qed.

Lemma inv_push s l p :
  inv kernelPages s l → is_page kernelPages s p → p ∉ l →
  inv kernelPages (push_free p s) (p :: l).
Proof.
  intros Hi [Hal Hr] Hn. destruct (inv_bounds _ _ _ Hi) as [Hk Hl]. split; simpl.
  - done.
  - split; [done|]. rewrite ldN_stN_eq by done.
    assert (0 <= freeList s < 2 ^ (8 * Z.of_nat 8)) as Hfl.
    { change (8 * Z.of_nat 8) with 64. destruct l as [|q l]; pose proof (inv_chain _ _ _ Hi) as Hc; simpl in Hc.
      - lia.
      - destruct Hc as [-> _].
        destruct (inv_page s (q :: l) q Hi) as [_ ?]; [left|]. lia. }
    rewrite Z.mod_small by done.
    apply (chain_write_page (kmem s) _ _ _ p); auto; [by eapply inv_aligned| |apply Hi].
    intros a Ha. apply ld8_stN_ne. unfold PAGE_SIZE in Ha. simpl. lia.
  - constructor; [done|apply Hi].
  - constructor; [done|apply Hi].
Qed.

Lemma ld8_push_free p s a :
  a < p ∨ p + 8 <= a → ld8 (kmem (push_free p s)) a = ld8 (kmem s) a.
Proof. intros Ha. apply ld8_stN_ne. simpl. lia. Qed.

(** The result of [allocate] on a state with free list [p :: l]. *)
Lemma allocate_ok s p l : inv kernelPages s (p :: l) →
  ∃ s', allocate s = Ok (p, s') ∧ inv kernelPages s' l ∧
    lastPage s' = lastPage s ∧
    ∀ a, ld8 (kmem s') a = if decide (p <= a < p + PAGE_SIZE - 1) then 0 else ld8 (kmem s) a.
Proof.
  intros Hi. destruct (inv_page s (p :: l) p Hi) as [Hal Hr]; [left|].
  destruct Hi as [Hb [Hf Hc] Hnd Hp]. rewrite NoDup_cons in Hnd. rewrite Forall_cons in Hp.
  assert (p ≠ 0) as Hp0 by lia.
  unfold allocate, get_state, mbind, M_bind. rewrite Hf, (proj2 (Z.eqb_neq p 0) Hp0). simpl.
  eexists. split_and!; [reflexivity| |done|intros a; apply ld8_memset_page].
  apply (inv_write_page (mkKMem (kmem s) (ld64 (kmem s) p) (lastPage s)) _ _ p).
  - split; simpl; [done|done|apply Hnd|apply Hp].
  - done.
  - apply Hnd.
  - intros a Ha. cbn [kmem set_kmem]. rewrite ld8_memset_page. rewrite decide_False; [done|lia].
Qed.

Lemma allocate_empty s : inv kernelPages s [] → allocate s = Err KernelPanic.
Proof.
  intros Hi. unfold allocate, get_state, mbind, M_bind.
  by rewrite (inv_chain _ _ _ Hi).
Qed.

Lemma free_ok s p l :
  inv kernelPages s l → is_page kernelPages s p → p ∉ l →
  ∃ s', free kernelPages p s = Ok (tt, s') ∧ inv kernelPages s' (p :: l) ∧
    lastPage s' = lastPage s ∧
    ∀ a, a < p ∨ p + PAGE_SIZE - 1 <= a → ld8 (kmem s') a = ld8 (kmem s) a.
Proof.
  intros Hi [Hal Hr] Hn. unfold free, get_state, mbind, M_bind, assert, modify, mret, M_ret.
  rewrite (proj2 (Z.eqb_eq _ _) Hal), (proj2 (Z.leb_le kernelPages p)),
    (proj2 (Z.ltb_lt p (lastPage s))) by lia. simpl.
  set (s1 := set_kmem (memset (kmem s) p 0 PAGE_SIZE) s).
  exists (push_free p s1). split_and!; [done| |done|].
  - apply inv_push; [|done|done]. apply (inv_write_page s _ _ p); auto.
    intros a Ha. rewrite ld8_memset_page. rewrite decide_False; [done|lia].
  - intros a Ha. rewrite ld8_push_free by (unfold PAGE_SIZE in Ha; lia).
    unfold s1. cbn [kmem set_kmem].
    rewrite ld8_memset_page. rewrite decide_False; [done|lia].
Qed.

Lemma initialize_loop_ok n fuel s l page :
  (n <= fuel)%nat → inv kernelPages s l → page mod PAGE_SIZE = 0 → kernelPages <= page →
  lastPage s = page + PAGE_SIZE * Z.of_nat n → Forall (λ p, p < page) l →
  ∃ s', initialize_loop fuel page s = Ok (tt, s') ∧
    inv kernelPages s' (reverse (pages_from n page) ++ l).
Proof.
  revert fuel s l page; induction n as [|n IH]; intros fuel s l page Hf Hi Hal Hk Hlast Hl.
  { exists s. split; [|done].
    destruct fuel; cbn [initialize_loop];
      by rewrite (proj2 (Z.ltb_ge page (lastPage s))) by lia. }
  destruct fuel as [|fuel]; [lia|]. cbn [initialize_loop].
  unfold PAGE_SIZE in Hlast.
  rewrite (proj2 (Z.ltb_lt page (lastPage s))) by lia.
  assert (page ∉ l) as Hn.
  { intros Hin. rewrite Forall_forall in Hl. specialize (Hl page Hin). lia. }
  destruct (IH fuel (push_free page (set_kmem (memset (kmem s) page 0 PAGE_SIZE) s))
              (page :: l) (page + PAGE_SIZE)) as (s' & E & Hi').
  - lia.
  - apply inv_push; [|split; [done|simpl; lia]|done]. apply (inv_write_page s _ _ page); auto.
    intros a Ha. rewrite ld8_memset_page. rewrite decide_False; [done|lia].
  - unfold PAGE_SIZE in *. dlia.
  - unfold PAGE_SIZE. lia.
  - simpl. unfold PAGE_SIZE. lia.
  - unfold PAGE_SIZE. constructor; [lia|].
    eapply Forall_impl; [exact Hl|]. simpl. lia.
  - exists s'. split; [exact E|]. cbn [pages_from]. rewrite reverse_cons, <- app_assoc. done.
Qed.

Lemma elem_of_pages_from n start p :
  p ∈ pages_from n start ↔
  ∃ i, 0 <= i < Z.of_nat n ∧ p = start + PAGE_SIZE * i.
Proof.
  revert start; induction n as [|n IH]; intros start; cbn [pages_from].
  { split; [by intros ?%not_elem_of_nil|intros (i & ? & _); lia]. }
  rewrite elem_of_cons, IH. split.
  - intros [->|(i & Hi & ->)]; [exists 0; lia|]. exists (i + 1). lia.
  - intros (i & Hi & ->). destruct (decide (i = 0)); [left; lia|].
    right. exists (i - 1). lia.
Qed.
End lemmas.

(** ** Properties *)

(** [Page::initialize] builds a well-formed free list that holds each page
    between the end of the kernel image and the end of memory exactly once. *)
Theorem initialize_correct (kernelPages : Z) (m : pmem)
    (Hal : kernelPages mod PAGE_SIZE = 0)
    (Hrange : KERNEL_BASE <= kernelPages <= physicalAddressStop) :
  ∃ s l, initialize kernelPages (mkKMem m 0 0) = Ok (tt, s) ∧
    inv kernelPages s l ∧
    (∀ p, p ∈ l ↔ p mod PAGE_SIZE = 0 ∧ kernelPages <= p < physicalAddressStop).
Proof.
  change KERNEL_BASE with 2147483648 in *. change physicalAddressStop with 2281701376 in *.
  set (n := Z.to_nat ((2281701376 - kernelPages) / PAGE_SIZE)).
  assert (2281701376 = kernelPages + PAGE_SIZE * Z.of_nat n) as Hn.
  { unfold n, PAGE_SIZE in *. dlia. }
  destruct (initialize_loop_ok kernelPages n (Z.to_nat (128 * 1024 * 1024 / PAGE_SIZE)) (mkKMem m 0 2281701376) [] kernelPages)
    as (s & E & Hi).
  - change (128 * 1024 * 1024 / PAGE_SIZE) with 32768. unfold PAGE_SIZE in *. lia.
  - split; simpl; [lia|done|constructor|constructor].
  - done.
  - lia.
  - done.
  - constructor.
  - exists s, (reverse (pages_from n kernelPages)). rewrite app_nil_r in Hi.
    split_and!; [exact E|done|].
    intros p. rewrite elem_of_reverse, elem_of_pages_from. unfold PAGE_SIZE in *. split.
    + intros (i & Hi' & ->). dlia.
    + intros (Hp & Hr). exists ((p - kernelPages) / 4096). dlia.
Qed.

Lemma initialize_correct_witness :
  ∃ s l, initialize 0x87fff000 (mkKMem ∅ 0 0) = Ok (tt, s) ∧
    inv 0x87fff000 s l ∧
    (∀ p, p ∈ l ↔ p mod PAGE_SIZE = 0 ∧ 0x87fff000 <= p < physicalAddressStop).
Proof. apply (initialize_correct 0x87fff000 ∅); vm_compute; [done|split; congruence]. Defined.

(** [Page::allocate] hands out the first page of the free list: the page is
    aligned and in range, is not on the list any more, its bytes are zero except
    the last one, which keeps its old value, and no other byte of memory
    changes; on an empty list it panics. *)
Theorem allocate_correct (kernelPages : Z) (s : KMem) (l : list Z)
    (Hinv : inv kernelPages s l) :
  match l with
  | [] => allocate s = Err KernelPanic
  | p :: l' => ∃ s', allocate s = Ok (p, s') ∧ inv kernelPages s' l' ∧
      is_page kernelPages s p ∧ p ∉ l' ∧
      (∀ i, 0 <= i < PAGE_SIZE - 1 → ld8 (kmem s') (p + i) = 0) ∧
      ld8 (kmem s') (p + PAGE_SIZE - 1) = ld8 (kmem s) (p + PAGE_SIZE - 1) ∧
      (∀ a, a < p ∨ p + PAGE_SIZE <= a → ld8 (kmem s') a = ld8 (kmem s) a)
  end.
Proof.
  destruct l as [|p l]; [by apply (allocate_empty kernelPages)|].
  destruct (allocate_ok kernelPages s p l Hinv) as (s' & E & Hi' & _ & Hm).
  exists s'. pose proof (inv_nodup _ _ _ Hinv) as Hnd. rewrite NoDup_cons in Hnd.
  split_and!; [done|done|apply (inv_page kernelPages s (p :: l) p Hinv); left|apply Hnd|..].
  - intros i Hi. rewrite Hm, decide_True; [done|lia].
  - rewrite Hm, decide_False; [done|lia].
  - intros a Ha. rewrite Hm, decide_False; [done|lia].
Qed.

Lemma allocate_correct_witness :
  let s := mkKMem (st64 ∅ 0x1000 0) 0x1000 0x2000 in
  ∃ s', allocate s = Ok (0x1000, s') ∧ inv 0x1000 s' [].
Proof.
  intros s. destruct (allocate_correct 0x1000 s [0x1000]) as (s' & E & Hi & _).
  - split; simpl; [by vm_compute|split; [done|by vm_compute]|apply NoDup_singleton|].
    constructor; [|constructor]. split; [done|]. vm_compute. split; congruence.
  - eauto.
Defined.

(** [Page::free] of an allocated page keeps the free list well formed and
    puts the page at its head, so the next [Page::allocate] returns that page
    and restores the list. *)
Theorem free_allocate (kernelPages : Z) (s : KMem) (l : list Z) (p : Z)
    (Hinv : inv kernelPages s l) (Hpage : is_page kernelPages s p) (Hnew : p ∉ l) :
  ∃ s1 s2, free kernelPages p s = Ok (tt, s1) ∧ inv kernelPages s1 (p :: l) ∧
    allocate s1 = Ok (p, s2) ∧ inv kernelPages s2 l.
Proof.
  destruct (free_ok kernelPages s p l Hinv Hpage Hnew) as (s1 & E1 & Hi1 & _).
  destruct (allocate_ok kernelPages s1 p l Hi1) as (s2 & E2 & Hi2 & _).
  exists s1, s2. done.
Qed.

Lemma free_allocate_witness :
  let s := mkKMem ∅ 0 0x3000 in
  ∃ s1 s2, free 0x1000 0x2000 s = Ok (tt, s1) ∧ inv 0x1000 s1 [0x2000] ∧
    allocate s1 = Ok (0x2000, s2) ∧ inv 0x1000 s2 [].
Proof.
  intros s. apply (free_allocate 0x1000 s [] 0x2000).
  - split; simpl; [by vm_compute|done|constructor|constructor].
  - split; [done|]. vm_compute. split; congruence.
  - apply not_elem_of_nil.
Defined.

End Page.
