(* ===== verification/PageTable.v ===== *)
(** * Page tables

    [kernel/memory/page_table.h] and [page_table.cpp]: the Sv39 page tables the
    kernel builds in physical memory.  A [PageTable*] and a [PageTableEntry*]
    are physical addresses (the kernel maps physical memory one to one); the
    null pointer is [0].  The kernel-side buffers of the copy routines are byte
    lists. *)

From S2P Require Import Prelude CString Address Page.
Import CString Address Page.

Module PageTable.

(** ** Definitions *)

(** The index field of the address that [getEntry] selects by [level]. *)
Definition vpn (level va : Z) : Z :=
  if level =? 0 then vpn0 va else if level =? 1 then vpn1 va else vpn2 va.

(** [&entry + vpn]. *)
Definition getEntry (pageTable level va : Z) : M KMem Z :=
  assert ((0 <=? level) && (level <=? 2)) ;;
  mret (pageTable + 8 * vpn level va).

(** [new (pageTable) PageTable()]: the constructor clears the first entry. *)
Definition construct (pageTable : Z) : M KMem unit :=
  modify (λ s, set_kmem (st64 (kmem s) pageTable 0) s).

(** [new PageTable()], a table of its own page ([sizeof(PageTable)] is 8). *)
Definition new_table : M KMem Z :=
  p ← operator_new 8; construct p ;; mret p.

(** One iteration of the loop of [walk]: the table of the next level, or null. *)
Definition walk_level (level pageTable va : Z) (alloc : bool) : M KMem (option Z) :=
  pte ← getEntry pageTable level va;
  raw ← gets (λ s, ld64 (kmem s) pte);
  if pte_v raw then
    next ← from (toPhysicalAddress raw);
    mret (Some next)
  else if negb alloc then mret None
  else
    next ← allocate;
    construct next ;;
    modify (λ s, set_kmem (st64 (kmem s) pte (fromPhysicalAddress next)) s) ;;
    modify (λ s, set_kmem (st64 (kmem s) pte (set_v (ld64 (kmem s) pte))) s) ;;
    mret (Some next).

(** [PageTable::walk]: levels 2 and 1, then the entry of level 0. *)
Definition walk (this va : Z) (alloc : bool) : M KMem Z :=
  assert (va <? MAX_VIRTUAL_ADDRESS) ;;
  t1 ← walk_level 2 this va alloc;
  match t1 with
  | None => mret 0
  | Some t1 =>
      t0 ← walk_level 1 t1 va alloc;
      match t0 with
      | None => mret 0
      | Some t0 => getEntry t0 0 va
      end
  end.

(** The loop of [map], on one page per iteration. *)
Fixpoint map_loop (fuel : nat) (this va last pa flags : Z) : M KMem bool :=
  match fuel with
  | O => fail NoFuel
  | S f =>
      pte ← walk this va true;
      if pte =? 0 then mret false
      else
        raw ← gets (λ s, ld64 (kmem s) pte);
        assert (negb (pte_v raw)) ;;
        modify (λ s, set_kmem (st64 (kmem s) pte (Z.lor (ld64 (kmem s) pte) flags)) s) ;;
        modify (λ s, set_kmem (st64 (kmem s) pte (set_v (ld64 (kmem s) pte))) s) ;;
        modify (λ s, set_kmem (st64 (kmem s) pte
          (Z.lor (ld64 (kmem s) pte) (u64 (Z.shiftl (Z.shiftr pa 12) 10)))) s) ;;
        if va =? last then mret true
        else map_loop f this (u64 (va + PAGE_SIZE)) last (u64 (pa + PAGE_SIZE)) flags
  end.

Definition map (this va size pa flags : Z) : M KMem bool :=
  assert (negb (size =? 0)) ;;
  let last := roundDown (u64 (u64 (va + size) - 1)) in
  map_loop (Z.to_nat (size / PAGE_SIZE + 2)) this (roundDown va) last pa flags.

(** [unmap] is not implemented: its body returns at once. *)
Definition unmap (this va numPages : Z) (doFree : bool) : M KMem unit := mret tt.

Definition walkAddress (this va : Z) : M KMem Z :=
  if MAX_VIRTUAL_ADDRESS <=? va then mret 0
  else
    pte ← walk this va false;
    if pte =? 0 then mret 0
    else
      raw ← gets (λ s, ld64 (kmem s) pte);
      if negb (pte_v raw) then mret 0
      else if negb (pte_u raw) then mret 0
      else mret (toPhysicalAddress raw).

(** The number of bytes one iteration of a copy loop handles. *)
Definition chunk (addr va len : Z) : Z :=
  let n := u64 (PAGE_SIZE - va_sub addr va) in
  if len <? n then len else n.

(** [copyout(dst, src, len)], where [src] is the list of the [len] bytes. *)
Fixpoint copyout_loop (fuel : nat) (this dst : Z) (src : bytes) : M KMem bool :=
  match src with
  | [] => mret true
  | _ =>
      match fuel with
      | O => fail NoFuel
      | S f =>
          let va := roundDown dst in
          pa ← walkAddress this va;
          if pa =? 0 then mret false
          else
            let n := Z.to_nat (chunk dst va (Z.of_nat (length src))) in
            modify (λ s, set_kmem (put_bytes (kmem s) (u64 (pa + va_sub dst va)) (take n src)) s) ;;
            copyout_loop f this (va_add va PAGE_SIZE) (drop n src)
      end
  end.

Definition copyout (this dst : Z) (src : bytes) : M KMem bool :=
  copyout_loop (length src) this dst src.

(** [copyin(dst, src, len)]: the result and the bytes stored at [dst]. *)
Fixpoint copyin_loop (fuel : nat) (this src len : Z) : M KMem (bool * bytes) :=
  if 0 <? len then
    match fuel with
    | O => fail NoFuel
    | S f =>
        let va := roundDown src in
        pa ← walkAddress this va;
        if pa =? 0 then mret (false, [])
        else
          let n := chunk src va len in
          got ← gets (λ s, get_bytes (Z.to_nat n) (kmem s) (u64 (pa + va_sub src va)));
          rest ← copyin_loop f this (va_add va PAGE_SIZE) (len - n);
          mret (fst rest, got ++ snd rest)
    end
  else mret (true, []).

Definition copyin (this src len : Z) : M KMem (bool * bytes) :=
  copyin_loop (Z.to_nat len) this src len.

(** The inner loop of [copyinString]: bytes up to and including a NUL, and
    whether it was found within [n] bytes. *)
Fixpoint string_chunk (n : nat) (m : pmem) (p : Z) : bool * bytes :=
  match n with
  | O => (false, [])
  | S n' =>
      if ld8 m p =? 0 then (true, [0])
      else let '(found, bs) := string_chunk n' m (p + 1) in (found, ld8 m p :: bs)
  end.

Fixpoint copyinString_loop (fuel : nat) (this src len : Z) : M KMem (bool * bytes) :=
  if 0 <? len then
    match fuel with
    | O => fail NoFuel
    | S f =>
        let va := roundDown src in
        pa ← walkAddress this va;
        if pa =? 0 then mret (false, [])
        else
          let n := chunk src va len in
          got ← gets (A := bool * bytes)
            (λ s, string_chunk (Z.to_nat n) (kmem s) (u64 (pa + va_sub src va)));
          if (fst got : bool) then mret (true, snd got)
          else
            rest ← copyinString_loop f this (va_add va PAGE_SIZE) (len - n);
            mret (fst rest, snd got ++ snd rest)
    end
  else mret (false, []).

Definition copyinString (this src len : Z) : M KMem (bool * bytes) :=
  copyinString_loop (Z.to_nat len) this src len.

(** [SATP_SV39 | (this >> 12)]. *)
Definition makeSatp (this : Z) : Z := Z.lor (Z.shiftl 8 60) (Z.shiftr this 12).

(** ** Invariant

    [N] gives the table page of each path of indices from the root: the root
    table at [[]], the level-1 tables at [[i]], the level-0 tables at [[i; j]].
    [l] is the free list of the page allocator. *)

Section invariant.
Variable kernelPages : Z.

Definition in_page (p a : Z) : Prop := p <= a < p + PAGE_SIZE.

Record wf (s : KMem) (N : gmap (list Z) Z) (l : list Z) : Prop := {
  wf_free : Page.inv kernelPages s l;
  wf_clean : ∀ p, p ∈ l → ld8 (kmem s) (p + PAGE_SIZE - 1) = 0;
  wf_node : ∀ (π : list Z) (p : Z), N !! π = Some p →
    is_page kernelPages s p ∧ p ∉ l ∧ (length π <= 2)%nat;
  wf_inj : ∀ (π π' : list Z) (p : Z), N !! π = Some p → N !! π' = Some p → π = π';
  wf_prefix : ∀ (π : list Z) (i p : Z), N !! (π ++ [i]) = Some p → is_Some (N !! π) ∧ 0 <= i < 512;
  wf_child : ∀ (π : list Z) (p i : Z), N !! π = Some p → (length π < 2)%nat → 0 <= i < 512 →
    let e := ld64 (kmem s) (p + 8 * i) in
    match N !! (π ++ [i]) with
    | Some q => pte_v e = true ∧ toPhysicalAddress e = q
    | None => pte_v e = false
    end;
  wf_leaf : ∀ (π : list Z) (p i : Z), N !! π = Some p → length π = 2%nat → 0 <= i < 512 →
    let e := ld64 (kmem s) (p + 8 * i) in pte_v e = true ∨ e = 0;
}.

(** The valid leaf entry for the page of [va], if there is one: what the Sv39
    translation of [va] finds. *)
Definition mapping (m : pmem) (N : gmap (list Z) Z) (va : Z) : option Z :=
  match N !! [vpn2 va; vpn1 va] with
  | Some q => let e := ld64 m (q + 8 * vpn0 va) in if pte_v e then Some e else None
  | None => None
  end.

(** The physical address of the byte that user address [va] denotes. *)
Definition user_pa (m : pmem) (N : gmap (list Z) Z) (va : Z) : option Z :=
  if (0 <=? va) && (va <? MAX_VIRTUAL_ADDRESS) then
    match mapping m N va with
    | Some e =>
        if pte_u e && negb (toPhysicalAddress e =? 0)
        then Some (toPhysicalAddress e + va mod PAGE_SIZE) else None
    | None => None
    end
  else None.

(** Reading user memory one byte at a time. *)
Fixpoint user_read (n : nat) (m : pmem) (N : gmap (list Z) Z) (va : Z) : option bytes :=
  match n with
  | O => Some []
  | S n' =>
      pa ← user_pa m N va;
      rest ← user_read n' m N (va + 1);
      Some (ld8 m pa :: rest)
  end.

(** Reading a NUL-terminated user string of at most [n] bytes one byte at a
    time: whether the NUL was reached, and the bytes read. *)
Fixpoint user_string (n : nat) (m : pmem) (N : gmap (list Z) Z) (va : Z) : bool * bytes :=
  match n with
  | O => (false, [])
  | S n' =>
      match user_pa m N va with
      | None => (false, [])
      | Some pa =>
          if ld8 m pa =? 0 then (true, [0])
          else let '(b, bs) := user_string n' m N (va + 1) in (b, ld8 m pa :: bs)
      end
  end.

(** User memory does not overlap the page tables or the free pages, and no
    physical byte is mapped at two user addresses. *)
Record separated (s : KMem) (N : gmap (list Z) Z) (l : list Z) : Prop := {
  sep_tables : ∀ va pa (π : list Z) p, user_pa (kmem s) N va = Some pa →
    N !! π = Some p → ¬ in_page p pa;
  sep_free : ∀ va pa p, user_pa (kmem s) N va = Some pa → p ∈ l → ¬ in_page p pa;
  sep_inj : ∀ va va' pa, user_pa (kmem s) N va = Some pa →
    user_pa (kmem s) N va' = Some pa → va = va';
}.

(** The entry [map] installs for physical page [pa]. *)
Definition leaf_entry (pa fl : Z) : Z := Z.lor (set_v (Z.lor 0 fl)) (fromPhysicalAddress pa).
End invariant.

(** ** Lemmas *)

Lemma vpn_range level va : 0 <= vpn level va < 512.
Proof.
  unfold vpn. rewrite vpn0_spec, vpn1_spec, vpn2_spec.
  destruct (level =? 0), (level =? 1); apply Z.mod_pos_bound; lia.
Qed.

Lemma vpn2_range va : 0 <= vpn2 va < 512.
Proof. apply (vpn_range 2). Qed.

Lemma vpn1_range va : 0 <= vpn1 va < 512.
Proof. apply (vpn_range 1). Qed.

Lemma vpn0_range va : 0 <= vpn0 va < 512.
Proof. apply (vpn_range 0). Qed.

(** Entries of page-aligned tables are the same slot, or do not overlap. *)
Lemma entry_disjoint p i p' i' :
  p mod PAGE_SIZE = 0 → p' mod PAGE_SIZE = 0 →
  0 <= i < 512 → 0 <= i' < 512 → p ≠ p' ∨ i ≠ i' →
  p + 8 * i + 8 <= p' + 8 * i' ∨ p' + 8 * i' + 8 <= p + 8 * i.
Proof. unfold PAGE_SIZE. intros. dlia. Qed.

(** Pages that differ do not share a byte. *)
Lemma in_page_ne p q a :
  p mod PAGE_SIZE = 0 → q mod PAGE_SIZE = 0 → p ≠ q → in_page p a → ¬ in_page q a.
Proof. unfold in_page, PAGE_SIZE. intros. dlia. Qed.

Lemma entry_in_page p i k : 0 <= i < 512 → 0 <= k < 8 → in_page p (p + 8 * i + k).
Proof. unfold in_page, PAGE_SIZE. lia. Qed.

Section lemmas.
Variable kernelPages : Z.
Abbreviation wf := (wf kernelPages).

Lemma wf_aligned s N l π p : wf s N l → N !! π = Some p → p mod PAGE_SIZE = 0.
Proof. intros Hw Hp. by destruct (wf_node _ _ _ _ Hw π p Hp) as [[? _] _]. Qed.

Lemma wf_bounds s N l π p : wf s N l → N !! π = Some p → 0 < p < 2 ^ 64.
Proof.
  intros Hw Hp. destruct (wf_node _ _ _ _ Hw π p Hp) as [[_ Hr] _].
  destruct (inv_bounds _ _ _ (wf_free _ _ _ _ Hw)). lia.
Qed.

Lemma walk_level_present s N l π p level va alloc q :
  wf s N l → N !! π = Some p → (length π < 2)%nat → 0 <= level <= 2 →
  N !! (π ++ [vpn level va]) = Some q →
  walk_level level p va alloc s = Ok (Some q, s).
Proof.
  intros Hw Hp Hlen Hlev Hq.
  pose proof (wf_child _ _ _ _ Hw π p (vpn level va) Hp Hlen (vpn_range level va)) as Hc.
  simpl in Hc. rewrite Hq in Hc. destruct Hc as [Hv Ha].
  unfold walk_level, getEntry, from, gets, assert, mbind, M_bind, mret, M_ret.
  rewrite (proj2 (andb_true_iff (0 <=? level) (level <=? 2))) by (split; lia).
  rewrite Hv, Ha, (proj2 (Z.eqb_eq _ _) (wf_aligned _ _ _ _ _ Hw Hq)). done.
Qed.

Lemma walk_level_absent s N l π p level va :
  wf s N l → N !! π = Some p → (length π < 2)%nat → 0 <= level <= 2 →
  N !! (π ++ [vpn level va]) = None →
  walk_level level p va false s = Ok (None, s).
Proof.
  intros Hw Hp Hlen Hlev Hq.
  pose proof (wf_child _ _ _ _ Hw π p (vpn level va) Hp Hlen (vpn_range level va)) as Hc.
  simpl in Hc. rewrite Hq in Hc.
  unfold walk_level, getEntry, gets, assert, mbind, M_bind, mret, M_ret.
  rewrite (proj2 (andb_true_iff (0 <=? level) (level <=? 2))) by (split; lia).
  by rewrite Hc.
Qed.

(** The read-only walk finds the address of the level-0 entry, or null. *)
Lemma walk_read s N l root va :
  wf s N l → N !! [] = Some root → va < MAX_VIRTUAL_ADDRESS →
  walk root va false s =
  Ok (match N !! [vpn2 va; vpn1 va] with Some q => q + 8 * vpn0 va | None => 0 end, s).
Proof.
  intros Hw Hroot Hva. unfold walk, assert.
  rewrite (proj2 (Z.ltb_lt _ _) Hva). unfold mbind at 1, M_bind at 1, mret at 1, M_ret at 1.
  destruct (N !! [vpn2 va]) as [t1|] eqn:E1.
  - erewrite bind_ok by (eapply walk_level_present; eauto with lia; done).
    destruct (N !! [vpn2 va; vpn1 va]) as [t0|] eqn:E0.
    + erewrite bind_ok by (eapply (walk_level_present _ _ _ [vpn2 va]); eauto; simpl; lia).
      done.
    + erewrite bind_ok by (eapply (walk_level_absent _ _ _ [vpn2 va]); eauto; simpl; lia).
      done.
  - erewrite bind_ok by (eapply walk_level_absent; eauto with lia; done).
    destruct (N !! [vpn2 va; vpn1 va]) as [t0|] eqn:E0; [|done].
    destruct (wf_prefix _ _ _ _ Hw [vpn2 va] (vpn1 va) t0 E0) as [[? ?] _]. congruence.
Qed.

(** Writing eight bytes of one entry of a table leaves the other entries of
    all tables alone. *)
Lemma entry_frame s N l (m : pmem) π p i π' p' i' :
  wf s N l → N !! π = Some p → N !! π' = Some p' →
  0 <= i < 512 → 0 <= i' < 512 → π ≠ π' ∨ i ≠ i' →
  (∀ a, in_page p' a → a < p + 8 * i ∨ p + 8 * i + 8 <= a → ld8 m a = ld8 (kmem s) a) →
  ld64 m (p' + 8 * i') = ld64 (kmem s) (p' + 8 * i').
Proof.
  intros Hw Hp Hp' Hi Hi' Hne Hm. apply ldN_ext. intros k Hk. simpl in Hk.
  apply Hm; [by apply entry_in_page|].
  destruct (entry_disjoint p i p' i') as [?|?]; auto; try lia.
  - by apply (wf_aligned _ _ _ _ _ Hw Hp).
  - by apply (wf_aligned _ _ _ _ _ Hw Hp').
  - destruct Hne as [Hne|]; [|by right]. left. intros ->.
    by apply Hne, (wf_inj _ _ _ _ Hw _ _ p').
Qed.

(** The memory after a walk linked the fresh table [q] into entry [i] of the
    table [p] at path [π]. *)
Record linked (s s' : KMem) (p i q : Z) : Prop := {
  linked_last : lastPage s' = lastPage s;
  linked_zero : ∀ a, in_page q a → ld8 (kmem s') a = 0;
  linked_entry : ld64 (kmem s') (p + 8 * i) = set_v (fromPhysicalAddress q);
  linked_frame : ∀ a, ¬ in_page q a → a < p + 8 * i ∨ p + 8 * i + 8 <= a →
    ld8 (kmem s') a = ld8 (kmem s) a;
}.

Lemma set_v_from q : 0 <= q < 2 ^ 64 → q mod PAGE_SIZE = 0 →
  pte_v (set_v (fromPhysicalAddress q)) = true ∧
  toPhysicalAddress (set_v (fromPhysicalAddress q)) = q.
Proof.
  intros Hq Hal.
  destruct (entry_low (set_v (fromPhysicalAddress q)) (q / 4096) 1) as (Hh & _ & _ & Hb).
  - lia.
  - unfold set_v. rewrite fromPhysicalAddress_spec by done.
    apply (lor_high_low (q / 4096) 1 10); lia.
  - unfold pte_v. rewrite Hb by lia. split; [done|].
    rewrite toPhysicalAddress_spec, Hh. unfold PAGE_SIZE in Hal.
    rewrite Z.mod_small by dlia. dlia.
Qed.

Lemma zero_entry (m : pmem) q i : 0 <= i < 512 → (∀ a, in_page q a → ld8 m a = 0) → ld64 m (q + 8 * i) = 0.
Proof.
  intros Hi Hz. transitivity (ld64 (∅ : pmem) 0); [|done].
  apply ldN_ext. intros k Hk. rewrite Hz by (apply entry_in_page; simpl in *; lia).
  unfold ld8; simpl. by rewrite lookup_empty.
Qed.

(** The tables of a tree are not the page [q] at the head of the free list. *)
Lemma wf_head s N l q : wf s N (q :: l) → is_page kernelPages s q ∧ 0 <= q < 2 ^ 64 ∧ q ∉ l ∧
  ∀ π' p', N !! π' = Some p' → p' ≠ q.
Proof.
  intros Hw. pose proof (inv_page _ _ _ q (wf_free _ _ _ _ Hw) ltac:(left)) as Hq. split_and!; [done|..].
  - destruct (inv_bounds _ _ _ (wf_free _ _ _ _ Hw)), Hq. lia.
  - destruct (inv_bounds _ _ _ (wf_free _ _ _ _ Hw)), Hq. lia.
  - by pose proof (inv_nodup _ _ _ (wf_free _ _ _ _ Hw)) as [Hql _]%NoDup_cons.
  - intros π' p' Hp' ->. destruct (wf_node _ _ _ _ Hw _ _ Hp') as (_ & Hn & _). apply Hn. left.
Qed.

(** Linking a page changes one entry of the tables. *)
Lemma linked_entries s s' N l π p i q :
  wf s N (q :: l) → N !! π = Some p → 0 <= i < 512 → linked s s' p i q →
  ∀ π' p' i', N !! π' = Some p' → 0 <= i' < 512 → π' ≠ π ∨ i' ≠ i →
    ld64 (kmem s') (p' + 8 * i') = ld64 (kmem s) (p' + 8 * i').
Proof.
  intros Hw Hp Hi [Hlast Hz He Hf] π' p' i' Hp' Hi' Hne. destruct (wf_head s N l q Hw) as (Hq & _ & _ & HNq).
  apply (entry_frame s N (q :: l) _ π p i π'); auto.
  - destruct Hne; [left|right]; congruence.
  - intros a Ha Ha'. apply Hf; [|done]. apply (in_page_ne p'); auto.
    + by apply (wf_aligned _ _ _ _ _ Hw Hp').
    + apply Hq.
    + by apply (HNq _ _ Hp').
Qed.

(** Linking a page that was not linked maps nothing. *)
Lemma linked_mapping s s' N l π p i q :
  wf s N (q :: l) → N !! π = Some p → (length π < 2)%nat → 0 <= i < 512 →
  N !! (π ++ [i]) = None → linked s s' p i q →
  ∀ va, mapping (kmem s') (<[π ++ [i] := q]> N) va = mapping (kmem s) N va.
Proof.
  intros Hw Hp Hlen Hi Hnone Hl va. pose proof (linked_entries s s' N l π p i q Hw Hp Hi Hl) as Hent.
  destruct Hl as [_ Hz _ _]. unfold mapping. destruct (decide (π ++ [i] = [vpn2 va; vpn1 va])) as [E|E].
  - rewrite <- E, lookup_insert_eq, Hnone. rewrite zero_entry; [done|apply vpn0_range|done].
  - rewrite lookup_insert_ne by done. destruct (N !! [vpn2 va; vpn1 va]) as [x|] eqn:Ex; [|done].
    rewrite (Hent [vpn2 va; vpn1 va] x (vpn0 va)); [done|done|apply vpn0_range|].
    left. intros <-. simpl in Hlen. lia.
Qed.

Lemma wf_link s s' N l π p i q :
  wf s N (q :: l) → N !! π = Some p → (length π < 2)%nat → 0 <= i < 512 →
  N !! (π ++ [i]) = None → Page.inv kernelPages s' l → linked s s' p i q →
  wf s' (<[π ++ [i] := q]> N) l ∧
  ∀ va, mapping (kmem s') (<[π ++ [i] := q]> N) va = mapping (kmem s) N va.
Proof.
  intros Hw Hp Hlen Hi Hnone Hinv Hl. destruct (wf_head s N l q Hw) as (Hq & Hq64 & Hql & HNq).
  pose proof (linked_entries s s' N l π p i q Hw Hp Hi Hl) as Hent.
  split; [|by apply (linked_mapping s s' N l π p i q)]. destruct Hl as [Hlast Hz He Hf]. split.
  - done.
  - intros x Hx. assert (x ≠ q) by congruence.
    pose proof (inv_page _ _ _ x Hinv Hx) as [Hxal _].
    assert (x ≠ p) as Hxp.
    { intros ->. destruct (wf_node _ _ _ _ Hw _ _ Hp) as (_ & Hn & _). apply Hn. by right. }
    rewrite Hf.
    + apply (wf_clean _ _ _ _ Hw). by right.
    + apply (in_page_ne x); auto; [apply Hq|]. unfold in_page, PAGE_SIZE. lia.
    + pose proof (wf_aligned _ _ _ _ _ Hw Hp). unfold PAGE_SIZE in *. dlia.
  - intros π' p' [[<- <-]|[Hne Hp']]%lookup_insert_Some.
    + unfold is_page in *. rewrite Hlast, length_app. simpl. split_and!; try apply Hq; auto; lia.
    + destruct (wf_node _ _ _ _ Hw _ _ Hp') as (H1 & H2 & H3). unfold is_page in *.
      rewrite Hlast. split_and!; try apply H1; auto. intros Hin. apply H2. by right.
  - intros π1 π2 p' [[<- <-]|[Hne1 H1]]%lookup_insert_Some [[<- E2]|[Hne2 H2]]%lookup_insert_Some;
      [done| | |].
    + by destruct (HNq _ _ H2).
    + subst. by destruct (HNq _ _ H1).
    + by apply (wf_inj _ _ _ _ Hw _ _ p').
  - intros π' i' p' [[E <-]|[Hne Hp']]%lookup_insert_Some.
    + apply app_inj_tail in E as [<- <-]. rewrite lookup_insert_ne; [by rewrite Hp|].
      intros E. apply (f_equal length) in E. rewrite length_app in E. simpl in E. lia.
    + destruct (wf_prefix _ _ _ _ Hw _ _ _ Hp') as [[x Hx] Hr]. split; [|done].
      rewrite lookup_insert_ne; [by rewrite Hx|]. intros E. congruence.
  - intros π' p' i' [[<- <-]|[Hne Hp']]%lookup_insert_Some Hlen' Hi'; simpl.
    + rewrite zero_entry by done. rewrite lookup_insert_ne.
      * destruct (N !! ((π ++ [i]) ++ [i'])) as [x|] eqn:Ex; [|done].
        destruct (wf_prefix _ _ _ _ Hw _ _ _ Ex) as [[? ?] _]. congruence.
      * intros E. apply (f_equal length) in E. rewrite !length_app in E. simpl in E. lia.
    + destruct (decide (π' = π ∧ i' = i)) as [[-> ->]|Hd].
      * rewrite lookup_insert_eq. simplify_eq. rewrite He. apply set_v_from; [done|apply Hq].
      * rewrite lookup_insert_ne by (intros [? ?]%app_inj_tail; naive_solver).
        rewrite (Hent π'); [|done|done|].
        -- by apply (wf_child _ _ _ _ Hw).
        -- destruct (decide (π' = π)); [right|left]; naive_solver.
  - intros π' p' i' [[<- <-]|[Hne Hp']]%lookup_insert_Some Hlen' Hi'; simpl.
    + right. by apply zero_entry.
    + rewrite (Hent π'); [by apply (wf_leaf _ _ _ _ Hw π')|done|done|]. left. intros ->. lia.
Qed.

(** The allocating step of [walk] when the entry is not valid. *)
Lemma walk_level_alloc s N l π p level va q :
  wf s N (q :: l) → N !! π = Some p → (length π < 2)%nat → 0 <= level <= 2 →
  N !! (π ++ [vpn level va]) = None →
  ∃ s', walk_level level p va true s = Ok (Some q, s') ∧
    Page.inv kernelPages s' l ∧ linked s s' p (vpn level va) q.
Proof.
  intros Hw Hp Hlen Hlev Hq. set (i := vpn level va).
  pose proof (vpn_range level va : 0 <= i < 512) as Hi.
  pose proof (wf_child _ _ _ _ Hw π p i Hp Hlen Hi) as Hc.
  simpl in Hc. unfold i in Hc. rewrite Hq in Hc. fold i in Hc.
  pose proof (wf_free _ _ _ _ Hw) as Hfree.
  pose proof (inv_page _ _ _ q Hfree ltac:(left)) as [Hqal Hqr].
  destruct (inv_bounds _ _ _ Hfree) as [Hk Hl64].
  destruct (wf_node _ _ _ _ Hw _ _ Hp) as ([Hpal _] & Hpl & _).
  assert (p ≠ q) as Hpq by (intros ->; apply Hpl; left).
  destruct (allocate_ok kernelPages s q l Hfree) as (s1 & E1 & Hi1 & Hlast1 & Hm1).
  unfold walk_level, getEntry. rewrite (proj2 (andb_true_iff (0 <=? level) (level <=? 2))) by (split; lia).
  unfold mbind at 1, M_bind at 1. simpl. fold i. unfold gets at 1, mbind at 1, M_bind at 1.
  rewrite Hc. cbn [negb]. rewrite (bind_ok _ _ _ _ _ E1).
  unfold construct, modify, mbind, M_bind, mret, M_ret.
  eexists. split; [reflexivity|]. cbn [kmem set_kmem].
  set (m1 := st64 (kmem s1) q 0). set (m2 := st64 m1 (p + 8 * i) _).
  assert (ld64 m2 (p + 8 * i) = fromPhysicalAddress q) as E2.
  { unfold m2. rewrite ldN_stN_eq by done. apply Z.mod_small.
    rewrite fromPhysicalAddress_spec by lia. change (8 * Z.of_nat 8) with 64.
    unfold PAGE_SIZE in *. dlia. }
  rewrite E2.
  assert (∀ a, ¬ in_page q a → a < p + 8 * i ∨ p + 8 * i + 8 <= a →
    ld8 (st64 m2 (p + 8 * i) (set_v (fromPhysicalAddress q))) a = ld8 (kmem s) a) as Hframe.
  { intros a Ha Ha'. unfold m2, m1. rewrite !ld8_stN_ne by (simpl; unfold in_page, PAGE_SIZE in *; lia).
    rewrite Hm1, decide_False; [done|]. unfold in_page in Ha. lia. }
  split.
  - apply (inv_write_page _ (set_kmem m1 s1) _ _ p); [|done|intros ?; apply Hpl; by right|].
    + apply (inv_write_page _ s1 _ _ q); [done|done| |].
      * by pose proof (inv_nodup _ _ _ Hfree) as [? _]%NoDup_cons.
      * intros a Ha. apply ld8_stN_ne. unfold PAGE_SIZE in Ha. simpl. lia.
    + intros a Ha. cbn [kmem set_kmem]. unfold m2.
      unfold PAGE_SIZE in Ha. rewrite !ld8_stN_ne by (simpl; lia). done.
  - split; cbn [lastPage kmem set_kmem].
    + done.
    + intros a Ha.
      assert (a < p + 8 * i ∨ p + 8 * i + 8 <= a) as Ha'.
      { assert (¬ in_page p a) as Hnp by (apply (in_page_ne q); auto).
        unfold in_page, PAGE_SIZE in *. lia. }
      unfold m2. rewrite !ld8_stN_ne by (simpl; lia). unfold m1.
      destruct (decide (a < q + 8)) as [Hlo|Hhi].
      * replace a with (q + (a - q)) by lia. unfold in_page in Ha.
        apply ld8_stN_zero; [done|simpl; lia].
      * rewrite ld8_stN_ne by (simpl; lia). rewrite Hm1. case_decide; [done|].
        replace a with (q + PAGE_SIZE - 1) by (unfold in_page in *; lia).
        apply (wf_clean _ _ _ _ Hw). left.
    + rewrite ldN_stN_eq by done. apply Z.mod_small. change (8 * Z.of_nat 8) with 64.
      rewrite fromPhysicalAddress_spec by lia. apply lor_range; [lia|unfold PAGE_SIZE in *; dlia|by vm_compute].
    + exact Hframe.
Qed.

(** One level of an allocating walk, whether or not the table is there. *)
Lemma walk_level_spec s N l π p level va :
  wf s N l → N !! π = Some p → (length π < 2)%nat → 0 <= level <= 2 → l ≠ [] →
  ∃ s' N' l' q, walk_level level p va true s = Ok (Some q, s') ∧
    wf s' N' l' ∧ N ⊆ N' ∧ N' !! (π ++ [vpn level va]) = Some q ∧
    ((l' = l ∧ N' = N) ∨ l = q :: l') ∧ lastPage s' = lastPage s ∧
    (∀ π' x, N' !! π' = Some x → N !! π' = Some x ∨ x ∈ l) ∧
    (∀ va', mapping (kmem s') N' va' = mapping (kmem s) N va') ∧
    (∀ a, (∀ x, x ∈ l → ¬ in_page x a) → ¬ in_page p a →
       ld8 (kmem s') a = ld8 (kmem s) a).
Proof.
  intros Hw Hp Hlen Hlev Hl. destruct (N !! (π ++ [vpn level va])) as [q|] eqn:Eq.
  - exists s, N, l, q. split_and!; auto. by eapply walk_level_present.
  - destruct l as [|q l]; [done|].
    destruct (walk_level_alloc s N l π p level va q) as (s' & E & Hi & Hlk); auto.
    destruct (wf_link s s' N l π p (vpn level va) q) as [Hw' Hmap];
      auto using vpn_range.
    exists s', (<[π ++ [vpn level va] := q]> N), l, q. split_and!; auto.
    + by apply insert_subseteq.
    + by rewrite lookup_insert_eq.
    + apply Hlk.
    + intros π' x [[_ <-]|[_ ?]]%lookup_insert_Some; [right; left|by left].
    + intros a Ha Hpa. apply (linked_frame _ _ _ _ _ Hlk); [apply Ha; left|].
      pose proof (vpn_range level va). unfold in_page, PAGE_SIZE in *. lia.
Qed.

(** The allocating walk: it returns the level-0 entry of [va] and translates
    every address as before. *)
Lemma walk_spec s N l root va :
  wf s N l → N !! [] = Some root → 0 <= va < MAX_VIRTUAL_ADDRESS → (2 <= length l)%nat →
  ∃ s' N' l' q, walk root va true s = Ok (q + 8 * vpn0 va, s') ∧
    wf s' N' l' ∧ N ⊆ N' ∧ N' !! [vpn2 va; vpn1 va] = Some q ∧
    l' `suffix_of` l ∧ (length l <= length l' + 2)%nat ∧ lastPage s' = lastPage s ∧
    (∀ π x, N' !! π = Some x → N !! π = Some x ∨ x ∈ l) ∧
    (∀ va', mapping (kmem s') N' va' = mapping (kmem s) N va') ∧
    (∀ a, (∀ x, x ∈ l → ¬ in_page x a) → (∀ π p, N !! π = Some p → ¬ in_page p a) →
       ld8 (kmem s') a = ld8 (kmem s) a).
Proof.
  intros Hw Hroot Hva Hl. unfold walk, assert.
  rewrite (proj2 (Z.ltb_lt va MAX_VIRTUAL_ADDRESS)) by lia.
  unfold mbind at 1, M_bind at 1, mret at 1, M_ret at 1.
  destruct (walk_level_spec s N l [] root 2 va) as
    (s1 & N1 & l1 & t1 & E1 & Hw1 & Hsub1 & Ht1 & Hl1 & Hla1 & Hn1 & Hmap1 & Hf1);
    [done|done|simpl; lia|lia|by intros ->; simpl in Hl; lia|].
  rewrite (bind_ok _ _ _ _ _ E1).
  destruct (walk_level_spec s1 N1 l1 [vpn2 va] t1 1 va) as
    (s2 & N2 & l2 & t0 & E2 & Hw2 & Hsub2 & Ht0 & Hl2 & Hla2 & Hn2 & Hmap2 & Hf2);
    [done|done|simpl; lia|lia|intros ->; destruct Hl1 as [[<- _]| ->]; simpl in Hl; lia|].
  rewrite (bind_ok _ _ _ _ _ E2). exists s2, N2, l2, t0. split_and!; auto.
  - by etrans.
  - destruct Hl1 as [[-> _]| ->], Hl2 as [[-> _]| ->]; repeat apply suffix_cons_r; done.
  - destruct Hl1 as [[-> _]| ->], Hl2 as [[-> _]| ->]; simpl; lia.
  - by rewrite Hla2.
  - intros π x [Hx|Hx]%Hn2; [by apply Hn1|right].
    destruct Hl1 as [[-> _]| ->]; [done|by right].
  - intros va'. by rewrite Hmap2.
  - intros a Ha Ha'. rewrite Hf2, Hf1; [done|done|by apply (Ha' [])| |].
    + intros x Hx. apply Ha. destruct Hl1 as [[-> _]| ->]; [done|by right].
    + destruct Hl1 as [[_ ->]| ->]; [by apply (Ha' [vpn2 va])|]. apply Ha. left.
Qed.

(** Installing a valid level-0 entry changes the translation of one page only. *)
Lemma wf_write_leaf s N l π q i e (m : pmem) :
  wf s N l → N !! π = Some q → length π = 2%nat → 0 <= i < 512 →
  ld64 m (q + 8 * i) = e → pte_v e = true →
  (∀ a, a < q + 8 * i ∨ q + 8 * i + 8 <= a → ld8 m a = ld8 (kmem s) a) →
  wf (set_kmem m s) N l ∧
  ∀ va, mapping m N va =
    if decide (π = [vpn2 va; vpn1 va] ∧ i = vpn0 va) then Some e else mapping (kmem s) N va.
Proof.
  intros Hw Hq Hlen Hi He Hv Hf.
  destruct (wf_node _ _ _ _ Hw _ _ Hq) as ([Hqal _] & Hql & _).
  assert (∀ π' p' i', N !! π' = Some p' → 0 <= i' < 512 → π ≠ π' ∨ i ≠ i' →
            ld64 m (p' + 8 * i') = ld64 (kmem s) (p' + 8 * i')) as Hent.
  { intros π' p' i' Hp' Hi' Hne. apply (entry_frame s N l _ π q i π'); auto. }
  split; [split; cbn [kmem set_kmem]|].
  - apply (inv_write_page _ s _ _ q); [apply Hw|done|done|].
    intros a Ha. apply Hf. unfold PAGE_SIZE in Ha. lia.
  - intros x Hx. rewrite Hf; [by apply (wf_clean _ _ _ _ Hw)|].
    destruct (inv_page _ _ _ _ (wf_free _ _ _ _ Hw) Hx) as [Hxal _].
    assert (x ≠ q) by congruence. unfold PAGE_SIZE in *. dlia.
  - apply Hw.
  - apply Hw.
  - apply Hw.
  - intros π' p' i' Hp' Hlen' Hi'. rewrite (Hent π'); [|done|done|].
    + by apply (wf_child _ _ _ _ Hw).
    + left. intros <-. lia.
  - intros π' p' i' Hp' Hlen' Hi'. destruct (decide (π = π' ∧ i = i')) as [[<- <-]|Hd].
    + left. simplify_eq. congruence.
    + rewrite (Hent π'); [by apply (wf_leaf _ _ _ _ Hw π')|done|done|].
      destruct (decide (π = π')); [right|left]; naive_solver.
  - intros va. unfold mapping. case_decide as Hd.
    + destruct Hd as [-> ->]. by rewrite Hq, He, Hv.
    + destruct (N !! [vpn2 va; vpn1 va]) as [x|] eqn:Ex; [|done].
      rewrite (Hent [vpn2 va; vpn1 va]); [done|done|apply vpn0_range|].
      destruct (decide (π = [vpn2 va; vpn1 va])); [right|left]; naive_solver.
Qed.

Lemma mapping_same_page m N va va' :
  va / 4096 = va' / 4096 → mapping m N va = mapping m N va'.
Proof.
  intros E. unfold mapping.
  rewrite !vpn0_spec, !vpn1_spec, !vpn2_spec.
  replace (va / 1073741824) with (va' / 1073741824) by dlia.
  replace (va / 2097152) with (va' / 2097152) by dlia.
  by rewrite E.
Qed.

Lemma leaf_entry_valid pa fl :
  0 <= pa < 2 ^ 64 → 0 <= fl < 1024 →
  0 <= leaf_entry pa fl < 2 ^ 64 ∧ pte_v (leaf_entry pa fl) = true.
Proof.
  intros Hpa Hfl. unfold leaf_entry. pose proof (leaf_entry_spec pa fl Hpa Hfl) as E.
  assert (0 <= Z.lor fl 1 < 1024) as Hl by (apply (lor_range fl 1 10); lia).
  split; [rewrite E; dlia|].
  destruct (entry_low _ _ _ Hl E) as (_ & _ & _ & Hb). unfold pte_v.
  rewrite Hb, Z.lor_spec by lia. apply orb_true_r.
Qed.

(** Building tables takes pages from the free list and writes only the tables. *)
Record grown (s s' : KMem) (N N' : gmap (list Z) Z) (l l' : list Z) : Prop := {
  grown_suffix : l' `suffix_of` l;
  grown_nodes : ∀ π x, N' !! π = Some x → N !! π = Some x ∨ x ∈ l;
  grown_frame : ∀ a, (∀ x, x ∈ l → ¬ in_page x a) → (∀ π p, N !! π = Some p → ¬ in_page p a) →
    ld8 (kmem s') a = ld8 (kmem s) a;
}.

(** One iteration of [map]: the page of [va] is mapped to [pa]. *)
Lemma map_page s N l root va pa fl :
  wf s N l → N !! [] = Some root → 0 <= va < MAX_VIRTUAL_ADDRESS → (2 <= length l)%nat →
  mapping (kmem s) N va = None → 0 <= pa < 2 ^ 64 → 0 <= fl < 1024 →
  ∃ s' N' l', wf s' N' l' ∧ N' !! [] = Some root ∧ (length l <= length l' + 2)%nat ∧
    lastPage s' = lastPage s ∧ grown s s' N N' l l' ∧
    (∀ va', 0 <= va' < MAX_VIRTUAL_ADDRESS → mapping (kmem s') N' va' =
       if decide (va' / 4096 = va / 4096) then Some (leaf_entry pa fl)
       else mapping (kmem s) N va') ∧
    ∀ f last, map_loop (S f) root va last pa fl s =
      (if va =? last then mret true
       else map_loop f root (u64 (va + PAGE_SIZE)) last (u64 (pa + PAGE_SIZE)) fl) s'.
Proof.
  intros Hw Hroot Hva Hl Hmap Hpa Hfl.
  destruct (walk_spec s N l root va Hw Hroot Hva Hl) as
    (s1 & N1 & l1 & q & E & Hw1 & Hsub & Hq & Hsuf & Hlen & Hla & Hn1 & Hm1 & Hfr1).
  pose proof (vpn0_range va) as Hi. set (pte := q + 8 * vpn0 va) in *.
  pose proof (wf_bounds _ _ _ _ _ Hw1 Hq) as Hqr.
  rewrite <- Hm1 in Hmap. unfold mapping in Hmap. rewrite Hq in Hmap. fold pte in Hmap.
  assert (ld64 (kmem s1) pte = 0) as Hz.
  { destruct (wf_leaf _ _ _ _ Hw1 _ _ (vpn0 va) Hq) as [Hv|]; [done|done| |done].
    simpl in Hv. fold pte in Hv. by rewrite Hv in Hmap. }
  destruct (leaf_entry_valid pa fl Hpa Hfl) as [Her Hev].
  set (m1 := st64 (kmem s1) pte (Z.lor 0 fl)).
  set (m2 := st64 m1 pte (set_v (Z.lor 0 fl))).
  set (m3 := st64 m2 pte (leaf_entry pa fl)).
  assert (ld64 m1 pte = Z.lor 0 fl) as E1.
  { unfold m1. rewrite ldN_stN_eq by done. rewrite Z.lor_0_l. apply Z.mod_small.
    change (8 * Z.of_nat 8) with 64. lia. }
  assert (ld64 m2 pte = set_v (Z.lor 0 fl)) as E2.
  { unfold m2. rewrite ldN_stN_eq by done. apply Z.mod_small.
    rewrite Z.lor_0_l. apply (lor_range fl PTE_V 64); [lia|lia|by vm_compute]. }
  destruct (wf_write_leaf s1 N1 l1 [vpn2 va; vpn1 va] q (vpn0 va) (leaf_entry pa fl) m3)
    as [Hw3 Hm3]; auto.
  { fold pte. unfold m3. rewrite ldN_stN_eq by done. by apply Z.mod_small. }
  { fold pte. intros a Ha. unfold m3, m2, m1. rewrite !ld8_stN_ne by (simpl; lia). done. }
  exists (set_kmem m3 s1), N1, l1.
  split_and!; [done|by apply (lookup_weaken N)|done|done| | |].
  - split; [done|done|]. intros a Ha Ha'. cbn [kmem set_kmem].
    assert (¬ in_page q a) as Hqa by (destruct (Hn1 _ _ Hq); eauto).
    unfold m3, m2, m1. rewrite !ld8_stN_ne; [by apply Hfr1|..];
      unfold pte, in_page, PAGE_SIZE in *; simpl; lia.
  - intros va' Hva'. cbn [kmem set_kmem]. rewrite Hm3, Hm1.
    destruct (decide (va' / 4096 = va / 4096)) as [Ev|Ev].
    + rewrite decide_True; [done|].
      rewrite !vpn0_spec, !vpn1_spec, !vpn2_spec.
      replace (va' / 1073741824) with (va / 1073741824) by dlia.
      replace (va' / 2097152) with (va / 2097152) by dlia. by rewrite Ev.
    + rewrite decide_False; [done|]. intros [[= E2' E1'] E0']. apply Ev.
      symmetry. by apply vpn_inj.
  - intros f last. cbn [map_loop]. rewrite (bind_ok _ _ _ _ _ E).
    rewrite (proj2 (Z.eqb_neq pte 0)) by (unfold pte; lia).
    unfold gets, assert, modify, mbind, M_bind. rewrite Hz. simpl.
    cbn [kmem set_kmem]. rewrite Hz. fold m1. rewrite E1. fold m2. rewrite E2.
    by destruct (va =? last).
Qed.

Lemma map_loop_spec n fuel s N l root va pa fl :
  wf s N l → N !! [] = Some root → va mod 4096 = 0 → 0 <= va →
  va + 4096 * Z.of_nat (S n) <= MAX_VIRTUAL_ADDRESS → (2 * S n <= length l)%nat →
  (∀ va', va <= va' < va + 4096 * Z.of_nat (S n) → mapping (kmem s) N va' = None) →
  0 <= pa → pa + 4096 * Z.of_nat (S n) <= 2 ^ 64 → 0 <= fl < 1024 → (n < fuel)%nat →
  ∃ s' N' l', map_loop fuel root va (va + 4096 * Z.of_nat n) pa fl s = Ok (true, s') ∧
    wf s' N' l' ∧ N' !! [] = Some root ∧
    ∀ va', 0 <= va' < MAX_VIRTUAL_ADDRESS → mapping (kmem s') N' va' =
      if decide (va <= va' < va + 4096 * Z.of_nat (S n))
      then Some (leaf_entry (pa + (va' - va) / 4096 * 4096) fl)
      else mapping (kmem s) N va'.
Proof.
  revert fuel s N l va pa; induction n as [|n IH];
    intros fuel s N l va pa Hw Hroot Hal Hva Hmax Hl Hnone Hpa Hpa64 Hfl Hfuel;
    (destruct fuel as [|fuel]; [lia|]);
    change MAX_VIRTUAL_ADDRESS with 274877906944 in *;
    (destruct (map_page s N l root va pa fl) as (s1 & N1 & l1 & Hw1 & Hr1 & Hlen & _ & _ & Hm1 & E);
      [done|done|change MAX_VIRTUAL_ADDRESS with 274877906944; lia|lia
      |apply Hnone; lia|lia|done|]);
    rewrite E; clear E.
  - rewrite (proj2 (Z.eqb_eq va (va + 4096 * Z.of_nat 0))) by lia.
    exists s1, N1, l1. split_and!; [done|done|done|]. intros va' Hva'. rewrite Hm1 by done.
    destruct (decide (va' / 4096 = va / 4096)) as [Ev|Ev].
    + rewrite decide_True by dlia. do 2 f_equal. dlia.
    + rewrite decide_False by dlia. done.
  - rewrite (proj2 (Z.eqb_neq va (va + 4096 * Z.of_nat (S n)))) by lia.
    unfold PAGE_SIZE. rewrite !wrap_small by lia.
    replace (va + 4096 * Z.of_nat (S n)) with (va + 4096 + 4096 * Z.of_nat n) by lia.
    destruct (IH fuel s1 N1 l1 (va + 4096) (pa + 4096)) as (s2 & N2 & l2 & E2 & Hw2 & Hr2 & Hm2);
      [done|done|dlia|lia|lia|lia| |lia|lia|done|lia|].
    { intros va' Hva'. rewrite Hm1 by (change MAX_VIRTUAL_ADDRESS with 274877906944; lia).
      rewrite decide_False by dlia. apply Hnone. lia. }
    exists s2, N2, l2. split_and!; [done|done|done|]. intros va' Hva'. rewrite Hm2, Hm1 by done.
    destruct (decide (va + 4096 <= va' < va + 4096 + 4096 * Z.of_nat (S n))) as [Hin|Hout].
    + rewrite decide_True by lia. do 2 f_equal. dlia.
    + destruct (decide (va' / 4096 = va / 4096)) as [Ev|Ev].
      * rewrite decide_True by dlia. do 2 f_equal. dlia.
      * rewrite decide_False by dlia. done.
Qed.

(** What [walkAddress] computes: the physical page of a user mapping. *)
Lemma walkAddress_spec s N l root va :
  wf s N l → N !! [] = Some root →
  walkAddress root va s =
  Ok (match (if va <? MAX_VIRTUAL_ADDRESS then mapping (kmem s) N va else None) with
      | Some e => if pte_u e then toPhysicalAddress e else 0
      | None => 0
      end, s).
Proof.
  intros Hw Hroot. unfold walkAddress.
  destruct (Z.leb_spec MAX_VIRTUAL_ADDRESS va) as [Hge|Hlt].
  { by rewrite (proj2 (Z.ltb_ge va _)). }
  rewrite (proj2 (Z.ltb_lt va _) Hlt).
  rewrite (bind_ok _ _ _ _ _ (walk_read s N l root va Hw Hroot Hlt)).
  unfold mapping. destruct (N !! [vpn2 va; vpn1 va]) as [q|] eqn:Eq; [|done].
  pose proof (wf_bounds _ _ _ _ _ Hw Eq). pose proof (vpn0_range va).
  rewrite (proj2 (Z.eqb_neq (q + 8 * vpn0 va) 0)) by lia.
  unfold gets, mbind, M_bind. destruct (pte_v _); [|done]. by destruct (pte_u _).
Qed.

Lemma user_pa_page m N va pa k :
  user_pa m N va = Some pa → 0 <= va mod 4096 + k < 4096 → user_pa m N (va + k) = Some (pa + k).
Proof.
  unfold user_pa, PAGE_SIZE. change MAX_VIRTUAL_ADDRESS with 274877906944.
  destruct (Z.leb_spec 0 va), (Z.ltb_spec va 274877906944); try done. cbn [andb].
  intros Hpa Hk. rewrite (proj2 (Z.leb_le 0 (va + k))), (proj2 (Z.ltb_lt (va + k) _)) by dlia.
  cbn [andb]. rewrite (mapping_same_page m N (va + k) va) by dlia.
  destruct (mapping m N va) as [e|]; [|done].
  destruct (pte_u e && negb (toPhysicalAddress e =? 0)); [|done].
  injection Hpa as <-. f_equal. dlia.
Qed.

Lemma user_read_page n m N va pa :
  user_pa m N va = Some pa → va mod 4096 + Z.of_nat n <= 4096 →
  user_read n m N va = Some (get_bytes n m pa).
Proof.
  revert va pa; induction n as [|n IH]; intros va pa Hpa Hn; [done|].
  cbn [user_read get_bytes]. rewrite Hpa. simpl.
  destruct n as [|n]; [done|].
  rewrite (IH (va + 1) (pa + 1)); [done|by apply user_pa_page; [|dlia]|dlia].
Qed.

Lemma user_read_app n1 n2 m N va :
  user_read (n1 + n2) m N va =
  (b1 ← user_read n1 m N va; b2 ← user_read n2 m N (va + Z.of_nat n1); Some (b1 ++ b2)).
Proof.
  revert va; induction n1 as [|n1 IH]; intros va; cbn [user_read Nat.add].
  - simpl. rewrite Z.add_0_r. by destruct (user_read n2 m N va).
  - destruct (user_pa m N va); [|done]. simpl. rewrite IH.
    replace (va + Z.of_nat (S n1)) with (va + 1 + Z.of_nat n1) by lia.
    destruct (user_read n1 m N (va + 1)); [|done]. simpl.
    by destruct (user_read n2 m N _).
Qed.

(** [walkAddress] on the page of an address, in terms of [user_pa]. *)
Lemma walkAddress_user s N l root va :
  wf s N l → N !! [] = Some root → 0 <= va < 2 ^ 64 →
  ∃ pa, walkAddress root (roundDown va) s = Ok (pa, s) ∧
    (if pa =? 0 then user_pa (kmem s) N va = None
     else user_pa (kmem s) N va = Some (pa + va mod 4096) ∧ 0 < pa <= 2 ^ 64 - 4096 ∧
          0 <= va < MAX_VIRTUAL_ADDRESS).
Proof.
  intros Hw Hroot Hva. eexists. split; [by apply (walkAddress_spec _ N l)|].
  pose proof (roundDown_spec va Hva) as Erd. unfold user_pa.
  change MAX_VIRTUAL_ADDRESS with 274877906944.
  destruct (Z.ltb_spec va 274877906944) as [Hlt|Hge].
  - rewrite (proj2 (Z.ltb_lt (roundDown va) _)), (proj2 (Z.leb_le 0 va)) by dlia. simpl.
    rewrite (mapping_same_page (kmem s) N (roundDown va) va) by dlia.
    destruct (mapping (kmem s) N va) as [e|]; [|done].
    pose proof (toPhysicalAddress_aligned e) as Hal.
    pose proof (wrap_range 64 (Z.shiftl (Z.shiftr e 10) 12) ltac:(lia)) as Hr.
    fold (toPhysicalAddress e) in Hr.
    destruct (pte_u e); [|done]. destruct (Z.eqb_spec (toPhysicalAddress e) 0) as [E|E]; [done|].
    simpl. split_and!; [done|lia| |lia|lia]. dlia.
  - rewrite (proj2 (Z.ltb_ge (roundDown va) _)) by dlia.
    by rewrite andb_false_r.
Qed.

Lemma chunk_spec va len : 0 <= va < 2 ^ 64 → 0 < len →
  chunk va (roundDown va) len = Z.min len (4096 - va mod 4096) ∧
  va_sub va (roundDown va) = va mod 4096.
Proof.
  intros Hva Hlen. pose proof (roundDown_spec va Hva) as E.
  assert (va_sub va (roundDown va) = va mod 4096) as E'.
  { unfold va_sub. rewrite wrap_small; rewrite E; dlia. }
  split; [|done]. unfold chunk. rewrite E'. unfold PAGE_SIZE.
  rewrite wrap_small by dlia. destruct (Z.ltb_spec len (4096 - va mod 4096)); lia.
Qed.

Lemma copyin_loop_spec fuel s N l root src len :
  wf s N l → N !! [] = Some root → 0 <= src < 2 ^ 64 → 0 <= len <= Z.of_nat fuel →
  ∃ b bs, copyin_loop fuel root src len s = Ok ((b, bs), s) ∧
    user_read (Z.to_nat len) (kmem s) N src = if b then Some bs else None.
Proof.
  intros Hw Hroot. revert src len; induction fuel as [|fuel IH]; intros src len Hsrc Hlen;
    cbn [copyin_loop].
  { rewrite (proj2 (Z.ltb_ge 0 len)) by lia. replace len with 0 by lia. by exists true, []. }
  destruct (Z.ltb_spec 0 len) as [Hpos|Hneg].
  2:{ replace len with 0 by lia. by exists true, []. }
  destruct (walkAddress_user s N l root src Hw Hroot Hsrc) as (pa & E & Hpa).
  rewrite (bind_ok _ _ _ _ _ E). destruct (Z.eqb_spec pa 0) as [->|Hpa0].
  { exists false, []. split; [done|].
    replace (Z.to_nat len) with (S (Z.to_nat (len - 1))) by lia.
    cbn [user_read]. by rewrite Hpa. }
  destruct Hpa as (Hu & Hpar & Hcan). change MAX_VIRTUAL_ADDRESS with 274877906944 in Hcan.
  destruct (chunk_spec src len Hsrc Hpos) as [-> ->].
  set (n := Z.min len (4096 - src mod 4096)).
  assert (0 < n <= len ∧ src mod 4096 + n <= 4096) as [Hn Hn4] by (unfold n; dlia).
  pose proof (roundDown_spec src Hsrc) as Erd.
  unfold gets at 1, mbind at 1, M_bind at 1. rewrite wrap_small by dlia.
  assert (va_add (roundDown src) PAGE_SIZE = src - src mod 4096 + 4096) as ->.
  { unfold va_add, PAGE_SIZE. rewrite wrap_small; rewrite Erd; dlia. }
  destruct (IH (src - src mod 4096 + 4096) (len - n)) as (b & bs & E2 & Hr); [dlia|lia|].
  unfold mbind, M_bind. rewrite E2. simpl. eexists b, _. split; [done|].
  replace (Z.to_nat len) with (Z.to_nat n + Z.to_nat (len - n))%nat by lia.
  rewrite user_read_app, (user_read_page _ _ _ _ _ Hu) by lia. simpl. rewrite Z2Nat.id by lia.
  destruct (decide (n = len)) as [Enl|Enl].
  - rewrite Enl, Z.sub_diag in *. simpl in Hr. destruct b; [|done]. by injection Hr as <-.
  - replace (src + n) with (src - src mod 4096 + 4096) by (unfold n in *; dlia).
    rewrite Hr. by destruct b.
Qed.

(** Reading on after a chunk that lies in one page. *)
Lemma user_string_chunk n n' m N va pa :
  user_pa m N va = Some pa → va mod 4096 + Z.of_nat n <= 4096 →
  user_string (n + n') m N va =
  let '(b, bs) := string_chunk n m pa in
  if b then (true, bs)
  else let '(b', bs') := user_string n' m N (va + Z.of_nat n) in (b', bs ++ bs').
Proof.
  revert va pa; induction n as [|n IH]; intros va pa Hpa Hn; cbn [user_string string_chunk Nat.add].
  { rewrite Z.add_0_r. by destruct (user_string n' m N va). }
  rewrite Hpa. destruct (ld8 m pa =? 0); [done|].
  replace (va + Z.of_nat (S n)) with (va + 1 + Z.of_nat n) by lia.
  destruct n as [|n].
  - cbn [Nat.add string_chunk]. rewrite Z.add_0_r. by destruct (user_string n' m N (va + 1)).
  - rewrite (IH (va + 1) (pa + 1)); [|by apply user_pa_page; [|dlia]|dlia].
    destruct (string_chunk (S n) m (pa + 1)) as [[] bs]; [done|].
    by destruct (user_string n' m N (va + 1 + Z.of_nat (S n))).
Qed.

Lemma copyinString_loop_spec fuel s N l root src len :
  wf s N l → N !! [] = Some root → 0 <= src < 2 ^ 64 → 0 <= len <= Z.of_nat fuel →
  copyinString_loop fuel root src len s = Ok (user_string (Z.to_nat len) (kmem s) N src, s).
Proof.
  intros Hw Hroot. revert src len; induction fuel as [|fuel IH]; intros src len Hsrc Hlen;
    cbn [copyinString_loop].
  { rewrite (proj2 (Z.ltb_ge 0 len)) by lia. by replace len with 0 by lia. }
  destruct (Z.ltb_spec 0 len) as [Hpos|Hneg]; [|by replace len with 0 by lia].
  destruct (walkAddress_user s N l root src Hw Hroot Hsrc) as (pa & E & Hpa).
  rewrite (bind_ok _ _ _ _ _ E). destruct (Z.eqb_spec pa 0) as [->|Hpa0].
  { replace (Z.to_nat len) with (S (Z.to_nat (len - 1))) by lia.
    cbn [user_string]. by rewrite Hpa. }
  destruct Hpa as (Hu & Hpar & Hcan). change MAX_VIRTUAL_ADDRESS with 274877906944 in Hcan.
  destruct (chunk_spec src len Hsrc Hpos) as [-> ->].
  set (n := Z.min len (4096 - src mod 4096)).
  assert (0 < n <= len ∧ src mod 4096 + n <= 4096) as [Hn Hn4] by (unfold n; dlia).
  pose proof (roundDown_spec src Hsrc) as Erd.
  unfold gets at 1, mbind at 1, M_bind at 1. rewrite wrap_small by dlia.
  assert (va_add (roundDown src) PAGE_SIZE = src - src mod 4096 + 4096) as ->.
  { unfold va_add, PAGE_SIZE. rewrite wrap_small; rewrite Erd; dlia. }
  replace (Z.to_nat len) with (Z.to_nat n + Z.to_nat (len - n))%nat by lia.
  rewrite (user_string_chunk _ _ _ _ _ _ Hu) by lia.
  destruct (string_chunk (Z.to_nat n) (kmem s) (pa + src mod 4096)) as [[] bs]; [done|].
  cbn [fst snd]. unfold mbind, M_bind. rewrite IH by dlia. rewrite Z2Nat.id by lia.
  destruct (decide (n = len)) as [Enl|Enl].
  - by rewrite Enl, Z.sub_diag.
  - replace (src + n) with (src - src mod 4096 + 4096) by (unfold n in *; dlia).
    by destruct (user_string (Z.to_nat (len - n)) (kmem s) N (src - src mod 4096 + 4096)).
Qed.

(** Writes outside the tables and the free pages do not affect translation. *)
Lemma wf_data_write s N l (m : pmem) :
  wf s N l →
  (∀ a (π : list Z) p, N !! π = Some p → in_page p a → ld8 m a = ld8 (kmem s) a) →
  (∀ a p, p ∈ l → in_page p a → ld8 m a = ld8 (kmem s) a) →
  wf (set_kmem m s) N l ∧ ∀ va, mapping m N va = mapping (kmem s) N va.
Proof.
  intros Hw Ht Hf.
  assert (∀ π p i, N !! π = Some p → 0 <= i < 512 →
            ld64 m (p + 8 * i) = ld64 (kmem s) (p + 8 * i)) as Hent.
  { intros π p i Hp Hi. apply ldN_ext. intros k Hk. apply (Ht _ π p Hp).
    by apply entry_in_page. }
  split; [split; cbn [kmem set_kmem]|].
  - destruct (wf_free _ _ _ _ Hw). split; auto. simpl.
    apply (chain_ext (kmem s)); [|done]. intros p i Hp Hi. apply (Hf _ p Hp).
    unfold in_page, PAGE_SIZE. lia.
  - intros p Hp. rewrite (Hf _ p Hp) by (unfold in_page, PAGE_SIZE; lia).
    by apply (wf_clean _ _ _ _ Hw).
  - apply Hw.
  - apply Hw.
  - apply Hw.
  - intros π p i Hp Hlen Hi. rewrite (Hent π) by done. by apply (wf_child _ _ _ _ Hw).
  - intros π p i Hp Hlen Hi. rewrite (Hent π) by done. by apply (wf_leaf _ _ _ _ Hw π).
  - intros va. unfold mapping. destruct (N !! [vpn2 va; vpn1 va]) as [q|] eqn:Eq; [|done].
    by rewrite (Hent _ _ _ Eq (vpn0_range va)).
Qed.

Lemma user_pa_ext m m' N va :
  (∀ va, mapping m' N va = mapping m N va) → user_pa m' N va = user_pa m N va.
Proof. intros E. unfold user_pa. by rewrite E. Qed.

Lemma separated_ext s s' N l :
  (∀ va, mapping (kmem s') N va = mapping (kmem s) N va) → separated s N l → separated s' N l.
Proof.
  intros E [H1 H2 H3]. split; intros *; rewrite !(user_pa_ext _ _ _ _ E); eauto.
Qed.

(** The effect of [copyout] on memory. *)
Record copied (s s' : KMem) (N : gmap (list Z) Z) (dst : Z) (src : bytes) : Prop := {
  copied_mapping : ∀ va, mapping (kmem s') N va = mapping (kmem s) N va;
  copied_in : ∀ i pa, 0 <= i < Z.of_nat (length src) →
    user_pa (kmem s) N (dst + i) = Some pa →
    ld8 (kmem s') pa = default 0 (src !! Z.to_nat i) mod 256;
  copied_out : ∀ a, (∀ i, 0 <= i < Z.of_nat (length src) → user_pa (kmem s) N (dst + i) ≠ Some a) →
    ld8 (kmem s') a = ld8 (kmem s) a;
}.

(** One chunk of [copyout]: bytes of one page. *)
Lemma copied_chunk s N l dst pa src :
  wf s N l → separated s N l → user_pa (kmem s) N dst = Some pa →
  dst mod 4096 + Z.of_nat (length src) <= 4096 →
  let s' := set_kmem (put_bytes (kmem s) pa src) s in
  wf s' N l ∧ copied s s' N dst src.
Proof.
  intros Hw Hs Hpa Hlen s'.
  assert (∀ i, 0 <= i < Z.of_nat (length src) → user_pa (kmem s) N (dst + i) = Some (pa + i)) as Hin.
  { intros i Hi. apply user_pa_page; [done|dlia]. }
  assert (∀ a, (∀ i, 0 <= i < Z.of_nat (length src) → a ≠ pa + i) →
            ld8 (put_bytes (kmem s) pa src) a = ld8 (kmem s) a) as Hout.
  { intros a Ha. apply ld8_put_bytes_ne.
    destruct (decide (pa <= a < pa + Z.of_nat (length src))); [|lia].
    destruct (Ha (a - pa)); lia. }
  destruct (wf_data_write s N l (put_bytes (kmem s) pa src)) as [Hw' Hm']; [done|..].
  - intros a π p Hp Ha. apply Hout. intros i Hi ->.
    by apply (sep_tables _ _ _ Hs (dst + i) (pa + i) π p (Hin i Hi)).
  - intros a p Hp Ha. apply Hout. intros i Hi ->.
    by apply (sep_free _ _ _ Hs (dst + i) (pa + i) p (Hin i Hi)).
  - split; [done|]. split; [done| |].
    + intros i x Hi Hx. rewrite Hin in Hx by done. injection Hx as <-.
      by apply ld8_put_bytes_eq.
    + intros a Ha. apply Hout. intros i Hi ->. by apply (Ha i Hi), Hin.
Qed.

Lemma copyout_loop_spec fuel s N l root dst src :
  wf s N l → separated s N l → N !! [] = Some root → 0 <= dst < 2 ^ 64 →
  (length src <= fuel)%nat →
  (∀ i, 0 <= i < Z.of_nat (length src) → is_Some (user_pa (kmem s) N (dst + i))) →
  ∃ s', copyout_loop fuel root dst src s = Ok (true, s') ∧ wf s' N l ∧ copied s s' N dst src.
Proof.
  revert s dst src; induction fuel as [|fuel IH]; intros s dst src Hw Hs Hroot Hdst Hf Hmapped.
  { destruct src; [|simpl in Hf; lia]. exists s. split_and!; [done|done|]. split; simpl; [done|lia|done]. }
  destruct (decide (src = [])) as [->|Hne].
  { exists s. split_and!; [done|done|]. split; simpl; [done|lia|done]. }
  assert (0 < Z.of_nat (length src)) as Hpos by (destruct src; [done|simpl; lia]).
  assert (∀ f, copyout_loop (S f) root dst src s =
    (pa ← walkAddress root (roundDown dst);
     if pa =? 0 then mret false
     else
       let n := Z.to_nat (chunk dst (roundDown dst) (Z.of_nat (length src))) in
       modify (λ s, set_kmem (put_bytes (kmem s) (u64 (pa + va_sub dst (roundDown dst))) (take n src)) s) ;;
       copyout_loop f root (va_add (roundDown dst) PAGE_SIZE) (drop n src)) s) as -> by by destruct src.
  destruct (walkAddress_user s N l root dst Hw Hroot Hdst) as (pa & E & Hpa).
  rewrite (bind_ok _ _ _ _ _ E). destruct (Hmapped 0) as [pa0 Hpa0]; [lia|].
  rewrite Z.add_0_r in Hpa0. rewrite Hpa0 in Hpa.
  destruct (Z.eqb_spec pa 0) as [->|Hz]; [done|]. destruct Hpa as ([= ->] & Hpar & Hcan).
  change MAX_VIRTUAL_ADDRESS with 274877906944 in Hcan.
  destruct (chunk_spec dst (Z.of_nat (length src)) Hdst Hpos) as [-> ->].
  set (n := Z.min (Z.of_nat (length src)) (4096 - dst mod 4096)).
  assert (0 < n <= Z.of_nat (length src) ∧ dst mod 4096 + n <= 4096) as [Hn Hn4] by (unfold n; dlia).
  assert (length (take (Z.to_nat n) src) = Z.to_nat n) as Hlt by (rewrite length_take; lia).
  pose proof (roundDown_spec dst Hdst) as Erd.
  assert (va_add (roundDown dst) PAGE_SIZE = dst - dst mod 4096 + 4096) as ->.
  { unfold va_add, PAGE_SIZE. rewrite wrap_small; rewrite Erd; dlia. }
  unfold modify, mbind, M_bind. cbn zeta beta. rewrite wrap_small by dlia.
  destruct (copied_chunk s N l dst (pa + dst mod 4096) (take (Z.to_nat n) src) Hw Hs Hpa0)
    as [Hw1 [Hm1 Hin1 Hout1]]; [rewrite Hlt; lia|].
  set (s1 := set_kmem _ s) in *.
  assert (∀ i, Z.of_nat (length src) > n → dst - dst mod 4096 + 4096 + i = dst + (n + i)) as Enext.
  { intros i Hi. unfold n in *. dlia. }
  destruct (IH s1 (dst - dst mod 4096 + 4096) (drop (Z.to_nat n) src)) as (s2 & E2 & Hw2 & [Hm2 Hin2 Hout2]);
    [done|by apply (separated_ext s)|done|dlia|rewrite length_drop; lia| |].
  { intros i Hi. rewrite length_drop in Hi. rewrite (user_pa_ext _ _ _ _ Hm1), Enext by lia.
    apply Hmapped. lia. }
  rewrite length_drop in *. exists s2. split_and!; [exact E2|done|]. split.
  - intros va. by rewrite Hm2.
  - intros i x Hi Hx. destruct (decide (i < n)) as [Hlo|Hhi].
    + rewrite Hout2.
      * rewrite (Hin1 i x); [by rewrite lookup_take_lt by lia|rewrite Hlt; lia|done].
      * intros j Hj. rewrite (user_pa_ext _ _ _ _ Hm1), Enext by lia. intros Hx'.
        pose proof (sep_inj _ _ _ Hs _ _ _ Hx Hx'). lia.
    + rewrite (Hin2 (i - n) x); [|lia|].
      * rewrite lookup_drop. do 3 f_equal. lia.
      * rewrite (user_pa_ext _ _ _ _ Hm1), Enext by lia. rewrite <- Hx. f_equal. lia.
  - intros a Ha. rewrite Hout2, Hout1; [done| |].
    + intros i Hi. rewrite Hlt in Hi. apply Ha. lia.
    + intros i Hi. rewrite (user_pa_ext _ _ _ _ Hm1), Enext by lia. apply Ha. lia.
Qed.

Lemma user_read_bytes m N va (bs : bytes) :
  (∀ i x, bs !! i = Some x →
     ∃ pa, user_pa m N (va + Z.of_nat i) = Some pa ∧ ld8 m pa = x) →
  user_read (length bs) m N va = Some bs.
Proof.
  revert va; induction bs as [|x bs IH]; intros va Hbs; [done|]. cbn [user_read length].
  destruct (Hbs 0%nat x eq_refl) as (pa & Hpa & Hx). rewrite Z.add_0_r in Hpa.
  rewrite Hpa. simpl. rewrite IH; [by rewrite Hx|]. intros i y Hy.
  destruct (Hbs (S i) y Hy) as (pa' & Hpa' & ?). exists pa'. split; [|done].
  rewrite <- Hpa'. f_equal. lia.
Qed.

(** A fresh table translates nothing. *)
Lemma new_table_spec s root l :
  Page.inv kernelPages s (root :: l) →
  (∀ p, p ∈ root :: l → ld8 (kmem s) (p + PAGE_SIZE - 1) = 0) →
  ∃ s', new_table s = Ok (root, s') ∧ wf s' {[ [] := root ]} l ∧
    lastPage s' = lastPage s ∧ ∀ va, mapping (kmem s') {[ [] := root ]} va = None.
Proof.
  intros Hi Hclean. destruct (allocate_ok kernelPages s root l Hi) as (s1 & E1 & Hi1 & Hlast & Hm1).
  pose proof (inv_page _ _ _ root Hi ltac:(left)) as Hroot.
  pose proof (inv_nodup _ _ _ Hi) as [Hnl _]%NoDup_cons.
  set (s2 := set_kmem (st64 (kmem s1) root 0) s1).
  assert (∀ a, in_page root a → ld8 (kmem s2) a = 0) as Hz.
  { intros a Ha. unfold s2, in_page in *. cbn [kmem set_kmem]. destruct (decide (a < root + 8)).
    - replace a with (root + (a - root)) by lia. apply ld8_stN_zero; [done|simpl; lia].
    - rewrite ld8_stN_ne by (simpl; lia). rewrite Hm1. case_decide; [done|].
      replace a with (root + PAGE_SIZE - 1) by lia. apply Hclean. left. }
  exists s2. split_and!.
  - unfold new_table. erewrite bind_ok; [|exact E1]. done.
  - split.
    + apply (inv_write_page _ s1 _ _ root); [done|apply Hroot|done|].
      intros a Ha. apply ld8_stN_ne. unfold PAGE_SIZE in Ha. simpl. lia.
    + intros p Hp. unfold s2. cbn [kmem set_kmem].
      assert (p ≠ root) by congruence. destruct Hroot as [Hral _].
      destruct (inv_page _ _ _ _ Hi1 Hp) as [Hpal _].
      rewrite ld8_stN_ne by (simpl; unfold PAGE_SIZE in *; dlia). rewrite Hm1, decide_False.
      * apply Hclean. by right.
      * unfold PAGE_SIZE in *. dlia.
    + intros π p [<- <-]%lookup_singleton_Some. unfold is_page in *. simpl. rewrite Hlast.
      split_and!; try apply Hroot; auto; lia.
    + intros π π' p [<- _]%lookup_singleton_Some [<- _]%lookup_singleton_Some. done.
    + intros π i p [E _]%lookup_singleton_Some. by destruct π.
    + intros π p i [<- <-]%lookup_singleton_Some _ Hr e.
      unfold e. rewrite (zero_entry _ _ _ Hr Hz). by rewrite lookup_singleton_ne.
    + intros π p i [<- <-]%lookup_singleton_Some. done.
  - done.
  - intros va. unfold mapping. by rewrite lookup_singleton_ne.
Qed.
End lemmas.

(** *** A concrete address space

    Nine pages of memory from [0x1000] on; the first is the root table, and one
    user page at [0x5000] is mapped to the physical page [0x80000]. *)
Section demo.
Definition demo_start : KMem := foldr push_free (mkKMem ∅ 0 0xa000) (pages_from 9 0x1000).

Lemma demo_start_inv :
  Page.inv 0x1000 demo_start (pages_from 9 0x1000) ∧
  ∀ p, p ∈ pages_from 9 0x1000 → ld8 (kmem demo_start) (p + PAGE_SIZE - 1) = 0.
Proof.
  split.
  - unfold demo_start. vm_compute pages_from. cbn [foldr].
    do 9 (apply inv_push;
      [|split; [reflexivity|cbn; lia]
       |repeat (apply not_elem_of_cons; split; [lia|]); apply not_elem_of_nil]).
    split; [by vm_compute|done|constructor|constructor].
  - intros p Hp. vm_compute in Hp.
    repeat (apply elem_of_cons in Hp as [->|Hp]; [vm_compute; reflexivity|]).
    by apply not_elem_of_nil in Hp.
Qed.

Lemma demo_table : ∃ s, new_table demo_start = Ok (0x1000, s) ∧
  wf 0x1000 s {[ [] := 0x1000 ]} (pages_from 8 0x2000) ∧ lastPage s = 0xa000 ∧
  ∀ va, mapping (kmem s) {[ [] := 0x1000 ]} va = None.
Proof. apply new_table_spec; apply demo_start_inv. Qed.

Lemma demo_user_space : ∃ s N l, wf 0x1000 s N l ∧ N !! [] = Some 0x1000 ∧ separated s N l ∧
  lastPage s = 0xa000 ∧
  (∀ va pa, user_pa (kmem s) N va = Some pa → 0x5000 <= va < 0x6000 ∧ pa = va + 0x7b000) ∧
  ∀ i, 0 <= i < 4096 → user_pa (kmem s) N (0x5000 + i) = Some (0x80000 + i).
Proof.
  destruct demo_table as (s & _ & Hw & Hlast & Hm).
  destruct (map_page 0x1000 s _ _ 0x1000 0x5000 0x80000 (Z.lor PTE_R PTE_U) Hw)
    as (s' & N' & l' & Hw' & Hr' & _ & Hla & _ & Hm' & _); [done|by vm_compute|vm_compute; lia|apply Hm|lia|by vm_compute|].
  assert (∀ va pa, user_pa (kmem s') N' va = Some pa →
            0x5000 <= va < 0x6000 ∧ pa = va + 0x7b000) as Hu.
  { intros va pa. unfold user_pa. destruct (Z.leb_spec 0 va), (Z.ltb_spec va MAX_VIRTUAL_ADDRESS);
      try done. simpl. rewrite Hm', Hm by done. case_decide as Hd; [|done].
    change (0x5000 / 4096) with 5 in Hd. cbn. intros [= <-]. unfold PAGE_SIZE.
    change (toPhysicalAddress _) with 0x80000. dlia. }
  assert (∀ p a, is_page 0x1000 s' p → 0x80000 <= a → ¬ in_page p a) as Hfar.
  { intros p a [_ Hp] Ha. rewrite Hla, Hlast in Hp. unfold in_page, PAGE_SIZE. lia. }
  exists s', N', l'. split_and!; [done|done| |congruence|done|].
  - split.
    + intros va pa π p [? ->]%Hu Hp. apply Hfar; [|lia]. apply (wf_node _ _ _ _ Hw' _ _ Hp).
    + intros va pa p [? ->]%Hu Hp. apply Hfar; [|lia].
      by apply (inv_page _ _ _ _ (wf_free _ _ _ _ Hw')).
    + intros va va' pa [? ->]%Hu [? ?]%Hu. lia.
  - intros i Hi. unfold user_pa. change MAX_VIRTUAL_ADDRESS with 274877906944.
    rewrite (proj2 (Z.leb_le _ _)), (proj2 (Z.ltb_lt _ _)) by lia. cbn [andb].
    rewrite Hm', decide_True by (change MAX_VIRTUAL_ADDRESS with 274877906944; dlia).
    cbn. f_equal. unfold PAGE_SIZE. change (toPhysicalAddress _) with 0x80000. dlia.
Qed.

Lemma demo_user : ∃ s N l, wf 0x1000 s N l ∧ N !! [] = Some 0x1000 ∧ separated s N l ∧
  ∀ i, 0 <= i < 4096 → user_pa (kmem s) N (0x5000 + i) = Some (0x80000 + i).
Proof. destruct demo_user_space as (s & N & l & ? & ? & ? & _ & _ & ?). by exists s, N, l. Qed.
End demo.

(** ** Properties *)

(** C20: the table walk of [walkAddress] agrees with the Sv39 translation: it
    returns the physical page of the valid, user-accessible leaf entry of the
    address, and zero for every other address (out of range, not mapped, or
    not accessible to user mode), and changes nothing. *)
Theorem walkAddress_translates (kernelPages : Z) (s : KMem) (N : gmap (list Z) Z)
    (l : list Z) (root va : Z)
    (Hwf : wf kernelPages s N l) (Hroot : N !! [] = Some root) (Hva : 0 <= va < 2 ^ 64) :
  walkAddress root va s =
  Ok (match (if va <? MAX_VIRTUAL_ADDRESS then mapping (kmem s) N va else None) with
      | Some e => if pte_u e then toPhysicalAddress e else 0
      | None => 0
      end, s).
Proof. by apply (walkAddress_spec kernelPages _ _ l). Qed.

(** C17: [map] of a range of unmapped pages succeeds when there are two free
    pages for every page of the range (one per missing table level), maps every
    page of the range to its physical page with the requested flags, leaves the
    translation of every other address as it was, and keeps the page tables
    well formed. *)
Theorem map_correct (kernelPages : Z) (s : KMem) (N : gmap (list Z) Z) (l : list Z)
    (root va size pa fl : Z)
    (Hwf : wf kernelPages s N l) (Hroot : N !! [] = Some root)
    (Hva : 0 <= va) (Hsize : 0 < size) (Hmax : va + size <= MAX_VIRTUAL_ADDRESS)
    (Hpa : 0 <= pa) (Hpa64 : pa + size + 2 * PAGE_SIZE <= 2 ^ 64) (Hfl : 0 <= fl < 1024)
    (Hfree : 2 * (size / PAGE_SIZE + 2) <= Z.of_nat (length l))
    (Hnone : ∀ va', roundDown va <= va' < roundDown (va + size - 1) + PAGE_SIZE →
       mapping (kmem s) N va' = None) :
  ∃ s' N' l', map root va size pa fl s = Ok (true, s') ∧ wf kernelPages s' N' l' ∧
    N' !! [] = Some root ∧
    ∀ va', 0 <= va' < MAX_VIRTUAL_ADDRESS → mapping (kmem s') N' va' =
      if decide (roundDown va <= va' < roundDown (va + size - 1) + PAGE_SIZE)
      then Some (leaf_entry (pa + (va' - roundDown va) / PAGE_SIZE * PAGE_SIZE) fl)
      else mapping (kmem s) N va'.
Proof.
  change MAX_VIRTUAL_ADDRESS with 274877906944 in *. unfold PAGE_SIZE in *.
  set (n := Z.to_nat ((va + size - 1) / 4096 - va / 4096)).
  assert (Z.of_nat n = (va + size - 1) / 4096 - va / 4096) as En.
  { unfold n. rewrite Z2Nat.id; dlia. }
  clearbody n.
  assert (roundDown (va + size - 1) = roundDown va + 4096 * Z.of_nat n) as Elast.
  { rewrite !roundDown_spec by lia. dlia. }
  assert (roundDown va mod 4096 = 0 ∧ 0 <= roundDown va <= va) as [Hal Hrd].
  { rewrite roundDown_spec by lia. dlia. }
  assert (roundDown (va + size - 1) <= va + size - 1) as Hle.
  { rewrite roundDown_spec by lia. dlia. }
  assert (Z.of_nat n <= size / 4096 + 1) as Hn by dlia.
  destruct (map_loop_spec kernelPages n (Z.to_nat (size / 4096 + 2)) s N l root (roundDown va) pa fl)
    as (s' & N' & l' & E & Hw' & Hr' & Hm'); auto.
  - lia.
  - change MAX_VIRTUAL_ADDRESS with 274877906944. dlia.
  - lia.
  - intros va' Hva'. apply Hnone. lia.
  - dlia.
  - dlia.
  - exists s', N', l'. split_and!; [|done|done|].
    + unfold map, assert. rewrite (proj2 (Z.eqb_neq size 0)) by lia. simpl.
      rewrite wrap_sub_l, wrap_small, Elast by lia. exact E.
    + intros va' Hva'. rewrite Hm' by done. rewrite Elast.
      replace (roundDown va + 4096 * Z.of_nat n + 4096)
        with (roundDown va + 4096 * Z.of_nat (S n)) by lia. done.
Qed.

Lemma map_correct_witness : ∃ s s' N' l',
  map 0x1000 0x5000 4096 0x80000 (Z.lor PTE_R PTE_U) s = Ok (true, s') ∧
  wf 0x1000 s' N' l' ∧
  mapping (kmem s') N' 0x5000 = Some (leaf_entry 0x80000 (Z.lor PTE_R PTE_U)).
Proof.
  destruct demo_table as (s & _ & Hw & _ & Hm).
  destruct (map_correct 0x1000 s _ _ 0x1000 0x5000 4096 0x80000 (Z.lor PTE_R PTE_U) Hw)
    as (s' & N' & l' & E & Hw' & _ & Hm');
    [done|lia|lia|by vm_compute|lia|by vm_compute|by vm_compute|by vm_compute|intros; apply Hm|].
  exists s, s', N', l'. split_and!; [exact E|exact Hw'|].
  rewrite Hm' by by vm_compute. rewrite decide_True by by vm_compute. done.
Defined.

Lemma walkAddress_translates_witness : ∃ s,
  new_table demo_start = Ok (0x1000, s) ∧ walkAddress 0x1000 0x5000 s = Ok (0, s).
Proof.
  destruct demo_table as (s & E & Hw & _ & Hm). exists s. split; [exact E|].
  rewrite (walkAddress_translates 0x1000 s _ _ 0x1000 0x5000 Hw); [|done|lia].
  simpl. by rewrite Hm.
Defined.

(** [copyin] reads what a byte-by-byte translation reads: it always
    returns, returns true exactly when every byte of the range is mapped for
    user mode, and then yields exactly those bytes; it changes nothing. *)
Theorem copyin_reads_user_memory (kernelPages : Z) (s : KMem) (N : gmap (list Z) Z)
    (l : list Z) (root src len : Z)
    (Hwf : wf kernelPages s N l) (Hroot : N !! [] = Some root)
    (Hsrc : 0 <= src < 2 ^ 64) (Hlen : 0 <= len) :
  ∃ b bs, copyin root src len s = Ok ((b, bs), s) ∧
    user_read (Z.to_nat len) (kmem s) N src = if b then Some bs else None.
Proof. by apply (copyin_loop_spec kernelPages _ _ _ l); [| | |lia]. Qed.

Lemma copyin_reads_user_memory_witness : ∃ s N b bs,
  copyin 0x1000 0x5ff0 8 s = Ok ((b, bs), s) ∧
  user_read 8 (kmem s) N 0x5ff0 = if b then Some bs else None.
Proof.
  destruct demo_user as (s & N & l & Hw & Hr & _ & _).
  destruct (copyin_reads_user_memory 0x1000 s N l 0x1000 0x5ff0 8 Hw Hr) as (b & bs & E & Hb); [lia|lia|].
  exists s, N, b, bs. split; [exact E|exact Hb].
Defined.

(** [copyinString] is the byte-by-byte scan of the user string: it copies
    bytes up to and including the first NUL, crosses page boundaries, stops at
    the bound or at an unmapped page, and reports whether the NUL was copied. *)
Theorem copyinString_scans (kernelPages : Z) (s : KMem) (N : gmap (list Z) Z)
    (l : list Z) (root src len : Z)
    (Hwf : wf kernelPages s N l) (Hroot : N !! [] = Some root)
    (Hsrc : 0 <= src < 2 ^ 64) (Hlen : 0 <= len) :
  copyinString root src len s = Ok (user_string (Z.to_nat len) (kmem s) N src, s).
Proof. by apply (copyinString_loop_spec kernelPages _ _ _ l); [| | |lia]. Qed.

Lemma copyinString_scans_witness : ∃ s N,
  copyinString 0x1000 0x5ff0 8 s = Ok (user_string 8 (kmem s) N 0x5ff0, s).
Proof.
  destruct demo_user as (s & N & l & Hw & Hr & _ & _). exists s, N.
  apply (copyinString_scans 0x1000 s N l 0x1000 0x5ff0 8 Hw Hr); lia.
Defined.

(** C16: bytes copied out to mapped user memory are the bytes copied back in:
    [copyout] of a buffer followed by [copyin] of the same range returns the
    buffer, across any number of pages; [copyout] keeps the page tables and
    changes no byte outside the user range. *)
Theorem copyout_copyin_roundtrip (kernelPages : Z) (s : KMem) (N : gmap (list Z) Z)
    (l : list Z) (root dst : Z) (src : bytes)
    (Hwf : wf kernelPages s N l) (Hsep : separated s N l) (Hroot : N !! [] = Some root)
    (Hdst : 0 <= dst < 2 ^ 64) (Hbytes : Forall (λ x, 0 <= x < 256) src)
    (Hmapped : ∀ i, 0 <= i < Z.of_nat (length src) →
       is_Some (user_pa (kmem s) N (dst + i))) :
  ∃ s', copyout root dst src s = Ok (true, s') ∧ wf kernelPages s' N l ∧
    copyin root dst (Z.of_nat (length src)) s' = Ok ((true, src), s') ∧
    (∀ a, (∀ i, 0 <= i < Z.of_nat (length src) → user_pa (kmem s) N (dst + i) ≠ Some a) →
       ld8 (kmem s') a = ld8 (kmem s) a).
Proof.
  destruct (copyout_loop_spec kernelPages (length src) s N l root dst src) as (s' & E & Hw' & [Hm Hin Hout]); auto.
  exists s'. split_and!; [exact E|done| |done].
  destruct (copyin_loop_spec kernelPages (Z.to_nat (Z.of_nat (length src))) s' N l root dst
    (Z.of_nat (length src))) as (b & bs & E' & Hb); auto; [lia|].
  unfold copyin. rewrite E'. rewrite Nat2Z.id, user_read_bytes in Hb.
  - destruct b; [|done]. by injection Hb as ->.
  - intros i x Hx. pose proof (lookup_lt_Some _ _ _ Hx) as Hi.
    destruct (Hmapped (Z.of_nat i)) as [pa Hpa]; [lia|].
    exists pa. rewrite (user_pa_ext _ _ _ _ Hm). split; [done|].
    rewrite (Hin (Z.of_nat i) pa) by (done || lia). rewrite Nat2Z.id, Hx. simpl.
    rewrite Forall_lookup in Hbytes. apply Z.mod_small. by apply (Hbytes i).
Qed.

Lemma copyout_copyin_roundtrip_witness : ∃ s s',
  copyout 0x1000 0x5ffc [1; 2; 3] s = Ok (true, s') ∧
  copyin 0x1000 0x5ffc 3 s' = Ok ((true, [1; 2; 3]), s').
Proof.
  destruct demo_user as (s & N & l & Hw & Hr & Hs & Hu).
  destruct (copyout_copyin_roundtrip 0x1000 s N l 0x1000 0x5ffc [1; 2; 3]) as (s' & E & _ & E' & _);
    [done|done|done|lia| | |].
  - repeat constructor; lia.
  - intros i Hi. simpl in Hi. replace (0x5ffc + i) with (0x5000 + (0xffc + i)) by lia.
    rewrite Hu by lia. eauto.
  - exists s, s'. split; [exact E|exact E'].
Defined.

End PageTable.
