(* ===== verification/Uvm.v ===== *)
(** * User and kernel address spaces

    [kernel/memory/uvm.cpp], [copy.cpp] and [kvm.cpp]: growing, shrinking and
    copying the memory of a process, the copies between kernel and user
    buffers, and the kernel's own page table.  The page table of the current
    process ([Cpu::current().process->pageTable]) is an argument. *)

From S2P Require Import Prelude CString Address Page PageTable.
Import CString Address Page PageTable.

Module Uvm.

(** ** Definitions *)

(** [eitherCopyout(userDst, dst, src, len)], [src] being the [len] bytes. *)
Definition eitherCopyout (pageTable : Z) (userDst : bool) (dst : Z) (src : bytes) : M KMem bool :=
  if userDst then copyout pageTable dst src
  else modify (λ s, set_kmem (put_bytes (kmem s) dst src) s) ;; mret true.

(** [eitherCopyin(dst, userSrc, src, len)]: the result and the bytes stored at
    [dst]. *)
Definition eitherCopyin (pageTable : Z) (userSrc : bool) (src len : Z) : M KMem (bool * bytes) :=
  if userSrc then copyin pageTable src len
  else bs ← gets (λ s, get_bytes (Z.to_nat len) (kmem s) src); mret (true, bs).

Definition deallocateUserVirtualMemory (pageTable oldSize newSize : Z) : M KMem Z :=
  if oldSize <=? newSize then mret oldSize
  else
    (if roundUp newSize <? roundUp oldSize then
       let numPages := va_sub (roundUp oldSize) (roundUp newSize) / PAGE_SIZE in
       unmap pageTable (roundUp newSize) numPages true
     else mret tt) ;;
    mret newSize.

(** The loop of [allocateUserVirtualMemory] from [addr] on. *)
Fixpoint allocate_user_loop (kernelPages : Z) (fuel : nat) (pageTable addr oldSize newSize xperm : Z) : M KMem Z :=
  if addr <? newSize then
    match fuel with
    | O => fail NoFuel
    | S f =>
        mem ← allocate;
        if mem =? 0 then
          deallocateUserVirtualMemory pageTable addr oldSize ;; mret 0
        else
          res ← map pageTable addr PAGE_SIZE mem (u16 (Z.lor (Z.lor PTE_R PTE_U) xperm));
          if negb res then
            free kernelPages mem ;;
            deallocateUserVirtualMemory pageTable addr oldSize ;; mret 0
          else
            allocate_user_loop kernelPages f pageTable (u64 (addr + PAGE_SIZE)) oldSize newSize xperm
    end
  else mret newSize.

Definition allocateUserVirtualMemory (kernelPages pageTable oldSize newSize xperm : Z) : M KMem Z :=
  if newSize <? oldSize then mret oldSize
  else
    let oldSize := roundUp oldSize in
    allocate_user_loop kernelPages (Z.to_nat (newSize / PAGE_SIZE + 1)) pageTable oldSize oldSize newSize xperm.

Definition clearUserVirtualMemory (pageTable va : Z) : M KMem unit :=
  pte ← walk pageTable va false;
  assert (negb (pte =? 0)) ;;
  modify (λ s, set_kmem (st64 (kmem s) pte (clear_u (ld64 (kmem s) pte))) s).

(** The loop of [copyUserVirtualMemory] from page [i] on; the result of [map]
    is dropped. *)
Fixpoint copy_user_loop (fuel : nat) (oldTable newTable i size : Z) : M KMem unit :=
  if i <? size then
    match fuel with
    | O => fail NoFuel
    | S f =>
        pte ← walk oldTable i false;
        assert (negb (pte =? 0)) ;;
        raw ← gets (λ s, ld64 (kmem s) pte);
        assert (pte_v raw) ;;
        mem ← operator_new PAGE_SIZE;
        modify (λ s, set_kmem (memmove (kmem s) mem (toPhysicalAddress raw) PAGE_SIZE) s) ;;
        map newTable i PAGE_SIZE mem (flags raw) ;;
        copy_user_loop f oldTable newTable (u64 (i + PAGE_SIZE)) size
    end
  else mret tt.

Definition copyUserVirtualMemory (oldTable newTable size : Z) : M KMem unit :=
  copy_user_loop (Z.to_nat (size / PAGE_SIZE + 1)) oldTable newTable 0 size.

Definition UART_BASE : Z := 0x10000000.
Definition VIRTIO_BASE : Z := 0x10001000.
Definition PLIC : Z := 0x0c000000.

(** The kernel page table; [eot] is the end of the kernel text, [trampoline]
    the address of the trap vector code. *)
Definition initializeKvm (eot trampoline : Z) : M KMem Z :=
  kernelPageTable ← allocate;
  construct kernelPageTable ;;
  map kernelPageTable UART_BASE PAGE_SIZE UART_BASE (Z.lor PTE_R PTE_W) ;;
  map kernelPageTable VIRTIO_BASE PAGE_SIZE VIRTIO_BASE (Z.lor PTE_R PTE_W) ;;
  map kernelPageTable PLIC 0x400000 PLIC (Z.lor PTE_R PTE_W) ;;
  map kernelPageTable KERNEL_BASE (u64 (eot - KERNEL_BASE)) KERNEL_BASE (Z.lor PTE_R PTE_X) ;;
  map kernelPageTable eot (u64 (physicalAddressStop - eot)) eot (Z.lor PTE_R PTE_W) ;;
  map kernelPageTable TRAMPOLINE PAGE_SIZE trampoline (Z.lor PTE_R PTE_X) ;;
  mret kernelPageTable.

(** ** Where a copy goes

    What the callers of [eitherCopyout] rely on, for a kernel buffer and for user
    memory: when [n] bytes can be stored at an address, storing them succeeds,
    piece by piece or at once. *)

Record Destination (pageTable : Z) (userDst : bool) := mkDestination {
  d_can : KMem → Z → Z → Prop;
  d_put : KMem → Z → bytes → KMem → Prop;
  d_store m dst bs : d_can m dst (Z.of_nat (length bs)) → 0 <= dst → dst + Z.of_nat (length bs) < 2 ^ 64 →
    ∃ m', eitherCopyout pageTable userDst dst bs m = Ok (true, m') ∧ d_put m dst bs m';
  d_nil m dst : d_put m dst [] m;
  d_less m dst n n' : d_can m dst n → n' <= n → d_can m dst n';
  d_next m m' dst bs n : d_can m dst (Z.of_nat (length bs) + n) → 0 <= n → d_put m dst bs m' →
    d_can m' (dst + Z.of_nat (length bs)) n;
  d_keep m m' dst bs a n : d_can m a n → d_can m dst (Z.of_nat (length bs)) → d_put m dst bs m' → d_can m' a n;
  d_app m m1 m2 dst bs1 bs2 : d_can m dst (Z.of_nat (length bs1 + length bs2)) →
    d_put m dst bs1 m1 → d_put m1 (dst + Z.of_nat (length bs1)) bs2 m2 → d_put m dst (bs1 ++ bs2) m2;
}.
Arguments d_can {pageTable userDst} _ _ _ _.
Arguments d_put {pageTable userDst} _ _ _ _ _.

Lemma put_bytes_app (m : pmem) a l1 l2 :
  put_bytes m a (l1 ++ l2) = put_bytes (put_bytes m a l1) (a + Z.of_nat (length l1)) l2.
Proof.
  revert m a; induction l1 as [|x l1 IH]; intros m a.
  - simpl. by rewrite Z.add_0_r.
  - cbn [app length]. assert (∀ l (m : pmem), put_bytes m a (x :: l) = put_bytes (st8 m a x) (a + 1) l) as E by done.
    rewrite !E, IH. f_equal. lia.
Qed.

(** A buffer of the kernel. *)
Definition kernel_destination (pageTable : Z) : Destination pageTable false.
Proof.
  refine (mkDestination pageTable false (λ _ _ _, True)
    (λ m dst bs m', m' = set_kmem (put_bytes (kmem m) dst bs) m) _ _ _ _ _ _); try done.
  - intros m dst bs _ _ _. by eexists.
  - by intros [].
  - intros m m1 m2 dst bs1 bs2 _ -> ->. simpl. by rewrite put_bytes_app.
Defined.

(** User memory, through the page tables [N] with root [root]. *)
Section user_destination.
Context (kernelPages : Z) (N : gmap (list Z) Z) (l : list Z) (root : Z).
Hypothesis Hroot : N !! [] = Some root.

Definition user_can (m : KMem) (dst n : Z) : Prop :=
  PageTable.wf kernelPages m N l ∧ separated m N l ∧
  ∀ i, 0 <= i < n → is_Some (user_pa (kmem m) N (dst + i)).

Definition user_put (m : KMem) (dst : Z) (bs : bytes) (m' : KMem) : Prop :=
  copied m m' N dst bs ∧ (PageTable.wf kernelPages m N l → PageTable.wf kernelPages m' N l).

Lemma user_put_app m m1 m2 dst bs1 bs2 :
  user_can m dst (Z.of_nat (length bs1 + length bs2)) →
  user_put m dst bs1 m1 → user_put m1 (dst + Z.of_nat (length bs1)) bs2 m2 → user_put m dst (bs1 ++ bs2) m2.
Proof.
  intros (_ & Hs & _) [[M1 I1 O1] W1] [[M2 I2 O2] W2]. split; [|auto]. split.
  - intros va. by rewrite M2.
  - intros i pa Hi Hpa. rewrite length_app in Hi. destruct (Z.lt_ge_cases i (Z.of_nat (length bs1))).
    + rewrite O2.
      * rewrite (I1 i pa) by (lia || done). by rewrite lookup_app_l by lia.
      * intros j Hj. rewrite (user_pa_ext _ _ _ _ M1). intros Hpa'.
        pose proof (sep_inj _ _ _ Hs _ _ _ Hpa Hpa'). lia.
    + rewrite (I2 (i - Z.of_nat (length bs1)) pa); [|lia|].
      * rewrite lookup_app_r by lia. do 3 f_equal. lia.
      * rewrite (user_pa_ext _ _ _ _ M1). rewrite <- Hpa. f_equal. lia.
  - intros a Ha. rewrite length_app in Ha. rewrite O2, O1; [done| |].
    + intros i Hi. apply Ha. lia.
    + intros i Hi. rewrite (user_pa_ext _ _ _ _ M1), <- Z.add_assoc. apply Ha. lia.
Qed.

Definition user_destination : Destination root true.
Proof.
  refine (mkDestination root true user_can user_put _ _ _ _ _ user_put_app).
  - intros m dst bs (Hw & Hs & Hm) Hd Hn.
    destruct (copyout_loop_spec kernelPages (length bs) m N l root dst bs Hw Hs Hroot) as (m' & E & Hw' & Hc);
      [lia|done|done|]. exists m'. split; [exact E|]. by split.
  - intros m dst. split; [|done]. split; simpl; [done|lia|done].
  - intros m dst n n' (Hw & Hs & Hm) Hn. split_and!; [done|done|]. intros i Hi. apply Hm. lia.
  - intros m m' dst bs n (Hw & Hs & Hm) Hn [[M I O] W]. split_and!; [auto|by apply (separated_ext m)|].
    intros i Hi. rewrite (user_pa_ext _ _ _ _ M), <- Z.add_assoc. apply Hm. lia.
  - intros m m' dst bs a n (Hw & Hs & Hm) _ [[M I O] W]. split_and!; [auto|by apply (separated_ext m)|].
    intros i Hi. rewrite (user_pa_ext _ _ _ _ M). by apply Hm.
Defined.
End user_destination.

(** ** Where a copy comes from

    What the callers of [eitherCopyin] rely on: the bytes at an address can be
    loaded, at once or piece by piece, and loading them changes nothing. *)

Record Source (pageTable : Z) (userSrc : bool) := mkSource {
  s_has : KMem → Z → bytes → Prop;
  s_load m src bs : s_has m src bs → 0 <= src < 2 ^ 64 →
    eitherCopyin pageTable userSrc src (Z.of_nat (length bs)) m = Ok ((true, bs), m);
  s_split m src bs1 bs2 : s_has m src (bs1 ++ bs2) →
    s_has m src bs1 ∧ s_has m (src + Z.of_nat (length bs1)) bs2;
  s_bytes m src bs : s_has m src bs → Forall (λ x, 0 <= x < 256) bs;
}.
Arguments s_has {pageTable userSrc} _ _ _ _.

Lemma get_bytes_app n1 n2 (m : pmem) a :
  get_bytes (n1 + n2) m a = get_bytes n1 m a ++ get_bytes n2 m (a + Z.of_nat n1).
Proof.
  revert a; induction n1 as [|n1 IH]; intros a; [by rewrite Z.add_0_r|].
  cbn [get_bytes app Nat.add]. rewrite IH. do 3 f_equal. lia.
Qed.

Lemma user_read_length n m N va bs : user_read n m N va = Some bs → length bs = n.
Proof.
  revert va bs; induction n as [|n IH]; intros va bs; cbn [user_read]; [by intros [= <-]|].
  destruct (user_pa m N va); [|done]. simpl. destruct (user_read n m N (va + 1)) eqn:E; [|done].
  intros [= <-]. simpl. by rewrite (IH _ _ E).
Qed.

(** A buffer of the kernel. *)
Definition kernel_source (pageTable : Z) : Source pageTable false.
Proof.
  refine (mkSource pageTable false
    (λ m src bs, get_bytes (length bs) (kmem m) src = bs ∧ Forall (λ x, 0 <= x < 256) bs) _ _ _).
  - intros m src bs [E _] _. unfold eitherCopyin, gets, mbind, M_bind, mret, M_ret. by rewrite Nat2Z.id, E.
  - intros m src bs1 bs2 [E [H1 H2]%Forall_app]. rewrite length_app, get_bytes_app in E.
    apply app_inj_1 in E as [E1 E2]; [|by rewrite length_get_bytes]. done.
  - by intros m src bs [_ H].
Defined.

(** User memory. *)
Definition user_source (kernelPages : Z) (N : gmap (list Z) Z) (l : list Z) (root : Z)
    (Hroot : N !! [] = Some root) : Source root true.
Proof.
  refine (mkSource root true (λ m src bs, PageTable.wf kernelPages m N l ∧
    user_read (length bs) (kmem m) N src = Some bs ∧ Forall (λ x, 0 <= x < 256) bs) _ _ _).
  - intros m src bs (Hw & E & _) Hs.
    destruct (copyin_loop_spec kernelPages (Z.to_nat (Z.of_nat (length bs))) m N l root src
      (Z.of_nat (length bs))) as (b & bs' & E' & Hr); [done|done|done|lia|].
    rewrite Nat2Z.id, E in Hr. destruct b; [|done]. injection Hr as ->. exact E'.
  - intros m src bs1 bs2 (Hw & E & [H1 H2]%Forall_app). rewrite length_app, user_read_app in E.
    destruct (user_read (length bs1) (kmem m) N src) as [k1|] eqn:E1; [|done].
    destruct (user_read (length bs2) (kmem m) N _) as [k2|] eqn:E2; [|done].
    injection E as E. apply app_inj_1 in E as [-> ->]; [done|]. by apply user_read_length in E1.
  - by intros m src bs (_ & _ & H).
Defined.

(** ** Growing an address space *)

Section grow.
Variable kernelPages : Z.
#[local] Abbreviation wf := (PageTable.wf kernelPages).
Implicit Types (s : KMem) (N : gmap (list Z) Z) (l : list Z).

(** The next free page: cleared, outside the tables, no longer free. *)
Lemma wf_allocate s N l p :
  wf s N (p :: l) →
  ∃ s', allocate s = Ok (p, s') ∧ wf s' N l ∧ lastPage s' = lastPage s ∧
    is_page kernelPages s p ∧ p ∉ l ∧
    (∀ a, in_page p a → ld8 (kmem s') a = 0) ∧
    (∀ a, ¬ in_page p a → ld8 (kmem s') a = ld8 (kmem s) a) ∧
    (∀ va, mapping (kmem s') N va = mapping (kmem s) N va).
Proof.
  intros Hw. pose proof (wf_free _ _ _ _ Hw) as Hi.
  destruct (allocate_ok kernelPages s p l Hi) as (s' & E & Hi' & Hlast & Hm).
  pose proof (inv_page _ _ _ p Hi ltac:(left)) as Hp.
  pose proof (inv_nodup _ _ _ Hi) as [Hpl _]%NoDup_cons.
  assert (∀ a, ¬ in_page p a → ld8 (kmem s') a = ld8 (kmem s) a) as Hf.
  { intros a Ha. rewrite Hm, decide_False; [done|]. unfold in_page in Ha. lia. }
  assert (∀ π q a, N !! π = Some q → in_page q a → ld8 (kmem s') a = ld8 (kmem s) a) as Ht.
  { intros π q a Hq Ha. apply Hf, (in_page_ne q); [by apply (wf_aligned _ _ _ _ _ _ Hw Hq)|apply Hp| |done].
    intros ->. apply (wf_node _ _ _ _ Hw _ _ Hq). left. }
  assert (∀ π q i, N !! π = Some q → 0 <= i < 512 →
            ld64 (kmem s') (q + 8 * i) = ld64 (kmem s) (q + 8 * i)) as Hent.
  { intros π q i Hq Hr. apply ldN_ext. intros k Hk. apply (Ht π q); [done|]. by apply entry_in_page. }
  exists s'. split_and!; [done| |done|done|done| |done|].
  - split; [done|..].
    + intros x Hx. assert (x ≠ p) by congruence. rewrite Hf.
      * apply (wf_clean _ _ _ _ Hw). by right.
      * apply (in_page_ne x); [|apply Hp|done|unfold in_page, PAGE_SIZE; lia].
        apply (inv_page _ _ _ _ Hi' Hx).
    + intros π q Hq. destruct (wf_node _ _ _ _ Hw _ _ Hq) as (H1 & H2 & H3).
      unfold is_page in *. rewrite Hlast. split_and!; try apply H1; [|done].
      intros Hin. apply H2. by right.
    + apply Hw.
    + apply Hw.
    + intros π q i Hq Hlen Hr. rewrite (Hent π) by done. by apply (wf_child _ _ _ _ Hw).
    + intros π q i Hq Hlen Hr. rewrite (Hent π) by done. by apply (wf_leaf _ _ _ _ Hw π).
  - intros a Ha. rewrite Hm. case_decide; [done|].
    replace a with (p + PAGE_SIZE - 1) by (unfold in_page in *; lia).
    apply (wf_clean _ _ _ _ Hw). left.
  - intros va. unfold mapping. destruct (N !! [vpn2 va; vpn1 va]) as [q|] eqn:Eq; [|done].
    by rewrite (Hent _ _ _ Eq (vpn0_range va)).
Qed.

(** A state whose user memory is the user memory of [s], plus the pages of
    [lo, hi), all zero. *)
Record extended s s' N N' (lo hi : Z) : Prop := {
  ext_old : ∀ va, va < lo ∨ hi <= va → user_pa (kmem s') N' va = user_pa (kmem s) N va;
  ext_data : ∀ va pa, user_pa (kmem s) N va = Some pa → ld8 (kmem s') pa = ld8 (kmem s) pa;
  ext_new : ∀ va, lo <= va < hi →
    ∃ pa, user_pa (kmem s') N' va = Some pa ∧ ld8 (kmem s') pa = 0;
}.

Lemma user_pa_range m N va pa : user_pa m N va = Some pa → 0 <= va < MAX_VIRTUAL_ADDRESS.
Proof.
  unfold user_pa. destruct (Z.leb_spec 0 va), (Z.ltb_spec va MAX_VIRTUAL_ADDRESS); done || lia.
Qed.

(** The user mapping of a page entered by [map]. *)
Lemma leaf_user m N va p fl :
  0 < p < 2 ^ 64 → p mod 4096 = 0 → 0 <= fl < 1024 → Z.testbit fl 4 = true →
  0 <= va < MAX_VIRTUAL_ADDRESS → mapping m N va = Some (leaf_entry p fl) →
  user_pa m N va = Some (p + va mod 4096).
Proof.
  intros Hp Hal Hfl Hu Hva Hm. unfold user_pa.
  rewrite (proj2 (Z.leb_le 0 va)), (proj2 (Z.ltb_lt va _)) by lia. cbn [andb]. rewrite Hm.
  destruct (leaf_entry_decode p fl) as (E & _ & _ & Eu); [lia|done|done|].
  unfold leaf_entry. rewrite E, Eu.
  rewrite Hu, (proj2 (Z.eqb_neq p 0)) by lia. done.
Qed.

(** [map] of one page on a page boundary. *)
Lemma map_one s N l root va pa fl :
  wf s N l → N !! [] = Some root → 0 <= va < MAX_VIRTUAL_ADDRESS → va mod 4096 = 0 →
  (2 <= length l)%nat → mapping (kmem s) N va = None → 0 <= pa < 2 ^ 64 → 0 <= fl < 1024 →
  ∃ s' N' l', map root va PAGE_SIZE pa fl s = Ok (true, s') ∧ wf s' N' l' ∧
    N' !! [] = Some root ∧ (length l <= length l' + 2)%nat ∧ lastPage s' = lastPage s ∧
    grown s s' N N' l l' ∧
    ∀ va', 0 <= va' < MAX_VIRTUAL_ADDRESS → mapping (kmem s') N' va' =
       if decide (va' / 4096 = va / 4096) then Some (leaf_entry pa fl)
       else mapping (kmem s) N va'.
Proof.
  intros Hw Hr Hva Hal Hl Hm Hpa Hfl. change MAX_VIRTUAL_ADDRESS with 274877906944 in Hva.
  destruct (map_page kernelPages s N l root va pa fl) as (s' & N' & l' & Hw' & Hr' & Hlen & Hla & Hg & Hm' & E);
    [done..|].
  exists s', N', l'. split_and!; [|done..]. unfold map, assert, PAGE_SIZE.
  change (negb (4096 =? 0)) with true. cbn [bool_decide].
  unfold mbind at 1, M_bind at 1, mret at 1, M_ret at 1.
  change (Z.to_nat (4096 / 4096 + 2)) with 3%nat. rewrite !wrap_sub_l, wrap_small by lia.
  rewrite !roundDown_spec by lia. rewrite Hal, Z.sub_0_r.
  replace (va + 4096 - 1 - (va + 4096 - 1) mod 4096) with va by dlia.
  rewrite E. by rewrite Z.eqb_refl.
Qed.

Lemma grown_tables_trans s s1 s' N N1 N' l l1 l' :
  grown s s1 N N1 l l1 → grown s1 s' N1 N' l1 l' → grown s s' N N' l l'.
Proof.
  intros [S1 G1 F1] [S2 G2 F2]. assert (∀ x, x ∈ l1 → x ∈ l) as Hl.
  { intros x Hx. destruct S1 as [k ->]. apply elem_of_app. by right. }
  split; [by etrans|..].
  - intros π x [Hx|Hx]%G2; auto.
  - intros a Ha Hn. rewrite F2, F1; [done|done|done|auto|].
    intros π q [Hq|Hq]%G1; [by apply (Hn π)|auto].
Qed.

(** The two calls of [Process::makePageTable]: the trampoline page [t] and the
    trap frame [f] above the user memory. *)
Lemma trap_pages s N l root t f :
  wf s N l → N !! [] = Some root → (4 <= length l)%nat →
  (∀ va, TRAPFRAME <= va < MAX_VIRTUAL_ADDRESS → mapping (kmem s) N va = None) →
  0 <= t < 2 ^ 64 → 0 <= f < 2 ^ 64 →
  ∃ s1 s' N' l', map root TRAMPOLINE PAGE_SIZE t (Z.lor PTE_R PTE_X) s = Ok (true, s1) ∧
    map root TRAPFRAME PAGE_SIZE f (Z.lor PTE_R PTE_W) s1 = Ok (true, s') ∧
    wf s' N' l' ∧ N' !! [] = Some root ∧ (length l <= length l' + 4)%nat ∧ lastPage s' = lastPage s ∧
    grown s s' N N' l l' ∧
    ∀ va, 0 <= va < MAX_VIRTUAL_ADDRESS → mapping (kmem s') N' va =
      if decide (TRAMPOLINE <= va) then Some (leaf_entry t (Z.lor PTE_R PTE_X))
      else if decide (TRAPFRAME <= va) then Some (leaf_entry f (Z.lor PTE_R PTE_W))
      else mapping (kmem s) N va.
Proof.
  intros Hw Hr Hl Hnone Ht Hf. change TRAMPOLINE with 274877902848. change TRAPFRAME with 274877898752 in *.
  destruct (map_one s N l root 274877902848 t (Z.lor PTE_R PTE_X)) as
    (s1 & N1 & l1 & E1 & Hw1 & Hr1 & Hl1 & La1 & G1 & M1);
    [done|done|by vm_compute|done|lia|by apply Hnone|done|by vm_compute|].
  destruct (map_one s1 N1 l1 root 274877898752 f (Z.lor PTE_R PTE_W)) as
    (s2 & N2 & l2 & E2 & Hw2 & Hr2 & Hl2 & La2 & G2 & M2);
    [done|done|by vm_compute|done|lia| |done|by vm_compute|].
  { rewrite M1, decide_False by by vm_compute. by apply Hnone. }
  exists s1, s2, N2, l2. split_and!; [done|done|done|done|lia|congruence|by eapply grown_tables_trans|].
  intros va Hva. rewrite M2, M1 by done. change MAX_VIRTUAL_ADDRESS with 274877906944 in Hva.
  change (274877902848 / 4096) with 67108863. change (274877898752 / 4096) with 67108862.
  repeat case_decide; try done; dlia.
Qed.

(** User addresses after the page [p] was mapped at [va]. *)
Lemma user_pa_grow (m m' : pmem) N N' fl p va :
  0 < p < 2 ^ 64 → p mod 4096 = 0 → 0 <= fl < 1024 → Z.testbit fl 4 = true →
  0 <= va < MAX_VIRTUAL_ADDRESS → va mod 4096 = 0 →
  (∀ va', 0 <= va' < MAX_VIRTUAL_ADDRESS → mapping m' N' va' =
    if decide (va' / 4096 = va / 4096) then Some (leaf_entry p fl) else mapping m N va') →
  ∀ va', user_pa m' N' va' = if decide (va' / 4096 = va / 4096) then Some (p + va' mod 4096) else user_pa m N va'.
Proof.
  intros Hp Hpal Hfl Hu Hva Hal Hm va'. change MAX_VIRTUAL_ADDRESS with 274877906944 in *. case_decide as Hd.
  - apply (leaf_user _ _ _ _ fl); [lia|done|done|done|change MAX_VIRTUAL_ADDRESS with 274877906944; dlia|].
    rewrite Hm by dlia. by rewrite decide_True.
  - unfold user_pa. change MAX_VIRTUAL_ADDRESS with 274877906944.
    destruct (Z.leb_spec 0 va'), (Z.ltb_spec va' 274877906944); try done. cbn [andb].
    by rewrite Hm, decide_False by done.
Qed.

(** The pages of user memory stay apart when a page of the free list joins them. *)
Lemma separated_grow s s' N N' l l' p va :
  separated s N (p :: l) → wf s' N' l' → p ∉ l → p mod 4096 = 0 →
  (∀ π q, N' !! π = Some q → q ≠ p ∧ (N !! π = Some q ∨ q ∈ l)) → (∀ x, x ∈ l' → x ∈ l) →
  (∀ va', user_pa (kmem s') N' va' =
    if decide (va' / 4096 = va / 4096) then Some (p + va' mod 4096) else user_pa (kmem s) N va') →
  separated s' N' l'.
Proof.
  intros Hs Hw' Hpl Hpal HN Hl' Hua.
  assert (∀ x, x ≠ p → x mod PAGE_SIZE = 0 → ∀ i, ¬ in_page x (p + i mod 4096)) as Hpne.
  { intros x Hx Hxal i. apply (in_page_ne p); [done|done|done|unfold in_page, PAGE_SIZE; dlia]. }
  assert (∀ va' pa, user_pa (kmem s) N va' = Some pa → ¬ in_page p pa) as Hold.
  { intros va' pa Hpa. apply (sep_free _ _ _ Hs va'); [done|left]. }
  split.
  - intros va' pa π q. rewrite Hua. case_decide.
    + intros [= <-] Hq. apply Hpne; [by apply HN in Hq as [? _]|by apply (wf_aligned _ _ _ _ _ _ Hw' Hq)].
    + intros Hpa Hq. destruct (HN _ _ Hq) as [_ [Ho|Ho]]; [by apply (sep_tables _ _ _ Hs va' pa π)|].
      apply (sep_free _ _ _ Hs va' pa); [done|by right].
  - intros va' pa q. rewrite Hua. case_decide.
    + intros [= <-] Hq. apply Hpne; [by intros ->; apply Hpl, Hl'|].
      by apply (inv_page _ _ _ _ (wf_free _ _ _ _ Hw')).
    + intros Hpa Hq. apply (sep_free _ _ _ Hs va' pa); [done|right; by apply Hl'].
  - intros va1 va2 pa. rewrite !Hua. do 2 case_decide.
    + intros [= <-] [= E2]. dlia.
    + intros [= <-] Hn%Hold. destruct Hn. unfold in_page, PAGE_SIZE. dlia.
    + intros Hn%Hold [= <-]. destruct Hn. unfold in_page, PAGE_SIZE. dlia.
    + apply (sep_inj _ _ _ Hs).
Qed.

(** One round of the loop: a zeroed page at [va]. *)
Lemma grow_page s N l root va fl :
  wf s N l → separated s N l → N !! [] = Some root →
  0 <= va < MAX_VIRTUAL_ADDRESS → va mod 4096 = 0 → (3 <= length l)%nat →
  mapping (kmem s) N va = None → 0 <= fl < 1024 → Z.testbit fl 4 = true →
  ∃ mem s1 s' N' l', allocate s = Ok (mem, s1) ∧ mem ≠ 0 ∧
    map root va PAGE_SIZE mem fl s1 = Ok (true, s') ∧
    wf s' N' l' ∧ separated s' N' l' ∧ N' !! [] = Some root ∧
    (length l <= length l' + 3)%nat ∧ extended s s' N N' va (va + 4096) ∧
    (∀ va', 0 <= va' < MAX_VIRTUAL_ADDRESS → va' / 4096 ≠ va / 4096 →
       mapping (kmem s') N' va' = mapping (kmem s) N va').
Proof.
  intros Hw Hs Hr Hva Hal Hl Hm Hfl Hu. change MAX_VIRTUAL_ADDRESS with 274877906944 in *.
  destruct l as [|p l]; [simpl in Hl; lia|].
  destruct (wf_allocate s N l p Hw) as (s1 & E1 & Hw1 & Hla1 & Hp & Hpl & Hz & Hf1 & Hm1).
  assert (0 < p < 2 ^ 64 ∧ p mod 4096 = 0) as [Hp64 Hpal].
  { destruct (inv_bounds _ _ _ (wf_free _ _ _ _ Hw)), Hp. split; [lia|done]. }
  destruct (map_one s1 N l root va p fl) as (s' & N' & l' & E & Hw' & Hr' & Hlen & Hla' & [Hsuf Hnodes Hfr] & Hm');
    [done|done|done|done|simpl in Hl; lia|by rewrite Hm1|lia|done|].
  change MAX_VIRTUAL_ADDRESS with 274877906944 in Hm'.
  (* the pages of tables and the free pages are not the new page *)
  assert (∀ π q, N' !! π = Some q → q ≠ p ∧ (N !! π = Some q ∨ q ∈ l)) as HN.
  { intros π q Hq. destruct (Hnodes _ _ Hq) as [Ho|Ho]; (split; [|auto]); intros ->; [|done].
    apply (wf_node _ _ _ _ Hw _ _ Ho). left. }
  assert (∀ x, x ∈ l' → x ∈ l) as Hl' by (intros x Hx; destruct Hsuf as [k ->]; apply elem_of_app; by right).
  assert (∀ va', user_pa (kmem s') N' va' =
    if decide (va' / 4096 = va / 4096) then Some (p + va' mod 4096) else user_pa (kmem s) N va') as Hua.
  { apply (user_pa_grow _ _ _ _ fl); try done. intros va' Hva'. by rewrite Hm', Hm1. }
  (* the bytes of user memory and of the new page are not written by [map] *)
  assert (∀ a, in_page p a → ld8 (kmem s') a = 0) as Hpz.
  { intros a Ha. rewrite Hfr; [by apply Hz|..].
    - intros x Hx. apply (in_page_ne p); [done|by apply (inv_page _ _ _ _ (wf_free _ _ _ _ Hw1))|congruence|done].
    - intros π q Hq. apply (in_page_ne p); [done|by apply (wf_aligned _ _ _ _ _ _ Hw Hq)| |done].
      intros <-. apply (wf_node _ _ _ _ Hw _ _ Hq). left. }
  assert (∀ va' pa, user_pa (kmem s) N va' = Some pa →
    ¬ in_page p pa ∧ ld8 (kmem s') pa = ld8 (kmem s) pa) as Hold.
  { intros va' pa Hpa. assert (¬ in_page p pa) as Hnp by (apply (sep_free _ _ _ Hs va'); [done|left]).
    split; [done|]. rewrite Hfr, Hf1; [done|done|..].
    - intros x Hx. apply (sep_free _ _ _ Hs va' pa x Hpa). by right.
    - intros π q Hq. by apply (sep_tables _ _ _ Hs va' pa π q Hpa). }
  exists p, s1, s', N', l'. split_and!; [done|lia|done|done| |done|simpl in *; lia| |].
  - by apply (separated_grow s s' N N' l l' p va).
  - split.
    + intros va' Hva'. rewrite Hua, decide_False by dlia. done.
    + intros va' pa Hpa. by apply (Hold va').
    + intros va' Hva'. rewrite Hua, decide_True by dlia. eexists. split; [done|].
      apply Hpz. unfold in_page, PAGE_SIZE. dlia.
  - intros va' Hva' Hne. by rewrite Hm', decide_False, Hm1 by done.
Qed.

Lemma extended_trans s s1 s2 N N1 N2 lo mid hi :
  lo <= mid <= hi → extended s s1 N N1 lo mid → extended s1 s2 N1 N2 mid hi →
  (∀ va, lo <= va < hi → user_pa (kmem s) N va = None) →
  extended s s2 N N2 lo hi.
Proof.
  intros Hr [Ho1 Hd1 Hn1] [Ho2 Hd2 Hn2] Hnone. split.
  - intros va Hva. rewrite Ho2, Ho1 by lia. done.
  - intros va pa Hpa. destruct (decide (lo <= va < hi)); [by rewrite Hnone in Hpa|].
    rewrite (Hd2 va), (Hd1 va); [done|done|by rewrite Ho1 by lia].
  - intros va Hva. destruct (decide (va < mid)).
    + destruct (Hn1 va) as (pa & Hpa & Hz); [lia|]. exists pa.
      rewrite Ho2, (Hd2 va) by (done || lia). done.
    + apply Hn2. lia.
Qed.

Lemma allocate_user_loop_spec n fuel s N l root va old xp :
  let fl := u16 (Z.lor (Z.lor PTE_R PTE_U) xp) in
  wf s N l → separated s N l → N !! [] = Some root →
  0 <= va → va mod 4096 = 0 → va + 4096 * Z.of_nat n <= MAX_VIRTUAL_ADDRESS →
  (3 * n <= length l)%nat → (∀ va', va <= va' < va + 4096 * Z.of_nat n → mapping (kmem s) N va' = None) →
  0 <= fl < 1024 → Z.testbit fl 4 = true → (n <= fuel)%nat →
  ∀ stop, va + 4096 * (Z.of_nat n - 1) < stop <= va + 4096 * Z.of_nat n →
  ∃ s' N' l', allocate_user_loop kernelPages fuel root va old stop xp s = Ok (stop, s') ∧
    wf s' N' l' ∧ separated s' N' l' ∧ N' !! [] = Some root ∧
    extended s s' N N' va (va + 4096 * Z.of_nat n).
Proof.
  intros fl. change MAX_VIRTUAL_ADDRESS with 274877906944.
  revert fuel s N l va; induction n as [|n IH];
    intros fuel s N l va Hw Hs Hr Hva Hal Hmax Hl Hnone Hfl Hu Hfuel stop Hstop.
  { exists s, N, l. split_and!; [|done..|].
    - destruct fuel; simpl; rewrite (proj2 (Z.ltb_ge va stop)) by lia; done.
    - split; [done|done|lia]. }
  destruct fuel as [|fuel]; [lia|]. cbn [allocate_user_loop].
  rewrite (proj2 (Z.ltb_lt va stop)) by lia.
  destruct (grow_page s N l root va fl) as
    (mem & s1 & s2 & N2 & l2 & E1 & Hne & E2 & Hw2 & Hs2 & Hr2 & Hlen & Hext & Hm2);
    [done|done|done|change MAX_VIRTUAL_ADDRESS with 274877906944; lia|done|lia|apply Hnone; lia|done|done|].
  rewrite (bind_ok _ _ _ _ _ E1), (proj2 (Z.eqb_neq mem 0)) by done. fold fl.
  rewrite (bind_ok _ _ _ _ _ E2). cbn [negb]. unfold PAGE_SIZE. rewrite wrap_small by lia.
  change MAX_VIRTUAL_ADDRESS with 274877906944 in Hm2.
  destruct (IH fuel s2 N2 l2 (va + 4096)) with (stop := stop) as (s' & N' & l' & E & Hw' & Hs' & Hr' & Hext');
    [done|done|done|lia|dlia|lia|lia| |done|done|lia|lia|].
  { intros va' Hva'. rewrite Hm2 by dlia. apply Hnone. lia. }
  exists s', N', l'. split_and!; [exact E|done|done|done|].
  replace (va + 4096 * Z.of_nat (S n)) with (va + 4096 + 4096 * Z.of_nat n) by lia.
  eapply (extended_trans s s2 s' N N2 N' va (va + 4096)); [lia|done|done|].
  intros va' Hva'. unfold user_pa. change MAX_VIRTUAL_ADDRESS with 274877906944.
  destruct (Z.leb_spec 0 va'), (Z.ltb_spec va' 274877906944); try done. cbn [andb].
  by rewrite Hnone by lia.
Qed.

End grow.

(** ** Properties *)

(** C18: [allocateUserVirtualMemory] grows the memory of a process: when nothing is
    mapped yet between the old size (rounded up) and the new size (rounded up),
    whatever is mapped elsewhere, as the trampoline and the trap frame are, and
    there are three free pages per new page (the page and at most two tables), it
    returns the new size; every address of that range becomes a user address
    whose byte is zero, addresses outside the range translate as before and their
    bytes are kept, the page tables stay well formed, and the new memory overlaps
    neither the tables, nor the free pages, nor the memory of any other address.
    The zeros are [memset]'s but for the last byte of each page, which [memset]
    leaves alone: that the last byte of every free page is zero beforehand is
    part of [wf] ([wf_clean]), an assumption on the memory the pages come from
    which [Page::free] does not establish. *)
Theorem allocateUserVirtualMemory_grows (kernelPages : Z) (s : KMem) (N : gmap (list Z) Z)
    (l : list Z) (root oldSize newSize xperm : Z)
    (Hwf : wf kernelPages s N l) (Hsep : separated s N l) (Hroot : N !! [] = Some root)
    (Hold : 0 <= oldSize <= newSize) (Hnew : roundUp newSize <= MAX_VIRTUAL_ADDRESS)
    (Hmax : newSize <= MAX_VIRTUAL_ADDRESS) (Hperm : 0 <= xperm < 1024)
    (Hfree : 3 * ((roundUp newSize - roundUp oldSize) / PAGE_SIZE) <= Z.of_nat (length l))
    (Hnone : ∀ va, roundUp oldSize <= va < roundUp newSize → mapping (kmem s) N va = None) :
  ∃ s' N' l',
    allocateUserVirtualMemory kernelPages root oldSize newSize xperm s = Ok (newSize, s') ∧
    wf kernelPages s' N' l' ∧ separated s' N' l' ∧ N' !! [] = Some root ∧
    extended s s' N N' (roundUp oldSize) (roundUp newSize).
Proof.
  unfold PAGE_SIZE in *. change MAX_VIRTUAL_ADDRESS with 274877906944 in *.
  rewrite !roundUp_spec in * by lia.
  set (lo := (oldSize + 4095) / 4096 * 4096) in *.
  set (n := Z.to_nat (((newSize + 4095) / 4096 * 4096 - lo) / 4096)).
  assert ((newSize + 4095) / 4096 * 4096 = lo + 4096 * Z.of_nat n) as E by (unfold n, lo; dlia).
  rewrite E in *.
  set (fl := Z.lor (Z.lor PTE_R PTE_U) xperm).
  assert (0 <= fl < 1024) as Hfl by (apply (lor_range _ _ 10); [lia|by vm_compute|lia]).
  assert (u16 fl = fl) as Efl by (apply wrap_small; lia).
  destruct (allocate_user_loop_spec kernelPages n (Z.to_nat (newSize / 4096 + 1)) s N l root lo lo xperm)
    with (stop := newSize) as (s' & N' & l' & R & H1 & H2 & H3 & H4);
    try (fold fl; rewrite Efl); auto; try (unfold lo; dlia).
  - unfold fl. by rewrite !Z.lor_spec.
  - unfold n, lo. dlia.
  - exists s', N', l'. split_and!; auto. unfold allocateUserVirtualMemory.
    rewrite (proj2 (Z.ltb_ge newSize oldSize)) by lia. rewrite roundUp_spec by lia. exact R.
Qed.

(** *** The address space of a new process

    Twenty-four pages of memory from [0x1000] on; the page table at [0x1000] maps
    the trampoline (the kernel page [0x103000]) and a trap frame (the page
    [0x104000]), as [Process::makePageTable] leaves it. *)
Definition process_memory : KMem := foldr push_free (mkKMem ∅ 0 0x19000) (pages_from 24 0x1000).

Lemma push_pages kernelPages stop start n :
  0 < kernelPages → stop < 2 ^ 64 → start mod PAGE_SIZE = 0 → kernelPages <= start →
  start + PAGE_SIZE * Z.of_nat n <= stop →
  let s := foldr push_free (mkKMem ∅ 0 stop) (pages_from n start) in
  lastPage s = stop ∧ Page.inv kernelPages s (pages_from n start).
Proof.
  intros Hk Hstop. pose proof (eq_refl : PAGE_SIZE = 4096) as HP.
  revert start; induction n as [|n IH]; intros start Hal Hlo Hhi.
  - split; [done|]. by split; [|done|constructor|constructor].
  - rewrite HP in Hal. destruct (IH (start + PAGE_SIZE)) as [La Hi]; [rewrite HP; dlia|lia|lia|].
    cbn [pages_from foldr]. split; [exact La|]. apply inv_push; [exact Hi| |].
    + split; [by rewrite HP|]. rewrite La. lia.
    + rewrite elem_of_pages_from. intros (i & ? & ?). lia.
Qed.

Lemma process_memory_inv :
  Page.inv 0x1000 process_memory (pages_from 24 0x1000) ∧
  ∀ p, p ∈ pages_from 24 0x1000 → ld8 (kmem process_memory) (p + PAGE_SIZE - 1) = 0.
Proof.
  split; [by apply push_pages|]. intros p Hp. vm_compute in Hp.
  repeat (apply elem_of_cons in Hp as [->|Hp]; [vm_compute; reflexivity|]).
  by apply not_elem_of_nil in Hp.
Qed.

Lemma process_table : ∃ s0 s1 s N l, new_table process_memory = Ok (0x1000, s0) ∧
  map 0x1000 TRAMPOLINE PAGE_SIZE 0x103000 (Z.lor PTE_R PTE_X) s0 = Ok (true, s1) ∧
  map 0x1000 TRAPFRAME PAGE_SIZE 0x104000 (Z.lor PTE_R PTE_W) s1 = Ok (true, s) ∧
  wf 0x1000 s N l ∧ N !! [] = Some 0x1000 ∧ (19 <= length l)%nat ∧ lastPage s = 0x19000 ∧
  grown s0 s {[ [] := 0x1000 ]} N (pages_from 23 0x2000) l ∧
  ∀ va, 0 <= va < MAX_VIRTUAL_ADDRESS → mapping (kmem s) N va =
    if decide (TRAMPOLINE <= va) then Some (leaf_entry 0x103000 (Z.lor PTE_R PTE_X))
    else if decide (TRAPFRAME <= va) then Some (leaf_entry 0x104000 (Z.lor PTE_R PTE_W))
    else None.
Proof.
  destruct process_memory_inv as [Hi Hz]. change (pages_from 24 0x1000) with (0x1000 :: pages_from 23 0x2000) in *.
  destruct (new_table_spec 0x1000 process_memory 0x1000 _ Hi Hz) as (s0 & E0 & Hw & La & Hm).
  destruct (trap_pages 0x1000 s0 _ _ 0x1000 0x103000 0x104000 Hw) as
    (s1 & s & N & l & E1 & E2 & Hw' & Hr & Hl & La' & Hg & Hm'); [done|vm_compute; lia|intros; apply Hm|lia|lia|].
  exists s0, s1, s, N, l. split_and!; [done|done|done|done|done| | |done|].
  - change (length (pages_from 23 0x2000)) with 23%nat in Hl. lia.
  - rewrite La', La. reflexivity.
  - intros va Hva. by rewrite Hm', Hm.
Qed.

(** The pages of the trap code are not user memory. *)
Lemma trap_pages_separated s N l :
  (∀ va, 0 <= va < MAX_VIRTUAL_ADDRESS → mapping (kmem s) N va =
    if decide (TRAMPOLINE <= va) then Some (leaf_entry 0x103000 (Z.lor PTE_R PTE_X))
    else if decide (TRAPFRAME <= va) then Some (leaf_entry 0x104000 (Z.lor PTE_R PTE_W))
    else None) → separated s N l.
Proof.
  intros Hm. assert (∀ va, user_pa (kmem s) N va = None) as Hn.
  { intros va. unfold user_pa. destruct (Z.leb_spec 0 va), (Z.ltb_spec va MAX_VIRTUAL_ADDRESS); try done.
    cbn [andb]. rewrite Hm by lia. by repeat case_decide. }
  split; intros va *; rewrite Hn; done.
Qed.

Lemma allocateUserVirtualMemory_grows_witness : ∃ s0 s1 s s' N N' l' pa,
  new_table process_memory = Ok (0x1000, s0) ∧
  map 0x1000 TRAMPOLINE PAGE_SIZE 0x103000 (Z.lor PTE_R PTE_X) s0 = Ok (true, s1) ∧
  map 0x1000 TRAPFRAME PAGE_SIZE 0x104000 (Z.lor PTE_R PTE_W) s1 = Ok (true, s) ∧
  allocateUserVirtualMemory 0x1000 0x1000 0 0x1800 PTE_W s = Ok (0x1800, s') ∧
  extended s s' N N' 0 0x2000 ∧
  separated s' N' l' ∧ user_pa (kmem s') N' 0x17ff = Some pa ∧ ld8 (kmem s') pa = 0.
Proof.
  destruct process_table as (s0 & s1 & s & N & l & E0 & E1 & E2 & Hw & Hr & Hl & _ & _ & Hm).
  destruct (allocateUserVirtualMemory_grows 0x1000 s N l 0x1000 0 0x1800 PTE_W Hw)
    as (s' & N' & l' & E' & _ & Hs & _ & Hext);
    [by apply trap_pages_separated|done|lia|by vm_compute|by vm_compute|by vm_compute| | |].
  - change (3 * ((roundUp 0x1800 - roundUp 0) / PAGE_SIZE)) with 6. lia.
  - intros va Hva. change (roundUp 0) with 0 in Hva. change (roundUp 0x1800) with 0x2000 in Hva.
    rewrite Hm by (change MAX_VIRTUAL_ADDRESS with 274877906944; lia).
    rewrite !decide_False; [done|change TRAPFRAME with 274877898752; lia|change TRAMPOLINE with 274877902848; lia].
  - destruct (ext_new _ _ _ _ _ _ Hext 0x17ff) as (pa & Hpa & Hz); [by vm_compute|].
    exists s0, s1, s, s', N, N', l', pa.
    split; [exact E0|]. split; [exact E1|]. split; [exact E2|]. split; [exact E'|].
    split; [exact Hext|]. split; [exact Hs|]. split; [exact Hpa|exact Hz].
Defined.

End Uvm.
