(* ===== verification/Fork.v ===== *)
(** * Copying an address space

    The correctness of [copyUserVirtualMemory] ([kernel/memory/uvm.cpp]), by
    which [Process::fork] gives the child its memory: two page tables that share
    one free list, the pages of the first copied page by page into the second. *)

From S2P Require Import Prelude CString Address Page PageTable Uvm.
Import CString Address Page PageTable Uvm.

#[local] Open Scope Z_scope.

Module Fork.

Section fork.
Variable kernelPages : Z.
#[local] Abbreviation wf := (PageTable.wf kernelPages).
Implicit Types (s : KMem) (N : gmap (list Z) Z) (l : list Z).

(** A page that no mapped page may share: free, or a table of either tree. *)
Definition reserved N1 N2 l (p : Z) : Prop :=
  p ∈ l ∨ (∃ π : list Z, N1 !! π = Some p) ∨ (∃ π : list Z, N2 !! π = Some p).

(** Two address spaces over one free list [l]: their tables are disjoint, the
    pages they map are not reserved, and the only mapped page they may have in
    common is the one both map at [TRAMPOLINE], the highest page of every address
    space ([Process::makePageTable]). *)
Record two s N1 N2 l : Prop := {
  two_old : wf s N1 l;
  two_new : wf s N2 l;
  two_nodes : ∀ (π π' : list Z) p, N1 !! π = Some p → N2 !! π' ≠ Some p;
  two_frames : ∀ va e, 0 <= va < MAX_VIRTUAL_ADDRESS → mapping (kmem s) N1 va = Some e → ¬ reserved N1 N2 l (toPhysicalAddress e);
  two_copies : ∀ va e, 0 <= va < MAX_VIRTUAL_ADDRESS → mapping (kmem s) N2 va = Some e →
    ¬ reserved N1 N2 l (toPhysicalAddress e) ∧
    ∀ va' e', 0 <= va' < MAX_VIRTUAL_ADDRESS → mapping (kmem s) N1 va' = Some e' →
      va < TRAMPOLINE ∨ va' < TRAMPOLINE → toPhysicalAddress e ≠ toPhysicalAddress e';
}.

(** The second address space after the pages of [lo, hi) were copied to it. *)
Record copied s s' N1 N2 N2' l (lo hi : Z) : Prop := {
  cp_old : ∀ va, mapping (kmem s') N1 va = mapping (kmem s) N1 va;
  cp_kept : ∀ va e a, 0 <= va < MAX_VIRTUAL_ADDRESS →
    mapping (kmem s) N1 va = Some e ∨ mapping (kmem s) N2 va = Some e →
    in_page (toPhysicalAddress e) a → ld8 (kmem s') a = ld8 (kmem s) a;
  cp_rest : ∀ va, 0 <= va < MAX_VIRTUAL_ADDRESS → va < lo ∨ hi <= va →
    mapping (kmem s') N2' va = mapping (kmem s) N2 va;
  cp_new : ∀ va, lo <= va < hi → ∃ e e', mapping (kmem s) N1 va = Some e ∧
    mapping (kmem s') N2' va = Some e' ∧ flags e' = flags e ∧ toPhysicalAddress e' ∈ l ∧
    ∀ k, 0 <= k < PAGE_SIZE →
      ld8 (kmem s') (toPhysicalAddress e' + k) = ld8 (kmem s) (toPhysicalAddress e + k);
}.

Lemma copied_refl s N1 N2 l lo : copied s s N1 N2 N2 l lo lo.
Proof. split; [done|done|done|lia]. Qed.

Lemma copied_trans s s1 s2 N1 Na Nb Nc l l1 lo mid hi :
  0 <= lo <= mid → mid <= hi <= MAX_VIRTUAL_ADDRESS → (∀ p, p ∈ l1 → p ∈ l) →
  (∀ va, lo <= va < hi → mapping (kmem s) Na va = None) →
  copied s s1 N1 Na Nb l lo mid → copied s1 s2 N1 Nb Nc l1 mid hi → copied s s2 N1 Na Nc l lo hi.
Proof.
  intros Hlo Hhi Hl Hnone [O1 K1 R1 C1] [O2 K2 R2 C2]. split.
  - intros va. by rewrite O2.
  - intros va e a Hva He Ha. rewrite <- (K1 va e a) by done. apply (K2 va e a); [done| |done].
    destruct He as [He|He]; [left; by rewrite O1|right].
    destruct (decide (lo <= va < hi)); [by rewrite Hnone in He|]. rewrite R1 by lia. done.
  - intros va Hva Hout. rewrite R2 by lia. apply R1; lia.
  - intros va Hva. destruct (Z.lt_ge_cases va mid) as [Hm|Hm].
    + destruct (C1 va) as (e & e' & He & He' & Hf & Hin & Hb); [lia|]. exists e, e'.
      rewrite R2 by lia. split_and!; [done|done|done|done|]. intros k Hk. rewrite <- Hb by done.
      apply (K2 va e'); [lia|by right|unfold in_page; lia].
    + destruct (C2 va) as (e & e' & He & He' & Hf & Hin & Hb); [lia|]. exists e, e'.
      rewrite O1 in He. split_and!; [done|done|done|by apply Hl|]. intros k Hk. rewrite Hb by done.
      apply (K1 va e); [lia|by left|unfold in_page; lia].
Qed.

(** Flags of a valid entry. *)
Lemma flags_spec raw : flags raw = raw mod 1024.
Proof.
  unfold flags. change 0x3FF with (Z.ones 10). rewrite Z.land_ones by lia. apply wrap_small. dlia.
Qed.

Lemma flags_valid raw : pte_v raw = true → Z.lor (flags raw) PTE_V = flags raw.
Proof.
  intros Hv. rewrite flags_spec. change PTE_V with (2 ^ 0). apply Z.bits_inj'. intros i Hi.
  rewrite Z.lor_spec, Z.pow2_bits_eqb by lia. destruct (Z.eqb_spec 0 i) as [<-|]; [|by rewrite orb_false_r].
  rewrite orb_true_r. change 1024 with (2 ^ 10). by rewrite Z.mod_pow2_bits_low.
Qed.

Lemma reserved_aligned s N1 N2 l p : two s N1 N2 l → reserved N1 N2 l p → p mod PAGE_SIZE = 0.
Proof.
  intros [Hw1 Hw2 _ _ _] [Hp|[[π Hp]|[π Hp]]].
  - by apply (inv_page _ _ _ _ (wf_free _ _ _ _ Hw1)).
  - by apply (wf_aligned _ _ _ _ _ _ Hw1 Hp).
  - by apply (wf_aligned _ _ _ _ _ _ Hw2 Hp).
Qed.

(** The bytes of a page that is not reserved are in no reserved page. *)
Lemma unreserved_bytes s N1 N2 l e a p : two s N1 N2 l →
  ¬ reserved N1 N2 l (toPhysicalAddress e) → in_page (toPhysicalAddress e) a →
  reserved N1 N2 l p → ¬ in_page p a.
Proof.
  intros Ht Hn Ha Hp. apply (in_page_ne (toPhysicalAddress e)).
  - apply toPhysicalAddress_aligned.
  - by eapply reserved_aligned.
  - by intros <-.
  - done.
Qed.

(** The other tree of tables survives the growth of one. *)
Lemma wf_other s s' N1 N2 N2' l l' :
  wf s N1 l → (∀ (π π' : list Z) p, N1 !! π = Some p → N2 !! π' ≠ Some p) → wf s N2 l → wf s' N2' l' →
  lastPage s' = lastPage s → grown s s' N2 N2' l l' →
  wf s' N1 l' ∧ ∀ va, mapping (kmem s') N1 va = mapping (kmem s) N1 va.
Proof.
  intros Hw Hd Hw2 Hw' Hla [Hsuf _ Hfr].
  assert (∀ π p i, N1 !! π = Some p → 0 <= i < 512 → ld64 (kmem s') (p + 8 * i) = ld64 (kmem s) (p + 8 * i)) as Hent.
  { intros π p i Hp Hi. apply ldN_ext. intros k Hk. simpl in Hk. apply Hfr.
    - intros x Hx. apply (in_page_ne p); [by apply (wf_aligned _ _ _ _ _ _ Hw Hp)| | |by apply entry_in_page].
      + by apply (inv_page _ _ _ _ (wf_free _ _ _ _ Hw)).
      + intros ->. by apply (wf_node _ _ _ _ Hw _ _ Hp).
    - intros π' q Hq. apply (in_page_ne p); [by apply (wf_aligned _ _ _ _ _ _ Hw Hp)| | |by apply entry_in_page].
      + by apply (wf_aligned _ _ _ _ _ _ Hw2 Hq).
      + intros ->. by apply (Hd π π' q). }
  split; [split|].
  - apply Hw'.
  - apply Hw'.
  - intros π p Hp. destruct (wf_node _ _ _ _ Hw π p Hp) as (H1 & H2 & H3).
    unfold is_page in *. rewrite Hla. split_and!; try apply H1; [|done].
    intros Hin. apply H2. destruct Hsuf as [k ->]. apply elem_of_app. by right.
  - apply Hw.
  - apply Hw.
  - intros π p i Hp Hlen Hi. rewrite (Hent π) by done. by apply (wf_child _ _ _ _ Hw).
  - intros π p i Hp Hlen Hi. rewrite (Hent π) by done. by apply (wf_leaf _ _ _ _ Hw π).
  - intros va. unfold mapping. destruct (N1 !! [vpn2 va; vpn1 va]) as [q|] eqn:Eq; [|done].
    by rewrite (Hent _ _ _ Eq (vpn0_range va)).
Qed.
(** What [memmove] into the free page [p] does to the other pages. *)
Lemma two_memmove s N1 N2 l p q :
  wf s N1 l → wf s N2 l → is_page kernelPages s p → p ∉ l →
  (∀ π : list Z, N1 !! π ≠ Some p) → (∀ π : list Z, N2 !! π ≠ Some p) →
  let s' := set_kmem (memmove (kmem s) p q PAGE_SIZE) s in
  wf s' N1 l ∧ wf s' N2 l ∧ (∀ va, mapping (kmem s') N1 va = mapping (kmem s) N1 va) ∧
  (∀ va, mapping (kmem s') N2 va = mapping (kmem s) N2 va) ∧
  (∀ k, 0 <= k < PAGE_SIZE → ld8 (kmem s') (p + k) = ld8 (kmem s) (q + k)) ∧
  (∀ a, ¬ in_page p a → ld8 (kmem s') a = ld8 (kmem s) a).
Proof.
  intros Hw1 Hw2 [Hal _] Hp Hn1 Hn2 s'.
  destruct (memmove_spec (kmem s) p q PAGE_SIZE) as [Hc Hf]; [done|done|].
  assert (∀ a, ¬ in_page p a → ld8 (kmem s') a = ld8 (kmem s) a) as Hout.
  { intros a Ha. apply Hf. unfold in_page in Ha. lia. }
  assert (∀ N, wf s N l → (∀ π : list Z, N !! π ≠ Some p) →
    wf s' N l ∧ ∀ va, mapping (kmem s') N va = mapping (kmem s) N va) as Hwf.
  { intros N Hw Hn. apply wf_data_write; [done|..].
    - intros a π x Hx Ha. apply Hout, (in_page_ne x); [by apply (wf_aligned _ _ _ _ _ _ Hw Hx)|done| |done].
      intros ->. by apply (Hn π).
    - intros a x Hx Ha. apply Hout, (in_page_ne x); [|done|by intros ->|done].
      by apply (inv_page _ _ _ _ (wf_free _ _ _ _ Hw)). }
  destruct (Hwf N1 Hw1 Hn1), (Hwf N2 Hw2 Hn2). by split_and!.
Qed.

Lemma mapping_valid m N va e : mapping m N va = Some e → pte_v e = true.
Proof. unfold mapping. intros He. cbv zeta in He. by repeat case_match; simplify_eq. Qed.

(** The calls of one round of the loop. *)
Lemma copy_user_loop_step f s s1 s3 N1 l root1 root2 i size e p :
  wf s N1 l → N1 !! [] = Some root1 → 0 <= i < MAX_VIRTUAL_ADDRESS → mapping (kmem s) N1 i = Some e →
  allocate s = Ok (p, s1) →
  map root2 i PAGE_SIZE p (flags e) (set_kmem (memmove (kmem s1) p (toPhysicalAddress e) PAGE_SIZE) s1) = Ok (true, s3) →
  i < size →
  copy_user_loop (S f) root1 root2 i size s = copy_user_loop f root1 root2 (u64 (i + PAGE_SIZE)) size s3.
Proof.
  intros Hw1 Hr1 Hi He E1 E3 Hsize. pose proof (mapping_valid _ _ _ _ He) as Hv.
  cbn [copy_user_loop]. rewrite (proj2 (Z.ltb_lt i size)) by done.
  pose proof (walk_read kernelPages s N1 l root1 i Hw1 Hr1 ltac:(lia)) as Ew.
  unfold mapping in He. cbv zeta in He. destruct (N1 !! [vpn2 i; vpn1 i]) as [q|] eqn:Eq; [|done].
  assert (ld64 (kmem s) (q + 8 * vpn0 i) = e) as Ee by (by case_match; simplify_eq).
  destruct (wf_bounds _ _ _ _ _ _ Hw1 Eq) as [Hq _]. pose proof (vpn0_range i).
  rewrite (bind_ok _ _ _ _ _ Ew), (proj2 (Z.eqb_neq _ _)) by lia. cbn [negb].
  unfold assert, mbind at 1, M_bind at 1, mret at 1, M_ret at 1.
  unfold gets, mbind at 1, M_bind at 1. rewrite Ee, Hv.
  unfold mbind at 1, M_bind at 1, mret at 1, M_ret at 1.
  assert (operator_new PAGE_SIZE s = Ok (p, s1)) as En by exact E1.
  rewrite (bind_ok _ _ _ _ _ En).
  unfold modify, mbind at 1, M_bind at 1. by rewrite (bind_ok _ _ _ _ _ E3).
Qed.

(** The page [p] from the free list [p :: l] now holds a copy of the page of [e],
    mapped at [i] in the second tree, whose tables grew by pages of [l]. *)
Record page_copied s s' N1 N2 N2' l l' (i p e : Z) : Prop := {
  pc_old_wf : wf s' N1 l';
  pc_new_wf : wf s' N2' l';
  pc_old : ∀ va, mapping (kmem s') N1 va = mapping (kmem s) N1 va;
  pc_new : ∀ va, 0 <= va < MAX_VIRTUAL_ADDRESS → mapping (kmem s') N2' va =
    if decide (va / 4096 = i / 4096) then Some (leaf_entry p (flags e)) else mapping (kmem s) N2 va;
  pc_nodes : ∀ π x, N2' !! π = Some x → N2 !! π = Some x ∨ x ∈ l;
  pc_free : ∀ x, x ∈ l' → x ∈ l;
  pc_kept : ∀ x a, x mod 4096 = 0 → ¬ reserved N1 N2 (p :: l) x → in_page x a → ld8 (kmem s') a = ld8 (kmem s) a;
  pc_data : toPhysicalAddress e ≠ p → ∀ k, 0 <= k < PAGE_SIZE → ld8 (kmem s') (p + k) = ld8 (kmem s) (toPhysicalAddress e + k);
  pc_fresh : p ∉ l ∧ (∀ π : list Z, N1 !! π ≠ Some p) ∧ ∀ π : list Z, N2 !! π ≠ Some p;
  pc_entry : toPhysicalAddress (leaf_entry p (flags e)) = p ∧ flags (leaf_entry p (flags e)) = Z.lor (flags e) PTE_V;
}.

(** What is reserved afterwards was reserved, and is not [p]. *)
Lemma page_copied_reserved s s' N1 N2 N2' l l' i p e x : wf s N1 (p :: l) →
  page_copied s s' N1 N2 N2' l l' i p e → reserved N1 N2' l' x → reserved N1 N2 (p :: l) x ∧ x ≠ p.
Proof.
  intros Hw [_ _ _ _ Hnodes Hl' _ _ (Hpl & Hn1 & Hn2) _] [Hx|[[π Hx]|[π Hx]]].
  - split; [left; right; by apply Hl'|]. intros ->. by apply Hpl, Hl'.
  - split; [right; left; by exists π|]. intros ->. by apply (Hn1 π).
  - destruct (Hnodes _ _ Hx) as [Ho|Ho].
    + split; [right; right; by exists π|]. intros ->. by apply (Hn2 π).
    + split; [left; by right|]. by intros ->.
Qed.

(** The address spaces are separate again. *)
Lemma page_copied_two s s' N1 N2 N2' l l' i p e :
  two s N1 N2 (p :: l) → page_copied s s' N1 N2 N2' l l' i p e → two s' N1 N2' l'.
Proof.
  intros [Hw1 Hw2 Hd Hfr Hcp] Hpc.
  pose proof (λ x, page_copied_reserved s s' N1 N2 N2' l l' i p e x Hw1 Hpc) as Hres.
  destruct Hpc as [Hw1' Hw2' Hold Hnew Hnodes _ _ _ _ [Dp _]]. split; [done|done|..].
  - intros π π' x Hx Hx'. destruct (Hnodes _ _ Hx') as [Ho|Ho]; [by apply (Hd π π' x)|].
    apply (wf_node _ _ _ _ Hw1 _ _ Hx). by right.
  - intros va e' Hva He' [Hr _]%Hres. rewrite Hold in He'. by apply (Hfr va e').
  - intros va e' Hva He'. rewrite Hnew in He' by done. case_decide as Hpage.
    + injection He' as <-. rewrite Dp. split.
      * by intros [_ ?]%Hres.
      * intros va' e'' Hva' He'' _ ->. rewrite Hold in He''. apply (Hfr va' e'' Hva' He''). left. left.
    + destruct (Hcp va e' Hva He') as [Hn Hdis]. split; [by intros [? _]%Hres|].
      intros va' e'' Hva'. rewrite Hold. by apply Hdis.
Qed.

(** The page was copied. *)
Lemma page_copied_copied s s' N1 N2 N2' l l' i p e :
  two s N1 N2 (p :: l) → page_copied s s' N1 N2 N2' l l' i p e →
  0 <= i < MAX_VIRTUAL_ADDRESS → i mod 4096 = 0 → mapping (kmem s) N1 i = Some e →
  copied s s' N1 N2 N2' (p :: l) i (i + 4096).
Proof.
  intros [Hw1 Hw2 Hd Hfr Hcp] [_ _ Hold Hnew _ _ Hkeep Hdata _ [Dp Df]] Hi Hal He.
  change MAX_VIRTUAL_ADDRESS with 274877906944 in *. split.
  - exact Hold.
  - intros va e' a Hva He' Ha. apply (Hkeep (toPhysicalAddress e')); [apply toPhysicalAddress_aligned| |done].
    destruct He' as [He'|He']; [by apply (Hfr va)|by apply (Hcp va)].
  - intros va Hva Hout'. rewrite Hnew, decide_False by (done || dlia). done.
  - intros va Hva. exists e, (leaf_entry p (flags e)).
    rewrite Hnew, decide_True by dlia. rewrite (mapping_same_page _ _ va i) by dlia.
    rewrite Dp, Df. split_and!; [done|done|by apply flags_valid, (mapping_valid _ _ _ _ He)|left|].
    apply Hdata. intros Ep. apply (Hfr i e Hi He). left. rewrite Ep. left.
Qed.

(** The bytes that [map] of the second tree leaves alone. *)
Lemma grown_kept s s' N1 N2 N2' l l' x a : wf s N1 l → wf s N2 l → grown s s' N2 N2' l l' →
  ¬ reserved N1 N2 l x → x mod 4096 = 0 → in_page x a → ld8 (kmem s') a = ld8 (kmem s) a.
Proof.
  intros Hw1 Hw2 [_ _ Hgf] Hx Hxal Ha. apply Hgf.
  - intros y Hy. apply (in_page_ne x); [done| | |done].
    + by apply (inv_page _ _ _ _ (wf_free _ _ _ _ Hw1)).
    + intros ->. apply Hx. by left.
  - intros π y Hy. apply (in_page_ne x); [done|by apply (wf_aligned _ _ _ _ _ _ Hw2 Hy)| |done].
    intros ->. apply Hx. right; right. by exists π.
Qed.

(** The page that is taken from the free list, filled and mapped. *)
Lemma take_and_map s N1 N2 p l root2 i e :
  two s N1 N2 (p :: l) → N2 !! [] = Some root2 → 0 <= i < MAX_VIRTUAL_ADDRESS → i mod 4096 = 0 → (2 <= length l)%nat →
  mapping (kmem s) N2 i = None → pte_v e = true →
  ∃ s1 s' N2' l', allocate s = Ok (p, s1) ∧
    map root2 i PAGE_SIZE p (flags e) (set_kmem (memmove (kmem s1) p (toPhysicalAddress e) PAGE_SIZE) s1) = Ok (true, s') ∧
    N2' !! [] = Some root2 ∧ (length l <= length l' + 2)%nat ∧ page_copied s s' N1 N2 N2' l l' i p e.
Proof.
  intros [Hw1 Hw2 Hd Hfr Hcp] Hr2 Hi Hal Hl Hnone Hv.
  destruct (wf_allocate kernelPages s N1 l p Hw1) as (s1 & E1 & Hw1a & Hla1 & Hp & Hpl & _ & Hf1 & Hm1).
  destruct (wf_allocate kernelPages s N2 l p Hw2) as (s1' & E1' & Hw2a & _ & _ & _ & _ & _ & Hm2).
  assert (s1' = s1) as -> by congruence.
  assert (∀ π : list Z, N1 !! π ≠ Some p) as Hn1 by (intros π Hπ; apply (wf_node _ _ _ _ Hw1 _ _ Hπ); left).
  assert (∀ π : list Z, N2 !! π ≠ Some p) as Hn2 by (intros π Hπ; apply (wf_node _ _ _ _ Hw2 _ _ Hπ); left).
  assert (0 < p < 2 ^ 64 ∧ p mod 4096 = 0) as [Hp64 Hpal].
  { destruct (inv_bounds _ _ _ (wf_free _ _ _ _ Hw1)), Hp. split; [lia|done]. }
  assert (is_page kernelPages s1 p) as Hp1 by (unfold is_page in *; by rewrite Hla1).
  destruct (two_memmove s1 N1 N2 l p (toPhysicalAddress e) Hw1a Hw2a Hp1 Hpl Hn1 Hn2)
    as (Hw1b & Hw2b & Hm1b & Hm2b & Hcopy & Hout).
  set (s2 := set_kmem (memmove (kmem s1) p (toPhysicalAddress e) PAGE_SIZE) s1) in *.
  assert (0 <= flags e < 1024) as Hfl by (rewrite flags_spec; dlia).
  destruct (map_one kernelPages s2 N2 l root2 i p (flags e)) as
    (s3 & N2' & l' & E3 & Hw2c & Hr2' & Hlen & Hla3 & Hg & Hm3); [done|done|done|done|done|by rewrite Hm2b, Hm2|lia|done|].
  exists s1, s3, N2', l'. split_and!; [done|done|done|done|].
  destruct (wf_other s2 s3 N1 N2 N2' l l' Hw1b Hd Hw2b Hw2c Hla3 Hg) as [Hw1c Hm1c].
  destruct (leaf_entry_decode p (flags e)) as (Dp & Df & _ & _); [lia|done|done|].
  split; try done.
  - intros va. by rewrite Hm1c, Hm1b, Hm1.
  - intros va Hva. rewrite Hm3 by done. case_decide; [done|]. by rewrite Hm2b, Hm2.
  - by destruct Hg.
  - intros x Hx. destruct (grown_suffix _ _ _ _ _ _ Hg) as [k ->]. apply elem_of_app. by right.
  - intros x a Hxal Hx Ha. rewrite (grown_kept s2 s3 N1 N2 N2' l l' x a); try done.
    + rewrite Hout; [apply Hf1|]; (apply (in_page_ne x); [done|done| |done]); intros ->; apply Hx; left; left.
    + intros [Hr|Hr]; apply Hx; [left; by right|by right].
  - intros Hne k Hk. rewrite (grown_kept s2 s3 N1 N2 N2' l l' p); try done; [|by intros [?|[[π ?]|[π ?]]]; [|apply (Hn1 π)|apply (Hn2 π)]|unfold in_page; lia].
    rewrite Hcopy by done. apply Hf1. apply (in_page_ne (toPhysicalAddress e)); [apply toPhysicalAddress_aligned|done|done|unfold in_page; lia].
Qed.

(** One round of the loop. *)
Lemma copy_page s N1 N2 l root1 root2 i :
  two s N1 N2 l → N1 !! [] = Some root1 → N2 !! [] = Some root2 →
  0 <= i < MAX_VIRTUAL_ADDRESS → i mod 4096 = 0 → (3 <= length l)%nat →
  is_Some (mapping (kmem s) N1 i) → mapping (kmem s) N2 i = None →
  ∃ s' N2' l', two s' N1 N2' l' ∧ N2' !! [] = Some root2 ∧ (length l <= length l' + 3)%nat ∧
    (∀ p, p ∈ l' → p ∈ l) ∧ copied s s' N1 N2 N2' l i (i + 4096) ∧
    ∀ f size, i < size → copy_user_loop (S f) root1 root2 i size s =
      copy_user_loop f root1 root2 (u64 (i + PAGE_SIZE)) size s'.
Proof.
  intros Ht Hr1 Hr2 Hi Hal Hl [e He] Hnone. destruct l as [|p l]; [simpl in Hl; lia|].
  destruct (take_and_map s N1 N2 p l root2 i e Ht Hr2 Hi Hal ltac:(simpl in Hl; lia) Hnone (mapping_valid _ _ _ _ He))
    as (s1 & s' & N2' & l' & E1 & E2 & Hr2' & Hlen & Hpc).
  exists s', N2', l'. split_and!; [by eapply page_copied_two|done|simpl; lia| |by eapply page_copied_copied|].
  - intros x Hx. right. by apply (pc_free _ _ _ _ _ _ _ _ _ _ Hpc).
  - intros f size Hsize. apply (copy_user_loop_step f s s1 s' N1 (p :: l) root1 root2 i size e p); try done. apply Ht.
Qed.

Lemma copy_user_loop_spec n fuel s N1 N2 l root1 root2 i size :
  two s N1 N2 l → N1 !! [] = Some root1 → N2 !! [] = Some root2 →
  0 <= i → i mod 4096 = 0 → i + 4096 * Z.of_nat n <= MAX_VIRTUAL_ADDRESS → (3 * n <= length l)%nat →
  (∀ va, i <= va < i + 4096 * Z.of_nat n → is_Some (mapping (kmem s) N1 va)) →
  (∀ va, i <= va < i + 4096 * Z.of_nat n → mapping (kmem s) N2 va = None) → (n <= fuel)%nat →
  i + 4096 * (Z.of_nat n - 1) < size <= i + 4096 * Z.of_nat n →
  ∃ s' N2' l', copy_user_loop fuel root1 root2 i size s = Ok (tt, s') ∧ two s' N1 N2' l' ∧
    N2' !! [] = Some root2 ∧ copied s s' N1 N2 N2' l i (i + 4096 * Z.of_nat n).
Proof.
  change MAX_VIRTUAL_ADDRESS with 274877906944.
  revert fuel s N2 l i; induction n as [|n IH];
    intros fuel s N2 l i Ht Hr1 Hr2 Hi Hal Hmax Hl Hsome Hnone Hfuel Hsize.
  { exists s, N2, l. split_and!; [|done|done|].
    - destruct fuel; simpl; rewrite (proj2 (Z.ltb_ge i size)) by lia; done.
    - replace (i + 4096 * Z.of_nat 0) with i by lia. apply copied_refl. }
  destruct fuel as [|fuel]; [lia|].
  destruct (copy_page s N1 N2 l root1 root2 i) as (s1 & Na & l1 & Ht1 & Hra & Hlen & Hsub & Hc1 & Eloop);
    [done|done|done|change MAX_VIRTUAL_ADDRESS with 274877906944; lia|done|lia|apply Hsome; lia|apply Hnone; lia|].
  rewrite Eloop by lia. unfold PAGE_SIZE. rewrite wrap_small by lia.
  pose proof (cp_rest _ _ _ _ _ _ _ _ Hc1) as Hrest. change MAX_VIRTUAL_ADDRESS with 274877906944 in Hrest.
  destruct (IH fuel s1 Na l1 (i + 4096)) as (s2 & Nb & l2 & E & Ht2 & Hrb & Hc2);
    [done|done|done|lia|dlia|lia|lia| | |lia|lia|].
  - intros va Hva. rewrite (cp_old _ _ _ _ _ _ _ _ Hc1). apply Hsome. lia.
  - intros va Hva. rewrite Hrest by lia. apply Hnone. lia.
  - exists s2, Nb, l2. split_and!; [exact E|done|done|].
    replace (i + 4096 * Z.of_nat (S n)) with (i + 4096 + 4096 * Z.of_nat n) by lia.
    eapply (copied_trans s s1 s2 N1 N2 Na Nb l l1 i (i + 4096)); try done; try (change MAX_VIRTUAL_ADDRESS with 274877906944; lia).
    intros va Hva. apply Hnone. lia.
Qed.
End fork.

(** ** Properties *)

(** C19: [copyUserVirtualMemory] gives the new page table a copy of the memory of
    the old one, as [Process::fork] calls it: both tables map the trampoline page
    and each its own trap frame above the user memory.  When every page below
    [size] is mapped in the old table and none in the new one, and there are three
    free pages per page (the copy and at most two tables; the last byte of every
    free page is zero, part of the well-formedness of the tables), the call
    returns; every address below [size] (rounded up to a page) is then mapped in
    the new table to a page that was free, with the flags of the old mapping and
    the byte of the old mapping; the rest of the new table (its trap pages) and
    the whole old table translate as before, and no byte either maps has changed;
    and the two address spaces again share no page but the trampoline, so that
    later writes to the memory of one are not seen in the other. *)
Theorem copyUserVirtualMemory_copies (kernelPages : Z) (s : KMem) (N1 N2 : gmap (list Z) Z) (l : list Z)
    (oldTable newTable size : Z)
    (Htwo : two kernelPages s N1 N2 l) (Hold : N1 !! [] = Some oldTable) (Hnew : N2 !! [] = Some newTable)
    (Hsize : 0 <= size <= MAX_VIRTUAL_ADDRESS) (Hfree : 3 * (roundUp size / PAGE_SIZE) <= Z.of_nat (length l))
    (Hmapped : ∀ va, 0 <= va < roundUp size → is_Some (mapping (kmem s) N1 va))
    (Hempty : ∀ va, 0 <= va < roundUp size → mapping (kmem s) N2 va = None) :
  ∃ s' N2' l', copyUserVirtualMemory oldTable newTable size s = Ok (tt, s') ∧
    two kernelPages s' N1 N2' l' ∧ N2' !! [] = Some newTable ∧
    (∀ va, mapping (kmem s') N1 va = mapping (kmem s) N1 va) ∧
    (∀ va e a, 0 <= va < MAX_VIRTUAL_ADDRESS →
       mapping (kmem s) N1 va = Some e ∨ mapping (kmem s) N2 va = Some e →
       in_page (toPhysicalAddress e) a → ld8 (kmem s') a = ld8 (kmem s) a) ∧
    (∀ va, roundUp size <= va < MAX_VIRTUAL_ADDRESS → mapping (kmem s') N2' va = mapping (kmem s) N2 va) ∧
    ∀ va, 0 <= va < roundUp size → ∃ e e', mapping (kmem s) N1 va = Some e ∧
      mapping (kmem s') N2' va = Some e' ∧ flags e' = flags e ∧ toPhysicalAddress e' ∈ l ∧
      ∀ k, 0 <= k < PAGE_SIZE →
        ld8 (kmem s') (toPhysicalAddress e' + k) = ld8 (kmem s') (toPhysicalAddress e + k).
Proof.
  unfold PAGE_SIZE in *. change MAX_VIRTUAL_ADDRESS with 274877906944 in *.
  rewrite !roundUp_spec in * by lia. set (n := Z.to_nat ((size + 4095) / 4096)).
  assert ((size + 4095) / 4096 * 4096 = 0 + 4096 * Z.of_nat n) as E by (unfold n; dlia). rewrite E in *.
  destruct (copy_user_loop_spec kernelPages n (Z.to_nat (size / 4096 + 1)) s N1 N2 l oldTable newTable 0 size)
    as (s' & N2' & l' & R & Ht & Hr & [C1 C2 C3 C4]);
    try done; try (change MAX_VIRTUAL_ADDRESS with 274877906944; unfold n in *; dlia).
  exists s', N2', l'. split_and!; [exact R|done|done|done| | |].
  - exact C2.
  - intros va Hva. apply C3; change MAX_VIRTUAL_ADDRESS with 274877906944; lia.
  - intros va Hva. destruct (C4 va Hva) as (e & e' & He & He' & Hf & Hin & Hb).
    exists e, e'. split_and!; [done|done|done|done|]. intros k Hk. rewrite Hb by done.
    symmetry. apply (C2 va e); [change MAX_VIRTUAL_ADDRESS with 274877906944; unfold n in *; dlia|by left|unfold in_page, PAGE_SIZE; lia].
Qed.

(** *** The address spaces of a parent and of its child

    The demonstration process of [Uvm.process_table] has one page of user memory
    (the physical page [0x80000]); the child has its trap pages only. *)

(** A second table, from the same free list, that maps the trampoline page and a
    trap frame of its own. *)
Lemma second_table s N1 p l t f :
  wf 0x1000 s N1 (p :: l) → (4 <= length l)%nat → 0 <= t < 2 ^ 64 → 0 <= f < 2 ^ 64 →
  ∃ s' N2 l', wf 0x1000 s' N1 l' ∧ wf 0x1000 s' N2 l' ∧ N2 !! [] = Some p ∧
    (length l <= length l' + 4)%nat ∧ lastPage s' = lastPage s ∧
    (∀ (π π' : list Z) q, N1 !! π = Some q → N2 !! π' ≠ Some q) ∧
    (∀ va, mapping (kmem s') N1 va = mapping (kmem s) N1 va) ∧
    ∀ va, 0 <= va < MAX_VIRTUAL_ADDRESS → mapping (kmem s') N2 va =
      if decide (TRAMPOLINE <= va) then Some (leaf_entry t (Z.lor PTE_R PTE_X))
      else if decide (TRAPFRAME <= va) then Some (leaf_entry f (Z.lor PTE_R PTE_W)) else None.
Proof.
  intros Hw Hl Ht Hf. pose proof (wf_free _ _ _ _ Hw) as Hi. set (N0 := {[ [] := p ]} : gmap (list Z) Z).
  assert (∀ π q, N1 !! π = Some q → q ≠ p ∧ q ∉ l) as HN1.
  { intros π q Hq. destruct (wf_node _ _ _ _ Hw _ _ Hq) as (_ & Hn & _).
    split; [intros ->; apply Hn; left|intros ?; apply Hn; by right]. }
  destruct (wf_allocate 0x1000 s N1 l p Hw) as (s1 & E1 & Hw1 & La1 & [Hpal _] & Hpl & _ & _ & Hm1).
  destruct (new_table_spec 0x1000 s p l Hi (wf_clean _ _ _ _ Hw)) as (s2 & E2 & Hw2 & La2 & Hm2). fold N0 in Hw2, Hm2.
  assert (s2 = set_kmem (st64 (kmem s1) p 0) s1) as Es2.
  { unfold new_table in E2. assert (operator_new 8 s = Ok (p, s1)) as En by exact E1.
    rewrite (bind_ok _ _ _ _ _ En) in E2. by injection E2 as <-. }
  assert (∀ a, ¬ in_page p a → ld8 (st64 (kmem s1) p 0) a = ld8 (kmem s1) a) as Hf2.
  { intros a Ha. apply ld8_stN_ne. unfold in_page, PAGE_SIZE in Ha. simpl. lia. }
  destruct (wf_data_write 0x1000 s1 N1 l (st64 (kmem s1) p 0) Hw1) as [Hw1' Hm1'].
  { intros a π q Hq Ha. apply Hf2, (in_page_ne q); [by apply (wf_aligned _ _ _ _ _ _ Hw Hq)|done|by apply (HN1 π)|done]. }
  { intros a q Hq Ha. apply Hf2, (in_page_ne q); [|done|by intros ->|done].
    by apply (inv_page _ _ _ _ (wf_free _ _ _ _ Hw1)). }
  rewrite <- Es2 in Hw1'. assert (∀ (π π' : list Z) q, N1 !! π = Some q → N0 !! π' ≠ Some q) as Hdis.
  { intros π π' q Hq [_ Eq]%lookup_singleton_Some. by destruct (HN1 _ _ Hq). }
  destruct (trap_pages 0x1000 s2 N0 l p t f Hw2) as (s3 & s' & N2 & l' & _ & _ & Hw3 & Hr3 & Hl3 & La3 & Hg & Hm3);
    [done|done|intros; apply Hm2|done|done|].
  destruct (wf_other 0x1000 s2 s' N1 N0 N2 l l' Hw1' Hdis Hw2 Hw3 La3 Hg) as [Hw1c Hm1c].
  exists s', N2, l'. split_and!; [done|done|done|done|congruence| | |].
  - intros π π' q Hq Hq'. destruct (grown_nodes _ _ _ _ _ _ Hg _ _ Hq') as [Ho|Ho]; [by apply (Hdis π π' q)|].
    by apply (HN1 _ _ Hq).
  - intros va. by rewrite Hm1c, Es2, Hm1', Hm1.
  - intros va Hva. by rewrite Hm3, Hm2.
Qed.
(** The page of user memory of the parent. *)
Lemma parent_page : ∃ s N p l, wf 0x1000 s N (p :: l) ∧ N !! [] = Some 0x1000 ∧ (16 <= length l)%nat ∧
  lastPage s = 0x19000 ∧
  ∀ va, 0 <= va < MAX_VIRTUAL_ADDRESS → mapping (kmem s) N va =
    if decide (va < 4096) then Some (leaf_entry 0x80000 (Z.lor PTE_R PTE_U))
    else if decide (TRAMPOLINE <= va) then Some (leaf_entry 0x103000 (Z.lor PTE_R PTE_X))
    else if decide (TRAPFRAME <= va) then Some (leaf_entry 0x104000 (Z.lor PTE_R PTE_W)) else None.
Proof.
  destruct process_table as (s0 & s1 & s & N & l & _ & _ & _ & Hw & Hr & Hl & La & _ & Hm).
  destruct (map_one 0x1000 s N l 0x1000 0 0x80000 (Z.lor PTE_R PTE_U) Hw) as
    (s' & N' & l' & _ & Hw' & Hr' & Hl' & La' & _ & Hm');
    [done|by vm_compute|done|lia|by rewrite Hm by by vm_compute|lia|by vm_compute|].
  destruct l' as [|p l']; [simpl in Hl'; lia|]. exists s', N', p, l'.
  split_and!; [done|done|simpl in Hl'; lia|congruence|]. intros va Hva. rewrite Hm', Hm by done.
  change (0 / 4096) with 0. destruct (decide (va < 4096)); [rewrite decide_True by dlia; done|].
  by rewrite decide_False by dlia.
Qed.

(** The entries of the demonstration. *)
Lemma demo_entries e :
  e = leaf_entry 0x80000 (Z.lor PTE_R PTE_U) ∨ e = leaf_entry 0x103000 (Z.lor PTE_R PTE_X) ∨
  e = leaf_entry 0x104000 (Z.lor PTE_R PTE_W) ∨ e = leaf_entry 0x105000 (Z.lor PTE_R PTE_W) →
  0x80000 <= toPhysicalAddress e.
Proof. by intros [->|[->|[->| ->]]]. Qed.

Lemma demo_two : ∃ s N1 N2 root2 l, two 0x1000 s N1 N2 l ∧ N1 !! [] = Some 0x1000 ∧ N2 !! [] = Some root2 ∧
  (3 <= length l)%nat ∧ (∀ va, 0 <= va < 4096 → is_Some (mapping (kmem s) N1 va)) ∧
  (∀ va, 0 <= va < 4096 → mapping (kmem s) N2 va = None) ∧
  mapping (kmem s) N1 TRAMPOLINE = Some (leaf_entry 0x103000 (Z.lor PTE_R PTE_X)) ∧
  mapping (kmem s) N2 TRAMPOLINE = Some (leaf_entry 0x103000 (Z.lor PTE_R PTE_X)) ∧
  mapping (kmem s) N2 TRAPFRAME = Some (leaf_entry 0x105000 (Z.lor PTE_R PTE_W)).
Proof.
  destruct parent_page as (s0 & N1 & p & l & Hw & Hr & Hl & La & Hm1).
  destruct (second_table s0 N1 p l 0x103000 0x105000 Hw) as (s & N2 & l' & Hw1 & Hw2 & Hr2 & Hl' & La' & Hd & Hm1' & Hm2);
    [lia|lia|lia|].
  change MAX_VIRTUAL_ADDRESS with 274877906944 in *. change TRAMPOLINE with 274877902848 in *.
  change TRAPFRAME with 274877898752 in *.
  assert (∀ x, reserved N1 N2 l' x → x < 0x19000) as Hres.
  { intros x Hx. assert (is_page 0x1000 s x) as [_ Hb]; [|rewrite La', La in Hb; lia].
    destruct Hx as [Hx|[[π Hx]|[π Hx]]].
    - by apply (inv_page _ _ _ _ (wf_free _ _ _ _ Hw1)).
    - apply (wf_node _ _ _ _ Hw1 _ _ Hx).
    - apply (wf_node _ _ _ _ Hw2 _ _ Hx). }
  assert (∀ e, 0x80000 <= toPhysicalAddress e → ¬ reserved N1 N2 l' (toPhysicalAddress e)) as Hfar.
  { intros e He ?%Hres. lia. }
  exists s, N1, N2, p, l'. split_and!; [|done|done|lia| | |by rewrite Hm1', Hm1|by rewrite Hm2|by rewrite Hm2].
  - split; [done|done|done| |]; change MAX_VIRTUAL_ADDRESS with 274877906944; change TRAMPOLINE with 274877902848.
    + intros va e Hva. rewrite Hm1', Hm1 by done. intros He. apply Hfar, demo_entries.
      repeat case_decide; simplify_eq; tauto.
    + intros va e Hva. rewrite Hm2 by done. intros He. split.
      * apply Hfar, demo_entries. repeat case_decide; simplify_eq; tauto.
      * intros va' e' Hva'. rewrite Hm1', Hm1 by done. intros He' Hlow.
        repeat case_decide; simplify_eq; try lia; by vm_compute.
  - intros va Hva. rewrite Hm1', Hm1, decide_True by lia. eauto.
  - intros va Hva. rewrite Hm2, !decide_False by lia. done.
Qed.

Lemma copyUserVirtualMemory_copies_witness : ∃ s s' N1 N2' root2 e e',
  copyUserVirtualMemory 0x1000 root2 4000 s = Ok (tt, s') ∧
  mapping (kmem s) N1 4095 = Some e ∧ mapping (kmem s') N2' 4095 = Some e' ∧ flags e' = flags e ∧
  mapping (kmem s') N1 TRAMPOLINE = mapping (kmem s') N2' TRAMPOLINE ∧
  mapping (kmem s') N2' TRAPFRAME = Some (leaf_entry 0x105000 (Z.lor PTE_R PTE_W)).
Proof.
  destruct demo_two as (s & N1 & N2 & root2 & l & Ht & Hr1 & Hr2 & Hl & Hsome & Hnone & Ht1 & Ht2 & Hf2).
  destruct (copyUserVirtualMemory_copies 0x1000 s N1 N2 l 0x1000 root2 4000 Ht Hr1 Hr2)
    as (s' & N2' & l' & E & _ & _ & H1 & _ & Hrest & H).
  - by vm_compute.
  - change (roundUp 4000 / PAGE_SIZE) with 1. lia.
  - change (roundUp 4000) with 4096. exact Hsome.
  - change (roundUp 4000) with 4096. exact Hnone.
  - destruct (H 4095) as (e & e' & He & He' & Hf & _); [by vm_compute|].
    exists s, s', N1, N2', root2, e, e'. split; [exact E|]. split; [exact He|]. split; [exact He'|]. split; [exact Hf|].
    rewrite H1, !Hrest by by vm_compute. split; [by rewrite Ht1, Ht2|exact Hf2].
Defined.

End Fork.
