(* ===== verification/Ring.v ===== *)
(** * Ring buffers

    The lemmas on ring buffers that the UART transmit buffer and the console
    input buffer share: both keep free-running 64-bit positions and index the
    array with the position modulo its size. *)

From S2P Require Import Prelude.

Module Ring.

(** The cells from position [start] on hold [l]. *)
Definition ring (size : Z) (buf : bytes) (start : Z) (l : bytes) : Prop :=
  Z.of_nat (length buf) = size ∧ Z.of_nat (length l) <= size ∧
  ∀ (i : nat) x, l !! i = Some x →
    buf !! Z.to_nat ((start + Z.of_nat i) mod size) = Some x.

(** The read position [r] and the end position [w] delimit [n] cells. *)
Definition spans (r w : Z) (n : nat) : Prop :=
  0 <= r < 2 ^ 64 ∧ w = u64 (r + Z.of_nat n).

Lemma spans_range r w n : spans r w n → 0 <= w < 2 ^ 64.
Proof. intros [_ ->]. apply wrap_range. lia. Qed.

Lemma spans_count r w n : spans r w n → Z.of_nat n < 2 ^ 64 → u64 (w - r) = Z.of_nat n.
Proof.
  intros [Hr ->] Hn. rewrite wrap_sub_l. replace (r + Z.of_nat n - r) with (Z.of_nat n) by lia.
  apply wrap_small. lia.
Qed.

Lemma spans_empty r w n : spans r w n → Z.of_nat n < 2 ^ 64 → r = w ↔ n = 0%nat.
Proof.
  intros Hs Hn. pose proof (spans_count r w n Hs Hn) as E. split.
  - intros ->. rewrite Z.sub_diag in E. change (u64 0) with 0 in E. lia.
  - intros ->. destruct Hs as [Hr ->]. rewrite Z.add_0_r. symmetry. by apply wrap_small.
Qed.

Lemma spans_push r w n : spans r w n → spans r (u64 (w + 1)) (S n).
Proof.
  intros [Hr ->]. split; [done|]. rewrite wrap_add_l. f_equal. lia.
Qed.

Lemma spans_pop r w n : spans r w (S n) → spans (u64 (r + 1)) w n.
Proof.
  intros [Hr ->]. split; [apply wrap_range; lia|]. rewrite wrap_add_l. f_equal. lia.
Qed.

Lemma spans_drop_last r w n : spans r w (S n) → spans r (u64 (w - 1)) n.
Proof.
  intros [Hr ->]. split; [done|]. rewrite wrap_sub_l. f_equal. lia.
Qed.

Lemma spans_app r m w n1 n2 : spans r m n1 → spans m w n2 → spans r w (n1 + n2).
Proof.
  intros [Hr ->] [_ ->]. split; [done|]. rewrite wrap_add_l. f_equal. lia.
Qed.

Section ring.
Variable size : Z.
Hypothesis Hsize : 0 < size.
Hypothesis Hdiv : (size | 2 ^ 64).

(** A position wraps around at [2^64] without moving in the array. *)
Lemma ring_wrap p : u64 p mod size = p mod size.
Proof. unfold wrap. by apply Z.mod_mod_divide. Qed.

Lemma ring_index_ne start i j :
  0 <= i < size → 0 <= j < size → i ≠ j →
  (start + i) mod size ≠ (start + j) mod size.
Proof.
  intros Hi Hj Hne E. apply Hne.
  assert ((start + i - (start + j)) mod size = 0) as E0.
  { rewrite Zminus_mod, E, Z.sub_diag. apply Zmod_0_l. }
  apply Z.mod_divide in E0 as [q Hq]; [|lia].
  assert (q = 0 ∨ q >= 1 ∨ q <= -1) as [-> |[?|?]] by lia; [lia|nia|nia].
Qed.

Lemma ring_front buf start x l :
  ring size buf start (x :: l) → buf !! Z.to_nat (start mod size) = Some x.
Proof. intros (_ & _ & H). specialize (H 0%nat x). rewrite Z.add_0_r in H. by apply H. Qed.

Lemma ring_pop buf start x l :
  ring size buf start (x :: l) → ring size buf (u64 (start + 1)) l.
Proof.
  intros (Hb & Hl & H). split_and!; [done|simpl in Hl; lia|]. intros i y Hy.
  specialize (H (S i) y Hy). rewrite <- Z.add_mod_idemp_l, ring_wrap, Z.add_mod_idemp_l by lia.
  replace (start + 1 + Z.of_nat i) with (start + Z.of_nat (S i)) by lia. done.
Qed.

Lemma ring_push buf start l w x :
  ring size buf start l → Z.of_nat (length l) < size → spans start w (length l) →
  ring size (<[Z.to_nat (w mod size) := x]> buf) start (l ++ [x]).
Proof.
  intros (Hb & Hl & H) Hlt [_ ->]. rewrite ring_wrap.
  pose proof (Z.mod_pos_bound (start + Z.of_nat (length l)) size Hsize) as Hr.
  split_and!; [by rewrite length_insert|rewrite length_app; simpl; lia|].
  intros i y [Hy|[Hge Hy]]%lookup_app_Some.
  - pose proof (lookup_lt_Some _ _ _ Hy). rewrite list_lookup_insert_ne; [by apply H|].
    intros E%Z2Nat.inj; [|lia|apply Z.mod_pos_bound; lia].
    by apply (ring_index_ne start (Z.of_nat (length l)) (Z.of_nat i)); [lia..|].
  - assert (i = length l) as ->.
    { apply lookup_lt_Some in Hy. simpl in Hy. lia. }
    rewrite Nat.sub_diag in Hy. injection Hy as <-.
    rewrite list_lookup_insert_eq; [done|lia].
Qed.

Lemma ring_prefix buf start l1 l2 : ring size buf start (l1 ++ l2) → ring size buf start l1.
Proof.
  intros (Hb & Hl & H). split_and!; [done|rewrite length_app in Hl; lia|].
  intros i x Hx. apply H. by apply lookup_app_l_Some.
Qed.
End ring.

End Ring.
