(* ===== verification/Uart.v ===== *)
(** * The UART driver

    [kernel/console/uart.h] and [uart.cpp].  The device is the memory-mapped
    NS16550A: what a read of a register returns is a function of the register
    accesses made so far, a parameter of the model.  The mutex of the driver and
    the interrupt mask of [uartPutcSync] are those of the SpinMutex file; here
    the operations run as the critical sections they delimit. *)

From S2P Require Import Prelude Ring.
Import Ring.

Module Uart.

(** ** Definitions *)

Definition RHR : Z := 0.
Definition THR : Z := 0.
Definition IER : Z := 1.
Definition IER_RX_ENABLE : Z := Z.shiftl 1 0.
Definition IER_TX_ENABLE : Z := Z.shiftl 1 1.
Definition FCR : Z := 2.
Definition FCR_FIFO_ENABLE : Z := Z.shiftl 1 0.
Definition FCR_FIFO_CLEAR : Z := Z.shiftl 3 1.
Definition LCR : Z := 3.
Definition LCR_EIGHT_BITS : Z := Z.shiftl 3 0.
Definition LCR_BAUD_LATCH : Z := Z.shiftl 1 7.
Definition LSR : Z := 5.
Definition LSR_TX_IDLE : Z := Z.shiftl 1 5.

(** A register access. *)
Inductive access :=
  | Read (r : Z)
  | Write (r v : Z).

(** [sizeof(buf)]. *)
Definition UART_BUF : Z := 32.

(** The channels of [process::wakeup]: [&rpos] here, [&cons.readPos] in the
    console. *)
Inductive channel := ChanRpos.

Record Uart := mkUart {
  trace : list access;
  buf : bytes;
  wpos : Z;
  rpos : Z;
  woken : list channel;
}.

Definition set_trace (t : list access) (u : Uart) : Uart :=
  mkUart t (buf u) (wpos u) (rpos u) (woken u).

(** The bytes that reached the transmit register, in order. *)
Definition sent (t : list access) : bytes :=
  omap (λ a, match a with Write r v => if r =? THR then Some v else None | Read _ => None end) t.

Section device.
Variable device : list access → Z → Z.

Definition read_reg (r : Z) : M Uart Z := λ u,
  Ok (u8 (device (trace u) r), set_trace (trace u ++ [Read r]) u).

Definition write_reg (r val : Z) : M Uart unit :=
  modify (λ u, set_trace (trace u ++ [Write r (u8 val)]) u).

Definition wakeup (c : channel) : M Uart unit :=
  modify (λ u, mkUart (trace u) (buf u) (wpos u) (rpos u) (woken u ++ [c])).

(** [start]: move bytes from the buffer to the device while it takes them. *)
Fixpoint start (fuel : nat) : M Uart unit :=
  u ← get_state;
  if wpos u =? rpos u then mret tt
  else
    match fuel with
    | O => fail NoFuel
    | S f =>
        lsr ← read_reg LSR;
        if Z.land lsr LSR_TX_IDLE =? 0 then mret tt
        else
          u ← get_state;
          match buf u !! Z.to_nat (rpos u mod UART_BUF) with
          | None => fail OutOfRange
          | Some c =>
              modify (λ u, mkUart (trace u) (buf u) (wpos u) (u64 (rpos u + 1)) (woken u)) ;;
              wakeup ChanRpos ;;
              write_reg THR c ;;
              start f
          end
    end.

Definition initializeUart : M Uart unit :=
  write_reg IER 0x00 ;;
  write_reg LCR LCR_BAUD_LATCH ;;
  write_reg 0 0x03 ;;
  write_reg 1 0x00 ;;
  write_reg LCR LCR_EIGHT_BITS ;;
  write_reg FCR (Z.lor FCR_FIFO_ENABLE FCR_FIFO_CLEAR) ;;
  write_reg IER (Z.lor IER_TX_ENABLE IER_RX_ENABLE).

(** [uartPutc]: a full buffer makes the caller sleep on [&rpos]. *)
Definition uartPutc (c : Z) : M Uart unit :=
  u ← get_state;
  if wpos u =? u64 (rpos u + UART_BUF) then fail WouldSleep
  else
    modify (λ u, mkUart (trace u) (<[Z.to_nat (wpos u mod UART_BUF) := c]> (buf u))
                   (u64 (wpos u + 1)) (rpos u) (woken u)) ;;
    start (Z.to_nat UART_BUF).

(** The waiting loop of [uartPutcSync]. *)
Fixpoint wait_idle (fuel : nat) : M Uart unit :=
  lsr ← read_reg LSR;
  if Z.land lsr LSR_TX_IDLE =? 0 then
    match fuel with
    | O => fail NoFuel
    | S f => wait_idle f
    end
  else mret tt.

Definition uartPutcSync (polls : nat) (c : Z) : M Uart unit :=
  wait_idle polls ;; write_reg THR c.

Definition uartGetc : M Uart Z :=
  lsr ← read_reg LSR;
  if negb (Z.land lsr 0x01 =? 0) then read_reg RHR else mret 0.

(** ** Invariant *)

(** [l] is the text accepted by [uartPutc] and not yet transmitted. *)
Record pending (u : Uart) (l : bytes) : Prop := {
  pending_ring : ring UART_BUF (buf u) (rpos u) l;
  pending_span : spans (rpos u) (wpos u) (length l);
  pending_bytes : Forall (λ c, 0 <= c < 256) l;
}.

(** The transmitter is idle after at most [polls] reads of the line status
    register, whatever happened before. *)
Definition transmits (polls : nat) : Prop :=
  ∀ t, ∃ k, (k <= polls)%nat ∧ Z.land (u8 (device (t ++ replicate k (Read LSR)) LSR)) LSR_TX_IDLE ≠ 0.

(** ** Lemmas *)

Lemma sent_app t t' : sent (t ++ t') = sent t ++ sent t'.
Proof. apply omap_app. Qed.

Lemma sent_reads k t : sent (t ++ replicate k (Read LSR)) = sent t.
Proof.
  rewrite sent_app. replace (sent (replicate k (Read LSR))) with (@nil Z); [apply app_nil_r|].
  induction k as [|k IH]; [done|]. exact IH.
Qed.

Lemma uart_size : 0 < UART_BUF ∧ (UART_BUF | 2 ^ 64).
Proof. split; [done|]. exists (2 ^ 59). by vm_compute. Qed.

(** [start] transmits a prefix of the pending bytes, in order. *)
Lemma start_spec fuel u l :
  pending u l → (length l <= fuel)%nat →
  runs (start fuel) u (λ _ u', ∃ k, pending u' (drop k l) ∧
    sent (trace u') = sent (trace u) ++ take k l).
Proof.
  revert u l; induction fuel as [|fuel IH]; intros u l [Hr Hs Hb] Hf; cbn [start];
    apply runs_bind, runs_get_state; cbv beta;
    pose proof (spans_empty _ _ _ Hs ltac:(destruct Hr as (_ & ? & _); unfold UART_BUF in *; lia)) as He.
  - rewrite (proj2 (Z.eqb_eq _ _)) by (symmetry; apply He; lia).
    exists 0%nat. rewrite take_0, drop_0, app_nil_r. split; [by split|done].
  - destruct (Z.eqb_spec (wpos u) (rpos u)) as [E|E].
    { exists 0%nat. rewrite take_0, drop_0, app_nil_r. split; [by split|done]. }
    destruct l as [|c l]; [by destruct E; symmetry; apply He|].
    apply runs_bind. unfold read_reg, runs at 1. case_match.
    { exists 0%nat. rewrite take_0, drop_0, app_nil_r. split; [by split|].
      cbn [trace set_trace]. by rewrite (sent_reads 1). }
    apply runs_bind, runs_get_state. cbn [buf rpos set_trace].
    rewrite (ring_front _ _ _ _ _ Hr). do 3 runs_step. unfold wakeup. runs_step.
    apply runs_bind. unfold write_reg. runs_step. cbn [trace buf wpos rpos woken set_trace].
    rewrite Forall_cons in Hb. destruct Hb as [Hc Hb].
    eapply runs_mono; [apply (IH _ l)|].
    + split; cbn [buf rpos wpos]; [by eapply ring_pop; [apply uart_size..|]|by apply spans_pop|done].
    + simpl in Hf. lia.
    + intros [] u' (k & Hp & Hsent). exists (S k). split; [exact Hp|]. cbn [trace set_trace] in Hsent.
      rewrite Hsent, (sent_app _ [Write THR _]), (sent_reads 1), <- app_assoc.
      f_equal. cbn. by rewrite wrap_small by lia.
Qed.

Lemma uartPutc_spec u l c :
  pending u l → Z.of_nat (length l) < UART_BUF → 0 <= c < 256 →
  runs (uartPutc c) u (λ _ u', ∃ k, pending u' (drop k (l ++ [c])) ∧
    sent (trace u') = sent (trace u) ++ take k (l ++ [c])).
Proof.
  intros [Hr Hs Hb] Hl Hc. unfold uartPutc. apply runs_bind, runs_get_state.
  rewrite (proj2 (Z.eqb_neq _ _)).
  - do 2 runs_step. eapply runs_mono; [apply (start_spec _ _ (l ++ [c]))|].
    + split; cbn [buf rpos wpos].
      * by apply ring_push; try apply uart_size.
      * rewrite length_app, Nat.add_1_r. by apply spans_push.
      * rewrite Forall_app, Forall_singleton. done.
    + rewrite length_app. simpl. unfold UART_BUF in *. lia.
    + intros [] u' Hu. exact Hu.
  - destruct Hs as [Hr0 ->]. unfold UART_BUF in *. intros E.
    assert (u64 (rpos u + Z.of_nat (length l) - rpos u) = u64 (rpos u + 32 - rpos u)) as E'.
    { by rewrite <- wrap_sub_l, E, wrap_sub_l. }
    rewrite !Z.add_simpl_l, !wrap_small in E' by lia. lia.
Qed.

Lemma uartPutcSync_spec polls u c :
  transmits polls → 0 <= c < 256 →
  runs (uartPutcSync polls c) u (λ _ u', buf u' = buf u ∧ wpos u' = wpos u ∧ rpos u' = rpos u ∧
    woken u' = woken u ∧ sent (trace u') = sent (trace u) ++ [c]).
Proof.
  intros Ht Hc. unfold uartPutcSync. apply runs_bind.
  assert (∀ k fuel t, Z.land (u8 (device (trace u ++ t ++ replicate k (Read LSR)) LSR)) LSR_TX_IDLE ≠ 0 →
    (k <= fuel)%nat → sent t = [] →
    runs (wait_idle fuel) (set_trace (trace u ++ t) u) (λ _ u', ∃ t', u' = set_trace (trace u ++ t') u ∧ sent t' = [])) as Hwait.
  { induction k as [|k IH]; intros fuel t Hk Hle Hst.
    - destruct fuel; cbn [wait_idle]; apply runs_bind; unfold read_reg, runs at 1; cbn [trace set_trace];
        rewrite app_nil_r in Hk; rewrite (proj2 (Z.eqb_neq _ _) Hk);
        (exists (t ++ [Read LSR]); split; [by rewrite <- app_assoc|by rewrite (sent_reads 1)]).
    - destruct fuel as [|fuel]; [lia|]. cbn [wait_idle]. apply runs_bind. unfold read_reg, runs at 1.
      cbn [trace set_trace]. case_match.
      + rewrite <- app_assoc. apply IH; [|lia|by rewrite (sent_reads 1)].
        by rewrite <- (app_assoc t [Read LSR]).
      + exists (t ++ [Read LSR]). split; [by rewrite <- app_assoc|by rewrite (sent_reads 1)]. }
  destruct (Ht (trace u)) as (k & Hk & Hidle).
  assert (set_trace (trace u ++ []) u = u) as Eu by (rewrite app_nil_r; by destruct u).
  rewrite <- Eu at 1. eapply runs_mono; [by apply (Hwait k polls [])|].
  { intros [] u' (t' & -> & Hst). unfold write_reg. runs_step. cbn. split_and!; [done..|].
    rewrite !sent_app, Hst, app_nil_r. cbn. by rewrite wrap_small by lia. }
Qed.
End device.

End Uart.
