(* ===== verification/Console.v ===== *)
(** * The console

    [kernel/console/console.cpp]: formatted output, the line editor that runs in
    the UART interrupt, and the line reader, with [uartInterrupt] of [uart.cpp]
    and [panic] of [kernel/lib/panic.cpp].  [cons.mutex] delimits the critical
    sections the operations run as.  Text is a list of character codes. *)

From S2P Require Import Prelude CString Address Page PageTable Uvm Ring Uart.
Import CString Address Page PageTable Uvm Ring Uart.

Module Console.

(** ** Definitions *)

Definition BUF_SIZE : Z := 1024.

(** ["0123456789ABCDEF"]. *)
Definition digits : bytes := [48; 49; 50; 51; 52; 53; 54; 55; 56; 57; 65; 66; 67; 68; 69; 70].

(** [cons], with the UART it prints on, the kernel's memory, and the number of
    wakeups of the readers. *)
Record Console := mkConsole {
  cbuf : bytes;
  readPos : Z;
  writePos : Z;
  editPos : Z;
  uart : Uart;
  memory : KMem;
  wakeups : Z;
}.

Definition set_uart (u : Uart) (s : Console) : Console :=
  mkConsole (cbuf s) (readPos s) (writePos s) (editPos s) u (memory s) (wakeups s).

Definition set_memory (m : KMem) (s : Console) : Console :=
  mkConsole (cbuf s) (readPos s) (writePos s) (editPos s) (uart s) m (wakeups s).

Definition set_readPos (p : Z) (s : Console) : Console :=
  mkConsole (cbuf s) p (writePos s) (editPos s) (uart s) (memory s) (wakeups s).

Definition set_editPos (p : Z) (s : Console) : Console :=
  mkConsole (cbuf s) (readPos s) (writePos s) p (uart s) (memory s) (wakeups s).

Definition set_writePos (p : Z) (s : Console) : Console :=
  mkConsole (cbuf s) (readPos s) p (editPos s) (uart s) (memory s) (wakeups s).

Definition wake_readers (s : Console) : Console :=
  mkConsole (cbuf s) (readPos s) (writePos s) (editPos s) (uart s) (memory s) (wakeups s + 1).

(** An operation of the driver, run on the driver's part of the state. *)
Definition on_uart {A} (c : M Uart A) : M Console A := λ s,
  match c (uart s) with
  | Ok (a, u) => Ok (a, set_uart u s)
  | Err f => Err f
  end.

Definition on_memory {A} (c : M KMem A) : M Console A := λ s,
  match c (memory s) with
  | Ok (a, m) => Ok (a, set_memory m s)
  | Err f => Err f
  end.

Section console.
Variable device : list access → Z → Z.
(** The bound on the polls of [uartPutcSync]. *)
Variable polls : nat.
(** The page table of the current process. *)
Variable pageTable : Z.

Definition initialize : M Console unit := on_uart initializeUart.

Definition putc (c : Z) : M Console unit := on_uart (uartPutcSync device polls c).

Fixpoint put_string (l : bytes) : M Console unit :=
  match l with
  | [] => mret tt
  | c :: l' => putc c ;; put_string l'
  end.

(** The digit loop of [print_int]: [buf] holds the digits so far, least
    significant first. *)
Fixpoint int_loop (fuel : nat) (buf : bytes) (n base : Z) : M Console bytes :=
  match fuel with
  | O => fail NoFuel
  | S f =>
      let d := Z.rem n base in
      if d <? 0 then fail OutOfRange
      else
        match digits !! Z.to_nat d with
        | None => fail OutOfRange
        | Some c =>
            if 16 <=? Z.of_nat (length buf) then fail OutOfRange
            else
              let n := Z.quot n base in
              if n =? 0 then mret (buf ++ [c]) else int_loop f (buf ++ [c]) n base
        end
  end.

Definition print_int (n base : Z) (sign : bool) : M Console unit :=
  let '(sign, n) := if sign && (n <? 0) then (true, s32 (- n)) else (false, n) in
  buf ← int_loop 32 [] n base;
  buf ← (if sign : bool then
           if 16 <=? Z.of_nat (length buf) then fail OutOfRange else mret (buf ++ [45])
         else mret buf);
  put_string (reverse buf).

(** [n] rounds of the loop of [print_ptr]. *)
Fixpoint ptr_loop (n : nat) (ptr : Z) : M Console unit :=
  match n with
  | O => mret tt
  | S n' =>
      match digits !! Z.to_nat (Z.shiftr ptr (8 * 8 - 4)) with
      | None => fail OutOfRange
      | Some c => putc c ;; ptr_loop n' (u64 (Z.shiftl ptr 4))
      end
  end.

Definition print_ptr (ptr : Z) : M Console unit :=
  putc 48 ;; putc 120 ;; ptr_loop 16 ptr.

(** An argument of [printf]; a string is [None] for the null pointer. *)
Inductive arg :=
  | ArgInt (z : Z)
  | ArgPtr (p : Z)
  | ArgStr (str : option bytes).

(** ["(null)"]. *)
Definition null_text : bytes := [40; 110; 117; 108; 108; 41].

(** One conversion: the [switch] on the character after [%].  It returns the
    remaining arguments; an argument that was not passed is read outside the
    argument list. *)
Definition convert (c : Z) (ap : list arg) : M Console (list arg) :=
  if c =? 100 then
    match ap with ArgInt z :: ap' => print_int (s32 z) 10 true ;; mret ap' | _ => fail OutOfRange end
  else if c =? 117 then
    match ap with ArgInt z :: ap' => print_int (s32 (u32 z)) 10 false ;; mret ap' | _ => fail OutOfRange end
  else if c =? 120 then
    match ap with ArgInt z :: ap' => print_int (s32 z) 16 true ;; mret ap' | _ => fail OutOfRange end
  else if c =? 99 then
    match ap with ArgInt z :: ap' => putc (u8 z) ;; mret ap' | _ => fail OutOfRange end
  else if c =? 112 then
    match ap with ArgPtr p :: ap' => print_ptr (u64 p) ;; mret ap' | _ => fail OutOfRange end
  else if c =? 115 then
    match ap with
    | ArgStr str :: ap' => put_string (default null_text str) ;; mret ap'
    | _ => fail OutOfRange
    end
  else if c =? 37 then putc 37 ;; mret ap
  else putc 37 ;; putc c ;; mret ap.

Fixpoint printf (fmt : bytes) (ap : list arg) : M Console unit :=
  match fmt with
  | [] => mret tt
  | f :: fmt1 =>
      if negb (f =? 37) then putc f ;; printf fmt1 ap
      else
        match fmt1 with
        | [] => putc 37
        | c :: fmt2 => ap' ← convert c ap; printf fmt2 ap'
        end
  end.

(** ["kernel panic: %s\n"]. *)
Definition panic_format : bytes :=
  [107; 101; 114; 110; 101; 108; 32; 112; 97; 110; 105; 99; 58; 32; 37; 115; 10].

(** [panic] prints the message and never returns. *)
Definition panic (msg : bytes) : M Console unit :=
  printf panic_format [ArgStr (Some msg)] ;; fail KernelPanic.

(** The loop of [readline]; [max - len] bytes were stored below [dst]. *)
Fixpoint readline_loop (fuel : nat) (user : bool) (dst len max : Z) : M Console Z :=
  if 0 <? len then
    match fuel with
    | O => fail NoFuel
    | S f =>
        s ← get_state;
        if readPos s =? writePos s then fail WouldSleep
        else
          match cbuf s !! Z.to_nat (readPos s mod BUF_SIZE) with
          | None => fail OutOfRange
          | Some c =>
              modify (λ s, set_readPos (u64 (readPos s + 1)) s) ;;
              (if (c =? 4) && (len <? max)
               then modify (λ s, set_readPos (u64 (readPos s - 1)) s) else mret tt) ;;
              ok ← on_memory (eitherCopyout pageTable user dst [c]);
              if negb ok then mret len
              else if c =? 10 then mret (len - 1)
              else readline_loop f user (dst + 1) (len - 1) max
          end
    end
  else mret len.

(** [readline] returns the number of bytes as a [char]. *)
Definition readline (user : bool) (dst len : Z) : M Console Z :=
  rest ← readline_loop (Z.to_nat len) user dst len len;
  mret (u8 (len - rest)).

Definition consoleInterrupt (c : Z) : M Console unit :=
  s ← get_state;
  if (c =? 8) || (c =? 127) then
    if negb (editPos s =? writePos s) then
      modify (λ s, set_editPos (u64 (editPos s - 1)) s) ;;
      putc 8 ;; putc 32 ;; putc 8
    else mret tt
  else if c =? 0 then mret tt
  else if u64 (editPos s - readPos s) <? BUF_SIZE then
    let c := if c =? 13 then 10 else c in
    putc c ;;
    modify (λ s, mkConsole (<[Z.to_nat (editPos s mod BUF_SIZE) := c]> (cbuf s)) (readPos s)
                   (writePos s) (u64 (editPos s + 1)) (uart s) (memory s) (wakeups s)) ;;
    s ← get_state;
    if (c =? 10) || (c =? 4) || (u64 (editPos s - readPos s) =? BUF_SIZE) then
      modify (λ s, set_writePos (editPos s) s) ;;
      modify wake_readers
    else mret tt
  else mret tt.

(** [uartInterrupt]: a byte at a time, until none is ready or a NUL arrives. *)
Fixpoint uartInterrupt (fuel : nat) : M Console unit :=
  c ← on_uart (uartGetc device);
  if c =? 0 then mret tt
  else
    consoleInterrupt c ;;
    match fuel with
    | O => fail NoFuel
    | S f => uartInterrupt f
    end.

(** ** The line discipline *)

(** [lines] is the text handed over to the readers, [edit] the line being
    typed. *)
Record input (s : Console) (lines edit : bytes) : Prop := {
  input_ring : ring BUF_SIZE (cbuf s) (readPos s) (lines ++ edit);
  input_lines : spans (readPos s) (writePos s) (length lines);
  input_edit : spans (writePos s) (editPos s) (length edit);
}.

(** What a typed character does: the new text, the new line, and the echo. *)
Definition type_char (c : Z) (lines edit : bytes) : bytes * bytes * bytes :=
  if (c =? 8) || (c =? 127) then
    match edit with
    | [] => (lines, edit, [])
    | _ => (lines, removelast edit, [8; 32; 8])
    end
  else if c =? 0 then (lines, edit, [])
  else if Z.of_nat (length (lines ++ edit)) <? BUF_SIZE then
    let c := if c =? 13 then 10 else c in
    if (c =? 10) || (c =? 4) || (Z.of_nat (length (lines ++ edit)) =? BUF_SIZE - 1)
    then (lines ++ edit ++ [c], [], [c]) else (lines, edit ++ [c], [c])
  else (lines, edit, []).

(** The first line of [l], at most [n] characters; [None] when [l] ends before. *)
Fixpoint first_line (n : nat) (l : bytes) : option bytes :=
  match n, l with
  | O, _ => Some []
  | S n', [] => None
  | S n', c :: l' => if c =? 10 then Some [c] else rest ← first_line n' l'; Some (c :: rest)
  end.

(** The value of a numeral. *)
Definition digit_value (c : Z) : Z := if c <? 65 then c - 48 else c - 55.

Definition parse_nat (base : Z) (l : bytes) : Z :=
  fold_left (λ acc c, acc * base + digit_value c) l 0.

Definition parse_int (base : Z) (l : bytes) : Z :=
  match l with
  | 45 :: l' => - parse_nat base l'
  | _ => parse_nat base l
  end.

Definition output (s : Console) : bytes := sent (trace (uart s)).

(** Everything but the UART is the same. *)
Definition same_console (s s' : Console) : Prop := s' = set_uart (uart s') s.

(** ** Lemmas *)

Hypothesis Hdev : transmits device polls.

Lemma putc_spec s c :
  0 <= c < 256 →
  runs (putc c) s (λ _ s', same_console s s' ∧ output s' = output s ++ [c]).
Proof.
  intros Hc. unfold putc, on_uart.
  destruct (runs_inv _ _ _ (uartPutcSync_spec device polls (uart s) c Hdev Hc))
    as ([] & u & E & _ & _ & _ & _ & Hsent).
  unfold runs. rewrite E. split; [done|exact Hsent].
Qed.

Lemma same_console_trans s1 s2 s3 :
  same_console s1 s2 → same_console s2 s3 → same_console s1 s3.
Proof. unfold same_console. intros -> ->. done. Qed.

Lemma put_string_spec s l :
  Forall (λ c, 0 <= c < 256) l →
  runs (put_string l) s (λ _ s', same_console s s' ∧ output s' = output s ++ l).
Proof.
  revert s; induction l as [|c l IH]; intros s Hl; cbn [put_string].
  { runs_step. split; [by destruct s|]. by rewrite app_nil_r. }
  rewrite Forall_cons in Hl. destruct Hl as [Hc Hl]. runs_step.
  eapply runs_mono; [by apply putc_spec|]. intros [] s1 [H1 O1].
  eapply runs_mono; [by apply IH|]. intros [] s2 [H2 O2]. split.
  - by eapply same_console_trans.
  - by rewrite O2, O1, <- app_assoc.
Qed.

(** The echo of a backspace. *)
Lemma putc3_spec s a b c :
  0 <= a < 256 → 0 <= b < 256 → 0 <= c < 256 →
  runs (putc a ;; putc b ;; putc c) s (λ _ s', same_console s s' ∧ output s' = output s ++ [a; b; c]).
Proof.
  intros Ha Hb Hc.
  runs_step. eapply runs_mono; [by apply putc_spec|]. intros [] s1 [H1 O1].
  runs_step. eapply runs_mono; [by apply putc_spec|]. intros [] s2 [H2 O2].
  eapply runs_mono; [by apply putc_spec|]. intros [] s3 [H3 O3]. split.
  - eauto using same_console_trans.
  - by rewrite O3, O2, O1, <- !app_assoc.
Qed.

(** *** Numerals *)

Lemma digits_lookup d : 0 <= d < 16 →
  ∃ c, digits !! Z.to_nat d = Some c ∧ digit_value c = d ∧ 0 <= c < 256 ∧ c ≠ 45.
Proof.
  intros Hd. assert (d ∈ seqZ 0 16) as Hin by (apply elem_of_seqZ; lia).
  vm_compute in Hin. repeat (apply elem_of_cons in Hin as [->|Hin];
    [eexists; split; [reflexivity|split; [reflexivity|lia]]|]).
  by apply elem_of_nil in Hin.
Qed.

(** The digit loop writes the positional representation, least significant
    digit first. *)
Lemma int_loop_spec k fuel buf n base s :
  10 <= base <= 16 → 0 <= n < base ^ Z.of_nat (S k) → (S k <= fuel)%nat →
  Z.of_nat (length buf) + Z.of_nat (S k) <= 16 →
  ∃ ds, int_loop fuel buf n base s = Ok (buf ++ ds, s) ∧
    ds ≠ [] ∧ Z.of_nat (length ds) <= Z.of_nat (S k) ∧ Forall (λ c, 0 <= c < 256 ∧ c ≠ 45) ds ∧
    foldr (λ c acc, digit_value c + base * acc) 0 ds = n.
Proof.
  intros Hb. revert fuel buf n; induction k as [|k IH]; intros fuel buf n Hn Hf Hl;
    (destruct fuel as [|fuel]; [lia|]); cbn [int_loop];
    rewrite Z.rem_mod_nonneg, Z.quot_div_nonneg by lia;
    pose proof (Z.mod_pos_bound n base ltac:(lia)) as Hd;
    rewrite (proj2 (Z.ltb_ge (n mod base) 0)) by lia;
    (destruct (digits_lookup (n mod base)) as (c & -> & Hv & Hc & Hne); [lia|]);
    rewrite (proj2 (Z.leb_gt 16 (Z.of_nat (length buf)))) by lia;
    pose proof (Z.div_mod n base ltac:(lia)) as Hdm.
  - rewrite Z.div_small by (change (Z.of_nat 1) with 1 in Hn; lia). cbn [Z.eqb].
    exists [c]. split_and!; [done|done|simpl; lia|by apply Forall_singleton|].
    simpl. rewrite Z.mod_small in Hv by (change (Z.of_nat 1) with 1 in Hn; lia). lia.
  - destruct (Z.eqb_spec (n / base) 0) as [E|E].
    + exists [c]. split_and!; [done|done|simpl; lia|by apply Forall_singleton|]. simpl. lia.
    + assert (0 <= n / base < base ^ Z.of_nat (S k)) as Hq.
      { split; [apply Z.div_pos; lia|]. apply Z.div_lt_upper_bound; [lia|].
        rewrite (Nat2Z.inj_succ (S k)), Z.pow_succ_r in Hn by lia. lia. }
      destruct (IH fuel (buf ++ [c]) (n / base)) as (ds & E' & _ & Hlen & Hall & Hval); [done|lia| |].
      { rewrite length_app. simpl. lia. }
      exists (c :: ds). rewrite E', <- app_assoc. cbn [app foldr length].
      split_and!; [done|done|lia|by constructor|]. rewrite Hval. lia.
Qed.

(** A negative number has no digit: the loop indexes below the digit string. *)
Lemma int_loop_negative fuel buf n base s :
  1 < base → n < 0 → - n < 2 ^ Z.of_nat fuel → int_loop fuel buf n base s = Err OutOfRange.
Proof.
  intros Hb. revert buf n; induction fuel as [|fuel IH]; intros buf n Hn Hf; [simpl in Hf; lia|].
  rewrite Nat2Z.inj_succ, Z.pow_succ_r in Hf by lia.
  cbn [int_loop]. destruct (Z.ltb_spec (Z.rem n base) 0) as [|Hr]; [done|].
  assert (Z.rem n base = 0) as -> by (pose proof (Z.rem_nonpos n base); lia).
  destruct (digits !! _); [|done]. destruct (_ <=? _); [done|].
  pose proof (Z.quot_rem n base ltac:(lia)) as E.
  assert (Z.rem n base = 0) as E0 by (pose proof (Z.rem_nonpos n base); lia).
  rewrite (proj2 (Z.eqb_neq _ _)) by nia. apply IH; nia.
Qed.

Lemma parse_nat_reverse base ds :
  parse_nat base (reverse ds) = foldr (λ c acc, digit_value c + base * acc) 0 ds.
Proof.
  unfold parse_nat. induction ds as [|c ds IH]; [done|].
  rewrite reverse_cons, fold_left_app, IH. simpl. lia.
Qed.

Lemma parse_int_reverse base ds :
  ds ≠ [] → Forall (λ c, 0 <= c < 256 ∧ c ≠ 45) ds →
  parse_int base (reverse ds) = parse_nat base (reverse ds).
Proof.
  intros Hne Hd. destruct (reverse ds) as [|c l] eqn:E; [done|].
  assert (c ≠ 45) as Hc.
  { rewrite Forall_forall in Hd. apply Hd. rewrite <- elem_of_reverse, E. left. }
  unfold parse_int. destruct c as [|c|c]; [done| |done].
  by do 6 (destruct c as [c|c|]; try done).
Qed.

(** *** The line editor *)

Lemma input_ext s s' lines edit :
  same_console s s' → input s lines edit → input s' lines edit.
Proof. intros ->. intros [H1 H2 H3]. by split. Qed.

Lemma input_length s lines edit : input s lines edit → Z.of_nat (length (lines ++ edit)) <= 1024.
Proof. intros [(_ & H & _) _ _]. done. Qed.

Lemma input_total s lines edit :
  input s lines edit → spans (readPos s) (editPos s) (length (lines ++ edit)).
Proof. intros [_ H1 H2]. rewrite length_app. by eapply spans_app. Qed.

Lemma console_size : 0 < BUF_SIZE ∧ (BUF_SIZE | 2 ^ 64).
Proof. split; [done|]. exists (2 ^ 54). by vm_compute. Qed.

(** Erasing the last character of the line. *)
Lemma input_erase s lines edit c :
  input s lines (edit ++ [c]) → input (set_editPos (u64 (editPos s - 1)) s) lines edit.
Proof.
  intros [H1 H2 H3]. split; cbn.
  - rewrite app_assoc in H1. by eapply ring_prefix.
  - done.
  - rewrite length_app, Nat.add_1_r in H3. by apply spans_drop_last.
Qed.

(** Appending a character to the line. *)
Lemma input_append s lines edit c :
  input s lines edit → Z.of_nat (length (lines ++ edit)) < BUF_SIZE →
  input (mkConsole (<[Z.to_nat (editPos s mod BUF_SIZE) := c]> (cbuf s)) (readPos s)
           (writePos s) (u64 (editPos s + 1)) (uart s) (memory s) (wakeups s))
    lines (edit ++ [c]).
Proof.
  intros Hin Hlt. pose proof (input_total _ _ _ Hin) as Ht. destruct Hin as [H1 H2 H3].
  split; cbn [cbuf readPos writePos editPos].
  - rewrite app_assoc. by apply ring_push; try apply console_size.
  - done.
  - rewrite length_app, Nat.add_1_r. by apply spans_push.
Qed.

(** Handing the line over to the readers. *)
Lemma input_commit s lines edit :
  input s lines edit → input (wake_readers (set_writePos (editPos s) s)) (lines ++ edit) [].
Proof.
  intros Hin. pose proof (input_total _ _ _ Hin) as Ht. destruct Hin as [H1 H2 H3].
  split; cbn [wake_readers set_writePos cbuf readPos writePos editPos].
  - by rewrite app_nil_r.
  - done.
  - split; [by apply (spans_range _ _ _ H3)|]. rewrite Z.add_0_r. symmetry.
    apply wrap_small. by apply (spans_range _ _ _ H3).
Qed.

Lemma consoleInterrupt_spec s lines edit c :
  input s lines edit → 0 <= c < 256 →
  runs (consoleInterrupt c) s (λ _ s',
    let '(lines', edit', echo) := type_char c lines edit in
    input s' lines' edit' ∧ output s' = output s ++ echo ∧ memory s' = memory s).
Proof.
  intros Hin Hc. unfold consoleInterrupt, type_char. do 2 runs_step.
  pose proof (input_length _ _ _ Hin) as Hlen. pose proof (input_total _ _ _ Hin) as Htot.
  assert (input s lines edit ∧ output s = output s ++ [] ∧ memory s = memory s) as Hsame
    by by rewrite app_nil_r.
  destruct ((c =? 8) || (c =? 127)).
  { pose proof (spans_empty _ _ _ (input_edit _ _ _ Hin) ltac:(rewrite length_app in Hlen; lia)) as He.
    destruct (Z.eqb_spec (editPos s) (writePos s)) as [E|E]; cbn [negb].
    - destruct edit; [by runs_step|]. by apply eq_sym, He in E.
    - destruct edit as [|x edit _] using rev_ind; [by destruct E; symmetry; apply He|].
      rewrite removelast_last. do 2 runs_step. destruct (edit ++ [x]) eqn:Eex; [by destruct edit|].
      rewrite <- Eex in *. clear Eex.
      eapply runs_mono; [by apply putc3_spec|].
      intros [] s' [Hs Ho]. split_and!; [|done|by rewrite Hs].
      eapply input_ext; [done|]. by eapply input_erase. }
  destruct (c =? 0); [by runs_step|].
  rewrite (spans_count _ _ _ Htot) by lia.
  destruct (Z.ltb_spec (Z.of_nat (length (lines ++ edit))) BUF_SIZE) as [Hlt|]; [|by runs_step].
  set (c' := if c =? 13 then 10 else c).
  assert (0 <= c' < 256) as Hc' by (unfold c'; case_match; lia). clearbody c'.
  runs_step. eapply runs_mono; [by apply putc_spec|]. intros [] s1 [H1 O1]. do 4 runs_step.
  pose proof (input_append _ _ _ c' (input_ext _ _ _ _ H1 Hin) Hlt) as Hin2.
  pose proof (spans_count _ _ _ (input_total _ _ _ Hin2)) as Hcount. cbn [editPos readPos] in *.
  rewrite app_assoc, (length_app (lines ++ edit)) in Hcount. cbn [length] in Hcount.
  rewrite Hcount by lia. unfold BUF_SIZE in *.
  replace (Z.of_nat (length (lines ++ edit) + 1) =? 1024)
    with (Z.of_nat (length (lines ++ edit)) =? 1024 - 1) by (bool_cases).
  destruct (_ || _).
  - do 2 runs_step. split_and!; [by apply (input_commit _ _ _ Hin2)|exact O1|by rewrite H1].
  - runs_step. split_and!; [exact Hin2|exact O1|by rewrite H1].
Qed.

(** *** The line reader *)

(** One character taken from the input. *)
Lemma readline_step f s c lines edit dst len max :
  input s (c :: lines) edit → 0 < len → (c =? 4) && (len <? max) = false →
  ∃ s', input s' lines edit ∧ output s' = output s ∧
    memory s' = set_kmem (put_bytes (kmem (memory s)) dst [c]) (memory s) ∧
    readline_loop (S f) false dst len max s =
      (if c =? 10 then mret (len - 1) else readline_loop f false (dst + 1) (len - 1) max) s'.
Proof.
  intros Hin Hlen Heof. pose proof Hin as [H1 H2 H3]. pose proof (input_length _ _ _ Hin) as Hl.
  rewrite length_app in Hl.
  pose proof (spans_empty _ _ _ H2 ltac:(lia)) as He.
  eexists (set_memory _ (set_readPos (u64 (readPos s + 1)) s)). split_and!.
  - split; cbn.
    + by eapply ring_pop; [apply console_size..|].
    + by apply spans_pop.
    + done.
  - done.
  - reflexivity.
  - cbn [readline_loop]. rewrite (proj2 (Z.ltb_lt 0 len) Hlen).
    unfold get_state, mbind at 1, M_bind at 1. rewrite (proj2 (Z.eqb_neq _ _)) by (intros E; by apply He in E).
    rewrite (ring_front BUF_SIZE _ _ _ _ H1). unfold modify at 1, mbind at 1, M_bind at 1. rewrite Heof.
    unfold mbind at 1, M_bind at 1, mret at 1, M_ret at 1.
    unfold on_memory, eitherCopyout, modify, mbind, M_bind. cbn. by destruct (c =? 10).
Qed.

Lemma readline_loop_line fuel s lines edit dst max n text :
  input s lines edit → (n <= fuel)%nat → Z.of_nat n <= max →
  first_line n lines = Some text → Forall (λ c, c ≠ 4) text →
  ∃ s', readline_loop fuel false dst (Z.of_nat n) max s = Ok (Z.of_nat n - Z.of_nat (length text), s') ∧
    input s' (drop (length text) lines) edit ∧ output s' = output s ∧
    memory s' = set_kmem (put_bytes (kmem (memory s)) dst text) (memory s).
Proof.
  revert n s lines dst text; induction fuel as [|fuel IH];
    intros n s lines dst text Hin Hf Hmax Hline Heof.
  { assert (n = 0%nat) as -> by lia. injection Hline as <-. exists s.
    split_and!; [by rewrite Z.sub_0_r|done|done|]. by destruct (memory s). }
  destruct n as [|n].
  { injection Hline as <-. exists s. split_and!; [done|done|done|]. by destruct (memory s). }
  destruct lines as [|c lines]; [done|]. cbn [first_line] in Hline.
  assert (c ≠ 4) as Hc4.
  { destruct (c =? 10); [by injection Hline as <-; apply Forall_cons in Heof as [? _]|].
    destruct (first_line n lines); [|done]. injection Hline as <-.
    by apply Forall_cons in Heof as [? _]. }
  destruct (readline_step fuel s c lines edit dst (Z.of_nat (S n)) max Hin) as (s1 & Hin1 & Ho1 & Hm1 & E);
    [lia|by rewrite (proj2 (Z.eqb_neq c 4))|].
  rewrite E. destruct (c =? 10).
  - injection Hline as <-. exists s1. split_and!; [cbn [length]; unfold mret, M_ret; do 2 f_equal; lia|done|done|exact Hm1].
  - destruct (first_line n lines) as [rest|] eqn:El; [|done]. injection Hline as <-.
    apply Forall_cons in Heof as [_ Heof].
    destruct (IH n s1 lines (dst + 1) rest) as (s2 & E2 & Hin2 & Ho2 & Hm2); [done|lia|lia|done|done|].
    exists s2. split_and!.
    + replace (Z.of_nat (S n) - 1) with (Z.of_nat n) by lia. rewrite E2. cbn [length]. do 2 f_equal. lia.
    + exact Hin2.
    + by rewrite Ho2.
    + rewrite Hm2, Hm1. done.
Qed.
End console.

(** ** Properties *)

(** C38: the interrupt handler is the line discipline [type_char]: a printable
    character joins the line being typed and is echoed, backspace removes the
    last character of that line (never one already handed over), carriage
    return, newline, end-of-file and a full buffer hand the line over, and when
    1024 characters wait the character is dropped; the ring positions never
    lose or reorder a character, wrap-around included. *)
Theorem consoleInterrupt_edits (device : list access → Z → Z) (polls : nat) (s : Console)
    (lines edit : bytes) (c : Z)
    (Hdev : transmits device polls) (Hin : input s lines edit) (Hc : 0 <= c < 256) :
  runs (consoleInterrupt device polls c) s (λ _ s',
    let '(lines', edit', echo) := type_char c lines edit in
    input s' lines' edit' ∧ output s' = output s ++ echo ∧ memory s' = memory s).
Proof. by apply consoleInterrupt_spec. Qed.

(** A UART that is always ready to transmit, and a console with an empty input
    buffer whose positions are about to wrap around. *)
Definition demo_device (t : list access) (r : Z) : Z := if r =? LSR then LSR_TX_IDLE else 0.

Definition demo_console : Console :=
  mkConsole (replicate 1024 0) (2 ^ 64 - 1) (2 ^ 64 - 1) (2 ^ 64 - 1)
    (mkUart [] (replicate 32 0) 0 0 []) (mkKMem ∅ 0 0) 0.

Lemma demo_input : input demo_console [] [].
Proof.
  split; [split_and!; [by vm_compute|done|by intros i x H]|split; by vm_compute..].
Qed.

Lemma demo_transmits : transmits demo_device 0.
Proof. intros t. exists 0%nat. split; [lia|]. by vm_compute. Qed.

Lemma consoleInterrupt_edits_witness :
  runs (consoleInterrupt demo_device 0 65) demo_console (λ _ s',
    input s' [] [65] ∧ output s' = [65] ∧ memory s' = memory demo_console).
Proof. apply (consoleInterrupt_edits demo_device 0 demo_console [] [] 65 demo_transmits demo_input). lia. Defined.

(** A reader with a kernel buffer receives exactly the next line that was
    handed over, through its newline or up to the size of the buffer, in order,
    stored at the buffer and removed from the input; it sleeps when no complete
    line is there.  The count comes back as a [char], so modulo 256. *)
Theorem readline_returns_line (pageTable : Z) (s : Console)
    (lines edit text : bytes) (dst : Z) (n : nat)
    (Hin : input s lines edit) (Hline : first_line n lines = Some text)
    (Heof : Forall (λ c, c ≠ 4) text) :
  ∃ s', readline pageTable false dst (Z.of_nat n) s = Ok (u8 (Z.of_nat (length text)), s') ∧
    input s' (drop (length text) lines) edit ∧
    memory s' = set_kmem (put_bytes (kmem (memory s)) dst text) (memory s).
Proof.
  destruct (readline_loop_line pageTable n s lines edit dst (Z.of_nat n) n text) as
    (s' & E & Hin' & _ & Hm); [done|lia|lia|done|done|].
  exists s'. split_and!; [|done|done]. unfold readline. rewrite Nat2Z.id, (bind_ok _ _ _ _ _ E).
  unfold mret, M_ret. do 3 f_equal. lia.
Qed.

Lemma readline_returns_line_witness : ∃ s s',
  input s [72; 10] [] ∧ readline 0 false 0x9000 8 s = Ok (2, s') ∧ input s' [] [].
Proof.
  set (s := mkConsole (<[Z.to_nat 1023 := 72]> (<[0%nat := 10]> (replicate 1024 0)))
              (2 ^ 64 - 1) 1 1 (uart demo_console) (memory demo_console) 0).
  assert (input s [72; 10] []) as Hin.
  { split; [split_and!; [by vm_compute|done|]|split; by vm_compute..].
    intros i x Hx. destruct i as [|[|i]]; [by injection Hx as <-|by injection Hx as <-|done]. }
  destruct (readline_returns_line 0 s [72; 10] [] [72; 10] 0x9000 8 Hin)
    as (s' & E & Hin' & _); [done|repeat constructor; lia|].
  exists s, s'. split_and!; [exact Hin|exact E|exact Hin'].
Defined.

(** A signed number printed in base 10 to 16 reads back: the text
    [print_int] sends to the UART parses to the number, and printing always
    returns, except for the most negative 32-bit number. *)
Theorem print_int_roundtrip (device : list access → Z → Z) (polls : nat) (s : Console) (n base : Z)
    (Hdev : transmits device polls) (Hbase : 10 <= base <= 16) (Hn : - 2 ^ 31 < n < 2 ^ 31) :
  ∃ text, runs (print_int device polls n base true) s (λ _ s',
      same_console s s' ∧ output s' = output s ++ text) ∧ parse_int base text = n.
Proof.
  assert (2 ^ 31 <= base ^ Z.of_nat 10) as Hpow.
  { transitivity (10 ^ Z.of_nat 10); [by vm_compute|]. apply Z.pow_le_mono_l. lia. }
  unfold print_int. cbn [andb]. destruct (Z.ltb_spec n 0) as [Hneg|Hpos].
  - rewrite swrap_small by lia.
    destruct (int_loop_spec 9 32 [] (- n) base s) as (ds & E & Hne & Hlen & Hall & Hval);
      [done|lia|lia|simpl; lia|]. cbn [app] in E.
    exists (45 :: reverse ds). split.
    + apply runs_bind. eapply runs_ok; [exact E|].
      rewrite (proj2 (Z.leb_gt 16 (Z.of_nat (length ds)))) by lia. do 2 runs_step.
      rewrite reverse_app. apply put_string_spec; [done|]. constructor; [lia|].
      apply Forall_reverse. eapply Forall_impl; [exact Hall|]. by intros c [? _].
    + cbn. rewrite parse_nat_reverse. lia.
  - destruct (int_loop_spec 9 32 [] n base s) as (ds & E & Hne & Hlen & Hall & Hval);
      [done|lia|lia|simpl; lia|]. cbn [app] in E.
    exists (reverse ds). split.
    + apply runs_bind. eapply runs_ok; [exact E|]. do 2 runs_step.
      apply put_string_spec; [done|].
      apply Forall_reverse. eapply Forall_impl; [exact Hall|]. by intros c [? _].
    + by rewrite parse_int_reverse, parse_nat_reverse.
Qed.

Lemma print_int_roundtrip_witness : ∃ text,
  runs (print_int demo_device 0 (-1234) 10 true) demo_console (λ _ s', output s' = text) ∧
  parse_int 10 text = -1234.
Proof.
  destruct (print_int_roundtrip demo_device 0 demo_console (-1234) 10 demo_transmits)
    as (text & H & E); [lia|lia|].
  exists text. split; [|exact E]. eapply runs_mono; [exact H|]. intros [] s' [_ O]. exact O.
Defined.

(** [printf("%u", z)] of a number from [2^31] on reads below the digit string:
    the number reaches [print_int] as a negative [int] with [sign = false]. *)
Theorem printf_unsigned_large (device : list access → Z → Z) (polls : nat) (s : Console) (z : Z)
    (Hz : 2 ^ 31 <= z < 2 ^ 32) :
  printf device polls [37; 117] [ArgInt z] s = Err OutOfRange.
Proof.
  cbn [printf]. unfold convert. cbn [Z.eqb Pos.eqb negb].
  unfold mbind, M_bind. unfold print_int. cbn [andb].
  assert (s32 (u32 z) = z - 2 ^ 32) as ->.
  { rewrite wrap_small by lia. unfold swrap. rewrite wrap_small by lia.
    rewrite (proj2 (Z.ltb_ge z (2 ^ (32 - 1)))) by lia. done. }
  unfold mbind, M_bind. by rewrite int_loop_negative by lia.
Qed.

End Console.
