(* ===== verification/Stdio.v ===== *)
(** * The user library

    [user/lib/stdio.cpp], with the functions of [user/lib/string.cpp], whose text
    is that of the kernel's [CString].  A user program sees its system calls
    only: the state is what it has written to its descriptors and the bytes that
    [read] will still give it.  The formatted output of user programs is compared
    with that of the kernel's [printf]. *)

From S2P Require Import Prelude CString Uart Console.
Import CString Uart Console.

Module Stdio.

(** ** Definitions *)

(** *** [string.cpp] *)

Section strings.
Context {T U} `{ByteStore T} `{ByteStore U}.

Definition user_memcpy : T → Z → Z → Z → T := memcpy.
Definition user_memmove : T → Z → Z → Z → T := memmove.
Definition user_memset : T → Z → Z → Z → T := memset.
Definition user_strncmp : nat → T → Z → U → Z → Z → option Z := strncmp.
Definition user_strncpy : T → Z → U → Z → Z → T := strncpy.
Definition user_strlen : nat → T → Z → option Z := strlen.
End strings.

(** *** [stdio.cpp] *)

(** The bytes written, each with its descriptor, and the bytes that the reads of
    each descriptor give. *)
Record Io := mkIo {
  written : list (Z * Z);
  input : Z → bytes;
}.

(** The characters of [digits]. *)
Definition digits : bytes := [48; 49; 50; 51; 52; 53; 54; 55; 56; 57; 65; 66; 67; 68; 69; 70].

Section operations.
(** What the uninitialised local [c] of [getc] holds. *)
Variable junk : Z.

(** [putc]: a [write] of one byte. *)
Definition putc (fd c : Z) : M Io unit :=
  modify (λ s, mkIo (written s ++ [(fd, u8 c)]) (input s)).

(** [getc]: a [read] of one byte, whose result is not looked at; [char] is
    unsigned on RISC-V. *)
Definition getc (fd : Z) : M Io Z := λ s,
  match input s fd with
  | [] => Ok (u8 junk, s)
  | b :: l => Ok (u8 b, mkIo (written s) (λ d, if decide (d = fd) then l else input s d))
  end.

(** The loop of [printint]: [buf] holds the digits so far. *)
Fixpoint digit_loop (fuel : nat) (buf : bytes) (x base : Z) : M Io bytes :=
  match fuel with
  | O => fail NoFuel
  | S f =>
      match digits !! Z.to_nat (x mod base) with
      | None => fail OutOfRange
      | Some c =>
          if 16 <=? Z.of_nat (length buf) then fail OutOfRange
          else
            let x := x / base in
            if x =? 0 then mret (buf ++ [c]) else digit_loop f (buf ++ [c]) x base
      end
  end.

Fixpoint put_all (fd : Z) (l : bytes) : M Io unit :=
  match l with
  | [] => mret tt
  | c :: l' => putc fd c ;; put_all fd l'
  end.

(** [printint]; [x] is unsigned, of 32 bits. *)
Definition printint (fd xx base : Z) (sgn : bool) : M Io unit :=
  let neg := sgn && (xx <? 0) in
  let x := if neg then u32 (- xx) else u32 xx in
  buf ← digit_loop 32 [] x base;
  buf ← (if neg then
           if 16 <=? Z.of_nat (length buf) then fail OutOfRange else mret (buf ++ [45])
         else mret buf);
  put_all fd (reverse buf).

(** [n] rounds of the loop of [printptr]. *)
Fixpoint pointer_loop (fd : Z) (n : nat) (x : Z) : M Io unit :=
  match n with
  | O => mret tt
  | S n' =>
      match digits !! Z.to_nat (Z.shiftr x (8 * 8 - 4)) with
      | None => fail OutOfRange
      | Some c => putc fd c ;; pointer_loop fd n' (u64 (Z.shiftl x 4))
      end
  end.

Definition printptr (fd x : Z) : M Io unit :=
  putc fd 48 ;; putc fd 120 ;; pointer_loop fd 16 x.

(** The loop of [getline] from [buf[i]] on, [fuel] rounds at most: the index of
    the terminating NUL. *)
Fixpoint getline_loop (fuel : nat) (buf : bytes) (n i : Z) : M Io (bytes * Z) :=
  if i <? n - 1 then
    match fuel with
    | O => fail NoFuel
    | S f =>
        c ← getc 0;
        if c <? 1 then mret (buf, i)
        else
          let buf := st8 buf i c in
          if (c =? 10) || (c =? 13) then mret (buf, i + 1) else getline_loop f buf n (i + 1)
    end
  else mret (buf, i).

Definition getline (buf : bytes) (n : Z) : M Io bytes :=
  r ← getline_loop (Z.to_nat n) buf n 0;
  mret (st8 r.1 r.2 0).

(** One conversion of [vprintf]: the remaining arguments. *)
Definition conversion (fd c : Z) (ap : list arg) : M Io (list arg) :=
  if c =? 100 then
    match ap with ArgInt z :: ap' => printint fd (s32 z) 10 true ;; mret ap' | _ => fail OutOfRange end
  else if c =? 108 then
    match ap with ArgPtr z :: ap' => printint fd (s32 (u64 z)) 10 false ;; mret ap' | _ => fail OutOfRange end
  else if c =? 120 then
    match ap with ArgInt z :: ap' => printint fd (s32 z) 16 false ;; mret ap' | _ => fail OutOfRange end
  else if c =? 112 then
    match ap with ArgPtr p :: ap' => printptr fd (u64 p) ;; mret ap' | _ => fail OutOfRange end
  else if c =? 115 then
    match ap with
    | ArgStr str :: ap' => put_all fd (default null_text str) ;; mret ap'
    | _ => fail OutOfRange
    end
  else if c =? 99 then
    match ap with ArgInt z :: ap' => putc fd (u32 z) ;; mret ap' | _ => fail OutOfRange end
  else if c =? 37 then putc fd c ;; mret ap
  else putc fd 37 ;; putc fd c ;; mret ap.

(** [vprintf]: [state] says whether a [%] came before. *)
Fixpoint vprintf_loop (fd : Z) (fmt : bytes) (state : bool) (ap : list arg) : M Io unit :=
  match fmt with
  | [] => mret tt
  | c :: fmt' =>
      if negb state then
        if c =? 37 then vprintf_loop fd fmt' true ap
        else putc fd c ;; vprintf_loop fd fmt' false ap
      else ap' ← conversion fd c ap; vprintf_loop fd fmt' false ap'
  end.

Definition vprintf (fd : Z) (fmt : bytes) (ap : list arg) : M Io unit := vprintf_loop fd fmt false ap.

Definition printf (fmt : bytes) (ap : list arg) : M Io unit := vprintf 0 fmt ap.
Definition fprintf (fd : Z) (fmt : bytes) (ap : list arg) : M Io unit := vprintf fd fmt ap.
End operations.

(** ** The kernel's [printf] and the user's *)

Definition is_bytes (l : bytes) : Prop := Forall (λ c, 0 <= c < 256) l.

Definition emit (fd : Z) (text : bytes) (s : Io) : Io :=
  mkIo (written s ++ ((fd,.) <$> text)) (input s).

Section agreement.
Variable device : list access → Z → Z.
Variable polls : nat.
Variable fd : Z.
Hypothesis Hdev : transmits device polls.

(** Whenever the kernel's operation returns, the user's returns the same value
    and writes the same text. *)
Definition agree {A} (c : M Console A) (d : M Io A) : Prop := ∀ s a s', c s = Ok (a, s') →
  ∃ text, output s' = output s ++ text ∧ ∀ io, d io = Ok (a, emit fd text io).

Lemma emit_nil io : emit fd [] io = io.
Proof. unfold emit. simpl. rewrite app_nil_r. by destruct io. Qed.

Lemma emit_app t1 t2 io : emit fd t2 (emit fd t1 io) = emit fd (t1 ++ t2) io.
Proof. unfold emit. simpl. by rewrite fmap_app, app_assoc. Qed.

Lemma agree_bind_if {A B} (I : A → Prop) (c : M Console A) (d : M Io A) (k : A → M Console B) (k' : A → M Io B) :
  agree c d → (∀ s a s', c s = Ok (a, s') → I a) → (∀ a, I a → agree (k a) (k' a)) →
  agree (c ≫= k) (d ≫= k').
Proof.
  intros Hc HI Hk s b s' (a & s1 & E1 & E2)%bind_inv.
  destruct (Hc _ _ _ E1) as (t1 & O1 & D1). destruct (Hk a (HI _ _ _ E1) _ _ _ E2) as (t2 & O2 & D2).
  exists (t1 ++ t2). split; [by rewrite O2, O1, app_assoc|].
  intros io. unfold mbind, M_bind. by rewrite D1, D2, emit_app.
Qed.

Lemma agree_bind {A B} (c : M Console A) (d : M Io A) (k : A → M Console B) (k' : A → M Io B) :
  agree c d → (∀ a, agree (k a) (k' a)) → agree (c ≫= k) (d ≫= k').
Proof. intros Hc Hk. by apply (agree_bind_if (λ _, True)). Qed.

Lemma agree_ret {A} (a : A) : agree (mret a) (mret a).
Proof. intros s b s' [= <- <-]. exists []. split; [by rewrite app_nil_r|]. intros io. by rewrite emit_nil. Qed.

Lemma agree_fail {A} e (d : M Io A) : agree (fail e) d.
Proof. by intros s a s'. Qed.

Lemma agree_putc c : 0 <= c < 256 → agree (Console.putc device polls c) (putc fd c).
Proof.
  intros Hc s [] s' E. exists [c]. pose proof (putc_spec device polls Hdev s c Hc) as H.
  unfold runs in H. rewrite E in H. split; [apply H|]. intros io. unfold putc, modify, emit. simpl.
  by rewrite wrap_small.
Qed.

Lemma agree_put_string l : is_bytes l → agree (put_string device polls l) (put_all fd l).
Proof.
  induction l as [|c l IH]; intros Hl; cbn [put_string put_all]; [apply agree_ret|].
  apply Forall_cons in Hl as [Hc Hl]. apply agree_bind; [by apply agree_putc|]. intros _. by apply IH.
Qed.

(** Kernel digits of a negative number: [print_int] reads outside [digits]. *)
Lemma kernel_digits_negative fuel buf n base s r : 0 < base → n < 0 → int_loop fuel buf n base s ≠ Ok r.
Proof.
  intros Hb. revert buf n; induction fuel as [|f IH]; intros buf n Hn; [done|]. cbn [int_loop].
  destruct (Z.ltb_spec (Z.rem n base) 0) as [|Hr]; [done|].
  destruct (Console.digits !! Z.to_nat (Z.rem n base)); [|done].
  destruct (16 <=? Z.of_nat (length buf)); [done|].
  pose proof (Z.quot_rem' n base). pose proof (Z.rem_bound_pos_pos n base).
  assert (Z.quot n base < 0) as Hq.
  { pose proof (Z.rem_nonpos n base). nia. }
  rewrite (proj2 (Z.eqb_neq _ _)) by lia. by apply IH.
Qed.

Lemma agree_int_loop fuel buf n base : 0 < base → 0 <= n →
  agree (int_loop fuel buf n base) (digit_loop fuel buf n base).
Proof.
  intros Hb. revert buf n; induction fuel as [|f IH]; intros buf n Hn; [apply agree_fail|].
  cbn [int_loop digit_loop]. rewrite Z.rem_mod_nonneg, Z.quot_div_nonneg by lia.
  destruct (n mod base <? 0); [apply agree_fail|].
  change Console.digits with digits. destruct (digits !! Z.to_nat (n mod base)); [|apply agree_fail].
  destruct (16 <=? Z.of_nat (length buf)); [apply agree_fail|].
  destruct (n / base =? 0); [apply agree_ret|]. apply IH. by apply Z.div_pos.
Qed.

Lemma digit_in c d : digits !! d = Some c → 0 <= c < 256.
Proof.
  intros E%list_elem_of_lookup_2. unfold digits in E.
  repeat (apply elem_of_cons in E as [->|E]; [lia|]). by apply elem_of_nil in E.
Qed.

(** The digits are characters. *)
Lemma int_loop_bytes fuel buf n base s ds s' : is_bytes buf → int_loop fuel buf n base s = Ok (ds, s') → is_bytes ds.
Proof.
  revert buf n; induction fuel as [|f IH]; intros buf n Hb; [done|]. cbn [int_loop].
  destruct (Z.rem n base <? 0); [done|].
  destruct (Console.digits !! Z.to_nat (Z.rem n base)) as [c|] eqn:E; [|done]. apply digit_in in E.
  destruct (16 <=? Z.of_nat (length buf)); [done|].
  assert (is_bytes (buf ++ [c])) as Hc by (apply Forall_app; split; [done|by apply Forall_singleton]).
  destruct (Z.quot n base =? 0); [by intros [= <- _]|by apply IH].
Qed.

Lemma agree_print_int z : - 2 ^ 31 <= z < 2 ^ 31 →
  agree (print_int device polls z 10 true) (printint fd z 10 true).
Proof.
  intros Hz. unfold print_int, printint. cbn [andb].
  destruct (Z.ltb_spec z 0) as [Hn|Hn]; cbv beta iota zeta.
  - destruct (decide (z = - 2 ^ 31)) as [->|Hne].
    { intros s a s' (b & s1 & E & _)%bind_inv. exfalso. revert E.
      apply kernel_digits_negative; [lia|by vm_compute]. }
    rewrite swrap_small, wrap_small by lia.
    apply (agree_bind_if is_bytes); [by apply agree_int_loop; lia| |].
    { intros s ds s' E. exact (int_loop_bytes _ _ _ _ _ _ _ (List.Forall_nil _) E). }
    intros ds Hds. apply (agree_bind_if is_bytes).
    + destruct (16 <=? _); [apply agree_fail|apply agree_ret].
    + intros s b s'. destruct (16 <=? _); [done|]. intros [= <- _].
      apply Forall_app. split; [done|]. apply Forall_singleton. lia.
    + intros l Hl. apply agree_put_string. by apply Forall_reverse.
  - rewrite wrap_small by lia.
    apply (agree_bind_if is_bytes); [by apply agree_int_loop| |].
    { intros s ds s' E. exact (int_loop_bytes _ _ _ _ _ _ _ (List.Forall_nil _) E). }
    intros ds Hds. apply agree_bind_if with (I := is_bytes); [apply agree_ret| |].
    + by intros s b s' [= <- _].
    + intros l Hl. apply agree_put_string. by apply Forall_reverse.
Qed.

Lemma agree_print_ptr p : agree (print_ptr device polls p) (printptr fd p).
Proof.
  unfold print_ptr, printptr. apply agree_bind; [apply agree_putc; lia|]. intros _.
  apply agree_bind; [apply agree_putc; lia|]. intros _.
  generalize 16%nat. intros n. revert p. induction n as [|n IH]; intros p; cbn [ptr_loop pointer_loop]; [apply agree_ret|].
  change Console.digits with digits.
  destruct (digits !! Z.to_nat (Z.shiftr p (8 * 8 - 4))) as [c|] eqn:E; [|apply agree_fail].
  apply agree_bind; [by apply agree_putc, (digit_in c (Z.to_nat (Z.shiftr p (8 * 8 - 4))))|]. intros _. apply IH.
Qed.

(** The arguments hold characters. *)
Definition arg_ok (a : arg) : Prop :=
  match a with ArgStr (Some l) => is_bytes l | _ => True end.

(** The conversions that mean the same to both: not [%u], [%l] and [%x]. *)
Definition shared (c : Z) : bool := negb ((c =? 117) || (c =? 108) || (c =? 120)).

Lemma s32_range z : - 2 ^ 31 <= s32 z < 2 ^ 31.
Proof.
  unfold swrap. pose proof (wrap_range 32 z ltac:(lia)).
  change (2 ^ (32 - 1)) with (2 ^ 31). destruct (Z.ltb_spec (wrap 32 z) (2 ^ 31)); lia.
Qed.

Lemma byte_of_word z : u8 (u32 z) = u8 z.
Proof. unfold wrap. apply Z.mod_mod_divide. by exists (2 ^ 24). Qed.

Lemma agree_convert c ap : 0 <= c < 256 → shared c = true → Forall arg_ok ap →
  agree (convert device polls c ap) (conversion fd c ap).
Proof.
  intros Hc Hs Ha. unfold shared in Hs. unfold convert, conversion.
  destruct (c =? 100).
  { destruct ap as [|[z| |] ap]; try apply agree_fail. apply agree_bind; [|intros _; apply agree_ret].
    apply agree_print_int, s32_range. }
  destruct (c =? 117); [done|]. destruct (c =? 108); [done|]. destruct (c =? 120); [done|].
  destruct (Z.eqb_spec c 99) as [->|_].
  { destruct ap as [|[z| |] ap]; try apply agree_fail. cbn [Z.eqb Pos.eqb].
    apply agree_bind; [|intros _; apply agree_ret].
    intros s [] s' E. destruct (agree_putc (u8 z) (wrap_range 8 z ltac:(lia)) s tt s' E) as (t & O & D).
    exists t. split; [done|]. intros io. rewrite <- D. unfold putc, modify.
    by rewrite byte_of_word, wrap_wrap. }
  destruct (c =? 112).
  { destruct ap as [|[|p|] ap]; try apply agree_fail. apply agree_bind; [|intros _; apply agree_ret].
    apply agree_print_ptr. }
  destruct (c =? 115).
  { destruct ap as [|[| |str] ap]; try apply agree_fail. apply Forall_cons in Ha as [Ha _].
    apply agree_bind; [|intros _; apply agree_ret]. apply agree_put_string.
    destruct str as [l|]; [done|]. by repeat (apply Forall_cons; split; [lia|]). }
  destruct (Z.eqb_spec c 37) as [->|_].
  - apply agree_bind; [|intros _; apply agree_ret]. by apply agree_putc.
  - apply agree_bind; [by apply agree_putc|]. intros _.
    apply agree_bind; [|intros _; apply agree_ret]. by apply agree_putc.
Qed.

(** The remaining arguments. *)
Lemma convert_args c ap s ap' s' : convert device polls c ap s = Ok (ap', s') → Forall arg_ok ap → Forall arg_ok ap'.
Proof.
  unfold convert. intros E Ha.
  assert (∀ (x : M Console unit) l s0, (x ;; mret l) s0 = Ok (ap', s') → Forall arg_ok l → Forall arg_ok ap') as H.
  { intros x l s0 (u & s1 & _ & E')%bind_inv Hl. by injection E' as <- <-. }
  repeat case_match; simplify_eq/=; try done.
  all: try (eapply H; [exact E|]; first [exact Ha|by apply Forall_cons in Ha as [_ ?]]).
  apply bind_inv in E as (u & s1 & _ & E). by eapply H.
Qed.
End agreement.

(** Formats that mean the same to both: no conversion of [%u], [%l], [%x], and
    no [%] at the end. *)
Fixpoint common (fmt : bytes) : bool :=
  match fmt with
  | [] => true
  | f :: fmt1 =>
      if negb (f =? 37) then common fmt1
      else match fmt1 with [] => false | c :: fmt2 => shared c && common fmt2 end
  end.

(** ** Properties *)

(** C28: user programs and the kernel format alike, but for [%u], [%l] and [%x]:
    the kernel prints [%x] signed and the user library unsigned, [%u] is the
    kernel's only and [%l] the user library's.  Whenever the kernel's [printf]
    returns, for a format without these three that does not end in [%], [vprintf]
    with the same format and arguments returns, and writes to its descriptor
    exactly the text the kernel sent to the console. *)
Theorem vprintf_agrees (device : list access → Z → Z) (polls : nat) (fd : Z) (fmt : bytes) (ap : list arg)
    (s s' : Console) (Hdev : transmits device polls) (Hfmt : is_bytes fmt) (Hcommon : common fmt = true)
    (Hargs : Forall arg_ok ap) (Hrun : Console.printf device polls fmt ap s = Ok (tt, s')) :
  ∃ text, output s' = output s ++ text ∧ ∀ io, vprintf fd fmt ap io = Ok (tt, emit fd text io).
Proof.
  assert (∀ n fmt ap, (length fmt <= n)%nat → is_bytes fmt → common fmt = true → Forall arg_ok ap →
    agree fd (Console.printf device polls fmt ap) (vprintf_loop fd fmt false ap)) as H.
  { clear -Hdev. induction n as [|n IH]; intros fmt ap Hn Hb Hc Ha.
    { destruct fmt; [apply agree_ret|simpl in Hn; lia]. }
    destruct fmt as [|f fmt]; [apply agree_ret|]. apply Forall_cons in Hb as [Hf Hb].
    cbn [Console.printf vprintf_loop common negb] in *. destruct (f =? 37); cbn [negb] in *.
    - destruct fmt as [|c fmt]; [done|]. apply andb_prop in Hc as [Hs Hc]. apply Forall_cons in Hb as [Hcb Hb].
      cbn [vprintf_loop negb].
      apply (agree_bind_if fd (Forall arg_ok)); [by apply agree_convert| |].
      + intros x a x' E. by eapply convert_args.
      + intros a Haa. apply IH; [simpl in Hn; lia|done|done|done].
    - apply agree_bind; [by apply agree_putc|]. intros _. apply IH; [simpl in Hn; lia|done|done|done]. }
  by apply (H (length fmt)).
Qed.

(** "%d,%s" of -12 and "ab". *)
Lemma vprintf_agrees_witness : ∃ s' text,
  Console.printf demo_device 0 [37; 100; 44; 37; 115] [ArgInt (-12); ArgStr (Some [97; 98])] demo_console = Ok (tt, s') ∧
  vprintf 1 [37; 100; 44; 37; 115] [ArgInt (-12); ArgStr (Some [97; 98])] (mkIo [] (λ _, [])) =
    Ok (tt, emit 1 text (mkIo [] (λ _, []))) ∧
  output s' = output demo_console ++ text.
Proof.
  set (ap := [ArgInt (-12); ArgStr (Some [97; 98])]).
  assert (fst <$> result_value (Console.printf demo_device 0 [37; 100; 44; 37; 115] ap demo_console) = Some tt) as E
    by by vm_compute.
  revert E. destruct (Console.printf demo_device 0 [37; 100; 44; 37; 115] ap demo_console) as [[[] s']|] eqn:Er; [|done].
  intros _.
  destruct (vprintf_agrees demo_device 0 1 [37; 100; 44; 37; 115] ap demo_console s' demo_transmits
    ltac:(repeat (apply Forall_cons; split; [lia|]); apply Forall_nil; exact I) eq_refl
    ltac:(repeat (apply Forall_cons; split; [first [exact I|repeat (apply Forall_cons; split; [lia|]); apply Forall_nil; exact I]|]);
      apply Forall_nil; exact I) Er) as (text & O & D).
  exists s', text. split_and!; [done|apply D|done].
Defined.

End Stdio.
