(* ===== verification/Shell.v ===== *)
(** * The user programs

    [user/init/main.cpp], [user/sh/main.cpp] and [user/echo/main.cpp] over the
    user library of [Stdio].  A program sees its system calls only: the calls it
    made, and the results it got.  A [Command] of the shell is the flat memory of
    the struct, since its operations run over the ends of its fields. *)

From S2P Require Import Prelude CString Uart Console Stdio.
Import CString.

Module Shell.

(** ** Definitions *)

(** The system calls, apart from [read] and [write] (the state of [Stdio]).
    [exec] passes the address of its path, its argument vector, an array of
    pointers, and the memory at that address. *)
Inductive Call :=
  | Fork
  | Exec (path : Z) (argv : list Z) (memory : bytes)
  | Wait (address : Z)
  | Open (path : bytes) (mode : Z)
  | Mknod (path : bytes) (major minor : Z).

Record User := mkUser {
  io : Stdio.Io;
  calls : list Call;
}.

(** How a program ends: in [exit], in [exec], or not at all ([while(true)]). *)
Inductive ending :=
  | Exited (status : Z)
  | Replaced
  | Forever.

Definition O_RDWR : Z := 2.
Definition DEV_CONSOLE : Z := 1.

(** The format strings and paths. *)
Definition prompt : bytes := [36; 32].
Definition newline : bytes := [10].
Definition blank : bytes := [32].
Definition console_path : bytes := [99; 111; 110; 115; 111; 108; 101; 0].
Definition starting_sh : bytes := [105; 110; 105; 116; 58; 32; 115; 116; 97; 114; 116; 105; 110; 103; 32; 115; 104; 10].
Definition fork_failed : bytes := [105; 110; 105; 116; 58; 32; 102; 111; 114; 107; 32; 102; 97; 105; 108; 101; 100; 10].
Definition exec_failed : bytes := [105; 110; 105; 116; 58; 32; 101; 120; 101; 99; 32; 115; 104; 32; 102; 97; 105; 108; 101; 100; 10].
Definition sh_path : bytes := [115; 104; 0].
Definition cd_text : bytes := [99; 100; 0].
Definition exit_text : bytes := [101; 120; 105; 116; 0].

Definition MAX_CMD_LENGTH : Z := 12.
Definition MAX_ARG_LENGTH : Z := 12.
Definition MAX_ARGS : Z := 31.

(** The size of a [Command]; [args[i]]. *)
Definition COMMAND_SIZE : Z := MAX_CMD_LENGTH + MAX_ARGS * MAX_ARG_LENGTH.
Definition arg (i : Z) : Z := MAX_CMD_LENGTH + MAX_ARG_LENGTH * i.

(** *** [parseCommand], over the memory of its [Command] *)

(** [*cmdStr], in a line that is an array. *)
Definition char_at {S} (line : bytes) (p : Z) : M S Z :=
  if p <? Z.of_nat (length line) then mret (ld8 line p) else fail OutOfRange.

(** The loop of [getToken]. *)
Fixpoint token_end {S} (fuel : nat) (line : bytes) (p : Z) : M S Z :=
  match fuel with
  | O => fail NoFuel
  | Datatypes.S f =>
      c ← char_at line p;
      if c =? 0 then mret p else if c =? 32 then mret p else token_end f line (p + 1)
  end.

(** [getToken]: the size of the token, [cmdStr] and [buf] afterwards. *)
Definition getToken {S} (line : bytes) (p : Z) (buf : bytes) : M S (Z * Z * bytes) :=
  e ← token_end (Datatypes.S (length line)) line p;
  let size := e - p in
  if Z.of_nat (length buf) <=? size then fail OutOfRange
  else mret (size, e, st8 (Stdio.user_strncpy buf 0 line p size) size 0).

(** [strncpy(field, buf, size)] for a field of the command. *)
Definition copy_field (field : Z) (buf : bytes) (size : Z) : M bytes unit :=
  cmd ← get_state;
  if Z.of_nat (length cmd) <? field + size then fail OutOfRange
  else put_state (Stdio.user_strncpy cmd field buf 0 size).

(** [for (auto& arg : cmd.args)] of the token loop, from [args[i]] on: the first
    empty argument is filled. *)
Fixpoint fill_arg (n : nat) (i : Z) (buf : bytes) (size : Z) : M bytes unit :=
  match n with
  | O => mret tt
  | S n' =>
      cmd ← get_state;
      if ld8 cmd (arg i) =? 0 then copy_field (arg i) buf size else fill_arg n' (i + 1) buf size
  end.

Definition store_token (buf : bytes) (size : Z) : M bytes unit :=
  cmd ← get_state;
  if ld8 cmd 0 =? 0 then copy_field 0 buf size else fill_arg (Z.to_nat MAX_ARGS) 0 buf size.

Fixpoint parse_loop (fuel : nat) (line : bytes) (p : Z) (buf : bytes) : M bytes unit :=
  c ← char_at line p;
  if c =? 0 then mret tt
  else match fuel with
  | O => fail NoFuel
  | S f =>
      t ← getToken line p buf;
      let '(size, p, buf) := t in
      if size =? 0 then parse_loop f line (p + 1) buf
      else store_token buf size ;; parse_loop f line (p + 1) buf
  end.

(** The first two statements: the first bytes of the fields. *)
Definition clear_fields : M bytes unit :=
  modify (λ cmd, st8 cmd 0 0) ;;
  for_range (Z.to_nat MAX_ARGS) 0 (λ i, modify (λ cmd, st8 cmd (arg i) 0)).

(** [buf] is the uninitialised local array. *)
Definition parseCommand (line buf : bytes) : M bytes unit :=
  clear_fields ;; parse_loop (length line) line 0 buf.

Section programs.
(** What an uninitialised local of [getc] holds. *)
Variable junk : Z.
(** The result of the next system call, after those made so far. *)
Variable answer : list Call → Z.

Definition on_io {A} (c : M Stdio.Io A) : M User A := λ s,
  match c (io s) with Ok (a, i) => Ok (a, mkUser i (calls s)) | Err f => Err f end.

Definition print (fmt : bytes) : M User unit := on_io (Stdio.printf fmt []).

Definition call (c : Call) : M User Z := λ s,
  Ok (answer (calls s ++ [c]), mkUser (io s) (calls s ++ [c])).

(** [exec] returns only when it failed. *)
Definition exec (path : Z) (argv : list Z) (memory : bytes) : M User (option ending) :=
  r ← call (Exec path argv memory); mret (if r =? 0 then Some Replaced else None).

(** *** [sh] *)

(** What the caller of [getCommandString] finds as the result when it runs off
    its end: the function has no [return] there. *)
Variable missing : bool.

Definition getCommandString (buf : bytes) (len : Z) : M User (bool * bytes) :=
  print prompt ;;
  let buf := Stdio.user_memset buf 0 0 len in
  buf ← on_io (Stdio.getline junk buf len);
  if ld8 buf 0 =? 0 then mret (false, buf)
  else
    match Stdio.user_strlen (Z.to_nat len) buf 0 with
    | None => fail NoFuel
    | Some len => mret (missing, st8 buf (len - 1) 0)
    end.

(** The body of the loop of [runCommand]: [argv[i + 1] = cmd.args[i]]. *)
Definition set_arg (base : Z) (cmd argv : bytes) (i : Z) : bytes :=
  if ld8 cmd (arg i) =? 0 then argv else stN 8 argv (8 * (i + 1)) (base + arg i).

(** [runCommand], with its [Command] at the address [base] and its uninitialised
    array [argv]. *)
Definition runCommand (base : Z) (cmd argv : bytes) : M User (option ending) :=
  let argv := Stdio.user_memset argv 0 0 (8 * (MAX_ARGS + 1)) in
  let argv := stN 8 argv 0 base in
  let argv := fold_left (set_arg base cmd) (seqZ 0 MAX_ARGS) argv in
  exec base ((λ i, ldN 8 argv (8 * i)) <$> seqZ 0 (MAX_ARGS + 1)) cmd.

(** [strncmp(cmd.cmd, text, ...) == 0]. *)
Definition is_command (cmd text : bytes) : M User bool :=
  match Stdio.user_strncmp (length cmd) cmd 0 text 0 0 with
  | None => fail NoFuel
  | Some r => mret (r =? 0)
  end.

(** The loop of [main], of [fuel] rounds at most; [stack] and [argv] are the
    uninitialised arrays of the functions it calls. *)
Fixpoint shell_loop (fuel : nat) (base : Z) (stack argv buf cmd : bytes) : M User ending :=
  match fuel with
  | O => fail NoFuel
  | S f =>
      l ← getCommandString buf 128;
      let '(more, buf) := l in
      let finish := print newline ;; mret (Exited 0) in
      if negb more then finish
      else
        match parseCommand buf stack cmd with
        | Err e => fail e
        | Ok (_, cmd) =>
            cd ← is_command cmd cd_text;
            if cd : bool then shell_loop f base stack argv buf cmd
            else
              quit ← is_command cmd exit_text;
              if quit : bool then finish
              else
                pid ← call Fork;
                r ← (if pid =? 0 then runCommand base cmd argv else mret None);
                match r with
                | Some e => mret e
                | None => call (Wait 0) ;; shell_loop f base stack argv buf cmd
                end
        end
  end.

(** *** [init] *)

(** [sh_address]: where the string literal is. *)
Definition init_main (sh_address : Z) : M User ending :=
  stdio ← call (Open console_path O_RDWR);
  (if s32 stdio <? 0 then
     call (Mknod console_path DEV_CONSOLE 0) ;; call (Open console_path O_RDWR) ;; mret tt
   else mret tt) ;;
  print starting_sh ;;
  pid ← call Fork;
  if u64 pid <? 0 then print fork_failed ;; mret (Exited 1)
  else if u64 pid =? 0 then
    e ← exec sh_address [sh_address; 0] sh_path;
    match e with
    | Some e => mret e
    | None => print exec_failed ;; mret (Exited 1)
    end
  else mret Forever.

(** *** [echo] *)

Fixpoint echo_loop (n : nat) (i argc : Z) (argv : list bytes) : M User unit :=
  match n with
  | O => mret tt
  | S n' =>
      if i <? argc then
        (if negb (i =? 1) then print blank else mret tt) ;;
        match argv !! Z.to_nat i with
        | None => fail OutOfRange
        | Some a => print a
        end ;;
        echo_loop n' (i + 1) argc argv
      else mret tt
  end.

Definition echo_main (argc : Z) (argv : list bytes) : M User ending :=
  echo_loop (length argv) 1 argc argv ;; print newline ;; mret (Exited 0).
End programs.

(** ** Lemmas *)

(** The words of a line: its longest parts without spaces; [w] holds the
    characters of the word that was begun. *)
Fixpoint words_from (w l : bytes) : list bytes :=
  match l with
  | [] => match w with [] => [] | _ => [w] end
  | c :: l' =>
      if c =? 32 then match w with [] => words_from [] l' | _ => w :: words_from [] l' end
      else words_from (w ++ [c]) l'
  end.

Definition words (l : bytes) : list bytes := words_from [] l.

(** Characters of a line: no NUL. *)
Definition char_ok (c : Z) : Prop := 0 < c < 256.

Lemma words_from_app w w' l : Forall (λ c, c ≠ 32) w' → words_from w (w' ++ l) = words_from (w ++ w') l.
Proof.
  revert w; induction w' as [|c w' IH]; intros w Hw; [by rewrite app_nil_r|].
  apply Forall_cons in Hw as [Hc Hw]. simpl. rewrite (proj2 (Z.eqb_neq _ _)) by done.
  rewrite IH by done. by rewrite <- app_assoc.
Qed.

(** A line begins with a word, which may be empty. *)
Lemma first_word (l : bytes) : ∃ w r, l = w ++ r ∧ Forall (λ c, c ≠ 32) w ∧ (r = [] ∨ ∃ r', r = 32 :: r').
Proof.
  induction l as [|c l (w & r & -> & Hw & Hr)]; [exists [], []; split_and!; [done|by apply Forall_nil|by left]|].
  destruct (decide (c = 32)) as [->|Hc].
  - exists [], (32 :: w ++ r). split_and!; [done|by apply Forall_nil|]. right. by eexists.
  - exists (c :: w), r. split_and!; [done|by apply Forall_cons|done].
Qed.

Lemma ld8_drop (line : bytes) p (i : nat) c l : drop p line = l → l !! i = Some c → 0 <= c < 256 →
  ld8 line (Z.of_nat p + Z.of_nat i) = c.
Proof.
  intros <- E Hc. rewrite lookup_drop in E. unfold ld8; simpl.
  rewrite (proj2 (Z.leb_le _ _)) by lia.
  replace (Z.to_nat (Z.of_nat p + Z.of_nat i)) with (p + i)%nat by lia. rewrite E. simpl. by apply Z.mod_small.
Qed.

Lemma char_at_drop {S} line p c r (s : S) : drop p line = c :: r → 0 <= c < 256 →
  char_at line (Z.of_nat p) s = Ok (c, s).
Proof.
  intros E Hc. unfold char_at. pose proof (f_equal length E) as El. rewrite length_drop in El. simpl in El.
  rewrite (proj2 (Z.ltb_lt _ _)) by lia. unfold mret, M_ret.
  pose proof (ld8_drop line p 0 c (c :: r) E eq_refl Hc) as H. rewrite Z.add_0_r in H. by rewrite H.
Qed.

Lemma drop_app_S {A} p (line w r : list A) : drop p line = w ++ r → drop (p + length w) line = r.
Proof. intros E. by rewrite <- drop_drop, E, drop_app_length. Qed.

Lemma token_end_word {S} fuel line p w c r (s : S) :
  drop p line = w ++ c :: r → Forall char_ok w → Forall (λ c, c ≠ 32) w → c = 0 ∨ c = 32 →
  (length w < fuel)%nat → token_end fuel line (Z.of_nat p) s = Ok (Z.of_nat p + Z.of_nat (length w), s).
Proof.
  revert p fuel; induction w as [|x w IH]; intros p [|fuel] E Hw Hs Hc Hf; try (simpl in Hf; lia).
  - rewrite Z.add_0_r. cbn [token_end]. erewrite bind_ok; [|by apply (char_at_drop line p c r); [|lia]].
    by destruct Hc as [->| ->].
  - apply Forall_cons in Hw as [Hx Hw]. apply Forall_cons in Hs as [Hx' Hs]. unfold char_ok in Hx.
    cbn [token_end]. erewrite bind_ok; [|by apply (char_at_drop line p x (w ++ c :: r)); [|lia]].
    rewrite !(proj2 (Z.eqb_neq _ _)) by lia.
    replace (Z.of_nat p + 1) with (Z.of_nat (p + 1)) by lia.
    rewrite (IH (p + 1)%nat); [do 2 f_equal; simpl; lia| |done|done|done|simpl in Hf; lia].
    by apply (drop_app_S p line [x]).
Qed.

Lemma strncpy_put (t u : bytes) s p w :
  (∀ (i : nat) c, w !! i = Some c → ld8 u (p + Z.of_nat i) = c ∧ c ≠ 0) →
  strncpy t s u p (Z.of_nat (length w)) = put_bytes t s w.
Proof.
  unfold strncpy. rewrite Nat2Z.id. revert t s p; induction w as [|c w IH]; intros t s p H; [done|].
  cbn [length strncpy_loop put_bytes]. destruct (H 0%nat c eq_refl) as [Hc Hn]. rewrite Z.add_0_r in Hc.
  rewrite Hc, (proj2 (Z.eqb_neq _ _)) by done. apply IH. intros i x Hi.
  specialize (H (S i) x Hi). by replace (p + 1 + Z.of_nat i) with (p + Z.of_nat (S i)) by lia.
Qed.

(** The word [w] is at the start of the array [buf]. *)
Definition has_word (buf w : bytes) : Prop :=
  ∀ (i : nat) c, w !! i = Some c → ld8 buf (0 + Z.of_nat i) = c ∧ c ≠ 0.

Lemma word_chars line p w r : drop p line = w ++ r → Forall char_ok w →
  ∀ (i : nat) c, w !! i = Some c → ld8 line (Z.of_nat p + Z.of_nat i) = c ∧ c ≠ 0.
Proof.
  intros E Hw i c Hi. pose proof (Forall_lookup_1 _ _ _ _ Hw Hi) as Hc. unfold char_ok in Hc.
  split; [|lia]. apply (ld8_drop line p i c (w ++ r)); [done|by apply lookup_app_l_Some|lia].
Qed.

Lemma getToken_word {S} line p w c r (buf : bytes) (s : S) :
  drop p line = w ++ c :: r → Forall char_ok w → Forall (λ c, c ≠ 32) w → c = 0 ∨ c = 32 →
  (length line <= length buf)%nat → ∃ buf', length buf' = length buf ∧ has_word buf' w ∧
  getToken line (Z.of_nat p) buf s = Ok ((Z.of_nat (length w), Z.of_nat (p + length w), buf'), s).
Proof.
  intros E Hw Hs Hc Hb. pose proof (f_equal length E) as El.
  rewrite length_drop, length_app in El. simpl in El.
  exists (st8 (put_bytes buf 0 w) (Z.of_nat (length w)) 0). split_and!.
  - by rewrite length_st8, length_put_bytes.
  - intros i x Hi. pose proof (lookup_lt_Some _ _ _ Hi). pose proof (Forall_lookup_1 _ _ _ _ Hw Hi) as Hx.
    unfold char_ok in Hx. rewrite ld8_st8_ne by lia. split; [|lia].
    rewrite ld8_put_bytes_eq; [|lia|unfold valid_addr; simpl; lia].
    rewrite Nat2Z.id, Hi. simpl. apply Z.mod_small. lia.
  - unfold getToken. erewrite bind_ok; [|by apply (token_end_word _ line p w c r); [..|lia]].
    cbv beta zeta.
    replace (Z.of_nat p + Z.of_nat (length w) - Z.of_nat p) with (Z.of_nat (length w)) by lia.
    rewrite (proj2 (Z.leb_gt _ _)) by lia. unfold Stdio.user_strncpy.
    rewrite strncpy_put by by apply (word_chars line p w (c :: r)). by rewrite Nat2Z.inj_add.
Qed.

(** The fields of a command, [cmd] and the [args], are numbered from 0. *)
Definition field (i : nat) : Z := 12 * Z.of_nat i.

Lemma copy_field_word (cmd buf w : bytes) f : has_word buf w → f + Z.of_nat (length w) <= Z.of_nat (length cmd) →
  copy_field f buf (Z.of_nat (length w)) cmd = Ok (tt, put_bytes cmd f w).
Proof.
  intros Hb Hf. unfold copy_field. erewrite bind_ok by done. cbv beta zeta.
  rewrite (proj2 (Z.ltb_ge _ _)) by lia. unfold put_state, Stdio.user_strncpy. by rewrite strncpy_put.
Qed.

(** The first [n] of the 32 fields are in use. *)
Definition fields_used (cmd : bytes) (n : nat) : Prop :=
  length cmd = 384%nat ∧
  (∀ i, (i < n)%nat → ld8 cmd (field i) ≠ 0) ∧ (∀ i, (n <= i < 32)%nat → ld8 cmd (field i) = 0).

Lemma fill_arg_word (cmd buf w : bytes) n k i : fields_used cmd (Datatypes.S n) → has_word buf w → (length w <= 12)%nat →
  (n < 31)%nat → (i <= n)%nat → (n < k + i)%nat →
  fill_arg k (Z.of_nat i) buf (Z.of_nat (length w)) cmd = Ok (tt, put_bytes cmd (field (Datatypes.S n)) w).
Proof.
  intros (Hl & Hu & Hz) Hb Hw Hn. revert i; induction k as [|k IH]; intros i Hi Hk; [lia|].
  cbn [fill_arg]. erewrite bind_ok by done. cbv beta.
  assert (arg (Z.of_nat i) = field (Datatypes.S i)) as ->.
  { unfold arg, field, MAX_CMD_LENGTH, MAX_ARG_LENGTH. lia. }
  destruct (decide (i = n)) as [->|Hne].
  - rewrite Hz by lia. cbn [Z.eqb]. apply copy_field_word; [done|]. unfold field. lia.
  - rewrite (proj2 (Z.eqb_neq _ _)) by (apply Hu; lia).
    replace (Z.of_nat i + 1) with (Z.of_nat (Datatypes.S i)) by lia. apply IH; lia.
Qed.

Lemma store_token_word (cmd buf w : bytes) n : fields_used cmd n → has_word buf w → (length w <= 12)%nat →
  (n < 32)%nat → store_token buf (Z.of_nat (length w)) cmd = Ok (tt, put_bytes cmd (field n) w).
Proof.
  intros Hf Hb Hw Hn. pose proof Hf as (Hl & Hu & Hz). unfold store_token. erewrite bind_ok by done. cbv beta.
  destruct n as [|n].
  - pose proof (Hz 0%nat) as H0. change (field 0) with 0 in H0. rewrite H0 by lia.
    change (field 0) with 0. apply copy_field_word; [done|lia].
  - pose proof (Hu 0%nat) as H0. change (field 0) with 0 in H0.
    rewrite (proj2 (Z.eqb_neq _ _)) by (apply H0; lia). change (Z.to_nat MAX_ARGS) with 31%nat.
    apply (fill_arg_word _ _ _ n _ 0); [done|done|done|lia|lia|lia].
Qed.

Lemma fields_used_put (cmd w : bytes) n : fields_used cmd n → Forall char_ok w → (1 <= length w <= 12)%nat →
  (n < 32)%nat → fields_used (put_bytes cmd (field n) w) (Datatypes.S n).
Proof.
  intros (Hl & Hu & Hz) Hw Hn Hlt. unfold fields_used, field in *. split_and!.
  - by rewrite length_put_bytes.
  - intros i Hi. destruct (decide (i = n)) as [->|].
    + replace (12 * Z.of_nat n) with (12 * Z.of_nat n + 0) at 2 by lia.
      rewrite ld8_put_bytes_eq; [|lia|unfold valid_addr; simpl; lia].
      destruct w as [|c w]; [simpl in *; lia|]. apply Forall_cons in Hw as [Hc _]. unfold char_ok in Hc.
      simpl. rewrite Z.mod_small by lia. lia.
    + rewrite ld8_put_bytes_ne by lia. apply Hu. lia.
  - intros i Hi. rewrite ld8_put_bytes_ne by lia. apply Hz. lia.
Qed.

(** The words are put into the fields from [n] on. *)
Fixpoint put_words (cmd : bytes) (n : nat) (ws : list bytes) : bytes :=
  match ws with
  | [] => cmd
  | w :: ws' => put_words (put_bytes cmd (field n) w) (Datatypes.S n) ws'
  end.

Lemma parse_loop_end fuel line p buf r (cmd : bytes) : drop p line = 0 :: r →
  parse_loop fuel line (Z.of_nat p) buf cmd = Ok (tt, cmd).
Proof.
  intros E. destruct fuel; cbn [parse_loop]; (erewrite bind_ok; [|by apply (char_at_drop line p 0 r); [|lia]]); done.
Qed.

(** The token loop, at the end of the line or between two tokens. *)
Lemma parse_loop_words fuel : ∀ (l line : bytes) p buf rest (cmd : bytes) n,
  drop p line = l ++ 0 :: 0 :: rest → Forall char_ok l → (length l <= fuel)%nat →
  (length line <= length buf)%nat → fields_used cmd n →
  Forall (λ w, (length w <= 12)%nat) (words l) → (n + length (words l) <= 32)%nat →
  parse_loop fuel line (Z.of_nat p) buf cmd = Ok (tt, put_words cmd n (words l)).
Proof.
  induction fuel as [|fuel IH]; intros l line p buf rest cmd n E Hl Hf Hb Hn Hw H32.
  { destruct l; [|simpl in Hf; lia]. by apply (parse_loop_end _ _ _ _ (0 :: rest)). }
  destruct (first_word l) as (w & r & -> & Hsp & Hr). apply Forall_app in Hl as [Hlw Hlr].
  unfold words in *. rewrite words_from_app in * by done. cbn [app] in *.
  destruct r as [|x r].
  { rewrite app_nil_r in *. destruct w as [|c w]; [by apply (parse_loop_end _ _ _ _ (0 :: rest))|].
    cbn [words_from] in *. apply Forall_cons in Hlw as Hc. destruct Hc as [Hc _]. unfold char_ok in Hc.
    cbn [parse_loop]. erewrite bind_ok; [|by apply (char_at_drop line p c (w ++ 0 :: 0 :: rest)); [|lia]].
    rewrite (proj2 (Z.eqb_neq _ _)) by lia.
    destruct (getToken_word line p (c :: w) 0 (0 :: rest) buf cmd) as (buf' & Hb' & Hh & Eg); [done..|by left|done|].
    erewrite bind_ok by exact Eg. cbv beta iota zeta. rewrite (proj2 (Z.eqb_neq _ _)) by (simpl; lia).
    apply Forall_cons in Hw as [Hw _].
    erewrite bind_ok by (apply (store_token_word _ _ _ n); [done..|simpl in H32; lia]).
    replace (Z.of_nat (p + length (c :: w)) + 1) with (Z.of_nat (p + length (c :: w) + 1)) by lia.
    apply (parse_loop_end _ _ _ _ rest). apply (drop_app_S _ line [0]). by apply drop_app_S. }
  assert (x = 32) as -> by (destruct Hr as [|[r' Hr]]; congruence).
  apply Forall_cons in Hlr as [_ Hlr]. rewrite <- app_assoc in E. cbn [app] in E.
  rewrite length_app in Hf. simpl in Hf.
  destruct (getToken_word line p w 32 (r ++ 0 :: 0 :: rest) buf cmd) as (buf' & Hb' & Hh & Eg); [done..|by right|done|].
  assert (∃ c, char_at line (Z.of_nat p) cmd = Ok (c, cmd) ∧ c ≠ 0) as (c & Ec & Hc).
  { destruct w as [|c w].
    - exists 32. split; [by apply (char_at_drop line p 32 (r ++ 0 :: 0 :: rest)); [|lia]|lia].
    - apply Forall_cons in Hlw as [Hc _]. unfold char_ok in Hc. exists c. split; [|lia].
      by apply (char_at_drop line p c (w ++ 32 :: r ++ 0 :: 0 :: rest)); [|lia]. }
  cbn [parse_loop]. erewrite bind_ok by exact Ec. rewrite (proj2 (Z.eqb_neq _ _)) by done.
  erewrite bind_ok by exact Eg. cbv beta iota zeta.
  replace (Z.of_nat (p + length w) + 1) with (Z.of_nat (p + length w + 1)) by lia.
  assert (drop (p + length w + 1) line = r ++ 0 :: 0 :: rest) as Er.
  { apply (drop_app_S _ line [32]). by apply drop_app_S. }
  cbn [words_from Z.eqb Pos.eqb] in *. destruct w as [|c' w].
  - by apply (IH _ _ _ _ rest _ n); [..|lia|lia| | |].
  - rewrite (proj2 (Z.eqb_neq _ _)) by (simpl; lia). apply Forall_cons in Hw as [Hw Hws]. simpl in H32.
    erewrite bind_ok by (apply (store_token_word _ _ _ n); [done..|lia]).
    apply (IH _ _ _ _ rest _ (Datatypes.S n)); [done|done|simpl in Hf; lia|lia| |done|lia].
    apply fields_used_put; [done|done|simpl in *; lia|lia].
Qed.

(** *** What a command holds after it was parsed *)

Lemma ld8_put_words_ne (cmd : bytes) n ws a :
  (∀ i w, ws !! i = Some w → a < field (n + i) ∨ field (n + i) + Z.of_nat (length w) <= a) →
  ld8 (put_words cmd n ws) a = ld8 cmd a.
Proof.
  revert cmd n; induction ws as [|w ws IH]; intros cmd n H; [done|]. cbn [put_words]. rewrite IH.
  - apply ld8_put_bytes_ne. specialize (H 0%nat w eq_refl). by rewrite Nat.add_0_r in H.
  - intros i x Hi. specialize (H (Datatypes.S i) x Hi). by rewrite Nat.add_succ_r in H.
Qed.

Lemma length_put_words (cmd : bytes) n ws : length (put_words cmd n ws) = length cmd.
Proof. revert cmd n; induction ws; intros cmd n; [done|]. cbn [put_words]. by rewrite IHws, length_put_bytes. Qed.

Lemma ld8_put_words (cmd : bytes) n ws i w j c :
  length cmd = 384%nat → (n + length ws <= 32)%nat → Forall (λ w, (length w <= 12)%nat) ws →
  Forall (Forall char_ok) ws → ws !! i = Some w → w !! j = Some c →
  ld8 (put_words cmd n ws) (field (n + i) + Z.of_nat j) = c.
Proof.
  revert cmd n i; induction ws as [|x ws IH]; intros cmd n i Hl Hn Hw Hc Hi Hj; [by rewrite lookup_nil in Hi|].
  apply Forall_cons in Hw as [Hx Hw]. apply Forall_cons in Hc as [Hxc Hc]. simpl in Hn.
  pose proof (lookup_lt_Some _ _ _ Hj) as Hlt. cbn [put_words]. destruct i as [|i].
  - injection Hi as ->. rewrite Nat.add_0_r, ld8_put_words_ne.
    + pose proof (Forall_lookup_1 _ _ _ _ Hxc Hj) as Hr. unfold char_ok in Hr.
      rewrite ld8_put_bytes_eq; [|lia|unfold valid_addr, field; simpl; lia].
      rewrite Nat2Z.id, Hj. simpl. apply Z.mod_small. lia.
    + intros k y Hk. left. unfold field. lia.
  - rewrite Nat.add_succ_r, <- Nat.add_succ_l. apply IH; [by rewrite length_put_bytes|lia|done..].
Qed.

Lemma words_from_chars l : ∀ w, Forall char_ok w → Forall char_ok l → Forall (Forall char_ok) (words_from w l).
Proof.
  induction l as [|c l IH]; intros w Hw Hl; cbn [words_from].
  { destruct w; [by apply Forall_nil|by apply Forall_singleton]. }
  apply Forall_cons in Hl as [Hc Hl]. destruct (c =? 32).
  - destruct w; [|apply Forall_cons; split; [done|]]; apply IH; try done; by apply Forall_nil.
  - apply IH; [|done]. apply Forall_app. split; [done|by apply Forall_singleton].
Qed.

Lemma words_from_nonempty l : ∀ w, Forall (λ w, w ≠ []) (words_from w l).
Proof.
  induction l as [|c l IH]; intros w; cbn [words_from].
  { destruct w; [by apply Forall_nil|by apply Forall_singleton]. }
  destruct (c =? 32); [|apply IH]. destruct w; [apply IH|]. apply Forall_cons. split; [done|apply IH].
Qed.

Lemma clear_loop k : ∀ i (cmd : bytes), 0 <= i → i + Z.of_nat k <= MAX_ARGS → length cmd = 384%nat →
  ∃ cmd', for_range k i (λ i, modify (λ cmd, st8 cmd (arg i) 0)) cmd = Ok (tt, cmd') ∧ length cmd' = 384%nat ∧
  (∀ j, i <= j < i + Z.of_nat k → ld8 cmd' (arg j) = 0) ∧
  (∀ a, (∀ j, i <= j < i + Z.of_nat k → a ≠ arg j) → ld8 cmd' a = ld8 cmd a).
Proof.
  unfold arg, MAX_CMD_LENGTH, MAX_ARG_LENGTH, MAX_ARGS.
  induction k as [|k IH]; intros i cmd Hi Hk Hl.
  { exists cmd. split_and!; [done|done|lia|done]. }
  destruct (IH (i + 1) (st8 cmd (12 + 12 * i) 0)) as (cmd' & E & Hl' & Hz & Hs); [lia|lia|by rewrite length_st8|].
  exists cmd'. split_and!; [|done| |].
  - cbn [for_range]. erewrite bind_ok by done. exact E.
  - intros j Hj. destruct (decide (j = i)) as [->|]; [|apply Hz; lia].
    rewrite Hs by lia. rewrite ld8_st8_eq by (unfold valid_addr; simpl; lia). done.
  - intros a Ha. rewrite Hs by (intros j Hj; apply Ha; lia). apply ld8_st8_ne. specialize (Ha i). lia.
Qed.

Lemma clear_fields_spec (cmd : bytes) : length cmd = 384%nat →
  ∃ cmd', clear_fields cmd = Ok (tt, cmd') ∧ fields_used cmd' 0 ∧
  ∀ i j, 1 <= j < 12 → ld8 cmd' (field i + j) = ld8 cmd (field i + j).
Proof.
  intros Hl. destruct (clear_loop 31 0 (st8 cmd 0 0)) as (cmd' & E & Hl' & Hz & Hs);
    [done|by vm_compute|by rewrite length_st8|].
  unfold arg, MAX_CMD_LENGTH, MAX_ARG_LENGTH in Hz, Hs.
  exists cmd'. split_and!.
  - unfold clear_fields. by erewrite bind_ok by done.
  - split_and!; [done|lia|]. intros i Hi. unfold field. destruct i as [|i].
    + rewrite Hs by lia. change (12 * Z.of_nat 0) with 0.
      rewrite ld8_st8_eq by (unfold valid_addr; simpl; lia). done.
    + rewrite <- (Hz (Z.of_nat i)) by lia. f_equal. lia.
  - intros i j Hj. unfold field. rewrite Hs by lia. apply ld8_st8_ne. lia.
Qed.

(** *** From the typed line to the system call *)

(** The words of a line are C strings of the command when it was clear. *)
Lemma parsed_word (l rest buf : bytes) (cmd' : bytes) i w :
  (∀ i w j c, words l !! i = Some w → w !! j = Some c → ld8 cmd' (field i + Z.of_nat j) = c) →
  (∀ i w j, words l !! i = Some w → (length w <= j < 12)%nat →
    ld8 cmd' (field i + Z.of_nat j) = ld8 (replicate 384 0) (field i + Z.of_nat j)) →
  Forall char_ok l → words l !! i = Some w → (length w <= 11)%nat → (i < 32)%nat → cstr cmd' (field i) w.
Proof.
  intros Hc Ho Hl Hi Hw Hi32. split.
  - intros j c Hj. split; [by apply (Hc i w)|].
    pose proof (Forall_lookup_1 _ _ _ _ (words_from_chars l [] (List.Forall_nil _) Hl) Hi) as Hok.
    pose proof (Forall_lookup_1 _ _ _ _ Hok Hj) as Hx. unfold char_ok in Hx. lia.
  - rewrite (Ho i w) by (done || lia). unfold field. cbv beta iota delta [ld8 bytes_store].
    rewrite (proj2 (Z.leb_le _ _)), lookup_replicate_2 by lia. done.
Qed.

Lemma length_fill_up k (t : bytes) d c : length (fill_up k t d c) = length t.
Proof. revert t d; induction k as [|k IH]; intros t d; [done|]. cbn [fill_up]. by rewrite IH, length_st8. Qed.

Lemma st8_app (l1 l2 : bytes) x v : 0 <= v < 256 →
  st8 (l1 ++ x :: l2) (Z.of_nat (length l1)) v = l1 ++ v :: l2.
Proof.
  intros Hv. unfold st8; simpl. rewrite (proj2 (Z.leb_le _ _)), Nat2Z.id, Z.mod_small by lia.
  rewrite <- (Nat.add_0_r (length l1)). by rewrite insert_app_r.
Qed.

(** [getline] of a line that fits. *)
Lemma getline_loop_line junk (l : bytes) : ∀ fuel (pre old : bytes) n rest (s : Stdio.Io),
  Stdio.input s 0 = l ++ 10 :: rest → Forall (λ c, char_ok c ∧ c ≠ 10 ∧ c ≠ 13) l →
  (length l < fuel)%nat → Z.of_nat (length pre + length l) < n - 1 → (length l < length old)%nat →
  ∃ s', Stdio.getline_loop junk fuel (pre ++ old) n (Z.of_nat (length pre)) s =
    Ok ((pre ++ l ++ 10 :: drop (Datatypes.S (length l)) old, Z.of_nat (length pre + length l + 1)), s') ∧
  Stdio.written s' = Stdio.written s ∧ Stdio.input s' 0 = rest.
Proof.
  induction l as [|c l IH]; intros [|fuel] pre old n rest s Hs Hl Hf Hn Ho; try (simpl in *; lia);
    (destruct old as [|o old]; [simpl in Ho; lia|]); cbn [Stdio.getline_loop];
    rewrite (proj2 (Z.ltb_lt _ _)) by (simpl in *; lia).
  - eexists. split; [|split].
    + erewrite bind_ok by (unfold Stdio.getc; by rewrite Hs). cbv beta. cbn [Z.ltb Z.eqb Z.compare Pos.eqb orb wrap].
      change (u8 10) with 10. cbn [Z.ltb Z.compare Z.eqb Pos.compare Pos.compare_cont Pos.eqb orb].
      rewrite st8_app by lia. rewrite Nat.add_0_r, Nat2Z.inj_add. simpl. done.
    + done.
    + done.
  - apply Forall_cons in Hl as [(Hc & H10 & H13) Hl]. unfold char_ok in Hc.
    erewrite bind_ok by (unfold Stdio.getc; by rewrite Hs). cbv beta.
    rewrite wrap_small by lia. rewrite (proj2 (Z.ltb_ge _ _)) by lia.
    rewrite !(proj2 (Z.eqb_neq _ _)) by lia. cbn [orb]. rewrite st8_app by lia.
    destruct (IH fuel (pre ++ [c]) old n rest
      (Stdio.mkIo (Stdio.written s) (λ d, if decide (d = 0) then l ++ 10 :: rest else Stdio.input s d)))
      as (s' & E & Hw & Hi); [done|done|simpl in *; lia|rewrite length_app; simpl in *; lia|simpl in *; lia|].
    exists s'. split; [|done]. rewrite length_app in E. cbn [length] in *. rewrite <- !app_assoc in E. cbn [app] in E.
    replace (Z.of_nat (length pre) + 1) with (Z.of_nat (length pre + 1)) by lia.
    etrans; [exact E|]. do 3 f_equal. lia.
Qed.

(** [getCommandString] of a typed line. *)
Lemma getCommandString_line junk missing (l rest buf : bytes) (u : User) :
  Stdio.input (io u) 0 = l ++ 10 :: rest → Forall (λ c, char_ok c ∧ c ≠ 10 ∧ c ≠ 13) l →
  (length l <= 125)%nat → length buf = 128%nat →
  ∃ post u', getCommandString junk missing buf 128 u = Ok ((missing, l ++ 0 :: 0 :: post), u') ∧
  length (l ++ 0 :: 0 :: post) = 128%nat ∧ calls u' = calls u ∧ Stdio.input (io u') 0 = rest.
Proof.
  intros Hi Hl Hlen Hb.
  set (u1 := mkUser (Stdio.mkIo ((Stdio.written (io u) ++ [(0, 36)]) ++ [(0, 32)]) (Stdio.input (io u))) (calls u)).
  assert (print prompt u = Ok (tt, u1)) as Ep by done.
  remember (Stdio.user_memset buf 0 0 128) as old eqn:Eold.
  assert (length old = 128%nat) as Ho.
  { rewrite Eold. unfold Stdio.user_memset, memset. by rewrite length_fill_up. }
  destruct (getline_loop_line junk l 128 [] old 128 rest (io u1)) as (s' & E & _ & Hr);
    [done|done|lia|simpl; lia|lia|].
  destruct (drop (Datatypes.S (length l)) old) as [|y post] eqn:Ed.
  { apply (f_equal length) in Ed. rewrite length_drop in Ed. cbn [length] in Ed. lia. }
  assert (Datatypes.S (length post) = (127 - length l)%nat) as Hpost.
  { apply (f_equal length) in Ed. rewrite length_drop in Ed. cbn [length] in Ed. lia. }
  exists post, (mkUser s' (calls u)). split; [|split_and!; [rewrite length_app; simpl; lia|done|done]].
  unfold getCommandString. erewrite bind_ok by exact Ep. cbv zeta. rewrite <- Eold.
  assert (on_io (Stdio.getline junk old 128) u1 = Ok (l ++ 10 :: 0 :: post, mkUser s' (calls u))) as Eg.
  { unfold on_io, Stdio.getline. erewrite bind_ok by exact E. unfold mret, M_ret. cbn [fst snd].
    do 2 f_equal. pose proof (st8_app (l ++ [10]) post y 0 ltac:(lia)) as H.
    rewrite length_app, <- !app_assoc in H. exact H. }
  erewrite bind_ok by exact Eg. cbv beta zeta.
  assert (cstr (l ++ 10 :: 0 :: post) 0 (l ++ [10])) as Hs.
  { split.
    - intros i c Hc. assert (char_ok c) as Hok.
      { apply lookup_app_Some in Hc as [Hc|[_ Hc]].
        - by apply (Forall_lookup_1 _ _ _ _ Hl Hc).
        - apply list_lookup_singleton_Some in Hc as [_ <-]. unfold char_ok. lia. }
      unfold char_ok in Hok. split; [|lia].
      apply (ld8_drop _ 0 i c (l ++ 10 :: 0 :: post)); [done| |lia].
      change (l ++ 10 :: 0 :: post) with (l ++ [10] ++ 0 :: post). rewrite app_assoc. by apply lookup_app_l_Some.
    - apply (ld8_drop _ 0 _ 0 (l ++ 10 :: 0 :: post)); [done| |lia].
      change (l ++ 10 :: 0 :: post) with (l ++ [10] ++ 0 :: post). by rewrite app_assoc, list_lookup_middle. }
  assert (ld8 (l ++ 10 :: 0 :: post) 0 ≠ 0) as H0.
  { destruct l as [|c l]; apply cstr_cons in Hs as (-> & Hn & _); done. }
  rewrite (proj2 (Z.eqb_neq _ _)) by done.
  unfold Stdio.user_strlen, strlen. rewrite (strlen_loop_cstr _ _ _ _ Hs) by (rewrite length_app; simpl; lia).
  cbn [mbind option_bind]. unfold mret, M_ret. do 3 f_equal.
  rewrite length_app. cbn [length].
  replace (0 + Z.of_nat (length l + 1) - 0 - 1) with (Z.of_nat (length l)) by lia. by rewrite st8_app.
Qed.

(** *** The argument vector of [runCommand] *)

Lemma argv_loop base cmd (k : nat) : ∀ i (argv : bytes), 0 <= i → i + Z.of_nat k <= MAX_ARGS →
  length argv = 256%nat → 0 <= base → base + COMMAND_SIZE < 2 ^ 64 → ∀ m, 0 <= m < 32 →
  ldN 8 (fold_left (set_arg base cmd) (seqZ i (Z.of_nat k)) argv) (8 * m) =
  if decide (i + 1 <= m <= i + Z.of_nat k ∧ ld8 cmd (arg (m - 1)) ≠ 0) then base + arg (m - 1)
  else ldN 8 argv (8 * m).
Proof.
  unfold COMMAND_SIZE, arg, MAX_CMD_LENGTH, MAX_ARG_LENGTH, MAX_ARGS.
  induction k as [|k IH]; intros i argv Hi Hk Hl H0 Hb m Hm; [by rewrite decide_False by lia|].
  rewrite seqZ_cons by lia. replace (Z.pred (Z.of_nat (Datatypes.S k))) with (Z.of_nat k) by lia.
  cbn [fold_left].
  assert (length (set_arg base cmd argv i) = 256%nat) as Hl'.
  { unfold set_arg. destruct (_ =? 0); [done|by rewrite length_stN]. }
  rewrite IH by lia. unfold set_arg, arg, MAX_CMD_LENGTH, MAX_ARG_LENGTH.
  destruct (Z.eqb_spec (ld8 cmd (12 + 12 * i)) 0) as [E|E].
  - destruct (decide (m = i + 1)) as [->|].
    + rewrite !decide_False; [done| |lia]. intros [_ H]. apply H.
      by replace (12 + 12 * (i + 1 - 1)) with (12 + 12 * i) by lia.
    + by apply decide_ext; lia.
  - destruct (decide (m = i + 1)) as [->|Hne].
    + rewrite decide_False by lia. replace (i + 1 - 1) with i by lia. rewrite decide_True by lia.
      rewrite ldN_stN_eq by (intros j Hj; unfold valid_addr; simpl; lia). apply Z.mod_small. lia.
    + rewrite (ldN_stN_ne 8 8) by lia. by apply decide_ext; lia.
Qed.

Lemma ldN_zero (t : bytes) a : (∀ i, 0 <= i < 8 → ld8 t (a + i) = 0) → ldN 8 t a = 0.
Proof.
  intros H. trans (ldN 8 (∅ : pmem) 0); [|done]. apply ldN_ext. intros i Hi. by rewrite H.
Qed.

(** The vector: [cmd], the arguments that are not empty, null pointers. *)
Lemma runCommand_argv base (cmd argv : bytes) (u : User) answer :
  length argv = 256%nat → 0 <= base → base + COMMAND_SIZE < 2 ^ 64 → (∀ cs, answer cs = 0) →
  ∃ argv', runCommand answer base cmd argv u =
    Ok (Some Replaced, mkUser (io u) (calls u ++ [Exec base argv' cmd])) ∧
  argv' !! 0%nat = Some base ∧
  (∀ i : nat, (i < 31)%nat → ld8 cmd (field (Datatypes.S i)) ≠ 0 →
    argv' !! Datatypes.S i = Some (base + field (Datatypes.S i))) ∧
  (∀ i : nat, (i < 30)%nat → ld8 cmd (field (Datatypes.S i)) = 0 → argv' !! Datatypes.S i = Some 0).
Proof.
  intros Hl H0 Hb Ha.
  set (argv1 := stN 8 (Stdio.user_memset argv 0 0 (8 * (MAX_ARGS + 1))) 0 base).
  assert (length argv1 = 256%nat) as Hl1.
  { unfold argv1, Stdio.user_memset, memset. by rewrite length_stN, length_fill_up. }
  assert (ldN 8 argv1 0 = base) as Hbase.
  { unfold argv1. rewrite ldN_stN_eq.
    - apply Z.mod_small. unfold COMMAND_SIZE, MAX_CMD_LENGTH, MAX_ARGS, MAX_ARG_LENGTH in Hb. lia.
    - intros j Hj. unfold Stdio.user_memset, memset. rewrite valid_addr_fill_up. unfold valid_addr; simpl. lia. }
  assert (∀ m, 1 <= m <= 30 → ldN 8 argv1 (8 * m) = 0) as Hzero.
  { intros m Hm. unfold argv1. rewrite ldN_stN_ne by lia. apply ldN_zero. intros j Hj.
    unfold Stdio.user_memset, memset. change (8 * m + j) with (8 * m + j).
    rewrite <- (Z.add_0_l (8 * m + j)). rewrite ld8_fill_up_eq; [done| |].
    - intros x Hx. unfold valid_addr; simpl. rewrite pre_decrement_count_pos in Hx by (by vm_compute).
      unfold MAX_ARGS in Hx. lia.
    - rewrite pre_decrement_count_pos by (by vm_compute). unfold MAX_ARGS. lia. }
  pose proof (argv_loop base cmd 31 0 argv1 ltac:(lia) ltac:(by vm_compute) Hl1 H0 Hb) as Hloop.
  set (vector := (λ i, ldN 8 (fold_left (set_arg base cmd) (seqZ 0 MAX_ARGS) argv1) (8 * i)) <$>
    seqZ 0 (MAX_ARGS + 1)).
  exists vector. split; [unfold runCommand, exec; erewrite bind_ok by done; cbv beta; by rewrite Ha|].
  assert (∀ i : nat, (i < 32)%nat → vector !! i = Some (ldN 8 (fold_left (set_arg base cmd) (seqZ 0 (Z.of_nat 31)) argv1) (8 * Z.of_nat i))) as Hat.
  { intros i Hi. unfold vector. rewrite list_lookup_fmap, lookup_seqZ_lt by (unfold MAX_ARGS; lia). done. }
  assert (∀ i, arg (Z.of_nat (Datatypes.S i) - 1) = field (Datatypes.S i)) as Harg.
  { intros i. unfold arg, field, MAX_CMD_LENGTH, MAX_ARG_LENGTH. lia. }
  split_and!.
  - rewrite (Hat 0%nat), Hloop by lia. rewrite decide_False by lia.
    change (8 * Z.of_nat 0) with 0. by rewrite Hbase.
  - intros i Hi Hn. rewrite (Hat (Datatypes.S i)), Hloop, Harg by lia. by rewrite decide_True by (split; [lia|done]).
  - intros i Hi Hn. rewrite (Hat (Datatypes.S i)), Hloop, Harg by lia.
    rewrite decide_False by (by intros [_ ?]). by rewrite Hzero by lia.
Qed.

Lemma not_command (cmd text w t : bytes) (u : User) : cstr cmd 0 w → cstr text 0 t →
  (length w < length cmd)%nat → w ≠ t → is_command cmd text u = Ok (false, u).
Proof.
  intros Hw Ht Hl Hne. unfold is_command, Stdio.user_strncmp.
  destruct (strncmp_cstr (length cmd) cmd 0 w text 0 t 0 Hw Ht Hl) as (r & -> & Hr).
  unfold mret, M_ret. rewrite (proj2 (Z.eqb_neq _ _)) by naive_solver. done.
Qed.

(** The fields after [parseCommand]. *)
Lemma parse_fields (l rest buf cmd : bytes) (Hl : Forall char_ok l)
    (Hbuf : (length l + 2 + length rest <= length buf)%nat) (Hcmd : length cmd = 384%nat)
    (Hwords : Forall (λ w, (length w <= 12)%nat) (words l)) (Hargs : (length (words l) <= 32)%nat) :
  ∃ cmd', parseCommand (l ++ 0 :: 0 :: rest) buf cmd = Ok (tt, cmd') ∧ length cmd' = 384%nat ∧
  (∀ i w j c, words l !! i = Some w → w !! j = Some c → ld8 cmd' (field i + Z.of_nat j) = c) ∧
  (∀ i w j, words l !! i = Some w → (length w <= j < 12)%nat →
    ld8 cmd' (field i + Z.of_nat j) = ld8 cmd (field i + Z.of_nat j)) ∧
  (∀ i, (length (words l) <= i < 32)%nat → ld8 cmd' (field i) = 0).
Proof.
  destruct (clear_fields_spec cmd Hcmd) as (cmd1 & E1 & Hf & Hs). pose proof Hf as (Hl1 & _ & Hz).
  exists (put_words cmd1 0 (words l)). split_and!.
  - unfold parseCommand. erewrite bind_ok by exact E1.
    apply (parse_loop_words _ l _ 0 _ rest); [done|done|rewrite length_app; lia|rewrite length_app; simpl; lia|done|done|done].
  - by rewrite length_put_words.
  - intros i w j c Hi Hj. apply (ld8_put_words cmd1 0 (words l) i w); try done.
    apply words_from_chars; [by apply Forall_nil|done].
  - intros i w j Hi Hj. pose proof (Forall_lookup_1 _ _ _ _ (words_from_nonempty l []) Hi) as Hne.
    pose proof (Forall_lookup_1 _ _ _ _ Hwords Hi) as Hw. cbv beta in *.
    assert (length w ≠ 0%nat) by (by destruct w). rewrite ld8_put_words_ne; [apply Hs; lia|].
    intros k x Hk. pose proof (Forall_lookup_1 _ _ _ _ Hwords Hk) as Hx. cbv beta in Hx.
    unfold field. destruct (decide (k = i)) as [->|]; [|lia].
    assert (x = w) as -> by congruence. lia.
  - intros i Hi. rewrite ld8_put_words_ne; [by apply Hz; lia|].
    intros k x Hk. pose proof (lookup_lt_Some _ _ _ Hk). pose proof (Forall_lookup_1 _ _ _ _ Hwords Hk) as Hx.
    cbv beta in Hx. unfold field. lia.
Qed.

(** ** Properties *)

(** [parseCommand] of a line whose words fit the fields stores the words, in
    order, at the start of [cmd] and of the [args], makes every other argument
    empty, and leaves what was behind the words in their fields. *)
Theorem parseCommand_fields (l rest buf cmd : bytes) (Hl : Forall char_ok l)
    (Hbuf : (length l + 2 + length rest <= length buf)%nat) (Hcmd : length cmd = 384%nat)
    (Hwords : Forall (λ w, (length w <= 12)%nat) (words l)) (Hargs : (length (words l) <= 32)%nat) :
  ∃ cmd', parseCommand (l ++ 0 :: 0 :: rest) buf cmd = Ok (tt, cmd') ∧ length cmd' = 384%nat ∧
  (∀ i w j c, words l !! i = Some w → w !! j = Some c → ld8 cmd' (field i + Z.of_nat j) = c) ∧
  (∀ i w j, words l !! i = Some w → (length w <= j < 12)%nat →
    ld8 cmd' (field i + Z.of_nat j) = ld8 cmd (field i + Z.of_nat j)) ∧
  (∀ i, (length (words l) <= i < 32)%nat → ld8 cmd' (field i) = 0).
Proof. by apply parse_fields. Qed.

(** "echo hi", in a command that was used before. *)
Lemma parseCommand_fields_witness : ∃ cmd',
  parseCommand [101; 99; 104; 111; 32; 104; 105; 0; 0] (replicate 16 0) (replicate 384 7) = Ok (tt, cmd') ∧
  ld8 cmd' (field 0 + Z.of_nat 3) = 111 ∧ ld8 cmd' (field 0 + Z.of_nat 4) = 7 ∧
  ld8 cmd' (field 1 + Z.of_nat 1) = 105 ∧ ld8 cmd' (field 2) = 0.
Proof.
  destruct (parseCommand_fields [101; 99; 104; 111; 32; 104; 105] [] (replicate 16 0) (replicate 384 7))
    as (cmd' & E & Hl & Hc & Ho & Hz).
  - by repeat (apply Forall_cons; split; [unfold char_ok; lia|]).
  - simpl. lia.
  - done.
  - by repeat (apply Forall_cons; split; [simpl; lia|]).
  - simpl. lia.
  - exists cmd'. split_and!; [exact E| | | |].
    + by apply (Hc 0%nat [101; 99; 104; 111]).
    + rewrite (Ho 0%nat [101; 99; 104; 111]); [by vm_compute|done|simpl; lia].
    + by apply (Hc 1%nat [104; 105]).
    + apply (Hz 2%nat). simpl. lia.
Defined.

(** C25: the shell executes the typed line.  The child of the shell's [fork]
    replaces itself with the program the first word names, and the argument vector
    it passes points to the words of the line, in order, each a C string, and ends
    in a null pointer.  This is for the first command, when the [Command] structure,
    which the shell neither initialises nor clears, holds zeros (for what older
    contents do see [stale_characters]); for the value true in the register of the
    result that [getCommandString] does not set ([missing]); and for a line of at
    most 125 characters and 30 words of at most 11 characters whose first word is
    not one of the builtins [cd] and [exit]. *)
Theorem shell_runs_line (junk base : Z) (answer : list Call → Z) (fuel : nat) (stack argv buf l rest : bytes)
    (w : bytes) (ws : list bytes) (u : User)
    (Hinput : Stdio.input (io u) 0 = l ++ 10 :: rest) (Hl : Forall (λ c, char_ok c ∧ c ≠ 10 ∧ c ≠ 13) l)
    (Hlen : (length l <= 125)%nat) (Hbuf : length buf = 128%nat) (Hstack : length stack = 128%nat)
    (Hargv : length argv = 256%nat) (Hbase : 0 <= base ∧ base + COMMAND_SIZE < 2 ^ 64)
    (Hanswer : ∀ cs, answer cs = 0) (Hwords : words l = w :: ws)
    (Hfit : Forall (λ w, (length w <= 11)%nat) (w :: ws)) (Hcount : (length ws <= 29)%nat)
    (Hcd : w ≠ [99; 100]) (Hexit : w ≠ [101; 120; 105; 116]) :
  ∃ vector cmd u', shell_loop junk answer true (Datatypes.S fuel) base stack argv buf (replicate 384 0) u = Ok (Replaced, u') ∧
  calls u' = calls u ++ [Fork; Exec base vector cmd] ∧ Stdio.input (io u') 0 = rest ∧
  (∀ i x, words l !! i = Some x → vector !! i = Some (base + field i) ∧ cstr cmd (field i) x) ∧
  vector !! length (words l) = Some 0.
Proof.
  assert (Forall char_ok l) as Hok by (eapply Forall_impl; [exact Hl|]; naive_solver).
  destruct (getCommandString_line junk true l rest buf u Hinput Hl Hlen Hbuf) as (post & u1 & Eg & Hpost & Hcalls & Hrest).
  assert (Forall (λ w, (length w <= 12)%nat) (words l)) as Hfit12.
  { rewrite Hwords. eapply Forall_impl; [exact Hfit|]. simpl. lia. }
  assert (length (words l) <= 30)%nat as H30 by (rewrite Hwords; simpl; lia).
  destruct (parse_fields l post stack (replicate 384 0)) as (cmd & Ep & Hlc & Hc & Ho & Hz);
    [done|rewrite length_app in Hpost; simpl in Hpost; lia|done|done|lia|].
  assert (∀ i x, words l !! i = Some x → cstr cmd (field i) x) as Hcstr.
  { intros i x Hi. pose proof (lookup_lt_Some _ _ _ Hi). apply (parsed_word l post stack); try done; [|lia].
    rewrite Hwords in Hi. by apply (Forall_lookup_1 _ _ _ _ Hfit Hi). }
  assert (∀ i x, words l !! i = Some x → ld8 cmd (field i) ≠ 0) as Hn.
  { intros i x Hi. pose proof (Forall_lookup_1 _ _ _ _ (words_from_nonempty l []) Hi) as Hne.
    apply Hcstr in Hi. destruct x as [|c x]; [done|]. by apply cstr_cons in Hi as (-> & ? & _). }
  assert (cstr cmd 0 w) as Hw by (apply (Hcstr 0%nat); by rewrite Hwords).
  apply Forall_cons in Hfit as [Hw11 _].
  destruct (runCommand_argv base cmd argv (mkUser (io u1) (calls u1 ++ [Fork])) answer) as (vector & Er & Hv0 & Hv & Hvz);
    [done|lia|lia|done|].
  exists vector, cmd, (mkUser (io u1) (calls u ++ [Fork; Exec base vector cmd])). split_and!; [|done|done| |].
  - cbn [shell_loop]. erewrite bind_ok by exact Eg. cbv beta iota zeta. cbn [negb]. rewrite Ep. cbv beta iota.
    erewrite bind_ok by (apply (not_command cmd cd_text w [99; 100]); [done| |lia|done];
      by repeat (apply cstr_cons; split_and!; [by vm_compute|lia|])). cbv beta iota.
    erewrite bind_ok by (apply (not_command cmd exit_text w [101; 120; 105; 116]); [done| |lia|done];
      by repeat (apply cstr_cons; split_and!; [by vm_compute|lia|])). cbv beta iota.
    erewrite bind_ok by (unfold call; by rewrite Hanswer). cbv beta.
    erewrite bind_ok by exact Er. cbv beta iota. unfold mret, M_ret. cbn [io calls].
    by rewrite Hcalls, <- app_assoc.
  - intros i x Hi. split; [|by apply Hcstr]. destruct i as [|i]; [by rewrite Z.add_0_r|].
    apply Hv; [|by apply (Hn _ x)]. apply lookup_lt_Some in Hi. lia.
  - rewrite Hwords in *. cbn [length] in *. apply Hvz; [lia|]. apply Hz. lia.
Qed.

(** "echo hi". *)
Lemma shell_runs_line_witness : ∃ vector cmd u',
  shell_loop 0 (λ _, 0) true 1 4096 (replicate 128 7) (replicate 256 7) (replicate 128 7) (replicate 384 0)
    (mkUser (Stdio.mkIo [] (λ _, [101; 99; 104; 111; 32; 104; 105; 10])) []) = Ok (Replaced, u') ∧
  calls u' = [Fork; Exec 4096 vector cmd] ∧ vector !! 1%nat = Some 4108 ∧ cstr cmd 12 [104; 105] ∧
  vector !! 2%nat = Some 0.
Proof.
  destruct (shell_runs_line 0 4096 (λ _, 0) 0 (replicate 128 7) (replicate 256 7) (replicate 128 7)
    [101; 99; 104; 111; 32; 104; 105] [] [101; 99; 104; 111] [[104; 105]]
    (mkUser (Stdio.mkIo [] (λ _, [101; 99; 104; 111; 32; 104; 105; 10])) [])) as (vector & cmd & u' & E & Hcalls & _ & Hv & Hn);
    [reflexivity|by repeat (apply Forall_cons; split; [unfold char_ok; lia|])|simpl; lia|reflexivity|reflexivity
    |reflexivity|by vm_compute|reflexivity|reflexivity|by repeat (apply Forall_cons; split; [simpl; lia|])|simpl; lia
    |discriminate|discriminate|].
  destruct (Hv 1%nat [104; 105] eq_refl) as [Hv1 Hc].
  exists vector, cmd, u'. split_and!; [exact E|exact Hcalls|exact Hv1|exact Hc|exact Hn].
Defined.

(** *** Concrete runs *)

(** A command that was used before: after "echo", the line "sh" names the
    program "shho". *)
Lemma stale_characters : ∃ cmd1 cmd2,
  parseCommand [101; 99; 104; 111; 0; 0] (replicate 16 0) (replicate 384 0) = Ok (tt, cmd1) ∧
  parseCommand [115; 104; 0; 0] (replicate 16 0) cmd1 = Ok (tt, cmd2) ∧
  cstr cmd2 0 [115; 104; 104; 111].
Proof.
  eexists _, _. split; [vm_compute; reflexivity|]. split; [vm_compute; reflexivity|].
  by repeat (apply cstr_cons; split_and!; [by vm_compute|lia|]).
Qed.

(** A word of 12 characters runs into the first argument: "aaaaaaaaaaaa b" gives
    a command without a NUL before the characters of its argument. *)
Lemma long_command : ∃ cmd,
  parseCommand (replicate 12 97 ++ [32; 98; 0; 0]) (replicate 32 0) (replicate 384 0) = Ok (tt, cmd) ∧
  cstr cmd 0 (replicate 12 97 ++ [98]).
Proof.
  eexists. split; [vm_compute; reflexivity|]. simpl.
  by repeat (apply cstr_cons; split_and!; [by vm_compute|lia|]).
Qed.


(** *** [echo] *)

Lemma print_plain (fmt : bytes) u : Stdio.is_bytes fmt → Forall (λ c, c ≠ 37) fmt →
  print fmt u = Ok (tt, mkUser (Stdio.emit 0 fmt (io u)) (calls u)).
Proof.
  intros Hb Hp. assert (∀ s, Stdio.vprintf_loop 0 fmt false [] s = Ok (tt, Stdio.emit 0 fmt s)) as H.
  { induction fmt as [|c fmt IH]; intros s; [by rewrite Stdio.emit_nil|].
    apply Forall_cons in Hb as [Hc Hb]. apply Forall_cons in Hp as [Hc' Hp]. cbn [Stdio.vprintf_loop negb].
    rewrite (proj2 (Z.eqb_neq _ _)) by done. erewrite bind_ok by (unfold Stdio.putc, modify; done).
    rewrite IH by done. unfold Stdio.emit. cbn. do 2 f_equal. rewrite wrap_small by lia.
    by rewrite <- app_assoc. }
  unfold print, on_io, Stdio.printf, Stdio.vprintf. by rewrite H.
Qed.

(** The arguments, each after a blank. *)
Definition spaced (args : list bytes) : bytes := concat ((λ a, blank ++ a) <$> args).

Lemma echo_loop_spaced n i argv u : 1 < i → (length argv <= n + Z.to_nat i)%nat →
  Forall (λ a, Stdio.is_bytes a ∧ Forall (λ c, c ≠ 37) a) argv →
  echo_loop n i (Z.of_nat (length argv)) argv u =
    Ok (tt, mkUser (Stdio.emit 0 (spaced (drop (Z.to_nat i) argv)) (io u)) (calls u)).
Proof.
  intros Hi Hn Ha. revert i u Hi Hn; induction n as [|n IH]; intros i u Hi Hn; cbn [echo_loop].
  { rewrite drop_ge by lia. unfold spaced. cbn. rewrite Stdio.emit_nil. by destruct u. }
  destruct (Z.ltb_spec i (Z.of_nat (length argv))) as [Hlt|Hge].
  2:{ rewrite drop_ge by lia. unfold spaced. cbn. rewrite Stdio.emit_nil. by destruct u. }
  destruct (lookup_lt_is_Some_2 argv (Z.to_nat i)) as [a Ea]; [lia|].
  destruct (Forall_lookup_1 _ _ _ _ Ha Ea) as [Hb Hp].
  rewrite (proj2 (Z.eqb_neq _ _)) by lia. cbn [negb].
  erewrite bind_ok by (apply print_plain; repeat (apply Forall_cons; split; [lia|]); by apply Forall_nil).
  rewrite Ea. erewrite bind_ok by by apply print_plain. rewrite IH by lia. cbn [io calls].
  rewrite !Stdio.emit_app. do 4 f_equal. rewrite (drop_S argv a (Z.to_nat i)) by done.
  replace (Z.to_nat (i + 1)) with (Datatypes.S (Z.to_nat i)) by lia. unfold spaced. cbn. done.
Qed.

(** [echo] prints its arguments with blanks between them, and a newline, as long
    as no argument has a conversion: it passes them as format strings. *)
Lemma echo_prints (name a : bytes) (args : list bytes) (u : User) :
  Forall (λ a, Stdio.is_bytes a ∧ Forall (λ c, c ≠ 37) a) (name :: a :: args) →
  echo_main (Z.of_nat (length (name :: a :: args))) (name :: a :: args) u =
    Ok (Exited 0, mkUser (Stdio.emit 0 (a ++ spaced args ++ newline) (io u)) (calls u)).
Proof.
  intros Ha. pose proof Ha as Ha'. apply Forall_cons in Ha' as [_ Ha']. apply Forall_cons in Ha' as [[Hb Hp] _].
  set (argv := name :: a :: args) in *.
  assert (echo_loop (length argv) 1 (Z.of_nat (length argv)) argv u =
    Ok (tt, mkUser (Stdio.emit 0 (a ++ spaced args) (io u)) (calls u))) as El.
  { change (length argv) with (Datatypes.S (Datatypes.S (length args))) at 1.
    remember (Datatypes.S (length args)) as n eqn:En. cbn [echo_loop].
    rewrite (proj2 (Z.ltb_lt _ _)) by (simpl; lia). erewrite bind_ok by done.
    change (argv !! Z.to_nat 1) with (Some a). erewrite bind_ok by by apply print_plain.
    change (1 + 1) with 2. rewrite (echo_loop_spaced n 2 argv); [|lia|rewrite En; simpl; lia|done]. cbn [io calls]. by rewrite Stdio.emit_app. }
  unfold echo_main. erewrite bind_ok by exact El.
  erewrite bind_ok by (apply print_plain; repeat (apply Forall_cons; split; [lia|]); by apply Forall_nil).
  cbn [io calls]. by rewrite Stdio.emit_app, <- app_assoc.
Qed.
End Shell.
