(* ===== verification/SpinMutex.v ===== *)
(** * Spin locks

    [kernel/mutex/spin_mutex.h] and [spin_mutex.cpp].  [push] and [pop] work on
    the [Cpu] record and the [sstatus] register of one hart; [lock] and
    [unlock] are also given as a step relation over all harts, one shared
    access per step, so that every interleaving is covered. *)

From S2P Require Import Prelude.
From stdpp Require Import functions.

#[local] Open Scope Z_scope.

Module SpinMutex.

(** ** Definitions *)

Definition NUM_CPUS : Z := 8.

Definition SSTATUS_SIE : Z := 2.

(** The part of [process::Cpu] the locks use, with the hart's [sstatus]. *)
Record Cpu := mkCpu { numLocks : Z; interruptEnabled : bool; sstatus : Z }.

Record SpinMutex := mkSpinMutex { locked : bool; hartid : Z }.

(** [hartid = -1]. *)
Definition no_hart : Z := u64 (-1).

(** The constructor. *)
Definition make : SpinMutex := mkSpinMutex false no_hart.

Definition sie (c : Cpu) : bool := negb (Z.land (sstatus c) SSTATUS_SIE =? 0).

(** [SpinMutex::push]. *)
Definition push (c : Cpu) : Cpu :=
  let old := sie c in
  let st := Z.land (sstatus c) (Z.lnot SSTATUS_SIE) in
  mkCpu (u64 (numLocks c + 1))
    (if numLocks c =? 0 then old else interruptEnabled c) st.

(** [SpinMutex::pop]. *)
Definition pop (c : Cpu) : result Cpu :=
  if sie c then Err AssertFailed
  else if negb (0 <? numLocks c) then Err AssertFailed
  else
    let n := u64 (numLocks c - 1) in
    Ok (mkCpu n (interruptEnabled c)
          (if (n =? 0) && interruptEnabled c then Z.lor (sstatus c) SSTATUS_SIE else sstatus c)).

(** [SpinMutex::holding] on hart [tp]. *)
Definition holding (tp : Z) (m : SpinMutex) : bool := locked m && (hartid m =? tp).

(** The calls in the bodies of [lock] and [unlock] of one hart, when no other
    hart interferes: [lock] spins forever on a mutex another hart holds. *)
Definition lock (tp : Z) : M (Cpu * SpinMutex) unit := λ '(c, m),
  let c := push c in
  if holding tp m then Err AssertFailed
  else if locked m then Err NoFuel
  else Ok (tt, (c, mkSpinMutex true tp)).

Definition unlock (tp : Z) : M (Cpu * SpinMutex) unit := λ '(c, m),
  if negb (holding tp m) then Err AssertFailed
  else
    match pop c with
    | Ok c' => Ok (tt, (c', mkSpinMutex false no_hart))
    | Err f => Err f
    end.

(** ** All harts *)

(** Where a hart is: outside the lock operations, in [lock] before and after
    its assertion and between the test-and-set and the write of [hartid], in
    [unlock] after the write of [hartid] and after the release. *)
Inductive pc :=
  | Outside
  | Pushed (l : Z)
  | Spinning (l : Z)
  | Taken (l : Z)
  | Cleared (l : Z)
  | Released (l : Z).

(** The machine: the harts, the mutexes (by address), the program counters,
    and the mutexes each hart has locked and not yet begun to unlock. *)
Record machine := mkMachine {
  cpus : Z → Cpu;
  mutexes : Z → SpinMutex;
  pcs : Z → pc;
  owned : Z → list Z;
}.

(** A mutex is at an 8-aligned address of a 64-bit space. *)
Definition lock_address (l : Z) : Prop := 0 <= l < 2 ^ 61.

Inductive step : machine → machine → Prop :=
  | step_push cs ms ps os h l :
      0 <= h < NUM_CPUS → ps h = Outside → lock_address l →
      step (mkMachine cs ms ps os) (mkMachine (<[h := push (cs h)]> cs) ms (<[h := Pushed l]> ps) os)
  | step_assert cs ms ps os h l :
      0 <= h < NUM_CPUS → ps h = Pushed l → holding h (ms l) = false →
      step (mkMachine cs ms ps os) (mkMachine cs ms (<[h := Spinning l]> ps) os)
  | step_spin cs ms ps os h l :
      0 <= h < NUM_CPUS → ps h = Spinning l → locked (ms l) = true →
      step (mkMachine cs ms ps os)
        (mkMachine cs (<[l := mkSpinMutex true (hartid (ms l))]> ms) ps os)
  | step_take cs ms ps os h l :
      0 <= h < NUM_CPUS → ps h = Spinning l → locked (ms l) = false →
      step (mkMachine cs ms ps os)
        (mkMachine cs (<[l := mkSpinMutex true (hartid (ms l))]> ms) (<[h := Taken l]> ps) os)
  | step_own cs ms ps os h l :
      0 <= h < NUM_CPUS → ps h = Taken l →
      step (mkMachine cs ms ps os)
        (mkMachine cs (<[l := mkSpinMutex (locked (ms l)) h]> ms) (<[h := Outside]> ps)
           (<[h := l :: os h]> os))
  | step_clear cs ms ps os h l :
      0 <= h < NUM_CPUS → ps h = Outside → holding h (ms l) = true →
      step (mkMachine cs ms ps os)
        (mkMachine cs (<[l := mkSpinMutex (locked (ms l)) no_hart]> ms) (<[h := Cleared l]> ps)
           (<[h := filter (λ x, x ≠ l) (os h)]> os))
  | step_release cs ms ps os h l :
      0 <= h < NUM_CPUS → ps h = Cleared l →
      step (mkMachine cs ms ps os)
        (mkMachine cs (<[l := mkSpinMutex false (hartid (ms l))]> ms) (<[h := Released l]> ps) os)
  | step_pop cs ms ps os h l c :
      0 <= h < NUM_CPUS → ps h = Released l → pop (cs h) = Ok c →
      step (mkMachine cs ms ps os) (mkMachine (<[h := c]> cs) ms (<[h := Outside]> ps) os)
  | step_sstatus cs ms ps os h x :
      0 <= h < NUM_CPUS → ps h = Outside → numLocks (cs h) = 0 →
      step (mkMachine cs ms ps os)
        (mkMachine (<[h := mkCpu 0 (interruptEnabled (cs h)) x]> cs) ms ps os).

(** At boot no lock is taken. *)
Definition initial (m : machine) : Prop :=
  ∀ h l, numLocks (cpus m h) = 0 ∧ mutexes m l = make ∧ pcs m h = Outside ∧ owned m h = [].

(** The hart [h] is in the critical section of [l]: from its test-and-set to
    its release. *)
Definition holds (m : machine) (h l : Z) : Prop :=
  l ∈ owned m h ∨ pcs m h = Taken l ∨ pcs m h = Cleared l.

Definition busy (p : pc) : Z := match p with Outside => 0 | _ => 1 end.

Record inv (m : machine) : Prop := {
  inv_harts : ∀ h l, holds m h l → 0 <= h < NUM_CPUS ∧ lock_address l;
  inv_locked : ∀ l, locked (mutexes m l) = true ↔ ∃ h, holds m h l;
  inv_excl : ∀ h h' l, holds m h l → holds m h' l → h = h';
  inv_hartid : ∀ l, (∃ h, l ∈ owned m h ∧ hartid (mutexes m l) = h) ∨
    ((∀ h, l ∉ owned m h) ∧ hartid (mutexes m l) = no_hart);
  inv_nodup : ∀ h, NoDup (owned m h);
  inv_pc : ∀ h l, pcs m h = Taken l ∨ pcs m h = Cleared l → l ∉ owned m h;
  inv_count : ∀ h, numLocks (cpus m h) = Z.of_nat (length (owned m h)) + busy (pcs m h);
  inv_sie : ∀ h, 0 < numLocks (cpus m h) → sie (cpus m h) = false;
  inv_call : ∀ h l, pcs m h = Pushed l ∨ pcs m h = Spinning l → lock_address l ∧ 0 <= h < NUM_CPUS;
  inv_spin : ∀ h l, pcs m h = Spinning l → l ∉ owned m h;
}.

#[local] Arguments push : simpl never.
#[local] Arguments pop : simpl never.

(** ** Lemmas *)

Lemma land_lnot_sie x : Z.land (Z.land x (Z.lnot SSTATUS_SIE)) SSTATUS_SIE = 0.
Proof.
  apply Z.bits_inj'. intros i Hi. rewrite !Z.land_spec, Z.lnot_spec, Z.bits_0 by done.
  destruct (Z.testbit SSTATUS_SIE i); [by rewrite andb_false_r|by rewrite andb_false_r].
Qed.

Lemma sie_push c : sie (push c) = false.
Proof. unfold sie, push. simpl. by rewrite land_lnot_sie. Qed.

Lemma numLocks_push c : 0 <= numLocks c < 2 ^ 64 - 1 → numLocks (push c) = numLocks c + 1.
Proof. intros Hc. unfold push. simpl. rewrite wrap_small; lia. Qed.

Lemma pop_spec c : sie c = false → 0 < numLocks c < 2 ^ 64 →
  ∃ c', pop c = Ok c' ∧ numLocks c' = numLocks c - 1 ∧ interruptEnabled c' = interruptEnabled c ∧
    (0 < numLocks c' → sie c' = false).
Proof.
  intros Hs Hn. unfold pop. rewrite Hs, (proj2 (Z.ltb_lt _ _)) by lia. simpl.
  eexists. split; [done|]. simpl. rewrite wrap_small by lia. split_and!; [done|done|].
  intros Hp. rewrite (proj2 (Z.eqb_neq _ _)) by lia. exact Hs.
Qed.

(** A hart cannot own more mutexes than there are addresses. *)
Lemma owned_bound m h : inv m → Z.of_nat (length (owned m h)) <= 2 ^ 61.
Proof.
  intros Hi. assert (owned m h ⊆+ seqZ 0 (2 ^ 61)) as Hs.
  { apply NoDup_submseteq; [apply (inv_nodup _ Hi)|]. intros l Hl. apply elem_of_seqZ.
    destruct (inv_harts _ Hi h l) as [_ ?]; [by left|]. unfold lock_address in *. lia. }
  apply submseteq_length in Hs. rewrite length_seqZ in Hs. lia.
Qed.

Lemma count_bound m h : inv m → 0 <= numLocks (cpus m h) < 2 ^ 62.
Proof.
  intros Hi. pose proof (owned_bound m h Hi). rewrite (inv_count _ Hi).
  destruct (pcs m h); simpl; lia.
Qed.

Lemma inv_initial m : initial m → inv m.
Proof.
  intros H0. assert (∀ h l, ¬ holds m h l) as Hno.
  { intros h l. destruct (H0 h l) as (_ & _ & Hp & Ho). unfold holds. rewrite Hp, Ho.
    intros [Hin|[?|?]]; [by apply not_elem_of_nil in Hin|done|done]. }
  split.
  - intros h l Hh. by destruct (Hno h l).
  - intros l. destruct (H0 0 l) as (_ & -> & _). split; [done|]. intros [h Hh]. by destruct (Hno h l).
  - intros h h' l Hh. by destruct (Hno h l).
  - intros l. right. destruct (H0 0 l) as (_ & -> & _). split; [|done]. intros h.
    destruct (H0 h l) as (_ & _ & _ & ->). apply not_elem_of_nil.
  - intros h. destruct (H0 h 0) as (_ & _ & _ & ->). constructor.
  - intros h l. destruct (H0 h l) as (_ & _ & -> & _). by intros [?|?].
  - intros h. destruct (H0 h 0) as (-> & _ & -> & ->). done.
  - intros h. destruct (H0 h 0) as (-> & _). lia.
  - intros h l. destruct (H0 h l) as (_ & _ & -> & _). by intros [?|?].
  - intros h l. destruct (H0 h l) as (_ & _ & -> & _). done.
Qed.

(** Case analysis on whether two harts, or two mutexes, are the same. *)
Ltac fn_cases :=
  simpl in *; repeat match goal with
  | H : context [<[?a := ?x]> ?f ?a] |- _ => rewrite (fn_lookup_insert f) in H
  | |- context [<[?a := ?x]> ?f ?a] => rewrite (fn_lookup_insert f)
  | N : ?b ≠ ?a |- context [<[?a := ?x]> ?f ?b] => rewrite (fn_lookup_insert_ne f) by congruence
  | H : context [<[?a := ?x]> ?f ?b] |- _ =>
      destruct (decide (b = a)) as [?|?];
      [subst; rewrite (fn_lookup_insert f) in H|rewrite (fn_lookup_insert_ne f) in H by congruence]
  | |- context [<[?a := ?x]> ?f ?b] =>
      destruct (decide (b = a)) as [?|?];
      [subst; rewrite (fn_lookup_insert f)|rewrite (fn_lookup_insert_ne f) by congruence]
  end; simpl in *.

(** A hart that leaves every mutex and every list of owned mutexes alone. *)
Lemma inv_local m h c p :
  inv m → 0 <= h < NUM_CPUS →
  (∀ l, p ≠ Taken l ∧ p ≠ Cleared l) → (∀ l, pcs m h ≠ Taken l ∧ pcs m h ≠ Cleared l) →
  numLocks c = Z.of_nat (length (owned m h)) + busy p → (0 < numLocks c → sie c = false) →
  (∀ l, p = Pushed l ∨ p = Spinning l → lock_address l) →
  (∀ l, p = Spinning l → l ∉ owned m h) →
  inv (mkMachine (<[h := c]> (cpus m)) (mutexes m) (<[h := p]> (pcs m)) (owned m)).
Proof.
  intros Hi Hh Hp Hq Hn Hs Hl Hsp. set (m' := mkMachine _ _ _ _).
  assert (∀ h' l, holds m' h' l ↔ holds m h' l) as Eh.
  { intros h' l. unfold holds. fn_cases; [|done]. specialize (Hp l). specialize (Hq l). naive_solver. }
  destruct Hi as [I1 I2 I3 I4 I5 I6 I7 I8 I9 I10]. split.
  - intros h' l. rewrite Eh. apply I1.
  - intros l. simpl. rewrite I2. f_equiv. intros h'. by rewrite Eh.
  - intros h1 h2 l. rewrite !Eh. apply I3.
  - apply I4.
  - apply I5.
  - intros h' l. fn_cases; [|apply I6]. specialize (Hp l). naive_solver.
  - intros h'. fn_cases; auto.
  - intros h'. fn_cases; auto.
  - intros h' l. fn_cases; [|apply I9]. auto.
  - intros h' l. fn_cases; [|apply I10]. auto.
Qed.

(** A hart that changes one mutex, and what it owns, between two points. *)
Lemma inv_mutex m h l x p os :
  inv m → 0 <= h < NUM_CPUS → lock_address l →
  let m' := mkMachine (cpus m) (<[l := x]> (mutexes m)) (<[h := p]> (pcs m)) (<[h := os]> (owned m)) in
  (∀ l', l' ≠ l → holds m' h l' ↔ holds m h l') →
  (∀ l', l' ≠ l → l' ∈ os ↔ l' ∈ owned m h) →
  (locked x = true ↔ holds m' h l) →
  (holds m' h l → ∀ h', h' ≠ h → ¬ holds m h' l) →
  (¬ holds m' h l → ∀ h', h' ≠ h → ¬ holds m h' l) →
  hartid x = (if decide (l ∈ os) then h else no_hart) →
  NoDup os → (∀ l', p = Taken l' ∨ p = Cleared l' → l' ∉ os) →
  Z.of_nat (length os) + busy p = numLocks (cpus m h) →
  (∀ l', p ≠ Pushed l' ∧ p ≠ Spinning l') →
  inv m'.
Proof.
  intros Hi Hh Hl m' Hsame Hown Hlk Hex Hex' Hid Hnd Hpc Hcnt Hcall.
  assert (∀ h' l', h' ≠ h → holds m' h' l' ↔ holds m h' l') as Eother.
  { intros h' l' Hne. unfold holds, m'. by fn_cases. }
  pose proof Hi as [I1 I2 I3 I4 I5 I6 I7 I8 I9 I10]. split.
  - intros h' l' Hh'. destruct (decide (h' = h)) as [->|]; [|by apply I1, Eother].
    split; [done|]. destruct (decide (l' = l)) as [->|Hne]; [done|]. by apply (I1 h), Hsame.
  - intros l'. unfold m' at 1. fn_cases.
    + rewrite Hlk. split; [by eauto|]. intros [h' Hh']. destruct (decide (h' = h)) as [->|Hne]; [done|].
      apply Eother in Hh'; [|done]. destruct (decide (locked x = true)) as [Ht|Hf]; [by apply Hlk|].
      exfalso. apply (Hex' ltac:(by rewrite <- Hlk) h' Hne Hh').
    + rewrite I2. split; intros [h' Hh']; exists h'.
      * destruct (decide (h' = h)) as [->|]; [by apply Hsame|by apply Eother].
      * destruct (decide (h' = h)) as [->|]; [by apply Hsame|by apply Eother].
  - assert (∀ h1 l', holds m' h l' → h1 ≠ h → holds m' h1 l' → False) as Hsolo.
    { intros h1 l' H1 Hne H2. apply Eother in H2; [|done]. destruct (decide (l' = l)) as [->|Hl'].
      - by apply (Hex H1 h1).
      - apply Hsame in H1; [|done]. by apply Hne, (I3 _ _ l'). }
    intros h1 h2 l' H1 H2. destruct (decide (h1 = h)) as [->|N1], (decide (h2 = h)) as [->|N2]; auto.
    + by destruct (Hsolo h2 l').
    + by destruct (Hsolo h1 l').
    + apply Eother in H1, H2; [|done..]. by apply (I3 _ _ l').
  - intros l'. unfold m'. simpl. destruct (decide (l' = l)) as [->|Hne].
    + rewrite fn_lookup_insert, Hid. case_decide as Ho.
      * left. exists h. by rewrite fn_lookup_insert.
      * right. split; [|done]. intros h'. destruct (decide (h' = h)) as [->|Hh']; [by rewrite fn_lookup_insert|].
        rewrite fn_lookup_insert_ne by done. intros Hin.
        assert (holds m h' l) as Hhl by by left.
        destruct (decide (locked x = true)) as [Ht|Hf].
        -- by apply (Hex (proj1 Hlk Ht) h').
        -- by apply (Hex' ltac:(by rewrite <- Hlk) h').
    + rewrite fn_lookup_insert_ne by done. destruct (I4 l') as [(h' & Ho & Eh)|[Hno Eh]].
      * left. exists h'. split; [|done]. destruct (decide (h' = h)) as [->|].
        -- rewrite fn_lookup_insert. by apply Hown.
        -- by rewrite fn_lookup_insert_ne.
      * right. split; [|done]. intros h'. destruct (decide (h' = h)) as [->|].
        -- rewrite fn_lookup_insert, Hown by done. apply Hno.
        -- rewrite fn_lookup_insert_ne by done. apply Hno.
  - intros h'. unfold m'. by fn_cases.
  - intros h' l'. unfold m'. fn_cases; [apply Hpc|apply I6].
  - intros h'. unfold m'. fn_cases; [by rewrite Hcnt|apply I7].
  - apply I8.
  - intros h' l'. unfold m'. fn_cases; [|apply I9]. specialize (Hcall l'). naive_solver.
  - intros h' l'. unfold m'. fn_cases; [|apply I10]. specialize (Hcall l'). naive_solver.
Qed.

Lemma fn_insert_id {B} (f : Z → B) (a : Z) b x : f a = b → <[a := b]> f x = f x.
Proof. intros <-. destruct (decide (x = a)) as [->|]; [by rewrite fn_lookup_insert|by rewrite fn_lookup_insert_ne]. Qed.

(** The invariant depends on the functions only through their values. *)
Lemma inv_ext m m' : inv m → (∀ h, cpus m' h = cpus m h) → (∀ l, mutexes m' l = mutexes m l) →
  (∀ h, pcs m' h = pcs m h) → (∀ h, owned m' h = owned m h) → inv m'.
Proof.
  intros [I1 I2 I3 I4 I5 I6 I7 I8 I9 I10] Ec Em Ep Eo.
  assert (∀ h l, holds m' h l ↔ holds m h l) as Eh.
  { intros h l. unfold holds. by rewrite Ep, Eo. }
  split.
  - intros h l. rewrite Eh. apply I1.
  - intros l. rewrite Em, I2. f_equiv. intros h. by rewrite Eh.
  - intros h h' l. rewrite !Eh. apply I3.
  - intros l. rewrite Em. destruct (I4 l) as [(h & ?)|[Hn ?]]; [left; exists h; by rewrite Eo|right].
    split; [|done]. intros h. by rewrite Eo.
  - intros h. by rewrite Eo.
  - intros h l. rewrite Ep, Eo. apply I6.
  - intros h. by rewrite Ec, Eo, Ep.
  - intros h. rewrite Ec. apply I8.
  - intros h l. rewrite Ep. apply I9.
  - intros h l. rewrite Ep, Eo. apply I10.
Qed.

Lemma length_filter_ne (l : Z) (os : list Z) : NoDup os → l ∈ os →
  (length (filter (λ x, x ≠ l) os) + 1 = length os)%nat.
Proof.
  induction 1 as [|x os Hx Hnd IH]; [by intros ?%not_elem_of_nil|]. intros Hl.
  rewrite filter_cons. destruct (decide (x = l)) as [->|Hne].
  - rewrite decide_False by tauto. simpl. clear IH Hl Hnd.
    induction os as [|y os IH]; [done|]. apply not_elem_of_cons in Hx as [Hy Hx].
    rewrite filter_cons, decide_True by congruence. simpl. rewrite <- IH by done. lia.
  - rewrite decide_True by done. simpl. apply elem_of_cons in Hl as [->|Hl]; [done|]. rewrite <- IH; auto.
Qed.

(** What a mutex says about its owner. *)
Lemma holding_owned m h l : inv m → 0 <= h < NUM_CPUS →
  holding h (mutexes m l) = true ↔ l ∈ owned m h.
Proof.
  intros Hi Hh. unfold holding. rewrite andb_true_iff, Z.eqb_eq. unfold NUM_CPUS in Hh. split.
  - intros [_ Eh]. destruct (inv_hartid _ Hi l) as [(h' & Ho & Eh')|[_ Eh']]; [congruence|].
    rewrite Eh' in Eh. unfold no_hart in Eh. vm_compute in Eh. lia.
  - intros Ho. split; [apply (inv_locked _ Hi); exists h; by left|].
    destruct (inv_hartid _ Hi l) as [(h' & Ho' & ->)|[Hno _]]; [|by destruct (Hno h)].
    apply (inv_excl _ Hi _ _ l); by left.
Qed.

Lemma unlocked_free m l : inv m → locked (mutexes m l) = false →
  (∀ h, ¬ holds m h l) ∧ hartid (mutexes m l) = no_hart.
Proof.
  intros Hi Hl. assert (∀ h, ¬ holds m h l) as Hno.
  { intros h Hh. assert (locked (mutexes m l) = true) by (apply (inv_locked _ Hi); eauto). congruence. }
  split; [done|]. destruct (inv_hartid _ Hi l) as [(h & Ho & _)|[_ ?]]; [|done].
  destruct (Hno h). by left.
Qed.

Lemma inv_take m h l : inv m → 0 <= h < NUM_CPUS → pcs m h = Spinning l → locked (mutexes m l) = false →
  inv (mkMachine (cpus m) (<[l := mkSpinMutex true (hartid (mutexes m l))]> (mutexes m))
         (<[h := Taken l]> (pcs m)) (owned m)).
Proof.
  intros Hi Hh Hp Hl. destruct (unlocked_free m l Hi Hl) as [Hno Hid].
  assert (l ∉ owned m h) as Hlo. { intros Ho. apply (Hno h). by left. }
  eapply inv_ext; [apply (inv_mutex m h l (mkSpinMutex true (hartid (mutexes m l))) (Taken l) (owned m h) Hi Hh)|..];
    simpl; try done.
  - by apply (inv_call _ Hi h); right.
  - intros l' Hne. unfold holds. fn_cases. rewrite Hp. naive_solver.
  - split; [|done]. intros _. right; left. by fn_cases.
  - by rewrite decide_False.
  - apply (inv_nodup _ Hi).
  - intros l' [[= ->]|?]; done.
  - rewrite (inv_count _ Hi), Hp. done.
  - intros h'. by rewrite fn_insert_id.
Qed.

Lemma inv_own m h l : inv m → 0 <= h < NUM_CPUS → pcs m h = Taken l →
  inv (mkMachine (cpus m) (<[l := mkSpinMutex (locked (mutexes m l)) h]> (mutexes m))
         (<[h := Outside]> (pcs m)) (<[h := l :: owned m h]> (owned m))).
Proof.
  intros Hi Hh Hp. assert (holds m h l) as Hhl by (right; by left).
  assert (l ∉ owned m h) as Hlo by (apply (inv_pc _ Hi); by left).
  assert (locked (mutexes m l) = true) as Hl by (apply (inv_locked _ Hi); eauto).
  assert (∀ h', h' ≠ h → ¬ holds m h' l) as Hex.
  { intros h' Hne Hh'. by apply Hne, (inv_excl _ Hi _ _ l). }
  apply (inv_mutex m h l _ Outside (l :: owned m h) Hi Hh); simpl; auto.
  - by apply (inv_harts _ Hi h).
  - intros l' Hne. unfold holds. fn_cases. rewrite Hp, elem_of_cons. naive_solver.
  - intros l' Hne. rewrite elem_of_cons. naive_solver.
  - rewrite Hl. split; [|done]. intros _. left. fn_cases. left.
  - rewrite decide_True; [done|]. left.
  - constructor; [done|]. apply (inv_nodup _ Hi).
  - by intros l' [?|?].
  - rewrite (inv_count _ Hi), Hp. simpl. lia.
Qed.

Lemma inv_clear m h l : inv m → 0 <= h < NUM_CPUS → pcs m h = Outside → holding h (mutexes m l) = true →
  inv (mkMachine (cpus m) (<[l := mkSpinMutex (locked (mutexes m l)) no_hart]> (mutexes m))
         (<[h := Cleared l]> (pcs m)) (<[h := filter (λ x, x ≠ l) (owned m h)]> (owned m))).
Proof.
  intros Hi Hh Hp Hhold. assert (l ∈ owned m h) as Ho by by apply holding_owned.
  assert (holds m h l) as Hhl by by left.
  assert (l ∉ filter (λ x, x ≠ l) (owned m h)) as Hlo by (rewrite list_elem_of_filter; naive_solver).
  assert (locked (mutexes m l) = true) as Hl by (apply (inv_locked _ Hi); eauto).
  assert (∀ h', h' ≠ h → ¬ holds m h' l) as Hex.
  { intros h' Hne Hh'. by apply Hne, (inv_excl _ Hi _ _ l). }
  apply (inv_mutex m h l _ (Cleared l) (filter (λ x, x ≠ l) (owned m h)) Hi Hh); simpl; auto.
  - by apply (inv_harts _ Hi h).
  - intros l' Hne. unfold holds. fn_cases. rewrite Hp, list_elem_of_filter. naive_solver.
  - intros l' Hne. rewrite list_elem_of_filter. naive_solver.
  - rewrite Hl. split; [|done]. intros _. right; right. by fn_cases.
  - by rewrite decide_False.
  - apply list.NoDup_filter, (inv_nodup _ Hi).
  - intros l' [?|[= <-]]; done.
  - rewrite (inv_count _ Hi), Hp. pose proof (length_filter_ne l (owned m h) (inv_nodup _ Hi h) Ho). simpl. lia.
Qed.

Lemma inv_release m h l : inv m → 0 <= h < NUM_CPUS → pcs m h = Cleared l →
  inv (mkMachine (cpus m) (<[l := mkSpinMutex false (hartid (mutexes m l))]> (mutexes m))
         (<[h := Released l]> (pcs m)) (owned m)).
Proof.
  intros Hi Hh Hp. assert (holds m h l) as Hhl by (right; by right).
  assert (l ∉ owned m h) as Hlo by (apply (inv_pc _ Hi); by right).
  assert (∀ h', h' ≠ h → ¬ holds m h' l) as Hex.
  { intros h' Hne Hh'. by apply Hne, (inv_excl _ Hi _ _ l). }
  assert (hartid (mutexes m l) = no_hart) as Hid.
  { destruct (inv_hartid _ Hi l) as [(h' & Ho & _)|[_ ?]]; [|done].
    assert (h' = h) as -> by (apply (inv_excl _ Hi _ _ l); [by left|done]). done. }
  eapply inv_ext; [apply (inv_mutex m h l (mkSpinMutex false (hartid (mutexes m l))) (Released l) (owned m h) Hi Hh)|..];
    simpl; try done; auto.
  - by apply (inv_harts _ Hi h).
  - intros l' Hne. unfold holds. fn_cases. rewrite Hp. naive_solver.
  - split; [done|]. unfold holds. fn_cases. naive_solver.
  - by rewrite decide_False.
  - apply (inv_nodup _ Hi).
  - by intros l' [?|?].
  - rewrite (inv_count _ Hi), Hp. done.
  - intros h'. by rewrite fn_insert_id.
Qed.

Lemma machine_inv_step m m' : step m m' → inv m → inv m'.
Proof.
  destruct 1 as [cs ms ps os h l Hh Hp Hl|cs ms ps os h l Hh Hp Hl|cs ms ps os h l Hh Hp Hl|
    cs ms ps os h l Hh Hp Hl|cs ms ps os h l Hh Hp|cs ms ps os h l Hh Hp Hl|cs ms ps os h l Hh Hp|
    cs ms ps os h l c Hh Hp Hc|cs ms ps os h x Hh Hp Hc]; intros Hi;
    set (m := mkMachine cs ms ps os) in *; pose proof (count_bound m h Hi) as Hb;
    pose proof (inv_count _ Hi h) as Hcnt; simpl in Hb, Hcnt; rewrite Hp in Hcnt; simpl in Hcnt.
  - apply (inv_local m h (push (cs h)) (Pushed l) Hi Hh); simpl; try done.
    + rewrite Hp. done.
    + rewrite wrap_small; lia.
    + intros _. change (sie (push (cs h)) = false). apply sie_push.
    + intros l' [[= <-]|?]; done.
  - eapply inv_ext; [apply (inv_local m h (cs h) (Spinning l) Hi Hh)|..]; simpl; try done.
    + rewrite Hp. done.
    + apply (inv_sie _ Hi).
    + intros l' [?|[= <-]]; [done|]. apply (inv_call _ Hi h). by left.
    + intros l' [= <-] Ho. apply (holding_owned m h l Hi Hh) in Ho. simpl in Ho. congruence.
    + intros h'. by rewrite fn_insert_id.
  - eapply (inv_ext m); simpl; try done. intros l'. apply fn_insert_id. rewrite <- Hl. by destruct (ms l).
  - by apply (inv_take m).
  - by apply (inv_own m).
  - by apply (inv_clear m).
  - by apply (inv_release m).
  - destruct (pop_spec (cs h)) as (c' & Ec & En & _ & Es); [apply (inv_sie _ Hi); simpl; lia|lia|].
    assert (c' = c) as -> by congruence.
    apply (inv_local m h c Outside Hi Hh); simpl; try done; [rewrite Hp; done|lia|by intros l' [?|?]].
  - eapply inv_ext; [apply (inv_local m h (mkCpu 0 (interruptEnabled (cs h)) x) Outside Hi Hh)|..];
      simpl; try done; [rewrite Hp; done|lia|by intros l' [?|?]|].
    intros h'. by rewrite fn_insert_id.
Qed.

Lemma inv_reachable m0 m : initial m0 → rtc step m0 m → inv m.
Proof.
  intros H0 Hs. assert (inv m0) as Hi by by apply inv_initial. clear H0.
  induction Hs; eauto using machine_inv_step.
Qed.

(** ** Properties *)

(** C9: mutual exclusion over all interleavings of the harts.  In every
    reachable machine at most one hart is between the test-and-set and the
    release of a mutex; [locked] says whether there is one; and [holding] on a
    hart answers whether this hart has locked the mutex. *)
Theorem mutual_exclusion (m0 m : machine) (Hinit : initial m0) (Hsteps : rtc step m0 m) :
  (∀ h h' l, holds m h l → holds m h' l → h = h') ∧
  (∀ l, locked (mutexes m l) = true ↔ ∃ h, holds m h l) ∧
  (∀ h l, 0 <= h < NUM_CPUS → holding h (mutexes m l) = true ↔ l ∈ owned m h).
Proof.
  pose proof (inv_reachable m0 m Hinit Hsteps) as Hi. split_and!.
  - apply (inv_excl _ Hi).
  - apply (inv_locked _ Hi).
  - intros h l. by apply holding_owned.
Qed.

(** Interrupts stay off while a hart holds spin locks.  In every reachable
    machine [numLocks] counts the mutexes a hart owns and the lock operation it
    is in; while the count is positive the interrupt bit of [sstatus] is clear;
    and the [pop] of an [unlock] never fails an assertion. *)
Theorem interrupts_off_while_locked (m0 m : machine) (Hinit : initial m0) (Hsteps : rtc step m0 m) :
  ∀ h, numLocks (cpus m h) = Z.of_nat (length (owned m h)) + busy (pcs m h) ∧
    (0 < numLocks (cpus m h) → sie (cpus m h) = false) ∧
    (∀ l, pcs m h = Released l → ∃ c, pop (cpus m h) = Ok c).
Proof.
  pose proof (inv_reachable m0 m Hinit Hsteps) as Hi. intros h.
  pose proof (inv_count _ Hi h) as Hc. pose proof (count_bound m h Hi) as Hb. split_and!.
  - done.
  - apply (inv_sie _ Hi).
  - intros l Hp. rewrite Hp in Hc. simpl in Hc.
    destruct (pop_spec (cpus m h)) as (c & E & _); [apply (inv_sie _ Hi); lia|lia|eauto].
Qed.

(** Properly nested calls of [push] and [pop]. *)
Inductive nested : list bool → Prop :=
  | nested_nil : nested []
  | nested_pair w w' : nested w → nested w' → nested (true :: w ++ false :: w').

(** Run [push] for [true] and [pop] for [false]. *)
Fixpoint run_calls (w : list bool) (c : Cpu) : result Cpu :=
  match w with
  | [] => Ok c
  | true :: w' => run_calls w' (push c)
  | false :: w' => match pop c with Ok c' => run_calls w' c' | Err f => Err f end
  end.

Lemma run_calls_app w w' c c' : run_calls w c = Ok c' → run_calls (w ++ w') c = run_calls w' c'.
Proof.
  revert c; induction w as [|[] w IH]; intros c; simpl; [by intros [= ->]|by apply IH|].
  destruct (pop c); [by apply IH|done].
Qed.

Lemma land_lor_sie x : Z.land x SSTATUS_SIE ≠ 0 → Z.lor (Z.land x (Z.lnot SSTATUS_SIE)) SSTATUS_SIE = x.
Proof.
  intros Hx. apply Z.bits_inj'. intros i Hi. change SSTATUS_SIE with (2 ^ 1) in *.
  rewrite Z.lor_spec, Z.land_spec, Z.lnot_spec, Z.pow2_bits_eqb by lia.
  destruct (Z.eqb_spec 1 i) as [<-|]; [|by rewrite andb_true_r, orb_false_r].
  rewrite andb_false_r. simpl. destruct (Z.testbit x 1) eqn:E; [done|]. exfalso. apply Hx.
  apply Z.bits_inj'. intros j Hj. rewrite Z.land_spec, Z.bits_0, Z.pow2_bits_eqb by lia.
  destruct (Z.eqb_spec 1 j) as [<-|]; [by rewrite E|by rewrite andb_false_r].
Qed.

Lemma land_sie_id x : Z.land x SSTATUS_SIE = 0 → Z.land x (Z.lnot SSTATUS_SIE) = x.
Proof.
  intros Hx. apply Z.bits_inj'. intros i Hi. rewrite Z.land_spec, Z.lnot_spec by lia.
  destruct (Z.testbit SSTATUS_SIE i) eqn:E; [|by rewrite andb_true_r].
  rewrite andb_false_r. destruct (Z.testbit x i) eqn:Ex; [|done].
  assert (Z.testbit (Z.land x SSTATUS_SIE) i = true) as Ht by by rewrite Z.land_spec, Ex, E.
  by rewrite Hx, Z.bits_0 in Ht.
Qed.

(** [push] and [pop] restore the interrupt state.  A properly nested
    sequence of calls, started with no lock held or with interrupts off, never
    fails an assertion and gives back the [sstatus] and the lock count it
    found, whatever the interrupt bit was. *)
Theorem push_pop_restores (w : list bool) (c : Cpu)
    (Hw : nested w) (Hn : 0 <= numLocks c) (Hmax : numLocks c + Z.of_nat (length w) < 2 ^ 64)
    (Hoff : 0 < numLocks c → sie c = false) :
  ∃ c', run_calls w c = Ok c' ∧ sstatus c' = sstatus c ∧ numLocks c' = numLocks c ∧
    (0 < numLocks c → interruptEnabled c' = interruptEnabled c).
Proof.
  revert c Hn Hmax Hoff. induction Hw as [|w w' Hw IH Hw' IH']; intros c Hn Hmax Hoff.
  { exists c. done. }
  simpl in Hmax. rewrite length_app in Hmax. simpl in Hmax. simpl.
  destruct (IH (push c)) as (c1 & E1 & Es1 & En1 & Ei1); rewrite ?numLocks_push in * by lia;
    [lia|lia|by intros; apply sie_push|]. specialize (Ei1 ltac:(lia)).
  rewrite (run_calls_app _ _ _ _ E1). simpl.
  assert (sie c1 = false) as Hs1. { unfold sie. rewrite Es1. unfold push; cbn [sstatus]. by rewrite land_lnot_sie. }
  destruct (pop_spec c1 Hs1) as (c2 & E2 & En2 & Ei2 & _); [lia|]. rewrite E2.
  assert (sstatus c2 = sstatus c) as Es2.
  { unfold pop in E2. rewrite Hs1, (proj2 (Z.ltb_lt _ _)) in E2 by lia. simpl in E2. injection E2 as <-. simpl.
    rewrite wrap_small, Es1, Ei1, En1 by lia. unfold push, sie in *. simpl.
    destruct (Z.eqb_spec (numLocks c) 0) as [E0|N0].
    - rewrite E0. simpl. destruct (Z.eqb_spec (Z.land (sstatus c) SSTATUS_SIE) 0); simpl.
      + by apply land_sie_id.
      + by apply land_lor_sie.
    - rewrite (proj2 (Z.eqb_neq _ _)) by lia. simpl. apply land_sie_id.
      specialize (Hoff ltac:(lia)). by destruct (Z.eqb_spec (Z.land (sstatus c) SSTATUS_SIE) 0). }
  destruct (IH' c2) as (c3 & E3 & Es3 & En3 & Ei3); [lia|lia| |].
  { intros Hp. unfold sie. rewrite Es2. apply Hoff. lia. }
  exists c3. split; [done|]. split; [congruence|]. split; [lia|]. intros Hp.
  rewrite Ei3, Ei2, Ei1 by lia. unfold push. simpl. by rewrite (proj2 (Z.eqb_neq _ _)) by lia.
Qed.

Definition boot : machine :=
  mkMachine (λ _, mkCpu 0 false 0) (λ _, make) (λ _, Outside) (λ _, []).

Lemma boot_initial : initial boot.
Proof. done. Qed.

Lemma boot_locked : ∃ m, rtc step boot m ∧ owned m 0 = [5] ∧ locked (mutexes m 5) = true.
Proof.
  eexists. split.
  { eapply rtc_l; [apply (step_push _ _ _ _ 0 5); [unfold NUM_CPUS; lia|done|unfold lock_address; lia]|].
    eapply rtc_l; [apply (step_assert _ _ _ _ 0 5); [unfold NUM_CPUS; lia|done|done]|].
    eapply rtc_l; [apply (step_take _ _ _ _ 0 5); [unfold NUM_CPUS; lia|done|done]|].
    eapply rtc_l; [apply (step_own _ _ _ _ 0 5); [unfold NUM_CPUS; lia|done]|]. apply rtc_refl. }
  done.
Qed.

Lemma mutual_exclusion_witness : ∃ m, rtc step boot m ∧ locked (mutexes m 5) = true ∧
  holding 0 (mutexes m 5) = true.
Proof.
  destruct boot_locked as (m & Hs & Ho & Hl). exists m. split; [exact Hs|]. split; [exact Hl|].
  apply (mutual_exclusion boot m boot_initial Hs); [unfold NUM_CPUS; lia|]. rewrite Ho. left.
Defined.

Lemma interrupts_off_while_locked_witness : ∃ m, rtc step boot m ∧ numLocks (cpus m 0) = 1 + busy (pcs m 0).
Proof.
  destruct boot_locked as (m & Hs & Ho & Hl). exists m. split; [exact Hs|].
  destruct (interrupts_off_while_locked boot m boot_initial Hs 0) as (-> & _). by rewrite Ho.
Defined.

Lemma push_pop_restores_witness :
  ∃ c, run_calls [true; true; false; false] (mkCpu 0 false 2) = Ok c ∧ sstatus c = 2.
Proof.
  destruct (push_pop_restores [true; true; false; false] (mkCpu 0 false 2)) as (c & E & Es & _).
  - apply (nested_pair [true; false] []); [apply (nested_pair [] []); constructor|constructor].
  - simpl. lia.
  - simpl. lia.
  - simpl. lia.
  - by exists c.
Defined.

End SpinMutex.
