(* ===== verification/SleepMutex.v ===== *)
(** * Sleeping locks

    [kernel/mutex/sleep_mutex.h] and [sleep_mutex.cpp], as the operations of one
    process between two of its scheduling points: the inner spin lock is held
    for the length of each operation, and a [lock] that finds the mutex taken
    gives the processor away, which is the fault [WouldSleep]. *)

From S2P Require Import Prelude.

Module SleepMutex.

(** ** Definitions *)

Record SleepMutex := mkSleepMutex { locked : bool; pid : Z }.

(** The zero-initialised mutex. *)
Definition unlocked : SleepMutex := mkSleepMutex false 0.

Section operations.
(** [process::Cpu::current().process->pid]. *)
Variable current : Z.

(** [SleepMutex::lock]. *)
Definition lock (m : SleepMutex) : result SleepMutex :=
  if locked m then Err WouldSleep else Ok (mkSleepMutex true current).

(** [SleepMutex::unlock]. *)
Definition unlock (m : SleepMutex) : SleepMutex := mkSleepMutex false 0.

(** [SleepMutex::holding]. *)
Definition holding (m : SleepMutex) : bool := locked m && (pid m =? current).
End operations.

(** ** Lemmas *)

Lemma lock_free current : lock current unlocked = Ok (mkSleepMutex true current).
Proof. done. Qed.

Lemma holding_locked current : holding current (mkSleepMutex true current) = true.
Proof. unfold holding. simpl. apply Z.eqb_refl. Qed.

End SleepMutex.
