(* ===== verification/Buffer.v ===== *)
(** * The buffer cache

    [kernel/fs/buffer.h] and [buffer.cpp].  A [Buffer*] is a location of a heap
    of buffers, the table of cached buffers is the hash table of [HashMap.v],
    and the disk is a map from block numbers to blocks together with the list
    of the writes it has been sent, oldest first.  [diskRead] and [diskWrite]
    are the completed requests of the driver of [Virtio.v].

    The file first states the interface the rest of the file system is written
    against ([BufferOps], [BufferLaws]), then gives the implementation of the
    source and discharges the interface with it. *)

From S2P Require Import Prelude CString HashMap SleepMutex.

Module Buffer.

(** ** Blocks and disks *)

Definition BLOCK_SIZE : Z := 1024.

Definition zero_block : bytes := replicate 1024 0.

(** The block [b] of a disk; blocks never written hold zeros. *)
Definition dblock (d : gmap Z bytes) (b : Z) : bytes := default zero_block (d !! b).

(** A disk after a sequence of writes. *)
Definition replay (d : gmap Z bytes) (ws : list (Z * bytes)) : gmap Z bytes :=
  fold_left (λ d w, <[fst w := snd w]> d) ws d.

(** A block is 1024 bytes. *)
Definition is_block (bs : bytes) : Prop :=
  Z.of_nat (length bs) = BLOCK_SIZE ∧ Forall (λ x, 0 <= x < 256) bs.

(** [memmove(dst, src, BLOCK_SIZE)] between two blocks. *)
Definition copy_block (dst src : bytes) : bytes :=
  put_bytes dst 0 (get_bytes 1024 src 0).

(** ** The interface of the cache *)

(** The operations of [Buffer] and [BufferCache] on a state [S] with buffer
    pointers [P].  [data_of], [set_data] and [block_of] are the accesses to the
    members [data] and [block]. *)
Class BufferOps (S P : Type) := {
  get : Z → Z → M S P;
  release : P → M S unit;
  pin : P → M S unit;
  unpin : P → M S unit;
  read : P → M S unit;
  write : P → M S unit;
  data_of : P → M S bytes;
  set_data : P → bytes → M S unit;
  block_of : P → M S Z;
}.

(** A cached block as its user sees it: the pointer, the reference count,
    whether the calling process holds it, and its data once it was read. *)
Record cached {P : Type} := mkCached {
  c_ptr : P;
  c_refs : Z;
  c_held : bool;
  c_data : option bytes;
}.
Arguments cached : clear implicits.
Arguments mkCached {P} _ _ _ _.

(** The disk, the writes it was sent, and the cached blocks of the device. *)
Record view {P : Type} := mkView {
  v_disk : gmap Z bytes;
  v_writes : list (Z * bytes);
  v_cache : gmap Z (cached P);
}.
Arguments view : clear implicits.
Arguments mkView {P} _ _ _.

Section view_updates.
Context {P : Type}.
Implicit Types (v : view P) (cb : cached P).

Definition with_cache v (c : gmap Z (cached P)) : view P :=
  mkView (v_disk v) (v_writes v) c.

Definition put_cached (b : Z) cb v : view P := with_cache v (<[b := cb]> (v_cache v)).

Definition drop_cached (b : Z) v : view P := with_cache v (delete b (v_cache v)).

(** What [get] leaves for a block that was, or was not, cached. *)
Definition got (p : P) (old : option (cached P)) : cached P :=
  match old with
  | Some cb => mkCached (c_ptr cb) (c_refs cb + 1) true (c_data cb)
  | None => mkCached p 1 true None
  end.

(** What [release] leaves of a block. *)
Definition released (b : Z) cb v : view P :=
  if decide (c_refs cb = 1) then drop_cached b v
  else put_cached b (mkCached (c_ptr cb) (c_refs cb - 1) false (c_data cb)) v.

Definition disk_write (b : Z) (bs : bytes) v : view P :=
  mkView (<[b := bs]> (v_disk v)) (v_writes v ++ [(b, bs)]) (v_cache v).

Definition with_refs cb (n : Z) : cached P := mkCached (c_ptr cb) n (c_held cb) (c_data cb).

Definition with_data cb (bs : bytes) : cached P :=
  mkCached (c_ptr cb) (c_refs cb) (c_held cb) (Some bs).
End view_updates.

(** What the cache promises to its users, for the blocks of one device.
    [rep s v]: the state [s] presents the view [v].  [fits bs]: the cache can
    hold the blocks [bs] together. *)
Class BufferLaws (S P : Type) `{BufferOps S P} (dev : Z) := {
  rep : S → view P → Prop;
  fits : gset Z → Prop;
  fits_mono X Y : X ⊆ Y → fits Y → fits X;
  fits_pair a b : fits {[a; b]};
  rep_block s v b : rep s v → is_block (dblock (v_disk v) b);
  rep_data s v b cb bs : rep s v → v_cache v !! b = Some cb → c_data cb = Some bs → is_block bs;
  get_spec s v b :
    rep s v → 0 <= b < 2 ^ 32 → fits ({[b]} ∪ dom (v_cache v)) →
    (∀ cb, v_cache v !! b = Some cb → c_held cb = false ∧ c_refs cb < 2 ^ 32 - 1) →
    ∃ p s', get dev b s = Ok (p, s') ∧ p = c_ptr (got p (v_cache v !! b)) ∧
      rep s' (put_cached b (got p (v_cache v !! b)) v);
  release_spec s v b cb :
    rep s v → v_cache v !! b = Some cb → c_held cb = true →
    ∃ s', release (c_ptr cb) s = Ok (tt, s') ∧ rep s' (released b cb v);
  pin_spec s v b cb :
    rep s v → v_cache v !! b = Some cb → c_refs cb < 2 ^ 32 - 1 →
    ∃ s', pin (c_ptr cb) s = Ok (tt, s') ∧ rep s' (put_cached b (with_refs cb (c_refs cb + 1)) v);
  unpin_spec s v b cb :
    rep s v → v_cache v !! b = Some cb → 1 < c_refs cb →
    ∃ s', unpin (c_ptr cb) s = Ok (tt, s') ∧ rep s' (put_cached b (with_refs cb (c_refs cb - 1)) v);
  read_spec s v b cb :
    rep s v → v_cache v !! b = Some cb →
    ∃ s', read (c_ptr cb) s = Ok (tt, s') ∧
      rep s' (put_cached b (with_data cb (default (dblock (v_disk v) b) (c_data cb))) v);
  write_spec s v b cb bs :
    rep s v → v_cache v !! b = Some cb → c_held cb = true → c_data cb = Some bs →
    ∃ s', write (c_ptr cb) s = Ok (tt, s') ∧ rep s' (disk_write b bs v);
  data_of_spec s v b cb bs :
    rep s v → v_cache v !! b = Some cb → c_data cb = Some bs →
    data_of (c_ptr cb) s = Ok (bs, s);
  set_data_spec s v b cb bs bs' :
    rep s v → v_cache v !! b = Some cb → c_data cb = Some bs → is_block bs' →
    ∃ s', set_data (c_ptr cb) bs' s = Ok (tt, s') ∧ rep s' (put_cached b (with_data cb bs') v);
  block_of_spec s v b cb :
    rep s v → v_cache v !! b = Some cb → block_of (c_ptr cb) s = Ok (b, s);
}.

(** ** The implementation *)

(** [struct Buffer]. *)
Record Buffer := mkBuffer {
  valid : bool;
  disk : bool;
  device : Z;
  block : Z;
  refCount : Z;
  mutex : SleepMutex.SleepMutex;
  data : bytes;
}.

(** [class BufferCache] with the heap its buffers live in, the disk behind the
    driver and the process that runs. *)
Record BufferCache := mkBufferCache {
  heap : gmap positive Buffer;
  bufferTable : HashMap.HashMap Z (option positive);
  storage : gmap Z bytes;
  writes : list (Z * bytes);
  current : Z;
}.

Section implementation.

(** [std::hash<uint64_t>] of the toolchain's library is the identity. *)
Definition makeHash (k : Z) : Z := u64 k.

(** [(static_cast<uint64_t>(device) << 32) | block]. *)
Definition cache_key (dev b : Z) : Z := Z.lor (u64 (Z.shiftl dev 32)) b.

(** [new Buffer()]: every member zero, before [device] and [block] are set. *)
Definition new_buffer (dev b : Z) : Buffer :=
  mkBuffer false false dev b 0 SleepMutex.unlocked zero_block.

Definition deref (p : positive) : M BufferCache Buffer := λ s,
  match heap s !! p with
  | Some buf => Ok (buf, s)
  | None => Err NullDeref
  end.

Definition store (p : positive) (buf : Buffer) : M BufferCache unit :=
  modify (λ s, mkBufferCache (<[p := buf]> (heap s)) (bufferTable s) (storage s) (writes s) (current s)).

Definition set_table (t : HashMap.HashMap Z (option positive)) : M BufferCache unit :=
  modify (λ s, mkBufferCache (heap s) t (storage s) (writes s) (current s)).

Definition set_refCount (buf : Buffer) (n : Z) : Buffer :=
  mkBuffer (valid buf) (disk buf) (device buf) (block buf) n (mutex buf) (data buf).

Definition set_mutex (buf : Buffer) (m : SleepMutex.SleepMutex) : Buffer :=
  mkBuffer (valid buf) (disk buf) (device buf) (block buf) (refCount buf) m (data buf).

Definition set_bytes (buf : Buffer) (v : bool) (bs : bytes) : Buffer :=
  mkBuffer v (disk buf) (device buf) (block buf) (refCount buf) (mutex buf) bs.

(** [initializeBufferCache]: an empty table of the default capacity. *)
Definition initializeBufferCache (d : gmap Z bytes) (pid : Z) : BufferCache :=
  mkBufferCache ∅ (HashMap.make 8) d [] pid.

(** [buffer->mutex.lock()]. *)
Definition lock_buffer (p : positive) : M BufferCache unit :=
  buf ← deref p;
  cur ← gets current;
  match SleepMutex.lock cur (mutex buf) with
  | Ok m => store p (set_mutex buf m)
  | Err f => fail f
  end.

(** [BufferCache::get]. *)
Definition cache_get (dev b : Z) : M BufferCache positive :=
  let key := cache_key dev b in
  t ← gets bufferTable;
  p ← (if HashMap.contains makeHash t key then
         set_table (snd (HashMap.operator_index makeHash None t key)) ;;
         match fst (HashMap.operator_index makeHash None t key) with
         | Some p => mret p
         | None => fail NullDeref
         end
       else
         p ← gets (λ s, fresh (dom (heap s)));
         store p (new_buffer dev b) ;;
         set_table (HashMap.assign makeHash None t key (Some p)) ;;
         mret p);
  buf ← deref p;
  store p (set_refCount buf (u32 (refCount buf + 1))) ;;
  lock_buffer p ;;
  mret p.

(** [BufferCache::release]; [delete] frees nothing ([kernel/lib/new.cpp]). *)
Definition cache_release (p : positive) : M BufferCache unit :=
  buf ← deref p;
  cur ← gets current;
  assert (SleepMutex.holding cur (mutex buf)) ;;
  let n := u32 (refCount buf - 1) in
  store p (set_refCount (set_mutex buf (SleepMutex.unlock (mutex buf))) n) ;;
  if n =? 0 then
    t ← gets bufferTable;
    set_table (HashMap.erase makeHash t (cache_key (device buf) (block buf)))
  else mret tt.

(** [BufferCache::pin]. *)
Definition cache_pin (p : positive) : M BufferCache unit :=
  buf ← deref p;
  store p (set_refCount buf (u32 (refCount buf + 1))).

(** [BufferCache::unpin]. *)
Definition cache_unpin (p : positive) : M BufferCache unit :=
  buf ← deref p;
  assert (1 <=? refCount buf) ;;
  store p (set_refCount buf (u32 (refCount buf - 1))).

(** [diskRead]: the driver addresses the disk by block number only. *)
Definition diskRead (p : positive) : M BufferCache unit :=
  buf ← deref p;
  d ← gets storage;
  store p (set_bytes buf (valid buf) (dblock d (block buf))).

(** [diskWrite]. *)
Definition diskWrite (p : positive) : M BufferCache unit :=
  buf ← deref p;
  modify (λ s, mkBufferCache (heap s) (bufferTable s) (<[block buf := data buf]> (storage s))
                 (writes s ++ [(block buf, data buf)]) (current s)).

(** [Buffer::read]. *)
Definition buffer_read (p : positive) : M BufferCache unit :=
  buf ← deref p;
  if valid buf then mret tt
  else
    diskRead p ;;
    buf ← deref p;
    store p (set_bytes buf true (data buf)).

(** [Buffer::write]. *)
Definition buffer_write (p : positive) : M BufferCache unit :=
  buf ← deref p;
  cur ← gets current;
  assert (SleepMutex.holding cur (mutex buf)) ;;
  diskWrite p.

Definition buffer_data (p : positive) : M BufferCache bytes :=
  buf ← deref p; mret (data buf).

Definition buffer_set_data (p : positive) (bs : bytes) : M BufferCache unit :=
  buf ← deref p; store p (set_bytes buf (valid buf) bs).

Definition buffer_block (p : positive) : M BufferCache Z :=
  buf ← deref p; mret (block buf).
End implementation.

#[export] Instance cache_ops : BufferOps BufferCache positive := {|
  get := cache_get;
  release := cache_release;
  pin := cache_pin;
  unpin := cache_unpin;
  read := buffer_read;
  write := buffer_write;
  data_of := buffer_data;
  set_data := buffer_set_data;
  block_of := buffer_block;
|}.

(** ** The implementation presents a view *)

(** The buffer [buf] of process [cur] is the cached block [b] of the view. *)
Record buf_rep (dev cur b : Z) (cb : cached positive) (buf : Buffer) : Prop := {
  br_device : device buf = dev;
  br_block : block buf = b;
  br_refs : refCount buf = c_refs cb ∧ 1 <= c_refs cb < 2 ^ 32;
  br_mutex : mutex buf =
    if c_held cb then SleepMutex.mkSleepMutex true cur else SleepMutex.unlocked;
  br_data : match c_data cb with
    | Some bs => valid buf = true ∧ data buf = bs ∧ is_block bs
    | None => valid buf = false
    end;
}.

Record cache_rep (dev : Z) (s : BufferCache) (v : view positive) : Prop := {
  cr_dev : 0 <= dev < 2 ^ 32;
  cr_table : HashMap.inv makeHash (bufferTable s) ∧
    HashMap.capacityMask (bufferTable s) = 255;
  cr_keys : ∃ m : gmap Z (option positive),
    HashMap.refines makeHash (bufferTable s) m ∧
    ∀ k o, m !! k = Some o ↔
      ∃ b cb, k = cache_key dev b ∧ v_cache v !! b = Some cb ∧ o = Some (c_ptr cb);
  cr_bufs : ∀ b cb, v_cache v !! b = Some cb → 0 <= b < 2 ^ 32 ∧
    ∃ buf, heap s !! c_ptr cb = Some buf ∧ buf_rep dev (current s) b cb buf;
  cr_disk : storage s = v_disk v ∧ writes s = v_writes v;
  cr_blocks : ∀ b, is_block (dblock (storage s) b);
}.

(** At most two of the blocks share a bucket of the table. *)
Definition cache_fits (dev : Z) (X : gset Z) : Prop :=
  HashMap.at_most_two makeHash 255 (set_map (cache_key dev) X : gset Z).

(** ** Lemmas *)

Lemma is_block_zero : is_block zero_block.
Proof.
  split; [done|]. apply Forall_forall. intros x Hx.
  apply elem_of_replicate in Hx as [-> _]. lia.
Qed.

Lemma dblock_insert d b bs b' :
  dblock (<[b := bs]> d) b' = if decide (b' = b) then bs else dblock d b'.
Proof.
  unfold dblock. case_decide as Hd; [by rewrite Hd, lookup_insert_eq|].
  by rewrite lookup_insert_ne.
Qed.

Lemma replay_app d ws1 ws2 : replay d (ws1 ++ ws2) = replay (replay d ws1) ws2.
Proof. apply fold_left_app. Qed.

Lemma is_block_put_bytes l a bs : is_block l → is_block (put_bytes l a bs).
Proof.
  intros [Hl Hb]. split; [by rewrite length_put_bytes|]. clear Hl.
  revert l a Hb; induction bs as [|x bs IH]; intros l a Hb; [done|]. cbn [put_bytes].
  apply IH. unfold st8; simpl. destruct (0 <=? a); [|done].
  apply Forall_insert; [done|]. apply Z.mod_pos_bound. lia.
Qed.

Lemma is_block_stN n l a x : is_block l → is_block (stN n l a x).
Proof.
  intros [Hl Hb]. split; [by rewrite length_stN|]. clear Hl.
  revert l a x Hb; induction n as [|n IH]; intros l a x Hb; [done|]. cbn [stN].
  apply IH. unfold st8; simpl. destruct (0 <=? a); [|done].
  apply Forall_insert; [done|]. apply Z.mod_pos_bound. lia.
Qed.

(** The bytes of a block are what [ld8] reads. *)
Lemma ld8_block l i x : is_block l → l !! i = Some x → ld8 l (Z.of_nat i) = x.
Proof.
  intros [_ Hb] Hi. rewrite Forall_lookup in Hb. unfold ld8; simpl.
  rewrite (proj2 (Z.leb_le _ _)), Nat2Z.id, Hi by lia. simpl.
  apply Z.mod_small, (Hb _ _ Hi).
Qed.

Lemma block_ext l l' : is_block l → is_block l' →
  (∀ i, 0 <= i < BLOCK_SIZE → ld8 l i = ld8 l' i) → l = l'.
Proof.
  intros Hl Hl' E. destruct (Hl) as [Hn _], (Hl') as [Hn' _]. unfold BLOCK_SIZE in *.
  apply list_eq_same_length with 1024%nat; [lia|lia|]. intros i x y Hi Hx Hy.
  rewrite <- (ld8_block l i x), <- (ld8_block l' i y) by done. apply E. lia.
Qed.

Lemma get_bytes_block src : is_block src → get_bytes 1024 src 0 = src.
Proof.
  intros Hs. destruct (Hs) as [Hl _]. unfold BLOCK_SIZE in Hl.
  apply list_eq_same_length with 1024%nat; [lia|apply length_get_bytes|].
  intros i x y Hi Hx Hy. rewrite lookup_get_bytes, Z.add_0_l in Hx by done.
  injection Hx as <-. by apply ld8_block.
Qed.

Lemma put_bytes_block dst src : is_block dst → is_block src → put_bytes dst 0 src = src.
Proof.
  intros Hd Hs. apply block_ext; [by apply is_block_put_bytes|done|]. intros i Hi.
  destruct (Hd) as [Hdl _], (Hs) as [Hsl _].
  rewrite <- (Z.add_0_l i) at 1. rewrite ld8_put_bytes_eq.
  - unfold ld8; simpl. by rewrite (proj2 (Z.leb_le _ _)) by lia.
  - lia.
  - unfold valid_addr; simpl. lia.
Qed.

Lemma copy_block_eq dst src : is_block dst → is_block src → copy_block dst src = src.
Proof. intros. unfold copy_block. rewrite get_bytes_block by done. by apply put_bytes_block. Qed.

Section laws.
Context (dev : Z).
Implicit Types (s : BufferCache) (v : view positive) (cb : cached positive).

Lemma cache_key_eq b : 0 <= dev < 2 ^ 32 → 0 <= b < 2 ^ 32 → cache_key dev b = dev * 2 ^ 32 + b.
Proof.
  intros. unfold cache_key. rewrite Z.shiftl_mul_pow2, wrap_small by lia.
  by apply lor_high_low.
Qed.

Lemma cache_key_inj b b' : 0 <= dev < 2 ^ 32 → 0 <= b < 2 ^ 32 → 0 <= b' < 2 ^ 32 →
  cache_key dev b = cache_key dev b' → b = b'.
Proof. intros. rewrite !cache_key_eq in * by done. lia. Qed.

(** The pointers of two cached blocks differ. *)
Lemma c_ptr_inj s v b b' cb cb' : cache_rep dev s v →
  v_cache v !! b = Some cb → v_cache v !! b' = Some cb' → c_ptr cb = c_ptr cb' → b = b'.
Proof.
  intros R Hb Hb' E. destruct (cr_bufs _ _ _ R _ _ Hb) as (_ & buf & Hh & Hr).
  destruct (cr_bufs _ _ _ R _ _ Hb') as (_ & buf' & Hh' & Hr').
  rewrite <- (br_block _ _ _ _ _ Hr), <- (br_block _ _ _ _ _ Hr'). congruence.
Qed.

Lemma table_lookup s v b : cache_rep dev s v → 0 <= b < 2 ^ 32 →
  HashMap.lookup makeHash (bufferTable s) (cache_key dev b) =
  (λ cb, Some (c_ptr cb)) <$> v_cache v !! b.
Proof.
  intros R Hb. destruct (cr_keys _ _ _ R) as (m & Hm & Hk). rewrite Hm.
  destruct (m !! cache_key dev b) as [o|] eqn:E.
  - apply Hk in E as (b' & cb & Ek & Hc & ->).
    apply cache_key_inj in Ek; [|apply (cr_dev _ _ _ R)|done|apply (cr_bufs _ _ _ R _ _ Hc)].
    by rewrite Ek, Hc.
  - destruct (v_cache v !! b) as [cb|] eqn:Hc; [|done]. simpl.
    assert (m !! cache_key dev b = Some (Some (c_ptr cb))); [|congruence].
    apply Hk. eauto.
Qed.

(** Rewriting the buffer of a cached block. *)
Lemma cache_rep_store s v b cb cb' buf' : cache_rep dev s v →
  v_cache v !! b = Some cb → c_ptr cb' = c_ptr cb → buf_rep dev (current s) b cb' buf' →
  ∃ s', store (c_ptr cb) buf' s = Ok (tt, s') ∧ cache_rep dev s' (put_cached b cb' v) ∧
    current s' = current s.
Proof.
  intros R Hb Hp Hr. eexists. split; [reflexivity|]. split; [|done].
  destruct R as [Hdev Ht (m & Hm & Hk) Hbufs Hd Hbl]. split; simpl; auto.
  - exists m. split; [done|]. intros k o. rewrite Hk. split.
    + intros (b1 & cb1 & -> & H1 & ->). destruct (decide (b1 = b)) as [->|].
      * exists b, cb'. rewrite lookup_insert_eq. split_and!; congruence.
      * exists b1, cb1. by rewrite lookup_insert_ne.
    + intros (b1 & cb1 & -> & H1 & ->). destruct (decide (b1 = b)) as [->|].
      * rewrite lookup_insert_eq in H1. exists b, cb. split_and!; congruence.
      * rewrite lookup_insert_ne in H1 by done. by exists b1, cb1.
  - intros b1 cb1. destruct (decide (b1 = b)) as [->|Hne].
    + rewrite lookup_insert_eq. intros [= <-]. split; [by apply (Hbufs _ _ Hb)|].
      exists buf'. by rewrite Hp, lookup_insert_eq.
    + rewrite lookup_insert_ne by done. intros H1.
      destruct (Hbufs _ _ H1) as (? & buf1 & Hh1 & Hr1). split; [done|].
      exists buf1. split; [|done]. rewrite lookup_insert_ne; [done|]. intros E.
      destruct (Hbufs _ _ Hb) as (? & buf & Hh & Hrb).
      rewrite E, Hh1 in Hh. injection Hh as ->.
      apply Hne. rewrite <- (br_block _ _ _ _ _ Hr1), <- (br_block _ _ _ _ _ Hrb). done.
Qed.

Lemma deref_ok s v b cb : cache_rep dev s v → v_cache v !! b = Some cb →
  ∃ buf, deref (c_ptr cb) s = Ok (buf, s) ∧ buf_rep dev (current s) b cb buf.
Proof.
  intros R Hb. destruct (cr_bufs _ _ _ R _ _ Hb) as (_ & buf & Hh & Hr).
  exists buf. unfold deref. by rewrite Hh.
Qed.

Lemma makeHash_nonneg k : 0 <= makeHash k.
Proof. apply wrap_range. lia. Qed.

Lemma cache_get_present s v b cb : cache_rep dev s v → 0 <= b < 2 ^ 32 →
  v_cache v !! b = Some cb → c_held cb = false → c_refs cb < 2 ^ 32 - 1 →
  ∃ s', cache_get dev b s = Ok (c_ptr cb, s') ∧
    cache_rep dev s' (put_cached b (got (c_ptr cb) (Some cb)) v).
Proof.
  intros R Hb Hc Hheld Hrefs. pose proof (table_lookup s v b R Hb) as Ht.
  rewrite Hc in Ht. simpl in Ht.
  destruct (deref_ok s v b cb R Hc) as (buf & Hd & Hr). destruct (Hr) as [Ed Eb [Er ?] Em Edt].
  destruct (cache_rep_store s v b cb (got (c_ptr cb) (Some cb))
    (set_mutex (set_refCount buf (u32 (refCount buf + 1)))
       (SleepMutex.mkSleepMutex true (current s)))) as (s' & Es & R' & _); [done|done|done| |].
  { split; simpl; try done. rewrite Er, wrap_small by lia. lia. }
  exists s'. split; [|done]. unfold cache_get.
  rewrite (bind_ok (gets bufferTable) _ s _ _ eq_refl).
  rewrite HashMap.contains_lookup, Ht, bool_decide_eq_true_2 by eauto.
  rewrite (HashMap.operator_index_present makeHash None _ _ _ Ht).
  rewrite (bind_ok _ _ s (c_ptr cb) s) by (by destruct s).
  rewrite (bind_ok _ _ _ _ _ Hd). unfold lock_buffer, deref, store, modify, gets, mbind, M_bind in *.
  simpl in *. rewrite lookup_insert_eq. simpl. rewrite Em, Hheld. simpl.
  injection Es as <-. by rewrite insert_insert_eq.
Qed.

Lemma cache_get_absent s v b : cache_rep dev s v → 0 <= b < 2 ^ 32 →
  v_cache v !! b = None → cache_fits dev ({[b]} ∪ dom (v_cache v)) →
  ∃ p s', cache_get dev b s = Ok (p, s') ∧ cache_rep dev s' (put_cached b (got p None) v).
Proof.
  intros R Hb Hc Hfit. pose proof (table_lookup s v b R Hb) as Ht.
  rewrite Hc in Ht. simpl in Ht. set (p := fresh (dom (heap s))).
  assert (heap s !! p = None) as Hp by apply not_elem_of_dom, is_fresh.
  eexists p, _. split.
  { unfold cache_get. rewrite (bind_ok (gets bufferTable) _ s _ _ eq_refl).
    rewrite HashMap.contains_lookup, Ht, bool_decide_eq_false_2 by (by intros [? ?]).
    unfold lock_buffer, set_table, deref, store, modify, gets, mbind, M_bind; simpl.
    fold p. rewrite lookup_insert_eq. simpl. rewrite lookup_insert_eq. simpl.
    rewrite !insert_insert_eq. reflexivity. }
  destruct R as [Hdev [Hinv Hmask] (m & Hm & Hk) Hbufs Hd Hbl]. split; simpl; auto.
  - pose proof (HashMap.inv_step makeHash None _ (HashMap.OpAssign (cache_key dev b) (Some p)) Hinv).
    split; [done|]. rewrite <- Hmask.
    apply (HashMap.capacityMask_step makeHash None _ (HashMap.OpAssign (cache_key dev b) (Some p))).
  - exists (<[cache_key dev b := Some p]> m). split.
    + apply (HashMap.refines_step makeHash None makeHash_nonneg _ _
               (HashMap.OpAssign (cache_key dev b) (Some p))
               (set_map (cache_key dev) ({[b]} ∪ dom (v_cache v)))); auto.
      * intros k [o Ho]%elem_of_dom. apply Hk in Ho as (b' & cb' & -> & Hb' & _).
        apply elem_of_map. exists b'. split; [done|]. apply elem_of_union_r, elem_of_dom. eauto.
      * apply elem_of_map. exists b. split; [done|]. set_solver.
      * by rewrite Hmask.
    + intros k o. destruct (decide (k = cache_key dev b)) as [->|Hne].
      * rewrite lookup_insert_eq. split.
        -- intros [= <-]. exists b, (got p None). by rewrite lookup_insert_eq.
        -- intros (b' & cb' & E & Hb' & ->). destruct (decide (b' = b)) as [->|Hne'].
           ++ rewrite lookup_insert_eq in Hb'. by injection Hb' as <-.
           ++ rewrite lookup_insert_ne in Hb' by done. exfalso. apply Hne'.
              symmetry. apply cache_key_inj; auto. by apply (Hbufs _ _ Hb').
      * rewrite lookup_insert_ne, Hk by done. f_equiv. intros b'. f_equiv. intros cb'.
        destruct (decide (b' = b)) as [->|]; [|by rewrite lookup_insert_ne].
        split; intros (-> & _); done.
  - intros b' cb'. destruct (decide (b' = b)) as [->|Hne].
    + rewrite lookup_insert_eq. intros [= <-]. split; [done|].
      eexists. split; [apply lookup_insert_eq|]. split; simpl; auto. split; [done|lia].
    + rewrite lookup_insert_ne by done. intros Hb'. destruct (Hbufs _ _ Hb') as (? & buf & Hh & Hr).
      split; [done|]. exists buf. split; [|done]. rewrite lookup_insert_ne; [done|]. congruence.
Qed.

Lemma cache_get_spec s v b :
  cache_rep dev s v → 0 <= b < 2 ^ 32 → cache_fits dev ({[b]} ∪ dom (v_cache v)) →
  (∀ cb, v_cache v !! b = Some cb → c_held cb = false ∧ c_refs cb < 2 ^ 32 - 1) →
  ∃ p s', cache_get dev b s = Ok (p, s') ∧ p = c_ptr (got p (v_cache v !! b)) ∧
    cache_rep dev s' (put_cached b (got p (v_cache v !! b)) v).
Proof.
  intros R Hb Hfit Hfree. destruct (v_cache v !! b) as [cb|] eqn:E.
  - destruct (Hfree _ eq_refl) as [Hh Hn].
    destruct (cache_get_present s v b cb R Hb E Hh Hn) as (s' & Eg & R').
    by exists (c_ptr cb), s'.
  - destruct (cache_get_absent s v b R Hb E Hfit) as (p & s' & Eg & R'). by exists p, s'.
Qed.

(** Erasing the table entry of a cached block. *)
Lemma cache_rep_erase s v b cb : cache_rep dev s v → v_cache v !! b = Some cb →
  cache_rep dev
    (mkBufferCache (heap s) (HashMap.erase makeHash (bufferTable s) (cache_key dev b))
       (storage s) (writes s) (current s)) (drop_cached b v).
Proof.
  intros [Hdev [Hinv Hmask] (m & Hm & Hk) Hbufs Hd Hbl] Hb. split; simpl; auto.
  - split; [by apply HashMap.inv_erase|done].
  - exists (delete (cache_key dev b) m). split.
    + intros k. rewrite HashMap.lookup_erase, Hm by done.
      case_decide as E; [by rewrite E, lookup_delete_eq|by rewrite lookup_delete_ne].
    + intros k o. rewrite lookup_delete_Some, Hk. split.
      * intros (Hne & b' & cb' & -> & Hb' & ->). exists b', cb'.
        rewrite lookup_delete_ne by congruence. done.
      * intros (b' & cb' & -> & [Hne Hb']%lookup_delete_Some & ->). split; [|by exists b', cb'].
        intros E. apply Hne, cache_key_inj; auto; [by apply (Hbufs _ _ Hb)|by apply (Hbufs _ _ Hb')].
  - intros b' cb' [Hne Hb']%lookup_delete_Some. by apply Hbufs.
Qed.

Lemma put_then_drop b cb v : drop_cached b (put_cached b cb v) = drop_cached b v.
Proof. unfold drop_cached, put_cached, with_cache. simpl. by rewrite delete_insert_eq. Qed.

Lemma cache_release_spec s v b cb :
  cache_rep dev s v → v_cache v !! b = Some cb → c_held cb = true →
  ∃ s', cache_release (c_ptr cb) s = Ok (tt, s') ∧ cache_rep dev s' (released b cb v).
Proof.
  intros R Hb Hheld. destruct (deref_ok s v b cb R Hb) as (buf & Hd & Hr).
  destruct (Hr) as [Ed Eb [Er Hn] Em Edt]. rewrite Hheld in Em.
  unfold cache_release. rewrite (bind_ok _ _ _ _ _ Hd).
  rewrite (bind_ok (gets current) _ s _ _ eq_refl).
  rewrite Em, SleepMutex.holding_locked, Er, wrap_small, Ed, Eb by lia.
  rewrite (bind_ok (assert true) _ s _ _ eq_refl). unfold released. case_decide as H1.
  - rewrite H1. simpl. eexists. split; [reflexivity|].
    assert (cache_rep dev (mkBufferCache (heap s) (HashMap.erase makeHash (bufferTable s) (cache_key dev b))
      (storage s) (writes s) (current s)) (drop_cached b v)) as [? ? ? Hbufs ? ?]
      by by apply (cache_rep_erase _ _ _ cb).
    split; simpl; auto. intros b' cb' [Hne Hb']%lookup_delete_Some.
    destruct (Hbufs b' cb') as (? & buf' & Hh' & Hr'); [by apply lookup_delete_Some|].
    split; [done|]. exists buf'. split; [|done]. rewrite lookup_insert_ne; [done|].
    intros E. by apply Hne, (c_ptr_inj s v b b' cb cb').
  - destruct (cache_rep_store s v b cb (mkCached (c_ptr cb) (c_refs cb - 1) false (c_data cb))
      (set_refCount (set_mutex buf (SleepMutex.unlock (SleepMutex.mkSleepMutex true (current s)))) (c_refs cb - 1)))
      as (s' & Es & R' & _); [done|done|done| |].
    { split; simpl; auto. split; [done|]. lia. }
    exists s'. rewrite (bind_ok _ _ _ _ _ Es), (proj2 (Z.eqb_neq _ _)) by lia. done.
Qed.

Lemma cache_pin_spec s v b cb :
  cache_rep dev s v → v_cache v !! b = Some cb → c_refs cb < 2 ^ 32 - 1 →
  ∃ s', cache_pin (c_ptr cb) s = Ok (tt, s') ∧
    cache_rep dev s' (put_cached b (with_refs cb (c_refs cb + 1)) v).
Proof.
  intros R Hb Hn. destruct (deref_ok s v b cb R Hb) as (buf & Hd & Hr).
  destruct (Hr) as [Ed Eb [Er Hn'] Em Edt].
  destruct (cache_rep_store s v b cb (with_refs cb (c_refs cb + 1))
    (set_refCount buf (u32 (refCount buf + 1)))) as (s' & Es & R' & _); [done|done|done| |].
  { split; simpl; auto. rewrite Er, wrap_small by lia. lia. }
  exists s'. unfold cache_pin. by rewrite (bind_ok _ _ _ _ _ Hd).
Qed.

Lemma cache_unpin_spec s v b cb :
  cache_rep dev s v → v_cache v !! b = Some cb → 1 < c_refs cb →
  ∃ s', cache_unpin (c_ptr cb) s = Ok (tt, s') ∧
    cache_rep dev s' (put_cached b (with_refs cb (c_refs cb - 1)) v).
Proof.
  intros R Hb Hn. destruct (deref_ok s v b cb R Hb) as (buf & Hd & Hr).
  destruct (Hr) as [Ed Eb [Er Hn'] Em Edt].
  destruct (cache_rep_store s v b cb (with_refs cb (c_refs cb - 1))
    (set_refCount buf (u32 (refCount buf - 1)))) as (s' & Es & R' & _); [done|done|done| |].
  { split; simpl; auto. rewrite Er, wrap_small by lia. lia. }
  exists s'. unfold cache_unpin. rewrite (bind_ok _ _ _ _ _ Hd), (proj2 (Z.leb_le _ _)) by lia.
  by rewrite (bind_ok (assert true) _ s _ _ eq_refl).
Qed.

Lemma buffer_read_spec s v b cb :
  cache_rep dev s v → v_cache v !! b = Some cb →
  ∃ s', buffer_read (c_ptr cb) s = Ok (tt, s') ∧
    cache_rep dev s' (put_cached b (with_data cb (default (dblock (v_disk v) b) (c_data cb))) v).
Proof.
  intros R Hb. destruct (deref_ok s v b cb R Hb) as (buf & Hd & Hr).
  destruct (Hr) as [Ed Eb [Er Hn'] Em Edt]. unfold buffer_read.
  rewrite (bind_ok _ _ _ _ _ Hd). destruct (c_data cb) as [bs|] eqn:Ec.
  - destruct Edt as (-> & _ & _). exists s. split; [done|]. simpl.
    assert (put_cached b (with_data cb bs) v = v) as ->; [|done].
    destruct v as [d w c], cb; simpl in *. unfold put_cached, with_data, with_cache; simpl.
    rewrite <- Ec, insert_id by done. done.
  - rewrite Edt. simpl.
    destruct (cache_rep_store s v b cb (with_data cb (dblock (v_disk v) b))
      (set_bytes buf true (dblock (v_disk v) b))) as (s' & Es & R' & _); [done|done|done| |].
    { split; simpl; auto. split_and!; [done..|]. destruct (cr_disk _ _ _ R) as [<- _].
      apply (cr_blocks _ _ _ R). }
    exists s'. split; [|done]. unfold diskRead, deref, store, modify, gets, mbind, M_bind in *.
    destruct (heap s !! c_ptr cb) as [buf'|]; [injection Hd as ->|done]. simpl.
    rewrite lookup_insert_eq. simpl. rewrite insert_insert_eq. injection Es as <-.
    destruct (cr_disk _ _ _ R) as [-> _]. by rewrite Eb.
Qed.

Lemma buffer_write_spec s v b cb bs :
  cache_rep dev s v → v_cache v !! b = Some cb → c_held cb = true → c_data cb = Some bs →
  ∃ s', buffer_write (c_ptr cb) s = Ok (tt, s') ∧ cache_rep dev s' (disk_write b bs v).
Proof.
  intros R Hb Hheld Hbs. destruct (deref_ok s v b cb R Hb) as (buf & Hd & Hr).
  destruct (Hr) as [Ed Eb [Er Hn'] Em Edt]. rewrite Hbs in Edt. destruct Edt as (Ev & Ebs & Hblk).
  unfold buffer_write, diskWrite. rewrite (bind_ok _ _ _ _ _ Hd).
  rewrite (bind_ok (gets current) _ s _ _ eq_refl), Em, Hheld, SleepMutex.holding_locked.
  rewrite (bind_ok (assert true) _ s _ _ eq_refl), (bind_ok _ _ _ _ _ Hd), Eb, Ebs.
  eexists. split; [reflexivity|]. destruct R as [Hdev Ht Hk Hbufs [Hst Hw] Hbl].
  split; simpl; auto.
  - by rewrite Hst, Hw.
  - intros b'. rewrite dblock_insert. by case_decide.
Qed.

Lemma buffer_data_spec s v b cb bs :
  cache_rep dev s v → v_cache v !! b = Some cb → c_data cb = Some bs →
  buffer_data (c_ptr cb) s = Ok (bs, s).
Proof.
  intros R Hb Hbs. destruct (deref_ok s v b cb R Hb) as (buf & Hd & Hr).
  pose proof (br_data _ _ _ _ _ Hr) as Edt. rewrite Hbs in Edt. destruct Edt as (_ & <- & _).
  unfold buffer_data. by rewrite (bind_ok _ _ _ _ _ Hd).
Qed.

Lemma buffer_set_data_spec s v b cb bs bs' :
  cache_rep dev s v → v_cache v !! b = Some cb → c_data cb = Some bs → is_block bs' →
  ∃ s', buffer_set_data (c_ptr cb) bs' s = Ok (tt, s') ∧
    cache_rep dev s' (put_cached b (with_data cb bs') v).
Proof.
  intros R Hb Hbs Hbs'. destruct (deref_ok s v b cb R Hb) as (buf & Hd & Hr).
  destruct (Hr) as [Ed Eb [Er Hn'] Em Edt]. rewrite Hbs in Edt.
  destruct (cache_rep_store s v b cb (with_data cb bs') (set_bytes buf (valid buf) bs'))
    as (s' & Es & R' & _); [done|done|done| |].
  { split; simpl; auto. split_and!; [apply Edt|done|done]. }
  exists s'. unfold buffer_set_data. by rewrite (bind_ok _ _ _ _ _ Hd).
Qed.

Lemma buffer_block_spec s v b cb :
  cache_rep dev s v → v_cache v !! b = Some cb → buffer_block (c_ptr cb) s = Ok (b, s).
Proof.
  intros R Hb. destruct (deref_ok s v b cb R Hb) as (buf & Hd & Hr).
  unfold buffer_block. rewrite (bind_ok _ _ _ _ _ Hd), (br_block _ _ _ _ _ Hr). done.
Qed.

Lemma cache_fits_mono X Y : X ⊆ Y → cache_fits dev Y → cache_fits dev X.
Proof.
  intros HXY H2 k1 k2 k3 H1' H2' H3'. apply H2; set_solver.
Qed.

Lemma cache_fits_pair a b : cache_fits dev {[a; b]}.
Proof.
  intros k1 k2 k3 H1 H2 H3 _ _.
  apply elem_of_map in H1 as (x1 & -> & ?), H2 as (x2 & -> & ?), H3 as (x3 & -> & ?).
  assert (x1 = x2 ∨ x1 = x3 ∨ x2 = x3) as [->|[->| ->]]; [set_solver|auto..].
Qed.

(** Blocks below 256 never share a bucket. *)
Lemma cache_fits_small X : 0 <= dev < 2 ^ 32 → (∀ b, b ∈ X → 0 <= b < 256) → cache_fits dev X.
Proof.
  intros Hdev HX k1 k2 k3 (b1 & -> & H1)%elem_of_map (b2 & -> & H2)%elem_of_map _ E _. left.
  apply HX in H1, H2. rewrite !cache_key_eq in * by lia.
  unfold makeHash in E. rewrite !wrap_small in E by lia.
  change 255 with (Z.ones 8) in E. rewrite !Z.land_ones in E by lia. dlia.
Qed.

Lemma cache_rep_data s v b cb bs :
  cache_rep dev s v → v_cache v !! b = Some cb → c_data cb = Some bs → is_block bs.
Proof.
  intros R Hb Hbs. destruct (cr_bufs _ _ _ R _ _ Hb) as (_ & buf & _ & Hr).
  pose proof (br_data _ _ _ _ _ Hr) as Edt. rewrite Hbs in Edt. apply Edt.
Qed.

Lemma cache_rep_block s v b : cache_rep dev s v → is_block (dblock (v_disk v) b).
Proof. intros R. destruct (cr_disk _ _ _ R) as [<- _]. apply (cr_blocks _ _ _ R). Qed.

(** The cache of the source keeps the promises of the interface. *)
#[export] Instance cache_laws : BufferLaws BufferCache positive dev := {|
  rep := cache_rep dev;
  fits := cache_fits dev;
  fits_mono := cache_fits_mono;
  fits_pair := cache_fits_pair;
  rep_block := cache_rep_block;
  rep_data := cache_rep_data;
  get_spec := cache_get_spec;
  release_spec := cache_release_spec;
  pin_spec := cache_pin_spec;
  unpin_spec := cache_unpin_spec;
  read_spec := buffer_read_spec;
  write_spec := buffer_write_spec;
  data_of_spec := buffer_data_spec;
  set_data_spec := buffer_set_data_spec;
  block_of_spec := buffer_block_spec;
|}.

Lemma cache_rep_init d pid : 0 <= dev < 2 ^ 32 → (∀ b, is_block (dblock d b)) →
  cache_rep dev (initializeBufferCache d pid) (mkView d [] ∅).
Proof.
  intros Hdev Hd. assert (0 <= 8 <= 31) as H8 by lia.
  pose proof (HashMap.inv_make makeHash (V := option positive) 8 H8) as Hinv.
  split; simpl; auto.
  - exists ∅. split.
    + intros k. by rewrite HashMap.lookup_make, lookup_empty.
    + intros k o. rewrite lookup_empty. split; [done|]. intros (b & cb & _ & E & _).
      by rewrite lookup_empty in E.
  - intros b cb E. by rewrite lookup_empty in E.
Qed.
End laws.

End Buffer.
