(* ===== verification/Virtio.v ===== *)
(** * The virtio disk driver

    [kernel/fs/virtio.h] and [virtio.cpp].  The driver's tables are records over
    lists of [NUM_DESCS] entries.  The device registers are memory outside the
    program: a read is answered by a parameter that sees every write so far.
    [diskrw] is given in two parts, before and after its wait for the device:
    the wait [while (buf->disk) process::sleep(buf, ...)] ends when
    [diskInterrupt] clears the flag. *)

From S2P Require Import Prelude.

Module Virtio.

(** ** Definitions *)

Definition NUM_DESCS : Z := 8.
Definition VRING_DESC_F_NEXT : Z := 1.
Definition VRING_DESC_F_WRITE : Z := 2.
Definition VIRTIO_BLK_T_IN : Z := 0.
Definition VIRTIO_BLK_T_OUT : Z := 1.

(** The addresses the driver hands to the device: a request header, the data
    of a buffer, a status byte. *)
Inductive address :=
  | Null
  | OpsAt (i : Z)
  | DataOf (buf : positive)
  | StatusAt (i : Z).

Record Descriptor := mkDescriptor { daddr : address; dlen : Z; dflags : Z; dnext : Z }.

Record BlockRequest := mkBlockRequest { rtype : Z; reserved : Z; sector : Z }.

Record Info := mkInfo { buffer : option positive; status : Z }.

(** The members of a [Buffer] the driver uses. *)
Record VBuffer := mkVBuffer { block : Z; on_disk : bool }.

(** [struct Disk] with the rings it points to, the buffers, the channels the
    driver has woken, the number of its writes to [VIRTIO_MMIO_QUEUE_NOTIFY] and
    the values it has written to [VIRTIO_MMIO_INTERRUPT_ACK]. *)
Inductive channel := ChanFree | ChanBuffer (buf : positive).

Record Disk := mkDisk {
  descriptor : list Descriptor;
  avail_index : Z;
  avail_ring : list Z;
  used_index : Z;
  used_ring : list Z;
  free : list bool;
  usedIndex : Z;
  info : list Info;
  ops : list BlockRequest;
  buffers : gmap positive VBuffer;
  woken : list channel;
  notified : Z;
  acks : list Z;
}.

Definition null_descriptor : Descriptor := mkDescriptor Null 0 0 0.

Section operations.

Definition set_descriptor (l : list Descriptor) (d : Disk) : Disk :=
  mkDisk l (avail_index d) (avail_ring d) (used_index d) (used_ring d) (free d) (usedIndex d)
    (info d) (ops d) (buffers d) (woken d) (notified d) (acks d).

Definition set_free (l : list bool) (d : Disk) : Disk :=
  mkDisk (descriptor d) (avail_index d) (avail_ring d) (used_index d) (used_ring d) l (usedIndex d)
    (info d) (ops d) (buffers d) (woken d) (notified d) (acks d).

Definition set_info (l : list Info) (d : Disk) : Disk :=
  mkDisk (descriptor d) (avail_index d) (avail_ring d) (used_index d) (used_ring d) (free d) (usedIndex d)
    l (ops d) (buffers d) (woken d) (notified d) (acks d).

Definition set_ops (l : list BlockRequest) (d : Disk) : Disk :=
  mkDisk (descriptor d) (avail_index d) (avail_ring d) (used_index d) (used_ring d) (free d) (usedIndex d)
    (info d) l (buffers d) (woken d) (notified d) (acks d).

Definition set_buffers (m : gmap positive VBuffer) (d : Disk) : Disk :=
  mkDisk (descriptor d) (avail_index d) (avail_ring d) (used_index d) (used_ring d) (free d) (usedIndex d)
    (info d) (ops d) m (woken d) (notified d) (acks d).

Definition set_usedIndex (i : Z) (d : Disk) : Disk :=
  mkDisk (descriptor d) (avail_index d) (avail_ring d) (used_index d) (used_ring d) (free d) i
    (info d) (ops d) (buffers d) (woken d) (notified d) (acks d).

Definition wakeup (c : channel) : M Disk unit := modify (λ d,
  mkDisk (descriptor d) (avail_index d) (avail_ring d) (used_index d) (used_ring d) (free d) (usedIndex d)
    (info d) (ops d) (buffers d) (woken d ++ [c]) (notified d) (acks d)).

(** Entry [i] of an array. *)
Definition at_index {A} (l : list A) (i : Z) : M Disk A := λ d,
  match (if 0 <=? i then l !! Z.to_nat i else None) with
  | Some x => Ok (x, d)
  | None => Err OutOfRange
  end.

(** [disk.descriptor[i] = x] and its like: the array access is checked by
    [at_index] first. *)
Definition put_descriptor (i : Z) (x : Descriptor) : M Disk unit :=
  l ← gets descriptor; at_index l i ;; modify (set_descriptor (<[Z.to_nat i := x]> l)).

Definition put_free (i : Z) (b : bool) : M Disk unit :=
  l ← gets free; at_index l i ;; modify (set_free (<[Z.to_nat i := b]> l)).

Definition put_info (i : Z) (x : Info) : M Disk unit :=
  l ← gets info; at_index l i ;; modify (set_info (<[Z.to_nat i := x]> l)).

Definition put_op (i : Z) (x : BlockRequest) : M Disk unit :=
  l ← gets ops; at_index l i ;; modify (set_ops (<[Z.to_nat i := x]> l)).

(** The loop of [allocateDescriptor]. *)
Fixpoint first_free (l : list bool) (i : Z) : Z :=
  match l with
  | [] => -1
  | true :: _ => i
  | false :: l' => first_free l' (i + 1)
  end.

Definition allocateDescriptor : M Disk Z :=
  l ← gets free;
  let i := first_free l 0 in
  if i <? 0 then mret i else put_free i false ;; mret i.

(** [freeDescriptor]; a negative [i] is a huge [uint64_t]. *)
Definition freeDescriptor (i : Z) : M Disk unit :=
  assert (u64 i <? NUM_DESCS) ;;
  l ← gets free;
  f ← at_index l i;
  assert (negb f) ;;
  put_descriptor i null_descriptor ;;
  put_free i true ;;
  wakeup ChanFree.

Fixpoint freeChain (fuel : nat) (i : Z) : M Disk unit :=
  match fuel with
  | O => fail NoFuel
  | S fuel' =>
      l ← gets descriptor;
      x ← at_index l i;
      freeDescriptor i ;;
      if negb (Z.land (dflags x) VRING_DESC_F_NEXT =? 0) then freeChain fuel' (dnext x)
      else mret tt
  end.

(** The allocation loop of [diskrw].  When the [i]-th allocation fails, the
    [i] descriptors taken before it are given back and [ok] becomes false; a
    failure of the very first leaves [ok] true, with the array not set. *)
Definition allocate3 : M Disk (option (Z * Z * Z)) :=
  i0 ← allocateDescriptor;
  if i0 <? 0 then mret (Some (i0, -1, -1))
  else
    i1 ← allocateDescriptor;
    if i1 <? 0 then freeDescriptor i0 ;; mret None
    else
      i2 ← allocateDescriptor;
      if i2 <? 0 then freeDescriptor i0 ;; freeDescriptor i1 ;; mret None
      else mret (Some (i0, i1, i2)).

(** [diskrw] up to its wait for the request to finish: the head of the chain. *)
Definition diskrw_start (buf : positive) (write : bool) : M Disk Z :=
  bufs ← gets buffers;
  match bufs !! buf with
  | None => fail NullDeref
  | Some b =>
      let sec := block b * 2 in
      idx ← allocate3;
      match idx with
      | None => fail WouldSleep
      | Some (i0, i1, i2) =>
          put_op i0 (mkBlockRequest (if write then VIRTIO_BLK_T_OUT else VIRTIO_BLK_T_IN) 0 sec) ;;
          put_descriptor i0 (mkDescriptor (OpsAt i0) 16 VRING_DESC_F_NEXT i1) ;;
          put_descriptor i1 (mkDescriptor (DataOf buf) 1024
            (Z.lor (if write then 0 else VRING_DESC_F_WRITE) VRING_DESC_F_NEXT) i2) ;;
          put_descriptor i2 (mkDescriptor (StatusAt i0) 1 VRING_DESC_F_WRITE 0) ;;
          put_info i0 (mkInfo (Some buf) 255) ;;
          modify (λ d, set_buffers (<[buf := mkVBuffer (block b) true]> (buffers d)) d) ;;
          modify (λ d, mkDisk (descriptor d) (u16 (avail_index d + 1))
            (<[Z.to_nat (avail_index d mod NUM_DESCS) := i0]> (avail_ring d))
            (used_index d) (used_ring d) (free d) (usedIndex d) (info d) (ops d) (buffers d)
            (woken d) (notified d + 1) (acks d)) ;;
          mret i0
      end
  end.

(** The rest of [diskrw], once [buf->disk] is false. *)
Definition diskrw_finish (buf : positive) (i0 : Z) : M Disk unit :=
  bufs ← gets buffers;
  match bufs !! buf with
  | None => fail NullDeref
  | Some b =>
      if on_disk b then fail WouldSleep
      else
        l ← gets info;
        x ← at_index l i0;
        put_info i0 (mkInfo None (status x)) ;;
        freeChain 9 i0
  end.

(** The loop of [diskInterrupt]; the 16-bit index counts at most [2^16] rounds. *)
Fixpoint interrupt_loop (fuel : nat) : M Disk unit :=
  d ← get_state;
  if usedIndex d =? used_index d then mret tt
  else
    match fuel with
    | O => fail NoFuel
    | S f =>
        id ← at_index (used_ring d) (usedIndex d mod NUM_DESCS);
        x ← at_index (info d) id;
        assert (status x =? 0) ;;
        match buffer x with
        | None => fail NullDeref
        | Some buf =>
            match buffers d !! buf with
            | None => fail NullDeref
            | Some b =>
                modify (set_buffers (<[buf := mkVBuffer (block b) false]> (buffers d))) ;;
                wakeup (ChanBuffer buf) ;;
                modify (λ d, set_usedIndex (u16 (usedIndex d + 1)) d) ;;
                interrupt_loop f
            end
        end
    end.

(** What the device has in [VIRTIO_MMIO_INTERRUPT_STATUS]. *)
Variable interrupt_status : Disk → Z.

Definition acknowledge (v : Z) (d : Disk) : Disk :=
  mkDisk (descriptor d) (avail_index d) (avail_ring d) (used_index d) (used_ring d) (free d) (usedIndex d)
    (info d) (ops d) (buffers d) (woken d) (notified d) (acks d ++ [v]).

Definition diskInterrupt : M Disk unit :=
  st ← gets (λ d, u32 (interrupt_status d));
  modify (acknowledge (Z.land st 3)) ;;
  interrupt_loop (Z.to_nat 65536).
End operations.

(** ** Initialisation *)

(** The writes to the device registers, oldest first, as (offset, value). *)
Definition mmio := list (Z * Z).

Definition VIRTIO_MMIO_MAGIC_VALUE : Z := 0x000.
Definition VIRTIO_MMIO_VERSION : Z := 0x004.
Definition VIRTIO_MMIO_DEVICE_ID : Z := 0x008.
Definition VIRTIO_MMIO_VENDOR_ID : Z := 0x00c.
Definition VIRTIO_MMIO_DEVICE_FEATURES : Z := 0x010.
Definition VIRTIO_MMIO_DRIVER_FEATURES : Z := 0x020.
Definition VIRTIO_MMIO_QUEUE_SEL : Z := 0x030.
Definition VIRTIO_MMIO_QUEUE_NUM_MAX : Z := 0x034.
Definition VIRTIO_MMIO_QUEUE_NUM : Z := 0x038.
Definition VIRTIO_MMIO_QUEUE_READY : Z := 0x044.
Definition VIRTIO_MMIO_STATUS : Z := 0x070.
Definition VIRTIO_MMIO_QUEUE_DESC_LOW : Z := 0x080.
Definition VIRTIO_MMIO_QUEUE_DESC_HIGH : Z := 0x084.
Definition VIRTIO_MMIO_DRIVER_DESC_LOW : Z := 0x090.
Definition VIRTIO_MMIO_DRIVER_DESC_HIGH : Z := 0x094.
Definition VIRTIO_MMIO_DEVICE_DESC_LOW : Z := 0x0a0.
Definition VIRTIO_MMIO_DEVICE_DESC_HIGH : Z := 0x0a4.

(** [low] and [high] of a pointer. *)
Definition low (address : Z) : Z := u32 address.

Definition high (address : Z) : Z := u32 (Z.shiftr address 32).

Section initialisation.
(** The device: the value of a register after a sequence of writes. *)
Variable device : mmio → Z → Z.
(** The pages [new Descriptor()], [new Avail()] and [new Used()] return. *)
Variables desc_page avail_page used_page : Z.

Definition read_reg (r : Z) : M mmio Z := gets (λ ws, u32 (device ws r)).

Definition write_reg (r v : Z) : M mmio unit := modify (λ ws, ws ++ [(r, u32 v)]).

Definition findVirtioDisk : M mmio bool :=
  magic ← read_reg VIRTIO_MMIO_MAGIC_VALUE;
  if negb (magic =? 0x74726976) then mret false else
  version ← read_reg VIRTIO_MMIO_VERSION;
  if negb (version =? 2) then mret false else
  id ← read_reg VIRTIO_MMIO_DEVICE_ID;
  if negb (id =? 2) then mret false else
  vendor ← read_reg VIRTIO_MMIO_VENDOR_ID;
  if negb (vendor =? 0x554d4551) then mret false else mret true.

(** [features &= ~(1 << bit)]. *)
Definition drop_feature (features bit : Z) : Z :=
  Z.land features (u32 (Z.lnot (s32 (Z.shiftl 1 bit)))).

Definition wanted_features (features : Z) : Z :=
  fold_left drop_feature [5; 7; 11; 12; 27; 29; 28] features.

Definition initializeVirtio : M mmio unit :=
  found ← findVirtioDisk;
  assert found ;;
  let st0 := 0 in
  write_reg VIRTIO_MMIO_STATUS st0 ;;
  let st1 := Z.lor st0 1 in
  write_reg VIRTIO_MMIO_STATUS st1 ;;
  let st2 := Z.lor st1 2 in
  write_reg VIRTIO_MMIO_STATUS st2 ;;
  features ← read_reg VIRTIO_MMIO_DEVICE_FEATURES;
  write_reg VIRTIO_MMIO_DRIVER_FEATURES (wanted_features features) ;;
  let st3 := Z.lor st2 8 in
  write_reg VIRTIO_MMIO_STATUS st3 ;;
  st4 ← read_reg VIRTIO_MMIO_STATUS;
  assert (negb (Z.land st4 8 =? 0)) ;;
  write_reg VIRTIO_MMIO_QUEUE_SEL 0 ;;
  ready ← read_reg VIRTIO_MMIO_QUEUE_READY;
  assert (ready =? 0) ;;
  max ← read_reg VIRTIO_MMIO_QUEUE_NUM_MAX;
  assert (negb (max =? 0)) ;;
  assert (NUM_DESCS <=? max) ;;
  write_reg VIRTIO_MMIO_QUEUE_NUM NUM_DESCS ;;
  write_reg VIRTIO_MMIO_QUEUE_DESC_LOW (low desc_page) ;;
  write_reg VIRTIO_MMIO_QUEUE_DESC_HIGH (high desc_page) ;;
  write_reg VIRTIO_MMIO_DRIVER_DESC_LOW (low avail_page) ;;
  write_reg VIRTIO_MMIO_DRIVER_DESC_HIGH (high avail_page) ;;
  write_reg VIRTIO_MMIO_DEVICE_DESC_LOW (low used_page) ;;
  write_reg VIRTIO_MMIO_DEVICE_DESC_HIGH (high used_page) ;;
  write_reg VIRTIO_MMIO_QUEUE_READY 1 ;;
  write_reg VIRTIO_MMIO_STATUS (Z.lor st4 4).
End initialisation.

(** The driver's tables after [initializeVirtio]: every descriptor is free. *)
Definition initial_disk (bufs : gmap positive VBuffer) : Disk :=
  mkDisk (replicate 8 null_descriptor) 0 (replicate 8 0) 0 (replicate 8 0) (replicate 8 true) 0
    (replicate 8 (mkInfo None 0)) (replicate 8 (mkBlockRequest 0 0 0)) bufs [] 0 [].

(** ** Invariant of the tables *)

(** The tables have their sizes, and a free descriptor is cleared. *)
Record wf (d : Disk) : Prop := {
  wf_lengths : length (descriptor d) = 8%nat ∧ length (free d) = 8%nat ∧ length (info d) = 8%nat ∧
    length (ops d) = 8%nat ∧ length (avail_ring d) = 8%nat ∧ length (used_ring d) = 8%nat;
  wf_free : ∀ i, free d !! i = Some true → descriptor d !! i = Some null_descriptor;
  wf_index : 0 <= avail_index d < 2 ^ 16 ∧ 0 <= used_index d < 2 ^ 16 ∧ 0 <= usedIndex d < 2 ^ 16;
}.

(** The number of free descriptors. *)
Definition num_free (l : list bool) : nat := length (filter (λ b : bool, b = true) l).

(** The descriptors of the chain from [i], as the device follows it. *)
Fixpoint chain (fuel : nat) (l : list Descriptor) (i : Z) : list (Z * Descriptor) :=
  match fuel with
  | O => []
  | S f =>
      match l !! Z.to_nat i with
      | None => []
      | Some x =>
          (i, x) :: (if negb (Z.land (dflags x) VRING_DESC_F_NEXT =? 0) then chain f l (dnext x) else [])
      end
  end.

(** What the device does with the request at [h], as the virtio standard has
    it: it stores the status, appends the head to the used ring, and advances
    the ring's index; the driver's own tables it leaves alone. *)
Record completed (h : Z) (d d' : Disk) : Prop := {
  co_descriptor : descriptor d' = descriptor d;
  co_free : free d' = free d;
  co_ops : ops d' = ops d;
  co_avail : avail_index d' = avail_index d ∧ avail_ring d' = avail_ring d;
  co_usedIndex : usedIndex d' = usedIndex d;
  co_buffers : buffers d' = buffers d;
  co_info : ∃ x, info d !! Z.to_nat h = Some x ∧ info d' = <[Z.to_nat h := mkInfo (buffer x) 0]> (info d);
  co_ring : used_ring d' = <[Z.to_nat (used_index d mod NUM_DESCS) := h]> (used_ring d);
  co_index : used_index d' = u16 (used_index d + 1);
}.

(** ** Lemmas *)

Lemma runs_at_index {A} (l : list A) (i : nat) x (Q : A → Disk → Prop) d :
  l !! i = Some x → Q x d → runs (at_index l (Z.of_nat i)) d Q.
Proof.
  intros Hx HQ. unfold runs, at_index. by rewrite (proj2 (Z.leb_le _ _)), Nat2Z.id, Hx by lia.
Qed.

Lemma runs_put_descriptor d (i : nat) x (Q : unit → Disk → Prop) :
  (i < length (descriptor d))%nat → Q tt (set_descriptor (<[i := x]> (descriptor d)) d) →
  runs (put_descriptor (Z.of_nat i) x) d Q.
Proof.
  intros Hi HQ. unfold put_descriptor. runs_step. runs_step. runs_step.
  destruct (lookup_lt_is_Some_2 _ _ Hi) as [y Hy]. apply (runs_at_index _ _ y); [done|].
  runs_step. by rewrite Nat2Z.id.
Qed.

Lemma runs_put_free d (i : nat) x (Q : unit → Disk → Prop) :
  (i < length (free d))%nat → Q tt (set_free (<[i := x]> (free d)) d) →
  runs (put_free (Z.of_nat i) x) d Q.
Proof.
  intros Hi HQ. unfold put_free. runs_step. runs_step. runs_step.
  destruct (lookup_lt_is_Some_2 _ _ Hi) as [y Hy]. apply (runs_at_index _ _ y); [done|].
  runs_step. by rewrite Nat2Z.id.
Qed.

Lemma runs_put_info d (i : nat) x (Q : unit → Disk → Prop) :
  (i < length (info d))%nat → Q tt (set_info (<[i := x]> (info d)) d) →
  runs (put_info (Z.of_nat i) x) d Q.
Proof.
  intros Hi HQ. unfold put_info. runs_step. runs_step. runs_step.
  destruct (lookup_lt_is_Some_2 _ _ Hi) as [y Hy]. apply (runs_at_index _ _ y); [done|].
  runs_step. by rewrite Nat2Z.id.
Qed.

Lemma runs_put_op d (i : nat) x (Q : unit → Disk → Prop) :
  (i < length (ops d))%nat → Q tt (set_ops (<[i := x]> (ops d)) d) →
  runs (put_op (Z.of_nat i) x) d Q.
Proof.
  intros Hi HQ. unfold put_op. runs_step. runs_step. runs_step.
  destruct (lookup_lt_is_Some_2 _ _ Hi) as [y Hy]. apply (runs_at_index _ _ y); [done|].
  runs_step. by rewrite Nat2Z.id.
Qed.

Lemma first_free_spec l k :
  0 <= k →
  (first_free l k = -1 ∧ num_free l = 0%nat) ∨
  ∃ i : nat, first_free l k = k + Z.of_nat i ∧ l !! i = Some true ∧ (0 < num_free l)%nat.
Proof.
  revert k. induction l as [|[] l IH]; intros k Hk; cbn [first_free]; [by left| |].
  - right. exists 0%nat. split_and!; [lia|done|]. unfold num_free. rewrite filter_cons_True by done. simpl. lia.
  - unfold num_free. rewrite filter_cons_False by done.
    destruct (IH (k + 1)) as [[-> E]|(i & -> & Hi & Hn)]; [lia|by left|].
    right. exists (S i). split_and!; [lia|done|done].
Qed.

Lemma num_free_insert l i : l !! i = Some true → (num_free (<[i := false]> l) + 1 = num_free l)%nat.
Proof.
  revert i. induction l as [|b l IH]; intros [|i] Hi; [done|done| |].
  - injection Hi as ->. simpl. unfold num_free. rewrite filter_cons_False, filter_cons_True by done. simpl. lia.
  - simpl. specialize (IH i Hi). unfold num_free in *. destruct b.
    + rewrite !filter_cons_True by done. simpl. lia.
    + rewrite !filter_cons_False by done. done.
Qed.

(** [allocateDescriptor] takes a free descriptor if there is one. *)
Lemma runs_allocateDescriptor d (Q : Z → Disk → Prop) :
  (num_free (free d) = 0%nat → Q (-1) d) →
  (∀ i : nat, free d !! i = Some true → (0 < num_free (free d))%nat →
     Q (Z.of_nat i) (set_free (<[i := false]> (free d)) d)) →
  runs allocateDescriptor d Q.
Proof.
  intros H0 H1. unfold allocateDescriptor. runs_step. runs_step.
  destruct (first_free_spec (free d) 0) as [[-> E]|(i & -> & Hi & Hn)]; [lia| |].
  - simpl. runs_step. auto.
  - rewrite Z.add_0_l, (proj2 (Z.ltb_ge _ _)) by lia. runs_step.
    apply runs_put_free; [by apply lookup_lt_Some in Hi|]. runs_step. auto.
Qed.

(** [freeDescriptor] of a descriptor in use. *)
Lemma runs_freeDescriptor d (i : nat) (Q : unit → Disk → Prop) :
  length (descriptor d) = 8%nat → length (free d) = 8%nat → free d !! i = Some false →
  (∀ d', descriptor d' = <[i := null_descriptor]> (descriptor d) → free d' = <[i := true]> (free d) →
     info d' = info d → ops d' = ops d → buffers d' = buffers d → usedIndex d' = usedIndex d →
     used_index d' = used_index d → used_ring d' = used_ring d → avail_index d' = avail_index d →
     avail_ring d' = avail_ring d → Q tt d') →
  runs (freeDescriptor (Z.of_nat i)) d Q.
Proof.
  intros Hd Hf Hi HQ. unfold freeDescriptor. pose proof (lookup_lt_Some _ _ _ Hi).
  runs_step. apply runs_assert. { rewrite wrap_small by lia. unfold NUM_DESCS. lia. }
  runs_step. runs_step. runs_step. apply (runs_at_index _ _ false); [done|].
  runs_step. apply runs_assert; [done|].
  runs_step. apply runs_put_descriptor; [lia|]. runs_step. apply runs_put_free; [simpl; lia|].
  unfold wakeup. runs_step. by apply HQ.
Qed.

(** With three free descriptors [allocate3] takes three different ones. *)
Lemma runs_allocate3 d (Q : option (Z * Z * Z) → Disk → Prop) :
  length (free d) = 8%nat → (3 <= num_free (free d))%nat →
  (∀ i0 i1 i2 : nat, i0 ≠ i1 → i0 ≠ i2 → i1 ≠ i2 →
     free d !! i0 = Some true → free d !! i1 = Some true → free d !! i2 = Some true →
     Q (Some (Z.of_nat i0, Z.of_nat i1, Z.of_nat i2))
       (set_free (<[i2 := false]> (<[i1 := false]> (<[i0 := false]> (free d)))) d)) →
  runs allocate3 d Q.
Proof.
  intros Hl Hn HQ. unfold allocate3. runs_step. apply runs_allocateDescriptor; [lia|].
  intros i0 H0 _. rewrite (proj2 (Z.ltb_ge _ _)) by lia. pose proof (num_free_insert _ _ H0) as N0.
  runs_step. apply runs_allocateDescriptor; simpl; [lia|].
  intros i1 H1 _. rewrite (proj2 (Z.ltb_ge _ _)) by lia. pose proof (num_free_insert _ _ H1) as N1.
  assert (i0 ≠ i1) as N01. { intros ->. rewrite list_lookup_insert_eq in H1; [done|]. by apply lookup_lt_Some in H0. }
  rewrite list_lookup_insert_ne in H1 by done.
  runs_step. apply runs_allocateDescriptor; simpl; [lia|].
  intros i2 H2 _. rewrite (proj2 (Z.ltb_ge _ _)) by lia. runs_step.
  assert (i1 ≠ i2) as N12.
  { intros ->. rewrite list_lookup_insert_eq in H2; [done|]. rewrite length_insert. by apply lookup_lt_Some in H1. }
  rewrite list_lookup_insert_ne in H2 by done.
  assert (i0 ≠ i2) as N02. { intros ->. rewrite list_lookup_insert_eq in H2; [done|]. by apply lookup_lt_Some in H0. }
  rewrite list_lookup_insert_ne in H2 by done. by apply HQ.
Qed.

(** The three descriptors of a request. *)
Definition request_chain (buf : positive) (write : bool) (i0 i1 i2 : nat) (l : list Descriptor) : Prop :=
  l !! i0 = Some (mkDescriptor (OpsAt (Z.of_nat i0)) 16 VRING_DESC_F_NEXT (Z.of_nat i1)) ∧
  l !! i1 = Some (mkDescriptor (DataOf buf) 1024
    (Z.lor (if write then 0 else VRING_DESC_F_WRITE) VRING_DESC_F_NEXT) (Z.of_nat i2)) ∧
  l !! i2 = Some (mkDescriptor (StatusAt (Z.of_nat i0)) 1 VRING_DESC_F_WRITE 0).

Lemma chain_request buf write i0 i1 i2 l : request_chain buf write i0 i1 i2 l →
  (λ x, (daddr (snd x), dlen (snd x), Z.testbit (dflags (snd x)) 1)) <$> chain 9 l (Z.of_nat i0) =
  [(OpsAt (Z.of_nat i0), 16, false); (DataOf buf, 1024, negb write); (StatusAt (Z.of_nat i0), 1, true)].
Proof.
  intros (H0 & H1 & H2). cbn [chain]. rewrite Nat2Z.id, H0. simpl. rewrite Nat2Z.id, H1. simpl.
  destruct write; simpl; rewrite Nat2Z.id, H2; reflexivity.
Qed.

(** [freeChain] frees the three descriptors of a request. *)
Lemma runs_freeChain d buf write (i0 i1 i2 : nat) (Q : unit → Disk → Prop) :
  length (descriptor d) = 8%nat → length (free d) = 8%nat →
  request_chain buf write i0 i1 i2 (descriptor d) → i0 ≠ i1 → i0 ≠ i2 → i1 ≠ i2 →
  free d !! i0 = Some false → free d !! i1 = Some false → free d !! i2 = Some false →
  (∀ d', descriptor d' = <[i2 := null_descriptor]> (<[i1 := null_descriptor]>
           (<[i0 := null_descriptor]> (descriptor d))) →
     free d' = <[i2 := true]> (<[i1 := true]> (<[i0 := true]> (free d))) →
     info d' = info d → buffers d' = buffers d → usedIndex d' = usedIndex d →
     used_index d' = used_index d → Q tt d') →
  runs (freeChain 9 (Z.of_nat i0)) d Q.
Proof.
  intros Ld Lf (C0 & C1 & C2) N01 N02 N12 F0 F1 F2 HQ.
  cbn [freeChain]. runs_step. runs_step. runs_step. eapply runs_at_index; [exact C0|].
  runs_step. apply runs_freeDescriptor; [done..|]. intros d1 D1 G1 I1 _ B1 U1 V1 _ _ _. simpl.
  runs_step. runs_step. runs_step. eapply runs_at_index; [rewrite D1, list_lookup_insert_ne by done; exact C1|].
  runs_step. apply runs_freeDescriptor; [by rewrite D1, length_insert|by rewrite G1, length_insert|
    by rewrite G1, list_lookup_insert_ne by done|]. intros d2 D2 G2 I2 _ B2 U2 V2 _ _ _.
  assert (negb (Z.land (dflags (mkDescriptor (DataOf buf) 1024
    (Z.lor (if write then 0 else VRING_DESC_F_WRITE) VRING_DESC_F_NEXT) (Z.of_nat i2))) VRING_DESC_F_NEXT =? 0) = true)
    as -> by by destruct write. cbn [dnext].
  runs_step. runs_step. runs_step.
  eapply runs_at_index; [rewrite D2, D1, !list_lookup_insert_ne by done; exact C2|].
  runs_step. apply runs_freeDescriptor; [by rewrite D2, D1, !length_insert|by rewrite G2, G1, !length_insert|
    by rewrite G2, G1, !list_lookup_insert_ne by done|]. intros d3 D3 G3 I3 _ B3 U3 V3 _ _ _. simpl.
  runs_step. apply HQ; congruence.
Qed.

(** [diskrw] up to its wait. *)
Lemma runs_diskrw_start d buf b write (Q : Z → Disk → Prop) :
  wf d → (3 <= num_free (free d))%nat → buffers d !! buf = Some b →
  (∀ (i0 i1 i2 : nat) d', i0 ≠ i1 → i0 ≠ i2 → i1 ≠ i2 →
     free d !! i0 = Some true → free d !! i1 = Some true → free d !! i2 = Some true →
     free d' = <[i2 := false]> (<[i1 := false]> (<[i0 := false]> (free d))) →
     length (descriptor d') = 8%nat →
     (∀ k, k ≠ i0 → k ≠ i1 → k ≠ i2 → descriptor d' !! k = descriptor d !! k) →
     request_chain buf write i0 i1 i2 (descriptor d') →
     ops d' !! i0 = Some (mkBlockRequest (if write then VIRTIO_BLK_T_OUT else VIRTIO_BLK_T_IN) 0 (block b * 2)) →
     info d' = <[i0 := mkInfo (Some buf) 255]> (info d) →
     buffers d' = <[buf := mkVBuffer (block b) true]> (buffers d) →
     avail_index d' = u16 (avail_index d + 1) →
     avail_ring d' = <[Z.to_nat (avail_index d mod NUM_DESCS) := Z.of_nat i0]> (avail_ring d) →
     notified d' = notified d + 1 → used_index d' = used_index d → used_ring d' = used_ring d →
     usedIndex d' = usedIndex d → Q (Z.of_nat i0) d') →
  runs (diskrw_start buf write) d Q.
Proof.
  intros [(Ld & Lf & Li & Lo & La & Lu) Hfree Hidx] Hn Hb HQ. unfold diskrw_start.
  runs_step. runs_step. rewrite Hb. runs_step. apply runs_allocate3; [done|done|].
  intros i0 i1 i2 N01 N02 N12 F0 F1 F2.
  pose proof (lookup_lt_Some _ _ _ F0). pose proof (lookup_lt_Some _ _ _ F1). pose proof (lookup_lt_Some _ _ _ F2).
  runs_step. apply runs_put_op; [simpl; lia|]. simpl.
  runs_step. apply runs_put_descriptor; [simpl; lia|]. simpl.
  runs_step. apply runs_put_descriptor; [simpl; rewrite length_insert; lia|]. simpl.
  runs_step. apply runs_put_descriptor; [simpl; rewrite !length_insert; lia|]. simpl.
  runs_step. apply runs_put_info; [simpl; lia|]. simpl.
  runs_step. runs_step. runs_step. runs_step. runs_step.
  apply (HQ i0 i1 i2); simpl; auto.
  - by rewrite !length_insert.
  - intros k K0 K1 K2. by rewrite !list_lookup_insert_ne by done.
  - split_and!.
    + rewrite !list_lookup_insert_ne by done. rewrite list_lookup_insert_eq by lia. done.
    + rewrite list_lookup_insert_ne by done. rewrite list_lookup_insert_eq by (rewrite length_insert; lia). done.
    + rewrite list_lookup_insert_eq by (rewrite !length_insert; lia). done.
  - by rewrite list_lookup_insert_eq by lia.
Qed.

(** One pending entry of the used ring is processed. *)
Lemma runs_loop_one d (h : nat) st buf b (Q : unit → Disk → Prop) :
  used_index d = u16 (usedIndex d + 1) → 0 <= usedIndex d < 2 ^ 16 →
  used_ring d !! Z.to_nat (usedIndex d mod NUM_DESCS) = Some (Z.of_nat h) →
  info d !! h = Some (mkInfo (Some buf) st) → st = 0 → buffers d !! buf = Some b →
  (∀ d', descriptor d' = descriptor d → free d' = free d → info d' = info d →
     buffers d' = <[buf := mkVBuffer (block b) false]> (buffers d) →
     usedIndex d' = used_index d → used_index d' = used_index d → acks d' = acks d → Q tt d') →
  runs (interrupt_loop (Z.to_nat 65536)) d Q.
Proof.
  intros Hu Hr Hring Hinfo -> Hb HQ.
  replace (Z.to_nat 65536) with (S (S (Z.to_nat 65534))) by lia.
  set (f := Z.to_nat 65534). clearbody f.
  assert (usedIndex d ≠ used_index d) as Hne.
  { rewrite Hu. unfold wrap. destruct (decide (usedIndex d = 65535)) as [->|]; [done|].
    rewrite Z.mod_small by lia. lia. }
  pose proof (Z.mod_pos_bound (usedIndex d) NUM_DESCS) as Hm. specialize (Hm ltac:(done)).
  cbn [interrupt_loop]. runs_step. runs_step.
  rewrite (proj2 (Z.eqb_neq _ _)) by done.
  runs_step. rewrite <- (Z2Nat.id (usedIndex d mod NUM_DESCS)) by lia.
  apply (runs_at_index _ _ (Z.of_nat h)); [done|].
  runs_step. eapply runs_at_index; [exact Hinfo|]. runs_step. apply runs_assert; [done|].
  cbn [buffer]. rewrite Hb. runs_step. runs_step. unfold wakeup. runs_step. runs_step. runs_step. runs_step.
  cbn [interrupt_loop]. runs_step. runs_step. simpl.
  rewrite (proj2 (Z.eqb_eq _ _)) by done. runs_step. by apply HQ.
Qed.

(** The interrupt is acknowledged before. *)
Lemma runs_interrupt_one interrupt_status d (h : nat) st buf b (Q : unit → Disk → Prop) :
  used_index d = u16 (usedIndex d + 1) → 0 <= usedIndex d < 2 ^ 16 →
  used_ring d !! Z.to_nat (usedIndex d mod NUM_DESCS) = Some (Z.of_nat h) →
  info d !! h = Some (mkInfo (Some buf) st) → st = 0 → buffers d !! buf = Some b →
  (∀ d', descriptor d' = descriptor d → free d' = free d → info d' = info d →
     buffers d' = <[buf := mkVBuffer (block b) false]> (buffers d) →
     usedIndex d' = used_index d → used_index d' = used_index d →
     acks d' = acks d ++ [Z.land (u32 (interrupt_status d)) 3] → Q tt d') →
  runs (diskInterrupt interrupt_status) d Q.
Proof.
  intros Hu Hr Hring Hinfo Hst Hb HQ. unfold diskInterrupt. runs_step. runs_step. runs_step. runs_step.
  by apply (runs_loop_one _ h st buf b).
Qed.

Lemma insert_restores {A} (l : list A) (i0 i1 i2 : nat) (x y : A) :
  i0 ≠ i1 → i0 ≠ i2 → i1 ≠ i2 → l !! i0 = Some x → l !! i1 = Some x → l !! i2 = Some x →
  <[i2 := x]> (<[i1 := x]> (<[i0 := x]> (<[i2 := y]> (<[i1 := y]> (<[i0 := y]> l))))) = l.
Proof.
  intros N01 N02 N12 H0 H1 H2.
  pose proof (lookup_lt_Some _ _ _ H0). pose proof (lookup_lt_Some _ _ _ H1). pose proof (lookup_lt_Some _ _ _ H2).
  apply list_eq. intros k.
  destruct (decide (k = i2)) as [->|]; [rewrite list_lookup_insert_eq by (rewrite !length_insert; lia); done|].
  rewrite list_lookup_insert_ne by done.
  destruct (decide (k = i1)) as [->|]; [rewrite list_lookup_insert_eq by (rewrite !length_insert; lia); done|].
  rewrite list_lookup_insert_ne by done.
  destruct (decide (k = i0)) as [->|]; [rewrite list_lookup_insert_eq by (rewrite !length_insert; lia); done|].
  by rewrite !list_lookup_insert_ne by done.
Qed.

Lemma clear_restores (l l' : list Descriptor) (i0 i1 i2 : nat) :
  length l = 8%nat → length l' = 8%nat → i0 ≠ i1 → i0 ≠ i2 → i1 ≠ i2 →
  l !! i0 = Some null_descriptor → l !! i1 = Some null_descriptor → l !! i2 = Some null_descriptor →
  (∀ k, k ≠ i0 → k ≠ i1 → k ≠ i2 → l' !! k = l !! k) →
  <[i2 := null_descriptor]> (<[i1 := null_descriptor]> (<[i0 := null_descriptor]> l')) = l.
Proof.
  intros Ll Ll' N01 N02 N12 H0 H1 H2 Hk.
  pose proof (lookup_lt_Some _ _ _ H0). pose proof (lookup_lt_Some _ _ _ H1). pose proof (lookup_lt_Some _ _ _ H2).
  apply list_eq. intros k.
  destruct (decide (k = i2)) as [->|]; [rewrite list_lookup_insert_eq by (rewrite !length_insert; lia); done|].
  rewrite list_lookup_insert_ne by done.
  destruct (decide (k = i1)) as [->|]; [rewrite list_lookup_insert_eq by (rewrite !length_insert; lia); done|].
  rewrite list_lookup_insert_ne by done.
  destruct (decide (k = i0)) as [->|]; [rewrite list_lookup_insert_eq by lia; done|].
  rewrite list_lookup_insert_ne by done. by apply Hk.
Qed.

(** The rest of [diskrw] after the interrupt. *)
Lemma runs_diskrw_finish d buf write b st (i0 i1 i2 : nat) (Q : unit → Disk → Prop) :
  length (descriptor d) = 8%nat → length (free d) = 8%nat →
  buffers d !! buf = Some b → on_disk b = false → info d !! i0 = Some (mkInfo (Some buf) st) →
  request_chain buf write i0 i1 i2 (descriptor d) → i0 ≠ i1 → i0 ≠ i2 → i1 ≠ i2 →
  free d !! i0 = Some false → free d !! i1 = Some false → free d !! i2 = Some false →
  (∀ d', descriptor d' = <[i2 := null_descriptor]> (<[i1 := null_descriptor]>
           (<[i0 := null_descriptor]> (descriptor d))) →
     free d' = <[i2 := true]> (<[i1 := true]> (<[i0 := true]> (free d))) →
     info d' = <[i0 := mkInfo None st]> (info d) → buffers d' = buffers d → usedIndex d' = usedIndex d →
     used_index d' = used_index d → Q tt d') →
  runs (diskrw_finish buf (Z.of_nat i0)) d Q.
Proof.
  intros Ld Lf Hb Hoff Hinfo Hch N01 N02 N12 F0 F1 F2 HQ. unfold diskrw_finish.
  runs_step. runs_step. rewrite Hb, Hoff. runs_step. runs_step. runs_step.
  eapply runs_at_index; [exact Hinfo|]. runs_step.
  apply runs_put_info; [by apply lookup_lt_Some in Hinfo|].
  eapply (runs_freeChain _ buf write i0 i1 i2); simpl; try done.
Qed.

(** ** Properties *)

(** C37: a disk request from start to finish.  With three free descriptors and
    no completion pending, [diskrw] publishes a chain of exactly three
    descriptors - request header with the right type and sector, the buffer's
    data writable by the device only when reading, a status byte - and marks
    the buffer in flight; after the device has completed it as the standard
    says, [diskInterrupt] acknowledges the two interrupt causes the device shows
    and clears the mark, and the rest of [diskrw] returns with the descriptor
    table and the free list as they were. *)
Theorem disk_request_roundtrip (interrupt_status : Disk → Z) (d : Disk) (buf : positive) (b : VBuffer) (write : bool)
    (Hwf : wf d) (Hfree : (3 <= num_free (free d))%nat) (Hbuf : buffers d !! buf = Some b)
    (Hidle : usedIndex d = used_index d) :
  ∃ h d1, diskrw_start buf write d = Ok (h, d1) ∧
    (λ x, (daddr (snd x), dlen (snd x), Z.testbit (dflags (snd x)) 1)) <$> chain 9 (descriptor d1) h =
      [(OpsAt h, 16, false); (DataOf buf, 1024, negb write); (StatusAt h, 1, true)] ∧
    ops d1 !! Z.to_nat h =
      Some (mkBlockRequest (if write then VIRTIO_BLK_T_OUT else VIRTIO_BLK_T_IN) 0 (block b * 2)) ∧
    avail_ring d1 !! Z.to_nat (avail_index d mod NUM_DESCS) = Some h ∧
    avail_index d1 = u16 (avail_index d + 1) ∧ notified d1 = notified d + 1 ∧
    buffers d1 !! buf = Some (mkVBuffer (block b) true) ∧
    ∀ d2, completed h d1 d2 → ∃ d3 d4, diskInterrupt interrupt_status d2 = Ok (tt, d3) ∧
      acks d3 = acks d2 ++ [Z.land (u32 (interrupt_status d2)) 3] ∧
      buffers d3 !! buf = Some (mkVBuffer (block b) false) ∧
      diskrw_finish buf h d3 = Ok (tt, d4) ∧ free d4 = free d ∧ descriptor d4 = descriptor d ∧
      usedIndex d4 = used_index d4.
Proof.
  pose proof Hwf as [(Ld & Lf & Li & Lo & La & Lu) Hnull (Ha & Hu & Hu')].
  assert (∀ i, 0 <= i mod NUM_DESCS < 8) as Hmod.
  { intros i. pose proof (Z.mod_pos_bound i NUM_DESCS). unfold NUM_DESCS in *. lia. }
  apply runs_inv, (runs_diskrw_start d buf b write); auto.
  intros i0 i1 i2 d1 N01 N02 N12 F0 F1 F2 Ef Ld1 Hk Hch Hop Ei Eb Eai Ear En Eui Eur Eu.
  pose proof (lookup_lt_Some _ _ _ F0). pose proof (lookup_lt_Some _ _ _ F1). pose proof (lookup_lt_Some _ _ _ F2).
  split; [by apply (chain_request buf write i0 i1 i2)|]. split; [by rewrite Nat2Z.id|].
  split. { rewrite Ear, list_lookup_insert_eq; [done|]. specialize (Hmod (avail_index d)). lia. }
  split; [done|]. split; [done|]. split; [by rewrite Eb, lookup_insert_eq|].
  intros d2 [Cd Cf Co Ca Cu Cb (x & Hx & Ci) Cr Cx]. rewrite Nat2Z.id in *.
  rewrite Ei, list_lookup_insert_eq in Hx by lia. injection Hx as <-.
  assert (used_ring d2 !! Z.to_nat (usedIndex d2 mod NUM_DESCS) = Some (Z.of_nat i0)) as Hring.
  { rewrite Cr, Cu, Eu, Hidle, Eui, list_lookup_insert_eq; [done|]. rewrite Eur. specialize (Hmod (used_index d)). lia. }
  assert (runs (diskInterrupt interrupt_status) d2 (λ _ d3, descriptor d3 = descriptor d2 ∧ free d3 = free d2 ∧
    info d3 = info d2 ∧ buffers d3 = <[buf := mkVBuffer (block b) false]> (buffers d2) ∧
    usedIndex d3 = used_index d2 ∧ used_index d3 = used_index d2 ∧
    acks d3 = acks d2 ++ [Z.land (u32 (interrupt_status d2)) 3]))
    as ([] & d3 & E3 & Gd & Gf & Gi & Gb & Gu & Gx & Ga)%runs_inv.
  { apply (runs_interrupt_one interrupt_status d2 i0 0 buf (mkVBuffer (block b) true)).
    - by rewrite Cx, Eui, Cu, Eu, Hidle.
    - by rewrite Cu, Eu.
    - done.
    - rewrite Ci, list_lookup_insert_eq; [done|]. rewrite Ei, length_insert. lia.
    - done.
    - by rewrite Cb, Eb, lookup_insert_eq.
    - intros d' ? ? ? ? ? ? ?. by split_and!. }
  assert (∀ k, k = i0 ∨ k = i1 ∨ k = i2 → free d1 !! k = Some false) as Hused.
  { intros k Hk'. rewrite Ef. destruct (decide (k = i2)) as [->|N2].
    { apply list_lookup_insert_eq. rewrite !length_insert. lia. }
    rewrite list_lookup_insert_ne by done. destruct (decide (k = i1)) as [->|N1].
    { apply list_lookup_insert_eq. rewrite !length_insert. lia. }
    rewrite list_lookup_insert_ne by done. destruct Hk' as [->|[?|?]]; [|done|done].
    apply list_lookup_insert_eq. lia. }
  assert (runs (diskrw_finish buf (Z.of_nat i0)) d3 (λ _ d4, free d4 = free d ∧
    descriptor d4 = descriptor d ∧ usedIndex d4 = used_index d4)) as ([] & d4 & E4 & HH)%runs_inv.
  { apply (runs_diskrw_finish d3 buf write (mkVBuffer (block b) false) 0 i0 i1 i2); auto.
    - by rewrite Gd, Cd.
    - by rewrite Gf, Cf, Ef, !length_insert.
    - by rewrite Gb, lookup_insert_eq.
    - rewrite Gi, Ci, list_lookup_insert_eq; [done|]. rewrite Ei, length_insert. lia.
    - by rewrite Gd, Cd.
    - rewrite Gf, Cf. auto.
    - rewrite Gf, Cf. auto.
    - rewrite Gf, Cf. auto.
    - intros d' Dd Df _ _ Du Dx. rewrite Df, Dd, Du, Dx, Gf, Gd, Gu, Gx, Cf, Cd, Ef.
      split; [by apply insert_restores|]. split; [apply clear_restores; auto|done]. }
  exists d3, d4. split; [done|]. split; [done|]. split; [by rewrite Gb, lookup_insert_eq|]. split; [done|exact HH].
Qed.

Lemma disk_request_roundtrip_witness :
  ∃ h d1, diskrw_start 1 true (initial_disk {[1%positive := mkVBuffer 7 false]}) = Ok (h, d1) ∧
    buffers d1 !! 1%positive = Some (mkVBuffer 7 true).
Proof.
  destruct (disk_request_roundtrip (λ _, 1) (initial_disk {[1%positive := mkVBuffer 7 false]}) 1 (mkVBuffer 7 false) true)
    as (h & d1 & E & _ & _ & _ & _ & _ & Eb & _).
  - split; [by split_and!|unfold initial_disk; cbn [free descriptor]|simpl; lia]. intros i Hi%lookup_lt_Some.
    by apply (lookup_replicate 8 null_descriptor null_descriptor i).
  - vm_compute. lia.
  - done.
  - done.
  - exists h, d1. split; [exact E|exact Eb].
Defined.

(** Running out of descriptors.  With one or two free descriptors [diskrw]
    gives back what it took and waits; with none at all it does not wait: the
    flag [ok] stays true, and the index [-1] is used to address the tables. *)
Theorem disk_request_exhausted (d : Disk) (buf : positive) (b : VBuffer) (write : bool)
    (Hwf : wf d) (Hbuf : buffers d !! buf = Some b) (Hfew : (num_free (free d) < 3)%nat) :
  diskrw_start buf write d = Err (if (num_free (free d) =? 0)%nat then OutOfRange else WouldSleep).
Proof.
  pose proof Hwf as [(Ld & Lf & _) _ _].
  assert (runs allocate3 d (λ r _, r = if (num_free (free d) =? 0)%nat then Some (-1, -1, -1) else None))
    as (r & d' & E & ->)%runs_inv.
  { unfold allocate3. runs_step. apply runs_allocateDescriptor; [by intros ->|].
    intros i0 H0 Hn. rewrite (proj2 (Z.ltb_ge _ _)) by lia. pose proof (num_free_insert _ _ H0) as N0.
    assert ((num_free (free d) =? 0)%nat = false) as -> by (apply Nat.eqb_neq; lia).
    pose proof (lookup_lt_Some _ _ _ H0) as L0.
    runs_step. apply runs_allocateDescriptor; simpl.
    - intros _. runs_step. apply runs_freeDescriptor; simpl; [done|by rewrite length_insert|
        by rewrite list_lookup_insert_eq|]. intros; by runs_step.
    - intros i1 H1 Hn1. rewrite (proj2 (Z.ltb_ge _ _)) by lia. pose proof (num_free_insert _ _ H1) as N1.
      pose proof (lookup_lt_Some _ _ _ H1) as L1. rewrite length_insert in L1.
      assert (i0 ≠ i1) as N01 by (intros ->; by rewrite list_lookup_insert_eq in H1).
      runs_step. apply runs_allocateDescriptor; simpl; [|lia].
      intros _. runs_step. apply runs_freeDescriptor; simpl; [done|by rewrite !length_insert| |].
      { rewrite list_lookup_insert_ne, list_lookup_insert_eq by done. done. }
      intros d1 D1 F1 _ _ _ _ _ _ _ _. simpl in D1, F1. runs_step. apply runs_freeDescriptor.
      + by rewrite D1, length_insert.
      + by rewrite F1, !length_insert.
      + rewrite F1, list_lookup_insert_ne, list_lookup_insert_eq; [done|by rewrite length_insert|done].
      + intros; by runs_step. }
  unfold diskrw_start. rewrite (bind_ok (gets buffers) _ d _ _ eq_refl), Hbuf, (bind_ok _ _ _ _ _ E).
  by destruct (num_free (free d) =? 0)%nat.
Qed.

Lemma disk_request_exhausted_witness :
  let d := initial_disk {[1%positive := mkVBuffer 7 false]} in
  diskrw_start 1 true (set_free (replicate 8 false) d) = Err OutOfRange ∧
  diskrw_start 1 true (set_free (true :: replicate 7 false) d) = Err WouldSleep.
Proof.
  assert (∀ l, length l = 8%nat → wf (set_free l (initial_disk {[1%positive := mkVBuffer 7 false]}))) as Hwf.
  { intros l Hl. split; [by split_and!|unfold set_free, initial_disk; cbn [free descriptor]|simpl; lia]. intros i Hi%lookup_lt_Some.
    rewrite Hl in Hi. by apply (lookup_replicate 8 null_descriptor null_descriptor i). }
  intros d. split.
  - etrans; [apply (disk_request_exhausted _ 1 (mkVBuffer 7 false) true); [by apply Hwf|done|vm_compute; lia]|].
    reflexivity.
  - etrans; [apply (disk_request_exhausted _ 1 (mkVBuffer 7 false) true); [by apply Hwf|done|vm_compute; lia]|].
    reflexivity.
Defined.

Lemma testbit_drop_feature f k i : 0 <= f < 2 ^ 32 → 0 <= k < 31 → 0 <= i < 32 →
  Z.testbit (drop_feature f k) i = Z.testbit f i && negb (k =? i).
Proof.
  intros Hf Hk Hi. unfold drop_feature.
  assert (0 < 2 ^ k <= 2 ^ 30) as Hp.
  { split; [by apply Z.pow_pos_nonneg; lia|by apply Z.pow_le_mono_r; lia]. }
  rewrite Z.shiftl_mul_pow2, Z.mul_1_l by lia.
  rewrite swrap_small by (change (2 ^ (32 - 1)) with (2 * 2 ^ 30); lia).
  rewrite Z.land_spec. unfold wrap. rewrite Z.mod_pow2_bits_low, Z.lnot_spec, Z.pow2_bits_eqb by lia. done.
Qed.

Lemma drop_feature_range f k : 0 <= f < 2 ^ 32 → 0 <= drop_feature f k < 2 ^ 32.
Proof.
  intros Hf. unfold drop_feature. set (x := u32 _).
  assert (0 <= x < 2 ^ 32) by (apply wrap_range; lia).
  assert (Z.land f x = Z.land f x mod 2 ^ 32) as ->; [|apply Z.mod_pos_bound; lia].
  rewrite <- Z.land_ones by lia. rewrite <- Z.land_assoc, Z.land_ones by lia. by rewrite (Z.mod_small x).
Qed.

Lemma findVirtioDisk_spec device ws b ws' : findVirtioDisk device ws = Ok (b, ws') →
  ws' = ws ∧ (b = true → u32 (device ws VIRTIO_MMIO_VERSION) = 2 ∧
                         u32 (device ws VIRTIO_MMIO_DEVICE_ID) = 2).
Proof.
  unfold findVirtioDisk, read_reg, gets, mbind, M_bind, mret, M_ret.
  repeat match goal with |- context [?x =? ?y] => destruct (Z.eqb_spec x y); simpl end;
    intros [= <- <-]; done.
Qed.

(** The feature negotiation and the handshake.  When [initializeVirtio]
    returns, the device had identified itself as a version-2 block device, the
    features it was given back are those it offered except seven the driver
    cannot use, the status register went through acknowledge, driver and
    features-ok, and the queue was made ready before driver-ok. *)
Theorem virtio_handshake (device : mmio → Z → Z) (dp ap up : Z) (ws : mmio)
    (Hrun : initializeVirtio device dp ap up [] = Ok (tt, ws)) :
  ∃ features st q, ws =
    [(VIRTIO_MMIO_STATUS, 0); (VIRTIO_MMIO_STATUS, 1); (VIRTIO_MMIO_STATUS, 3);
     (VIRTIO_MMIO_DRIVER_FEATURES, wanted_features features); (VIRTIO_MMIO_STATUS, 11);
     (VIRTIO_MMIO_QUEUE_SEL, 0); (VIRTIO_MMIO_QUEUE_NUM, 8)] ++ q ++
    [(VIRTIO_MMIO_QUEUE_READY, 1); (VIRTIO_MMIO_STATUS, Z.lor st 4)] ∧
    q.*1 = [VIRTIO_MMIO_QUEUE_DESC_LOW; VIRTIO_MMIO_QUEUE_DESC_HIGH; VIRTIO_MMIO_DRIVER_DESC_LOW;
            VIRTIO_MMIO_DRIVER_DESC_HIGH; VIRTIO_MMIO_DEVICE_DESC_LOW; VIRTIO_MMIO_DEVICE_DESC_HIGH] ∧
    u32 (device [] VIRTIO_MMIO_VERSION) = 2 ∧ u32 (device [] VIRTIO_MMIO_DEVICE_ID) = 2 ∧
    Z.testbit st 3 = true ∧ 0 <= features < 2 ^ 32 ∧
    ∀ i, 0 <= i < 32 → Z.testbit (wanted_features features) i =
      Z.testbit features i && negb (bool_decide (i ∈ [5; 7; 11; 12; 27; 28; 29])).
Proof.
  unfold initializeVirtio in Hrun. run_inv Hrun.
  repeat match goal with
  | H : read_reg _ _ _ = Ok _ |- _ => injection H as <- <-
  | H : write_reg _ _ _ = Ok _ |- _ => injection H as <- <-
  | H : assert _ _ = Ok _ |- _ => apply assert_ok in H as [? ->]
  end.
  injection Hrun as <-. apply findVirtioDisk_spec in Hrun0 as [-> Hfound].
  match goal with H : a = true |- _ => subst a end. destruct (Hfound eq_refl) as [Hv Hid].
  match goal with H : negb (Z.land (u32 ?x) 8 =? 0) = true |- _ => rename H into Hst; set (st := u32 x) in * end.
  match goal with |- context [wanted_features (u32 ?x)] => set (f := u32 x) in * end.
  assert (0 <= f < 2 ^ 32) as Hf by (apply wrap_range; lia).
  assert (0 <= st < 2 ^ 32) as Hs by (apply wrap_range; lia). clearbody f st.
  assert (0 <= wanted_features f < 2 ^ 32) as Hw.
  { unfold wanted_features. cbn [fold_left]. by repeat apply drop_feature_range. }
  exists f, st, [(VIRTIO_MMIO_QUEUE_DESC_LOW, u32 (low dp)); (VIRTIO_MMIO_QUEUE_DESC_HIGH, u32 (high dp));
    (VIRTIO_MMIO_DRIVER_DESC_LOW, u32 (low ap)); (VIRTIO_MMIO_DRIVER_DESC_HIGH, u32 (high ap));
    (VIRTIO_MMIO_DEVICE_DESC_LOW, u32 (low up)); (VIRTIO_MMIO_DEVICE_DESC_HIGH, u32 (high up))].
  rewrite (wrap_small 32 (wanted_features f)), (wrap_small 32 (Z.lor st 4)) by (done || by apply lor_range).
  split_and!; try done; try lia.
  - change 8 with (Z.shiftl 1 3) in Hst. rewrite Z.shiftl_mul_pow2, Z.mul_1_l in Hst by lia.
    destruct (Z.testbit st 3) eqn:E; [done|]. exfalso.
    assert (Z.land st (2 ^ 3) = 0) as E0; [|by rewrite E0 in Hst].
    apply Z.bits_inj'. intros i Hi. rewrite Z.land_spec, Z.bits_0, Z.pow2_bits_eqb by lia.
    destruct (Z.eqb_spec 3 i) as [<-|]; [by rewrite E|by rewrite andb_false_r].
  - intros i Hi. unfold wanted_features. cbn [fold_left].
    rewrite !testbit_drop_feature by (try lia; repeat apply drop_feature_range; lia).
    destruct (Z.testbit f i); [rewrite !andb_true_l|done].
    destruct (decide (i ∈ [5; 7; 11; 12; 27; 28; 29])) as [Hin|Hin].
    + rewrite bool_decide_eq_true_2 by done. set_unfold in Hin.
      destruct_or!; subst i; reflexivity.
    + rewrite bool_decide_eq_false_2 by done. set_unfold in Hin.
      rewrite !(proj2 (Z.eqb_neq _ _)) by (intros <-; apply Hin; tauto). done.
Qed.

(** A device that answers like the emulator's disk. *)
Definition demo_device (ws : mmio) (r : Z) : Z :=
  if r =? VIRTIO_MMIO_MAGIC_VALUE then 0x74726976
  else if r =? VIRTIO_MMIO_VERSION then 2
  else if r =? VIRTIO_MMIO_DEVICE_ID then 2
  else if r =? VIRTIO_MMIO_VENDOR_ID then 0x554d4551
  else if r =? VIRTIO_MMIO_DEVICE_FEATURES then 0x31006ed4
  else if r =? VIRTIO_MMIO_QUEUE_NUM_MAX then 1024
  else default 0 (snd <$> last (filter (λ w : Z * Z, fst w = r) ws)).

Lemma virtio_handshake_witness : ∃ ws features,
  initializeVirtio demo_device 0x80100000 0x80101000 0x80102000 [] = Ok (tt, ws) ∧
  (VIRTIO_MMIO_DRIVER_FEATURES, wanted_features features) ∈ ws.
Proof.
  eexists. assert (∀ ws, initializeVirtio demo_device 0x80100000 0x80101000 0x80102000 [] = Ok (tt, ws) →
    ∃ features, (VIRTIO_MMIO_DRIVER_FEATURES, wanted_features features) ∈ ws) as HH.
  { intros ws E. destruct (virtio_handshake _ _ _ _ _ E) as (f & st & q & -> & _).
    exists f. apply elem_of_app. left. set_solver. }
  edestruct HH as [f Hf]; [vm_compute; reflexivity|]. exists f. split; [vm_compute; reflexivity|exact Hf].
Defined.

End Virtio.
