(* ===== verification/FsState.v ===== *)
(** * The state of the file system

    The globals [fs::superBlock] and [fs::log] beside a buffer cache of any
    implementation of [BufferOps], the wake-ups the file system has sent, and
    the cache operations lifted to this state with their total-correctness
    rules. *)

From S2P Require Import Prelude Buffer.
Import Buffer.

Module FsState.

(** ** Definitions *)

(** [struct SuperBlock]. *)
Record SuperBlock := mkSuperBlock {
  magic : Z;
  sb_size : Z;
  numBlocks : Z;
  numInodes : Z;
  numLogs : Z;
  logStart : Z;
  inodeStart : Z;
  bmapStart : Z;
}.

(** [struct LogHeader]: [block] is an array of [LOG_SIZE] entries. *)
Record LogHeader := mkLogHeader { n : Z; hblock : list Z }.

(** [struct Log] without its spin lock. *)
Record Log := mkLog {
  start : Z;
  size : Z;
  outstanding : Z;
  committing : bool;
  ldevice : Z;
  header : LogHeader;
}.

(** The channels [process::wakeup] is called with. *)
Inductive channel := ChanLog.

Record FS {S : Type} := mkFS {
  cache : S;
  superBlock : SuperBlock;
  log : Log;
  woken : list channel;
}.
Arguments FS : clear implicits.
Arguments mkFS {S} _ _ _ _.

Section state.
Context {S : Type}.

Definition set_cache (c : S) (s : FS S) : FS S := mkFS c (superBlock s) (log s) (woken s).

Definition set_superBlock (sb : SuperBlock) (s : FS S) : FS S :=
  mkFS (cache s) sb (log s) (woken s).

Definition set_log (l : Log) (s : FS S) : FS S := mkFS (cache s) (superBlock s) l (woken s).

Definition set_header (h : LogHeader) (s : FS S) : FS S :=
  set_log (mkLog (start (log s)) (size (log s)) (outstanding (log s))
    (committing (log s)) (ldevice (log s)) h) s.

Definition wakeup (ch : channel) : M (FS S) unit :=
  modify (λ s, mkFS (cache s) (superBlock s) (log s) (woken s ++ [ch])).

(** A cache operation as an operation of the file system. *)
Definition on_cache {A} (c : M S A) : M (FS S) A := λ s,
  match c (cache s) with
  | Ok (a, c') => Ok (a, set_cache c' s)
  | Err f => Err f
  end.

Lemma runs_on_cache {A} (c : M S A) s (Q : A → FS S → Prop) :
  runs c (cache s) (λ a c', Q a (set_cache c' s)) → runs (on_cache c) s Q.
Proof. unfold runs, on_cache. by destruct (c (cache s)) as [[a c']|]. Qed.
End state.

Section lifted.
Context {S P : Type} `{BufferOps S P}.

Definition fget (dev b : Z) : M (FS S) P := on_cache (get dev b).
Definition frelease (p : P) : M (FS S) unit := on_cache (release p).
Definition fpin (p : P) : M (FS S) unit := on_cache (pin p).
Definition funpin (p : P) : M (FS S) unit := on_cache (unpin p).
Definition fread (p : P) : M (FS S) unit := on_cache (read p).
Definition fwrite (p : P) : M (FS S) unit := on_cache (write p).
Definition fdata (p : P) : M (FS S) bytes := on_cache (data_of p).
Definition fset_data (p : P) (bs : bytes) : M (FS S) unit := on_cache (set_data p bs).
Definition fblock (p : P) : M (FS S) Z := on_cache (block_of p).
End lifted.

(** ** The rules of the lifted operations *)

Section rules.
Context {S P : Type} `{BufferOps S P} (dev : Z) `{!BufferLaws S P dev}.
Implicit Types (s : FS S) (v : view P) (cb : cached P).

Definition frep s v : Prop := rep (dev := dev) (cache s) v.

(** The part of the state outside the cache. *)
Definition same_globals s s' : Prop :=
  superBlock s' = superBlock s ∧ log s' = log s ∧ woken s' = woken s.

Lemma runs_fget s v b (Q : P → FS S → Prop) :
  frep s v → 0 <= b < 2 ^ 32 → fits (dev := dev) ({[b]} ∪ dom (v_cache v)) →
  (∀ cb, v_cache v !! b = Some cb → c_held cb = false ∧ c_refs cb < 2 ^ 32 - 1) →
  (∀ p s', same_globals s s' → p = c_ptr (got p (v_cache v !! b)) →
     frep s' (put_cached b (got p (v_cache v !! b)) v) → Q p s') →
  runs (fget dev b) s Q.
Proof.
  intros R Hb Hf Hc HQ. apply runs_on_cache.
  destruct (get_spec _ _ b R Hb Hf Hc) as (p & c' & E & Hp & R'). apply (runs_ok _ _ _ _ _ E).
  by apply HQ.
Qed.

Lemma runs_frelease s v b cb p (Q : unit → FS S → Prop) :
  frep s v → v_cache v !! b = Some cb → p = c_ptr cb → c_held cb = true →
  (∀ s', same_globals s s' → frep s' (released b cb v) → Q tt s') →
  runs (frelease p) s Q.
Proof.
  intros R Hb -> Hc HQ. apply runs_on_cache.
  destruct (release_spec _ _ b _ R Hb Hc) as (c' & E & R'). apply (runs_ok _ _ _ _ _ E).
  by apply HQ.
Qed.

Lemma runs_fpin s v b cb p (Q : unit → FS S → Prop) :
  frep s v → v_cache v !! b = Some cb → p = c_ptr cb → c_refs cb < 2 ^ 32 - 1 →
  (∀ s', same_globals s s' → frep s' (put_cached b (with_refs cb (c_refs cb + 1)) v) → Q tt s') →
  runs (fpin p) s Q.
Proof.
  intros R Hb -> Hc HQ. apply runs_on_cache.
  destruct (pin_spec _ _ b _ R Hb Hc) as (c' & E & R'). apply (runs_ok _ _ _ _ _ E).
  by apply HQ.
Qed.

Lemma runs_funpin s v b cb p (Q : unit → FS S → Prop) :
  frep s v → v_cache v !! b = Some cb → p = c_ptr cb → 1 < c_refs cb →
  (∀ s', same_globals s s' → frep s' (put_cached b (with_refs cb (c_refs cb - 1)) v) → Q tt s') →
  runs (funpin p) s Q.
Proof.
  intros R Hb -> Hc HQ. apply runs_on_cache.
  destruct (unpin_spec _ _ b _ R Hb Hc) as (c' & E & R'). apply (runs_ok _ _ _ _ _ E).
  by apply HQ.
Qed.

Lemma runs_fread s v b cb p (Q : unit → FS S → Prop) :
  frep s v → v_cache v !! b = Some cb → p = c_ptr cb →
  (∀ s', same_globals s s' →
     frep s' (put_cached b (with_data cb (default (dblock (v_disk v) b) (c_data cb))) v) → Q tt s') →
  runs (fread p) s Q.
Proof.
  intros R Hb -> HQ. apply runs_on_cache.
  destruct (read_spec _ _ b _ R Hb) as (c' & E & R'). apply (runs_ok _ _ _ _ _ E).
  by apply HQ.
Qed.

Lemma runs_fwrite s v b cb p bs (Q : unit → FS S → Prop) :
  frep s v → v_cache v !! b = Some cb → p = c_ptr cb → c_held cb = true → c_data cb = Some bs →
  (∀ s', same_globals s s' → frep s' (disk_write b bs v) → Q tt s') →
  runs (fwrite p) s Q.
Proof.
  intros R Hb -> Hh Hd HQ. apply runs_on_cache.
  destruct (write_spec _ _ b _ _ R Hb Hh Hd) as (c' & E & R'). apply (runs_ok _ _ _ _ _ E).
  by apply HQ.
Qed.

Lemma runs_fdata s v b cb p bs (Q : bytes → FS S → Prop) :
  frep s v → v_cache v !! b = Some cb → p = c_ptr cb → c_data cb = Some bs →
  Q bs s → runs (fdata p) s Q.
Proof.
  intros R Hb -> Hd HQ. apply runs_on_cache.
  pose proof (data_of_spec _ _ b _ _ R Hb Hd) as E. apply (runs_ok _ _ _ _ _ E).
  by destruct s.
Qed.

Lemma runs_fset_data s v b cb p bs bs' (Q : unit → FS S → Prop) :
  frep s v → v_cache v !! b = Some cb → p = c_ptr cb → c_data cb = Some bs → is_block bs' →
  (∀ s', same_globals s s' → frep s' (put_cached b (with_data cb bs') v) → Q tt s') →
  runs (fset_data p bs') s Q.
Proof.
  intros R Hb -> Hd Hbs HQ. apply runs_on_cache.
  destruct (set_data_spec _ _ b _ _ _ R Hb Hd Hbs) as (c' & E & R'). apply (runs_ok _ _ _ _ _ E).
  by apply HQ.
Qed.

Lemma runs_fblock s v b cb p (Q : Z → FS S → Prop) :
  frep s v → v_cache v !! b = Some cb → p = c_ptr cb → Q b s → runs (fblock p) s Q.
Proof.
  intros R Hb -> HQ. apply runs_on_cache.
  pose proof (block_of_spec _ _ b _ R Hb) as E. apply (runs_ok _ _ _ _ _ E).
  by destruct s.
Qed.
End rules.

(** ** Properties *)

Section clients.
Context {S P : Type} `{BufferOps S P}.

(** Replace the contents of a block and keep the buffer pinned. *)
Definition edit (dev b : Z) (bs : bytes) : M (FS S) unit :=
  p ← fget dev b; fread p ;; fset_data p bs ;; fpin p ;; frelease p.

(** Read the contents of a block. *)
Definition fetch (dev b : Z) : M (FS S) bytes :=
  p ← fget dev b; fread p ;; bs ← fdata p; frelease p ;; mret bs.
End clients.

(** What one user of the cache stores in a pinned buffer is what the next
    user reads, and the disk is not touched: [get], [read], a change of the
    data, [pin] and [release], then [get] and [read] again give the new data. *)
Theorem cache_roundtrip {S P : Type} `{BufferOps S P} (dev : Z) `{!BufferLaws S P dev}
    (s : FS S) (v : view P) (b : Z) (bs : bytes)
    (Hrep : frep dev s v) (Hb : 0 <= b < 2 ^ 32) (Hbs : is_block bs)
    (Hfits : fits (dev := dev) ({[b]} ∪ dom (v_cache v)))
    (Hfree : ∀ cb, v_cache v !! b = Some cb → c_held cb = false ∧ 0 < c_refs cb < 2 ^ 32 - 3) :
  ∃ s1 s2 v2, edit dev b bs s = Ok (tt, s1) ∧ fetch dev b s1 = Ok (bs, s2) ∧
    frep dev s2 v2 ∧ v_disk v2 = v_disk v ∧ v_writes v2 = v_writes v.
Proof.
  set (r := match v_cache v !! b with Some cb => c_refs cb | None => 0 end).
  assert (0 <= r < 2 ^ 32 - 3) as Hr.
  { unfold r. destruct (v_cache v !! b) as [cb|] eqn:E; [destruct (Hfree _ eq_refl); lia|lia]. }
  assert (∀ p, c_held (got p (v_cache v !! b)) = true ∧ c_refs (got p (v_cache v !! b)) = r + 1) as Hgot.
  { intros p. unfold r. by destruct (v_cache v !! b). }
  assert (runs (edit dev b bs) s (λ _ s1, ∃ v1 p, frep dev s1 v1 ∧ v_disk v1 = v_disk v ∧
    v_writes v1 = v_writes v ∧ dom (v_cache v1) = {[b]} ∪ dom (v_cache v) ∧
    v_cache v1 !! b = Some (mkCached p (r + 1) false (Some bs)))) as ([] & s1 & E1 & v1 & p & R1 & Ed & Ew & Edom & Ec)%runs_inv.
  { unfold edit. runs_step. apply (runs_fget dev _ _ _ _ Hrep Hb Hfits).
    { intros cb E. destruct (Hfree _ E). split; [done|lia]. }
    intros p s1 _ Hp R1. destruct (Hgot p) as [Hh Hn]. runs_step.
    eapply (runs_fread dev); [exact R1|apply lookup_insert_eq|done|]. intros s2 _ R2. runs_step.
    eapply (runs_fset_data dev); [exact R2|apply lookup_insert_eq|done|done|done|]. intros s3 _ R3.
    runs_step. eapply (runs_fpin dev); [exact R3|apply lookup_insert_eq|done|simpl; lia|].
    intros s4 _ R4. simpl in R4.
    eapply (runs_frelease dev); [exact R4|apply lookup_insert_eq|done|done|].
    intros s5 _ R5. unfold released in R5. simpl in R5. rewrite decide_False in R5 by lia.
    eexists _, _. split; [exact R5|]. simpl. split_and!; [done|done| |].
    - rewrite !dom_insert_L. set_solver.
    - rewrite lookup_insert_eq. do 2 f_equal. lia. }
  assert (runs (fetch dev b) s1 (λ bs' s2, bs' = bs ∧ ∃ v2, frep dev s2 v2 ∧ v_disk v2 = v_disk v ∧
    v_writes v2 = v_writes v)) as (bs' & s2 & E2 & -> & v2 & HH)%runs_inv; [|by exists s1, s2, v2].
  unfold fetch. runs_step. apply (runs_fget dev _ _ _ _ R1 Hb).
  { rewrite Edom. eapply fits_mono; [|exact Hfits]. set_solver. }
  { intros cb. rewrite Ec. intros [= <-]. simpl. split; [done|lia]. }
  rewrite Ec. simpl. intros p' s2 _ -> R2. runs_step.
  eapply (runs_fread dev); [exact R2|apply lookup_insert_eq|done|]. intros s3 _ R3. runs_step.
  eapply (runs_fdata dev); [exact R3|apply lookup_insert_eq|done|done|]. runs_step.
  eapply (runs_frelease dev); [exact R3|apply lookup_insert_eq|done|done|]. intros s4 _ R4.
  runs_step. split; [done|]. eexists. split; [exact R4|]. unfold released. case_decide; done.
Qed.

Definition idle_log : Log := mkLog 2 30 0 false 1 (mkLogHeader 0 (replicate 30 0)).

Definition idle_super : SuperBlock := mkSuperBlock 0x10203040 2000 1900 200 30 2 32 43.

(** A booted file system over a disk of zeros. *)
Definition idle_state : FS BufferCache :=
  mkFS (initializeBufferCache ∅ 1) idle_super idle_log [].

Lemma idle_rep : frep 1 idle_state (mkView ∅ [] ∅).
Proof.
  apply cache_rep_init; [lia|]. intros b. unfold dblock. rewrite lookup_empty. apply is_block_zero.
Qed.

Lemma is_block_replicate x : 0 <= x < 256 → is_block (replicate 1024 x).
Proof.
  intros Hx. split; [by rewrite length_replicate|].
  apply Forall_forall. intros y [-> _]%elem_of_replicate. lia.
Qed.

Lemma cache_roundtrip_witness : ∃ s1 s2,
  edit 1 50 (replicate 1024 7) idle_state = Ok (tt, s1) ∧ fetch 1 50 s1 = Ok (replicate 1024 7, s2).
Proof.
  destruct (cache_roundtrip 1 idle_state (mkView ∅ [] ∅) 50 (replicate 1024 7) idle_rep)
    as (s1 & s2 & v2 & E1 & E2 & _); [lia|by apply is_block_replicate| |done|].
  - apply (fits_mono _ {[50; 50]}); [simpl; set_solver|apply fits_pair].
  - by exists s1, s2.
Defined.

(** The bound of two blocks per bucket is needed.  When three pinned blocks
    fall into one bucket of the table (300 = 44 + 256 and 556 = 44 + 512), the
    cache loses one of them: the block 300 reads as the old block of the disk,
    not as the data that was stored and pinned. *)
Theorem cache_loses_pinned_block :
  ∃ s s', (edit 1 44 (replicate 1024 7) ;; edit 1 300 (replicate 1024 8) ;;
           edit 1 556 (replicate 1024 9)) idle_state = Ok (tt, s) ∧
    fetch 1 300 s = Ok (zero_block, s') ∧ zero_block ≠ replicate 1024 8.
Proof.
  eexists _, _. split; [vm_compute; reflexivity|]. split; [vm_compute; reflexivity|]. done.
Qed.

End FsState.
