(* ===== verification/Log.v ===== *)
(** * The write-ahead log

    [kernel/fs/log.h] and [log.cpp], against the buffer-cache interface.  The
    log of a disk is the header block [start] and the [LOG_SIZE] blocks after
    it.  The spin lock of the log is held for the length of [beginOp],
    [endOp]'s two critical sections and [writeLog]; a wait is the fault
    [WouldSleep]. *)

From S2P Require Import Prelude HashMap SleepMutex Buffer FsState.
Import Buffer FsState.

Module Log.

(** ** Definitions *)

Definition MAX_OP_BLOCKS : Z := 10.

Definition LOG_SIZE : Z := MAX_OP_BLOCKS * 3.

(** Every loop over the header stops after [LOG_SIZE] rounds: the next round
    would leave the array [header.block]. *)
Definition log_fuel : nat := 31.

Section operations.
Context {S P : Type} `{BufferOps S P}.
Implicit Types (buf : P).

(** [log.header.block[i]]. *)
Definition header_block (i : Z) : M (FS S) Z :=
  bs ← gets (λ s, hblock (header (log s)));
  match (if 0 <=? i then bs !! Z.to_nat i else None) with
  | Some b => mret b
  | None => fail OutOfRange
  end.

(** [log.header.block[i] = b]. *)
Definition set_header_block (i b : Z) : M (FS S) unit :=
  h ← gets (λ s, header (log s));
  if (0 <=? i) && (i <? Z.of_nat (length (hblock h))) then
    modify (set_header (mkLogHeader (n h) (<[Z.to_nat i := b]> (hblock h))))
  else fail OutOfRange.

Definition set_n (x : Z) : M (FS S) unit :=
  modify (λ s, set_header (mkLogHeader x (hblock (header (log s)))) s).

Definition readHead : M (FS S) unit :=
  l ← gets log;
  buf ← fget (ldevice l) (u32 (start l));
  fread buf ;;
  hd ← fdata buf;
  set_n (ld64 hd 0) ;;
  for_lt log_fuel 0 (ld64 hd 0) (λ i,
    hd ← fdata buf; set_header_block i (ld32 hd (8 + 4 * i))) ;;
  frelease buf.

Definition writeHead : M (FS S) unit :=
  l ← gets log;
  buf ← fget (ldevice l) (u32 (start l));
  fread buf ;;
  hd ← fdata buf;
  fset_data buf (st64 hd 0 (n (header l))) ;;
  for_lt log_fuel 0 (n (header l)) (λ i,
    b ← header_block i;
    hd ← fdata buf;
    fset_data buf (st32 hd (8 + 4 * i) b)) ;;
  fwrite buf ;;
  frelease buf.

(** One round of [installTransaction]. *)
Definition install_one (l : Log) (recover : bool) (tail : Z) : M (FS S) unit :=
  lbuf ← fget (ldevice l) (u32 (u64 (start l + tail + 1)));
  b ← header_block tail;
  dbuf ← fget (ldevice l) b;
  fread lbuf ;;
  fread dbuf ;;
  src ← fdata lbuf;
  dst ← fdata dbuf;
  fset_data dbuf (copy_block dst src) ;;
  fwrite dbuf ;;
  (if negb recover then funpin dbuf else mret tt) ;;
  frelease lbuf ;;
  frelease dbuf.

Definition installTransaction (recover : bool) : M (FS S) unit :=
  l ← gets log;
  for_lt log_fuel 0 (n (header l)) (install_one l recover).

Definition recover : M (FS S) unit :=
  readHead ;;
  installTransaction true ;;
  set_n 0 ;;
  writeHead.

(** One round of [writeLog()]. *)
Definition write_one (l : Log) (tail : Z) : M (FS S) unit :=
  to ← fget (ldevice l) (u32 (u64 (start l + tail + 1)));
  b ← header_block tail;
  from ← fget (ldevice l) b;
  fread to ;;
  fread from ;;
  src ← fdata from;
  dst ← fdata to;
  fset_data to (copy_block dst src) ;;
  fwrite to ;;
  frelease from ;;
  frelease to.

(** [writeLog()]: the cached blocks to the blocks of the log. *)
Definition writeLog : M (FS S) unit :=
  l ← gets log;
  for_lt log_fuel 0 (n (header l)) (write_one l).

Definition commit : M (FS S) unit :=
  l ← gets log;
  if 0 <? n (header l) then
    writeLog ;;
    writeHead ;;
    installTransaction false ;;
    set_n 0 ;;
    writeHead
  else mret tt.

Definition initializeLog (device : Z) (sb : SuperBlock) : M (FS S) unit :=
  modify (λ s, set_log (mkLog (s32 (logStart sb)) (numLogs sb) (outstanding (log s))
    (committing (log s)) device (header (log s))) s) ;;
  recover.

Definition set_outstanding (o : Z) (c : bool) : M (FS S) unit :=
  modify (λ s, set_log (mkLog (start (log s)) (size (log s)) o c
    (ldevice (log s)) (header (log s))) s).

Definition beginOp : M (FS S) unit :=
  l ← gets log;
  if committing l then fail WouldSleep
  else if LOG_SIZE <? u64 (n (header l) + u64 (s32 (outstanding l + 1) * MAX_OP_BLOCKS))
  then fail WouldSleep
  else set_outstanding (s32 (outstanding l + 1)) (committing l).

Definition endOp : M (FS S) unit :=
  l ← gets log;
  assert (negb (committing l)) ;;
  let o := s32 (outstanding l - 1) in
  if o =? 0 then
    set_outstanding o true ;;
    commit ;;
    l ← gets log;
    set_outstanding (outstanding l) false ;;
    wakeup ChanLog
  else
    set_outstanding o (committing l) ;;
    wakeup ChanLog.

(** The search loop of [writeLog(buf)]. *)
Fixpoint find_block (fuel : nat) (i b : Z) : M (FS S) Z :=
  hn ← gets (λ s, n (header (log s)));
  if i <? hn then
    match fuel with
    | O => fail NoFuel
    | Datatypes.S f =>
        b' ← header_block i;
        if b' =? b then mret i else find_block f (i + 1) b
    end
  else mret i.

(** [writeLog(buf)]. *)
Definition writeLog_buf (buf : P) : M (FS S) unit :=
  l ← gets log;
  assert (n (header l) <? LOG_SIZE) ;;
  assert (n (header l) <? u64 (size l - 1)) ;;
  assert (1 <=? outstanding l) ;;
  b ← fblock buf;
  i ← find_block log_fuel 0 b;
  set_header_block i b ;;
  if i =? n (header l) then
    fpin buf ;;
    set_n (u64 (n (header l) + 1))
  else mret tt.
End operations.

(** ** The log on disk *)

(** The header of the log of a disk. *)
Definition hdr_n (d : gmap Z bytes) (st : Z) : Z := ld64 (dblock d st) 0.

Definition hdr_block (d : gmap Z bytes) (st i : Z) : Z := ld32 (dblock d st) (8 + 4 * i).

(** The installations the log asks for, oldest first. *)
Definition logged (d : gmap Z bytes) (st : Z) : list (Z * bytes) :=
  (λ i, (hdr_block d st i, dblock d (st + 1 + i))) <$> seqZ 0 (hdr_n d st).

(** What recovery makes of a disk: the disk with its log installed. *)
Definition recovered (d : gmap Z bytes) (st : Z) : gmap Z bytes := replay d (logged d st).

Definition in_log (st b : Z) : Prop := st <= b <= st + LOG_SIZE.

#[export] Instance in_log_dec st b : Decision (in_log st b).
Proof. unfold in_log. apply _. Defined.

(** Two disks with the same blocks outside the log. *)
Definition same_data (st : Z) (d d' : gmap Z bytes) : Prop :=
  ∀ b, ¬ in_log st b → dblock d b = dblock d' b.

#[export] Instance same_data_equiv st : Equivalence (same_data st).
Proof.
  split.
  - by intros d b.
  - intros d d' E b Hb. by rewrite E.
  - intros d d' d'' E E' b Hb. by rewrite E, E'.
Qed.

(** The log header is within bounds and names blocks outside the log. *)
Definition hdr_ok (d : gmap Z bytes) (st : Z) : Prop :=
  hdr_n d st <= LOG_SIZE ∧
  ∀ i, 0 <= i < hdr_n d st → ¬ in_log st (hdr_block d st i).

(** The header block with [bs] as its first entries. *)
Fixpoint store_blocks (hd : bytes) (i : Z) (bs : list Z) : bytes :=
  match bs with
  | [] => hd
  | b :: bs' => store_blocks (st32 hd (8 + 4 * i) b) (i + 1) bs'
  end.

(** ** Lemmas on headers *)

Lemma store_blocks_app hd i bs bs' :
  store_blocks hd i (bs ++ bs') = store_blocks (store_blocks hd i bs) (i + Z.of_nat (length bs)) bs'.
Proof.
  revert hd i; induction bs as [|b bs IH]; intros hd i; simpl; [by rewrite Z.add_0_r|].
  rewrite IH. f_equal. lia.
Qed.

Lemma is_block_store_blocks hd i bs : is_block hd → is_block (store_blocks hd i bs).
Proof.
  revert hd i; induction bs as [|b bs IH]; intros hd i Hd; simpl; [done|].
  by apply IH, is_block_stN.
Qed.

Lemma valid_addr_block hd a : is_block hd → valid_addr hd a ↔ 0 <= a < BLOCK_SIZE.
Proof. intros [Hl _]. unfold valid_addr; simpl. by rewrite Hl. Qed.

(** The entries do not overlap the words below them. *)
Lemma ldN_store_blocks_below k hd i bs a :
  a + Z.of_nat k <= 8 + 4 * i → ldN k (store_blocks hd i bs) a = ldN k hd a.
Proof.
  revert hd i; induction bs as [|b bs IH]; intros hd i Ha; simpl; [done|].
  rewrite IH by lia. apply ldN_stN_ne. lia.
Qed.

Lemma ld32_store_blocks hd i bs (j : nat) b :
  is_block hd → 0 <= i → i + Z.of_nat (length bs) <= LOG_SIZE → bs !! j = Some b → 0 <= b < 2 ^ 32 →
  ld32 (store_blocks hd i bs) (8 + 4 * (i + Z.of_nat j)) = b.
Proof.
  unfold LOG_SIZE, MAX_OP_BLOCKS.
  revert hd i j; induction bs as [|b' bs IH]; intros hd i j Hd Hi Hle Hj Hb; [done|].
  simpl in Hle. destruct j as [|j]; simpl in *.
  - injection Hj as ->. rewrite Z.add_0_r, ldN_store_blocks_below by lia.
    rewrite ldN_stN_eq; [by apply Z.mod_small|].
    intros k Hk. rewrite valid_addr_block by done. unfold BLOCK_SIZE. lia.
  - replace (i + Z.of_nat (S j)) with (i + 1 + Z.of_nat j) by lia.
    apply IH; auto; [by apply is_block_stN|lia|lia].
Qed.

Lemma dblock_replay_notin d ws b : b ∉ ws.*1 → dblock (replay d ws) b = dblock d b.
Proof.
  revert d; induction ws as [|[b' bs] ws IH]; intros d Hb; [done|].
  rewrite fmap_cons, not_elem_of_cons in Hb. destruct Hb as [Hne Hb]. simpl.
  rewrite IH by done. rewrite dblock_insert. by rewrite decide_False.
Qed.

(** The last write to a block determines it. *)
Lemma dblock_replay_in d d' ws b : b ∈ ws.*1 → dblock (replay d ws) b = dblock (replay d' ws) b.
Proof.
  revert d d'; induction ws as [|[b' bs] ws IH]; intros d d' Hb; [by apply not_elem_of_nil in Hb|].
  simpl. destruct (decide (b ∈ ws.*1)) as [Hin|Hn]; [by apply IH|].
  rewrite !dblock_replay_notin, !dblock_insert by done.
  rewrite fmap_cons in Hb. apply elem_of_cons in Hb as [->|]; [|done].
  by rewrite !decide_True.
Qed.

Lemma replay_same_data st d d' ws : same_data st d d' → same_data st (replay d ws) (replay d' ws).
Proof.
  intros E b Hb. destruct (decide (b ∈ ws.*1)); [by apply dblock_replay_in|].
  rewrite !dblock_replay_notin by done. by apply E.
Qed.

Lemma replay_in_log st d ws : (∀ b, b ∈ ws.*1 → in_log st b) → same_data st (replay d ws) d.
Proof. intros Hw b Hb. apply dblock_replay_notin. intros Hin. by apply Hb, Hw. Qed.

(** Writes of whole blocks keep the disk well formed. *)
Lemma replay_blocks d ws : (∀ b, is_block (dblock d b)) → Forall (λ w, is_block w.2) ws →
  ∀ b, is_block (dblock (replay d ws) b).
Proof.
  intros Hd Hw. revert d Hd; induction Hw as [|[b' bs] ws Hbs Hw IH]; intros d Hd; [done|].
  apply IH. intros b. rewrite dblock_insert. by case_decide.
Qed.

(** Repeating a prefix of the writes first changes nothing. *)
Lemma replay_prefix d ws1 ws b : ws1.*1 ⊆ ws.*1 →
  dblock (replay (replay d ws1) ws) b = dblock (replay d ws) b.
Proof.
  intros Hs. destruct (decide (b ∈ ws.*1)) as [|Hn]; [by apply dblock_replay_in|].
  rewrite !(dblock_replay_notin _ ws) by done. apply dblock_replay_notin. set_solver.
Qed.

Lemma seqZ_snoc a m : 0 <= m → seqZ a (m + 1) = seqZ a m ++ [a + m].
Proof.
  intros Hm. rewrite seqZ_app by lia. f_equal.
Qed.

Lemma logged_0 d st : hdr_n d st = 0 → logged d st = [].
Proof. intros E. unfold logged. by rewrite E. Qed.

(** The log is determined by the blocks of the log. *)
Lemma logged_ext d d' st : hdr_n d st <= LOG_SIZE →
  (∀ b, in_log st b → dblock d b = dblock d' b) → logged d st = logged d' st.
Proof.
  unfold LOG_SIZE, MAX_OP_BLOCKS, in_log.
  intros Hn E. assert (hdr_n d' st = hdr_n d st) as En.
  { unfold hdr_n. rewrite E; [done|]. unfold LOG_SIZE, MAX_OP_BLOCKS. lia. }
  unfold logged. rewrite En. apply list_fmap_ext. intros k i Hi.
  apply lookup_seqZ in Hi as [-> Hk]. unfold hdr_block.
  rewrite !E by (unfold LOG_SIZE, MAX_OP_BLOCKS; lia). done.
Qed.

(** ** The rules of the log's operations *)

(** Equations between updates of a view. *)
Ltac view_eq :=
  unfold released, drop_cached, put_cached, disk_write, with_cache, with_refs, with_data, got; simpl;
  repeat match goal with |- context [decide ?P] => destruct (decide P); simpl; try (simpl in *; lia) end;
  rewrite ?Z.add_simpl_r; f_equal; apply map_eq; intros ?k;
  repeat match goal with
  | |- context [<[?a := _]> _ !! ?a] => rewrite lookup_insert_eq
  | |- context [delete ?a _ !! ?a] => rewrite lookup_delete_eq
  | |- context [<[?a := _]> _ !! ?b] =>
      destruct (decide (b = a)) as [->|]; [rewrite lookup_insert_eq|rewrite lookup_insert_ne by done]
  | |- context [delete ?a _ !! ?b] =>
      destruct (decide (b = a)) as [->|]; [rewrite lookup_delete_eq|rewrite lookup_delete_ne by done]
  end; try done; try congruence.

(** Dropping the log's reference to the cached block [b]. *)
Definition unpin_cache {P} (b : Z) (c : gmap Z (cached P)) : gmap Z (cached P) :=
  match c !! b with
  | Some cb =>
      if decide (c_refs cb = 1) then delete b c
      else <[b := mkCached (c_ptr cb) (c_refs cb - 1) false (c_data cb)]> c
  | None => c
  end.

Definition unpin_all {P} (bs : list Z) (v : view P) : view P :=
  with_cache v (fold_left (λ c b, unpin_cache b c) bs (v_cache v)).

(** A sequence of writes to the disk. *)
Definition disk_writes {P} (ws : list (Z * bytes)) (v : view P) : view P :=
  mkView (replay (v_disk v) ws) (v_writes v ++ ws) (v_cache v).

(** The blocks of the log. *)
Definition log_blocks (st : Z) : gset Z := list_to_set (seqZ st (LOG_SIZE + 1)).

(** The writes of [writeLog()] and of [installTransaction], for the logged
    blocks [bs] with the contents [D]. *)
Definition log_writes (st : Z) (D : Z → bytes) (bs : list Z) : list (Z * bytes) :=
  imap (λ i b, (st + 1 + Z.of_nat i, D b)) bs.

Definition install_writes (D : Z → bytes) (bs : list Z) : list (Z * bytes) :=
  (λ b, (b, D b)) <$> bs.

Section rules.
Context {S P : Type} `{BufferOps S P} (dev : Z) `{!BufferLaws S P dev}.
Implicit Types (s : FS S) (v : view P) (cb : cached P).

Abbreviation frep := (frep dev).
Abbreviation fits := (fits (dev := dev)).

Lemma frep_eq s v1 v2 : frep s v1 → v1 = v2 → frep s v2.
Proof. by intros R <-. Qed.

Lemma same_globals_trans s1 s2 s3 : same_globals s1 s2 → same_globals s2 s3 → same_globals s1 s3.
Proof. unfold same_globals. intros (?&?&?) (?&?&?). split_and!; congruence. Qed.

Lemma runs_header_block s i b (Q : Z → FS S → Prop) :
  hblock (header (log s)) !! i = Some b → Q b s → runs (header_block (Z.of_nat i)) s Q.
Proof.
  intros E HQ. unfold header_block. runs_step. runs_step.
  rewrite (proj2 (Z.leb_le _ _)), Nat2Z.id, E by lia. by apply runs_ret.
Qed.

(** A round of [writeLog()] writes the cached block [b] to the block [l]. *)
Lemma runs_write_one s v lg (j : nat) b cb d :
  frep s v → log s = lg → ldevice lg = dev →
  hblock (header lg) !! j = Some b → v_cache v !! b = Some cb →
  c_held cb = false → c_refs cb < 2 ^ 32 - 1 → 1 <= c_refs cb → c_data cb = Some d → 0 <= b < 2 ^ 32 →
  let l := start lg + 1 + Z.of_nat j in
  0 <= l < 2 ^ 32 → v_cache v !! l = None → fits ({[l]} ∪ dom (v_cache v)) →
  runs (write_one lg (Z.of_nat j)) s
    (λ _ s', same_globals s s' ∧ frep s' (disk_write l d v)).
Proof.
  intros R Hlg Hdev Hj Hb Hheld Hmax Hmin Hd Hb32 l Hl Hnl Hfit.
  assert (l ≠ b) as Hlb by congruence.
  assert (is_block d) as Hblk by by apply (rep_data _ _ _ _ _ R Hb).
  unfold write_one. rewrite Hdev, (wrap_small 64), (wrap_small 32) by lia.
  replace (start lg + Z.of_nat j + 1) with l by lia. clearbody l.
  runs_step. apply (runs_fget dev _ _ _ _ R Hl Hfit); [congruence|]. rewrite Hnl.
  intros p1 s1 G1 _ R1. runs_step. apply (runs_header_block _ _ b).
  { destruct G1 as (_ & -> & _). by rewrite Hlg. }
  runs_step. apply (runs_fget dev _ _ _ _ R1 Hb32).
  { apply (fits_mono _ ({[l]} ∪ dom (v_cache v))); [|done].
    simpl. rewrite dom_insert. apply elem_of_dom_2 in Hb. set_solver. }
  { simpl. rewrite lookup_insert_ne by done. intros cb' E. simplify_eq. done. }
  simpl. rewrite lookup_insert_ne, Hb by done. simpl.
  intros p2 s2 G2 -> R2.
  runs_step. eapply (runs_fread dev); [exact R2|simpl; rewrite lookup_insert_ne, lookup_insert_eq by done; done|done|].
  intros s3 G3 R3. simpl in R3.
  runs_step. eapply (runs_fread dev); [exact R3|simpl; rewrite lookup_insert_ne, lookup_insert_eq by done; done|done|].
  intros s4 G4 R4. simpl in R4. rewrite Hd in R4. simpl in R4.
  runs_step. eapply (runs_fdata dev); [exact R4|simpl; rewrite lookup_insert_eq by done; done|done|done|].
  runs_step. eapply (runs_fdata dev); [exact R4|simpl; rewrite lookup_insert_ne, lookup_insert_eq by done; done|done|done|].
  rewrite copy_block_eq by (done || apply (rep_block _ _ _ R)).
  runs_step. eapply (runs_fset_data dev); [exact R4|simpl; rewrite lookup_insert_ne, lookup_insert_eq by done; done|done|done|done|].
  intros s5 G5 R5. simpl in R5.
  runs_step. eapply (runs_fwrite dev); [exact R5|simpl; rewrite lookup_insert_eq by done; done|done|done|done|].
  intros s6 G6 R6. simpl in R6.
  runs_step. eapply (runs_frelease dev); [exact R6|simpl; rewrite lookup_insert_ne, lookup_insert_eq by done; done|done|done|].
  intros s7 G7 R7. eapply (runs_frelease dev); [exact R7|unfold released; simpl;
    rewrite decide_False by lia; simpl; rewrite lookup_insert_ne, lookup_insert_eq by done; done|done|done|].
  intros s8 G8 R8. split; [eauto 10 using same_globals_trans|].
  apply (frep_eq _ _ _ R8).
  destruct v as [dk w c]; simpl in *. destruct cb as [cp cr ch cd]; simpl in *. subst. view_eq.
Qed.

(** A block the commit may install: cached, read, and held by nobody. *)
Definition pinned v (b : Z) (d : bytes) : Prop :=
  ∃ cb, v_cache v !! b = Some cb ∧ c_held cb = false ∧
    1 <= c_refs cb < 2 ^ 32 - 1 ∧ c_data cb = Some d.

(** The end of an installation: the home block is unpinned unless this is a
    recovery, and both buffers are released. *)
Lemma runs_install_release s v (rec : bool) p1 p2 b l d (cb2 := got p2 (v_cache v !! b)) :
  frep s (disk_write b d (put_cached b (with_data cb2 d) (put_cached l (mkCached p1 1 true (Some d)) v))) →
  l ≠ b → v_cache v !! l = None → c_ptr cb2 = p2 → c_held cb2 = true →
  (if rec then v_cache v !! b = None else pinned v b d) →
  runs ((if negb rec then funpin p2 else mret tt) ;; frelease p1 ;; frelease p2) s
    (λ _ s', same_globals s s' ∧ frep s' (disk_write b d (if rec then v else unpin_all [b] v))).
Proof.
  intros R6' Hlb Hnl Hpp2 Hh2 Hrec. runs_step.
  destruct rec; simpl.
  - runs_step. runs_step.
    eapply (runs_frelease dev); [exact R6'|simpl; rewrite lookup_insert_ne, lookup_insert_eq by done; done|done|done|].
    intros s7 G7 R7.
    eapply (runs_frelease dev); [exact R7|unfold released; simpl; rewrite lookup_delete_ne, lookup_insert_eq by done; done|done|done|].
    intros s8 G8 R8. split; [eauto 10 using same_globals_trans|]. apply (frep_eq _ _ _ R8).
    destruct v as [dk w c]; simpl in *. unfold cb2. rewrite Hrec. view_eq.
  - destruct Hrec as (cb & Hcb & Hch & Hcr & Hcd).
    eapply (runs_funpin dev); [exact R6'|simpl; rewrite lookup_insert_eq by done; done|done| |].
    { unfold cb2. rewrite Hcb. simpl. lia. }
    intros s7 G7 R7. runs_step.
    eapply (runs_frelease dev); [exact R7|simpl; rewrite !lookup_insert_ne, lookup_insert_eq by done; done|done|done|].
    intros s8 G8 R8. unfold unpin_all, unpin_cache; simpl.
    eapply (runs_frelease dev); [exact R8|unfold released; simpl; rewrite lookup_delete_ne, lookup_insert_eq by done; done|done|done|].
    intros s9 G9 R9. split; [eauto 10 using same_globals_trans|]. apply (frep_eq _ _ _ R9).
    clear - Hcb Hch Hcr Hcd Hnl Hlb. subst cb2. rewrite Hcb.
    destruct v as [dk w c], cb as [cp cr ch cd]; simpl in *. subst. view_eq.
Qed.

(** A round of [installTransaction]: the block [l] of the log goes to [b]. *)
Lemma runs_install_one s v lg (rec : bool) (j : nat) b d :
  frep s v → log s = lg → ldevice lg = dev →
  hblock (header lg) !! j = Some b → 0 <= b < 2 ^ 32 →
  (if rec then v_cache v !! b = None else pinned v b d) →
  let l := start lg + 1 + Z.of_nat j in
  0 <= l < 2 ^ 32 → l ≠ b → v_cache v !! l = None → dblock (v_disk v) l = d →
  fits ({[l; b]} ∪ dom (v_cache v)) →
  runs (install_one lg rec (Z.of_nat j)) s
    (λ _ s', same_globals s s' ∧ frep s' (disk_write b d (if rec then v else unpin_all [b] v))).
Proof.
  intros R Hlg Hdev Hj Hb32 Hrec l Hl Hlb Hnl Hd Hfit.
  assert (is_block d) as Hblk by (rewrite <- Hd; apply (rep_block _ _ _ R)).
  unfold install_one. rewrite Hdev, (wrap_small 64), (wrap_small 32) by lia.
  replace (start lg + Z.of_nat j + 1) with l by lia. clearbody l.
  runs_step. apply (runs_fget dev _ _ _ _ R Hl); [|congruence|].
  { apply (fits_mono _ ({[l; b]} ∪ dom (v_cache v))); [set_solver|done]. }
  rewrite Hnl. intros p1 s1 G1 _ R1. runs_step. apply (runs_header_block _ _ b).
  { destruct G1 as (_ & -> & _). by rewrite Hlg. }
  runs_step. apply (runs_fget dev _ _ _ _ R1 Hb32).
  { apply (fits_mono _ ({[l; b]} ∪ dom (v_cache v))); [|done].
    simpl. rewrite dom_insert. set_solver. }
  { simpl. rewrite lookup_insert_ne by done. intros cb' E. destruct rec; [congruence|].
    destruct Hrec as (cb & Hcb & ? & ? & ?). rewrite Hcb in E. injection E as <-. split; [done|lia]. }
  simpl. rewrite lookup_insert_ne by done. intros p2 s2 G2 Hp2 R2.
  set (cb2 := got p2 (v_cache v !! b)) in *.
  assert (c_held cb2 = true ∧ c_ptr cb2 = p2 ∧
          default (dblock (v_disk v) b) (c_data cb2) = default (dblock (v_disk v) b) (v_cache v !! b ≫= c_data))
    as (Hh2 & Hpp2 & Hdd).
  { unfold cb2 in *. by destruct (v_cache v !! b). }
  runs_step. eapply (runs_fread dev); [exact R2|simpl; rewrite lookup_insert_ne, lookup_insert_eq by done; done|done|].
  intros s3 G3 R3. simpl in R3. rewrite Hd in R3.
  runs_step. eapply (runs_fread dev); [exact R3|simpl; rewrite lookup_insert_ne, lookup_insert_eq by done; done|done|].
  intros s4 G4 R4. simpl in R4. set (dd := default _ (c_data cb2)) in R4.
  assert (is_block dd) as Hdblk.
  { apply (rep_data _ _ b (with_data cb2 dd) dd R4); [|done]. simpl. apply lookup_insert_eq. }
  runs_step. eapply (runs_fdata dev); [exact R4|simpl; rewrite lookup_insert_ne, lookup_insert_eq by done; done|done|done|].
  runs_step. eapply (runs_fdata dev); [exact R4|simpl; rewrite lookup_insert_eq by done; done|done|done|].
  rewrite copy_block_eq by done.
  runs_step. eapply (runs_fset_data dev); [exact R4|simpl; rewrite lookup_insert_eq by done; done|done|done|done|].
  intros s5 G5 R5. simpl in R5.
  runs_step. eapply (runs_fwrite dev); [exact R5|simpl; rewrite lookup_insert_eq by done; done|done|done|done|].
  intros s6 G6 R6. simpl in R6.
  assert (frep s6 (disk_write b d (put_cached b (with_data cb2 d)
            (put_cached l (mkCached p1 1 true (Some d)) v)))) as R6'.
  { apply (frep_eq _ _ _ R6).
    destruct v as [dk w c]; simpl in *. view_eq. }
  clear R6.
  assert (same_globals s s6) as G by eauto 10 using same_globals_trans.
  clear G1 G2 G3 G4 G5 G6 R1 R2 R3 R4 R5.
  eapply runs_mono; [by apply (runs_install_release s6 v rec p1 p2 b l d)|].
  intros a s7 [G7 R7]. split; [eauto using same_globals_trans|done].
Qed.

Definition with_header (lg : Log) (h : LogHeader) : Log :=
  mkLog (start lg) (size lg) (outstanding lg) (committing lg) (ldevice lg) h.

(** The state outside the cache is as in [s], apart from the log. *)
Definition log_is (s s' : FS S) (lg : Log) : Prop :=
  superBlock s' = superBlock s ∧ log s' = lg ∧ woken s' = woken s.

Lemma log_is_globals s s1 s2 lg : log_is s s1 lg → same_globals s1 s2 → log_is s s2 lg.
Proof. unfold log_is, same_globals. intros (?&?&?) (?&?&?). split_and!; congruence. Qed.

Lemma globals_log_is s s1 s2 lg : same_globals s s1 → log_is s1 s2 lg → log_is s s2 lg.
Proof. unfold log_is, same_globals. intros (?&?&?) (?&?&?). split_and!; congruence. Qed.

Lemma log_is_trans s s1 s2 lg lg' : log_is s s1 lg → log_is s1 s2 lg' → log_is s s2 lg'.
Proof. unfold log_is. intros (?&?&?) (?&?&?). split_and!; congruence. Qed.

(** Fetching and reading a block that is not cached. *)
Lemma runs_get_read {B} s v b (k : P → M (FS S) B) (Q : B → FS S → Prop) :
  frep s v → 0 <= b < 2 ^ 32 → v_cache v !! b = None → fits ({[b]} ∪ dom (v_cache v)) →
  (∀ p s', same_globals s s' →
     frep s' (put_cached b (mkCached p 1 true (Some (dblock (v_disk v) b))) v) → runs (k p) s' Q) →
  runs (p ← fget dev b; fread p ;; k p) s Q.
Proof.
  intros R Hb Hn Hf HQ. runs_step. apply (runs_fget dev _ _ _ _ R Hb Hf); [congruence|].
  rewrite Hn. intros p s1 G1 _ R1. runs_step.
  eapply (runs_fread dev); [exact R1|apply lookup_insert_eq|done|].
  intros s2 G2 R2. apply HQ; [eauto using same_globals_trans|]. apply (frep_eq _ _ _ R2).
  destruct v; simpl in *. view_eq.
Qed.

(** Releasing such a block. *)
Lemma runs_release_last s v b p bs (Q : unit → FS S → Prop) :
  frep s (put_cached b (mkCached p 1 true (Some bs)) v) → v_cache v !! b = None →
  (∀ s', same_globals s s' → frep s' v → Q tt s') → runs (frelease p) s Q.
Proof.
  intros R Hn HQ. eapply (runs_frelease dev); [exact R|apply lookup_insert_eq|done|done|].
  intros s1 G1 R1. apply HQ; [done|]. apply (frep_eq _ _ _ R1).
  destruct v; simpl in *. view_eq.
Qed.

Lemma runs_readHead s v lg :
  frep s v → log s = lg → ldevice lg = dev → 0 <= start lg < 2 ^ 32 →
  Z.of_nat (length (hblock (header lg))) = LOG_SIZE → hdr_n (v_disk v) (start lg) <= LOG_SIZE →
  v_cache v !! start lg = None → fits ({[start lg]} ∪ dom (v_cache v)) →
  runs readHead s (λ _ s', ∃ hb,
    log_is s s' (with_header lg (mkLogHeader (hdr_n (v_disk v) (start lg)) hb)) ∧
    Z.of_nat (length hb) = LOG_SIZE ∧ frep s' v ∧
    ∀ i : nat, Z.of_nat i < hdr_n (v_disk v) (start lg) →
      hb !! i = Some (hdr_block (v_disk v) (start lg) (Z.of_nat i))).
Proof.
  unfold LOG_SIZE, MAX_OP_BLOCKS. intros R Hlg Hdev Hst Hlen Hn Hnc Hfit.
  unfold readHead. runs_step. runs_step. rewrite Hlg, Hdev, wrap_small by lia.
  apply (runs_get_read s v); auto. intros p s1 G1 R1.
  set (hd := dblock (v_disk v) (start lg)) in *. set (N := hdr_n (v_disk v) (start lg)) in *.
  runs_step. eapply (runs_fdata dev); [exact R1|apply lookup_insert_eq|done|done|].
  change (ld64 hd 0) with N. runs_step. unfold set_n. runs_step. runs_step.
  assert (0 <= N) by apply ldN_range.
  apply (runs_for_lt (λ j s', ∃ hb, log_is s s' (with_header lg (mkLogHeader N hb)) ∧
    Z.of_nat (length hb) = 30 ∧
    frep s' (put_cached (start lg) (mkCached p 1 true (Some hd)) v) ∧
    ∀ i : nat, Z.of_nat i < j → hb !! i = Some (hdr_block (v_disk v) (start lg) (Z.of_nat i)))).
  - exists (hblock (header lg)). destruct G1 as (E1 & E2 & E3). split_and!; auto; [|intros; lia].
    split_and!; simpl; [done| |done]. rewrite E2, Hlg. done.
  - done.
  - unfold log_fuel. lia.
  - intros j s2 Hj (hb & (Gs & Gl & Gw) & Hhb & R2 & Hpre). runs_step.
    eapply (runs_fdata dev); [exact R2|apply lookup_insert_eq|done|done|].
    unfold set_header_block. runs_step. runs_step. rewrite Gl. simpl.
    rewrite (proj2 (Z.leb_le _ _)), (proj2 (Z.ltb_lt _ _)) by lia. simpl. runs_step.
    exists (<[Z.to_nat j := ld32 hd (8 + 4 * j)]> hb). split_and!.
    + split_and!; simpl; [done| |done]. unfold with_header. by rewrite Gl.
    + by rewrite length_insert.
    + exact R2.
    + intros i Hi. destruct (decide (i = Z.to_nat j)) as [->|Hne].
      * rewrite list_lookup_insert_eq by lia. unfold hdr_block. by rewrite Z2Nat.id by lia.
      * rewrite list_lookup_insert_ne by done. apply Hpre. lia.
  - intros s2 (hb & G2 & Hhb & R2 & Hpre). apply (runs_release_last _ _ _ _ _ _ R2 Hnc).
    intros s3 G3 R3. exists hb. split_and!; auto. by apply (log_is_globals _ s2).
Qed.

(** The header block that [writeHead] writes over [hd]. *)
Definition header_data (hd : bytes) (h : LogHeader) : bytes :=
  store_blocks (st64 hd 0 (n h)) 0 (take (Z.to_nat (n h)) (hblock h)).

Lemma is_block_header_data hd h : is_block hd → is_block (header_data hd h).
Proof. intros. by apply is_block_store_blocks, is_block_stN. Qed.

Lemma runs_writeHead s v lg :
  frep s v → log s = lg → ldevice lg = dev → 0 <= start lg < 2 ^ 32 →
  Z.of_nat (length (hblock (header lg))) = LOG_SIZE → 0 <= n (header lg) <= LOG_SIZE →
  v_cache v !! start lg = None → fits ({[start lg]} ∪ dom (v_cache v)) →
  runs writeHead s (λ _ s', same_globals s s' ∧
    frep s' (disk_write (start lg) (header_data (dblock (v_disk v) (start lg)) (header lg)) v)).
Proof.
  unfold LOG_SIZE, MAX_OP_BLOCKS. intros R Hlg Hdev Hst Hlen Hn Hnc Hfit.
  unfold writeHead. runs_step. runs_step. rewrite Hlg, Hdev, wrap_small by lia.
  apply (runs_get_read s v); auto. intros p s1 G1 R1.
  set (hd := dblock (v_disk v) (start lg)) in *. set (N := n (header lg)) in *.
  assert (is_block hd) as Hhd by apply (rep_block _ _ _ R).
  runs_step. eapply (runs_fdata dev); [exact R1|apply lookup_insert_eq|done|done|].
  runs_step. eapply (runs_fset_data dev); [exact R1|apply lookup_insert_eq|done|done|by apply is_block_stN|].
  intros s2 G2 R2. runs_step.
  apply (runs_for_lt (λ j s', same_globals s s' ∧
    frep s' (put_cached (start lg) (mkCached p 1 true
      (Some (store_blocks (st64 hd 0 N) 0 (take (Z.to_nat j) (hblock (header lg)))))) v))).
  - split; [eauto using same_globals_trans|]. apply (frep_eq _ _ _ R2).
    destruct v; simpl in *. view_eq.
  - lia.
  - unfold log_fuel. lia.
  - intros j s3 Hj (G3 & R3).
    destruct (lookup_lt_is_Some_2 (hblock (header lg)) (Z.to_nat j)) as [b Hb]; [lia|].
    runs_step. rewrite <- (Z2Nat.id j) at 1 by lia. apply (runs_header_block _ _ b).
    { destruct G3 as (_ & -> & _). by rewrite Hlg. }
    runs_step. eapply (runs_fdata dev); [exact R3|apply lookup_insert_eq|done|done|].
    eapply (runs_fset_data dev); [exact R3|apply lookup_insert_eq|done|done| |].
    { by apply is_block_stN, is_block_store_blocks, is_block_stN. }
    intros s4 G4 R4. split; [eauto using same_globals_trans|]. apply (frep_eq _ _ _ R4).
    replace (Z.to_nat (j + 1)) with (Datatypes.S (Z.to_nat j)) by lia.
    rewrite (take_S_r _ _ _ Hb), store_blocks_app, length_take. simpl.
    replace (Z.of_nat (Z.to_nat j `min` length (hblock (header lg)))) with j by lia.
    destruct v; simpl in *. view_eq.
  - intros s3 (G3 & R3). runs_step.
    eapply (runs_fwrite dev); [exact R3|apply lookup_insert_eq|done|done|done|].
    intros s4 G4 R4. apply (runs_release_last s4 (disk_write (start lg) (header_data hd (header lg)) v) (start lg) p
      (header_data hd (header lg))); [|done|].
    + revert R4. done.
    + intros s5 G5 R5. split; [eauto using same_globals_trans|done].
Qed.

Lemma elem_of_log_blocks st b : b ∈ log_blocks st ↔ in_log st b.
Proof.
  unfold log_blocks, in_log, LOG_SIZE, MAX_OP_BLOCKS.
  rewrite elem_of_list_to_set, elem_of_seqZ. lia.
Qed.

Lemma disk_writes_snoc ws b d v :
  disk_write b d (disk_writes ws v) = disk_writes (ws ++ [(b, d)]) v.
Proof. unfold disk_write, disk_writes. simpl. by rewrite replay_app, app_assoc. Qed.

Lemma disk_writes_app ws ws' v : disk_writes ws' (disk_writes ws v) = disk_writes (ws ++ ws') v.
Proof. unfold disk_writes. simpl. by rewrite replay_app, app_assoc. Qed.

Lemma disk_writes_nil v : disk_writes [] v = v.
Proof. destruct v. unfold disk_writes. simpl. by rewrite app_nil_r. Qed.

Lemma log_writes_snoc st D bs b :
  log_writes st D (bs ++ [b]) = log_writes st D bs ++ [(st + 1 + Z.of_nat (length bs), D b)].
Proof. unfold log_writes. rewrite imap_app. simpl. by rewrite Nat.add_0_r. Qed.

Lemma lookup_unpin_cache b (c : gmap Z (cached P)) b' : b' ≠ b → unpin_cache b c !! b' = c !! b'.
Proof.
  intros Hne. unfold unpin_cache. destruct (c !! b); [|done].
  case_decide; [by rewrite lookup_delete_ne|by rewrite lookup_insert_ne].
Qed.

Lemma lookup_unpin_all bs (c : gmap Z (cached P)) b :
  b ∉ bs → fold_left (λ c b, unpin_cache b c) bs c !! b = c !! b.
Proof.
  revert c; induction bs as [|b' bs IH]; intros c Hb; [done|].
  apply not_elem_of_cons in Hb as [Hne Hb]. simpl. rewrite IH by done.
  by apply lookup_unpin_cache.
Qed.

Lemma dom_unpin_all bs (c : gmap Z (cached P)) :
  dom (fold_left (λ c b, unpin_cache b c) bs c) ⊆ dom c.
Proof.
  revert c; induction bs as [|b bs IH]; intros c; simpl; [done|].
  etrans; [apply IH|]. unfold unpin_cache. destruct (c !! b) eqn:E; [|done].
  case_decide; [set_solver|]. apply elem_of_dom_2 in E. set_solver.
Qed.

(** What [commit] needs of the state: the transaction [D] of the blocks in the
    header is pinned in the cache, no block of the log is cached, and the log
    on disk is empty. *)
Record ready v (lg : Log) (D : Z → bytes) : Prop := {
  rd_dev : ldevice lg = dev;
  rd_start : 0 <= start lg < 2 ^ 31;
  rd_len : Z.of_nat (length (hblock (header lg))) = LOG_SIZE;
  rd_n : 0 <= n (header lg) <= LOG_SIZE;
  rd_blocks : ∀ b, b ∈ take (Z.to_nat (n (header lg))) (hblock (header lg)) →
    0 <= b < 2 ^ 32 ∧ ¬ in_log (start lg) b ∧ pinned v b (D b);
  rd_nodup : NoDup (take (Z.to_nat (n (header lg))) (hblock (header lg)));
  rd_uncached : ∀ b, in_log (start lg) b → v_cache v !! b = None;
  rd_fits : fits (log_blocks (start lg) ∪ dom (v_cache v));
}.

(** The blocks of the transaction. *)
Definition txn (lg : Log) : list Z := take (Z.to_nat (n (header lg))) (hblock (header lg)).

Lemma length_txn v lg D : ready v lg D → Z.of_nat (length (txn lg)) = n (header lg).
Proof. intros H0. pose proof (rd_len _ _ _ H0). pose proof (rd_n _ _ _ H0). unfold txn. rewrite length_take. lia. Qed.

Lemma lookup_txn v lg D (j : Z) : ready v lg D → 0 <= j < n (header lg) →
  ∃ b, txn lg !! Z.to_nat j = Some b ∧ hblock (header lg) !! Z.to_nat j = Some b.
Proof.
  intros H0 Hj. destruct (lookup_lt_is_Some_2 (txn lg) (Z.to_nat j)) as [b Hb].
  { pose proof (length_txn _ _ _ H0). lia. }
  exists b. split; [done|]. by apply lookup_take_Some in Hb as [? _].
Qed.

Lemma runs_writeLog s v lg D : frep s v → log s = lg → ready v lg D →
  runs writeLog s (λ _ s', same_globals s s' ∧
    frep s' (disk_writes (log_writes (start lg) D (txn lg)) v)).
Proof.
  intros R Hlg Hr. unfold writeLog. runs_step. runs_step. rewrite Hlg.
  pose proof (rd_n _ _ _ Hr) as Hn. pose proof (rd_start _ _ _ Hr) as Hst.
  pose proof (length_txn _ _ _ Hr) as Hlen. unfold LOG_SIZE, MAX_OP_BLOCKS in *.
  apply (runs_for_lt (λ j s', same_globals s s' ∧
    frep s' (disk_writes (log_writes (start lg) D (take (Z.to_nat j) (txn lg))) v))).
  - split; [done|]. simpl. by rewrite disk_writes_nil.
  - lia.
  - unfold log_fuel. lia.
  - intros j s1 Hj (G1 & R1). destruct (lookup_txn _ _ _ j Hr) as (b & Hb & Hb'); [lia|].
    destruct (rd_blocks _ _ _ Hr b) as (Hb32 & Hnl & cb & Hcb & Hh & Hc & Hd).
    { by apply list_elem_of_lookup_2 in Hb. }
    rewrite <- (Z2Nat.id j) at 1 by lia.
    eapply runs_mono; [apply (runs_write_one s1 _ lg (Z.to_nat j) b cb (D b) R1); try done; try lia|].
    + destruct G1 as (_ & -> & _). done.
    + apply (rd_dev _ _ _ Hr).
    + apply (rd_uncached _ _ _ Hr). unfold in_log, LOG_SIZE, MAX_OP_BLOCKS. lia.
    + eapply fits_mono; [|apply (rd_fits _ _ _ Hr)]. simpl. apply union_mono_r.
      apply singleton_subseteq_l, elem_of_log_blocks. unfold in_log, LOG_SIZE, MAX_OP_BLOCKS. lia.
    + intros a s2 (G2 & R2). split; [eauto using same_globals_trans|].
      apply (frep_eq _ _ _ R2). rewrite disk_writes_snoc. f_equal.
      replace (Z.to_nat (j + 1)) with (Datatypes.S (Z.to_nat j)) by lia.
      rewrite (take_S_r _ _ _ Hb), log_writes_snoc, length_take. do 4 f_equal. lia.
  - intros s1 (G1 & R1). split; [done|]. rewrite take_ge in R1 by lia. done.
Qed.

Lemma runs_install s v lg D : frep s v → log s = lg → ready v lg D →
  (∀ (i : nat) b, txn lg !! i = Some b → dblock (v_disk v) (start lg + 1 + Z.of_nat i) = D b) →
  runs (installTransaction false) s (λ _ s', same_globals s s' ∧
    frep s' (unpin_all (txn lg) (disk_writes (install_writes D (txn lg)) v))).
Proof.
  intros R Hlg Hr Hd. unfold installTransaction. runs_step. runs_step. rewrite Hlg.
  pose proof (rd_n _ _ _ Hr) as Hn. pose proof (rd_start _ _ _ Hr) as Hst.
  pose proof (length_txn _ _ _ Hr) as Hlen. unfold LOG_SIZE, MAX_OP_BLOCKS in *.
  apply (runs_for_lt (λ j s', same_globals s s' ∧
    frep s' (unpin_all (take (Z.to_nat j) (txn lg))
      (disk_writes (install_writes D (take (Z.to_nat j) (txn lg))) v)))).
  - split; [done|]. simpl. rewrite disk_writes_nil. by destruct v.
  - lia.
  - unfold log_fuel. lia.
  - intros j s1 Hj (G1 & R1). destruct (lookup_txn _ _ _ j Hr) as (b & Hb & Hb'); [lia|].
    destruct (rd_blocks _ _ _ Hr b) as (Hb32 & Hnl & Hpin).
    { by apply list_elem_of_lookup_2 in Hb. }
    assert (b ∉ take (Z.to_nat j) (txn lg)) as Hbn.
    { pose proof (rd_nodup _ _ _ Hr) as Hnd. fold (txn lg) in Hnd.
      rewrite <- (take_drop_middle _ _ _ Hb), NoDup_app in Hnd.
      destruct Hnd as (_ & Hdis & _). intros Hin. apply (Hdis _ Hin). left. }
    assert (∀ b', in_log (start lg) b' → b' ∉ txn lg) as Hout.
    { intros b' Hl' Hin. by apply (rd_blocks _ _ _ Hr) in Hin as (_ & ? & _). }
    assert (in_log (start lg) (start lg + 1 + Z.of_nat (Z.to_nat j))) as Hl.
    { unfold in_log, LOG_SIZE, MAX_OP_BLOCKS. lia. }
    assert (take (Z.to_nat j) (txn lg) ⊆ txn lg) as Hsub by apply subseteq_take.
    rewrite <- (Z2Nat.id j) at 1 by lia.
    eapply runs_mono; [apply (runs_install_one s1 _ lg false (Z.to_nat j) b (D b) R1); try done; try lia|].
    + destruct G1 as (_ & -> & _). done.
    + apply (rd_dev _ _ _ Hr).
    + destruct Hpin as (cb & Hcb & ?). exists cb. split; [|done]. simpl.
      by rewrite lookup_unpin_all.
    + congruence.
    + simpl. rewrite lookup_unpin_all; [|set_solver]. by apply (rd_uncached _ _ _ Hr).
    + simpl. rewrite dblock_replay_notin; [by apply Hd|]. unfold install_writes.
      rewrite <- list_fmap_compose. simpl. rewrite list_fmap_id. set_solver.
    + eapply fits_mono; [|apply (rd_fits _ _ _ Hr)]. simpl.
      destruct Hpin as (cb & Hcb%elem_of_dom_2 & _). apply elem_of_log_blocks in Hl.
      pose proof (dom_unpin_all (take (Z.to_nat j) (txn lg)) (v_cache v)). set_solver.
    + intros a s2 (G2 & R2). split; [eauto using same_globals_trans|].
      apply (frep_eq _ _ _ R2).
      replace (Z.to_nat (j + 1)) with (Datatypes.S (Z.to_nat j)) by lia.
      rewrite (take_S_r _ _ _ Hb). unfold install_writes. rewrite fmap_app. simpl.
      unfold unpin_all, disk_write, disk_writes, with_cache. simpl.
      by rewrite replay_app, fold_left_app, app_assoc.
  - intros s1 (G1 & R1). split; [done|]. rewrite take_ge in R1 by lia. done.
Qed.

(** *** Recovery *)

(** The writes of [recover]. *)
Definition recover_writes (d : gmap Z bytes) (st : Z) : list (Z * bytes) :=
  logged d st ++ [(st, st64 (dblock d st) 0 0)].

Lemma lookup_logged d st (j : Z) : 0 <= j < hdr_n d st →
  logged d st !! Z.to_nat j = Some (hdr_block d st j, dblock d (st + 1 + j)).
Proof.
  intros Hj. unfold logged. rewrite list_lookup_fmap, lookup_seqZ_lt by lia. simpl.
  by rewrite Z2Nat.id by lia.
Qed.

Lemma length_logged d st : Z.of_nat (length (logged d st)) = hdr_n d st.
Proof.
  unfold logged. rewrite length_fmap, length_seqZ. pose proof (ldN_range 8 (dblock d st) 0).
  unfold hdr_n in *. lia.
Qed.

Lemma logged_out d st ws b : hdr_ok d st → ws ⊆ logged d st → in_log st b → b ∉ ws.*1.
Proof.
  intros [_ Hok] Hs Hb ([b' x] & -> & Hin)%list_elem_of_fmap. apply Hs in Hin.
  unfold logged in Hin. apply list_elem_of_fmap in Hin as (i & [= -> ->] & Hi).
  apply elem_of_seqZ in Hi. apply (Hok i); [lia|done].
Qed.

Lemma runs_install_recover s v lg :
  let d := v_disk v in let st := start lg in
  frep s v → log s = lg → ldevice lg = dev → 0 <= st < 2 ^ 31 → v_cache v = ∅ →
  hdr_ok d st → n (header lg) = hdr_n d st →
  (∀ i : nat, Z.of_nat i < hdr_n d st →
     hblock (header lg) !! i = Some (hdr_block d st (Z.of_nat i))) →
  runs (installTransaction true) s (λ _ s', same_globals s s' ∧
    frep s' (disk_writes (logged d st) v)).
Proof.
  intros d st R Hlg Hdev Hst Hc Hok En Hb. unfold installTransaction. runs_step. runs_step. rewrite Hlg.
  destruct (Hok) as [Hn _]. unfold LOG_SIZE, MAX_OP_BLOCKS in Hn.
  assert (0 <= hdr_n d st) by apply ldN_range. pose proof (length_logged d st) as Hlen.
  apply (runs_for_lt (λ j s', same_globals s s' ∧
    frep s' (disk_writes (take (Z.to_nat j) (logged d st)) v))).
  - split; [done|]. simpl. by rewrite disk_writes_nil.
  - lia.
  - unfold log_fuel. lia.
  - intros j s1 Hj (G1 & R1). rewrite En in Hj. pose proof (lookup_logged d st j Hj) as Hl.
    assert (in_log st (st + 1 + j)) as Hlog by (unfold in_log, LOG_SIZE, MAX_OP_BLOCKS; lia).
    rewrite <- (Z2Nat.id j) at 1 by lia.
    eapply runs_mono; [apply (runs_install_one s1 _ lg true (Z.to_nat j)
      (hdr_block d st j) (dblock d (st + 1 + j)) R1)|].
    + destruct G1 as (_ & -> & _). done.
    + done.
    + rewrite Hb by lia. by rewrite Z2Nat.id by lia.
    + apply ldN_range.
    + simpl. by rewrite Hc, lookup_empty.
    + fold st. lia.
    + fold st. rewrite Z2Nat.id by lia. intros E. apply (proj2 Hok j); [lia|]. by rewrite <- E.
    + simpl. by rewrite Hc, lookup_empty.
    + simpl. fold st. rewrite Z2Nat.id by lia. apply dblock_replay_notin.
      apply (logged_out d st); [done|apply subseteq_take|done].
    + simpl. rewrite Hc, dom_empty_L, union_empty_r_L. apply fits_pair.
    + intros a s2 (G2 & R2). split; [eauto using same_globals_trans|].
      apply (frep_eq _ _ _ R2). rewrite disk_writes_snoc. f_equal.
      replace (Z.to_nat (j + 1)) with (Datatypes.S (Z.to_nat j)) by lia.
      by rewrite (take_S_r _ _ _ Hl).
  - intros s1 (G1 & R1). split; [done|]. rewrite take_ge in R1 by lia. done.
Qed.

Lemma runs_recover s v lg :
  let d := v_disk v in let st := start lg in
  frep s v → log s = lg → ldevice lg = dev → 0 <= st < 2 ^ 31 →
  Z.of_nat (length (hblock (header lg))) = LOG_SIZE → v_cache v = ∅ → hdr_ok d st →
  runs recover s (λ _ s', ∃ hb, log_is s s' (with_header lg (mkLogHeader 0 hb)) ∧
    Z.of_nat (length hb) = LOG_SIZE ∧ frep s' (disk_writes (recover_writes d st) v)).
Proof.
  intros d st R Hlg Hdev Hst Hlen Hc Hok. unfold recover. runs_step.
  assert (∀ w (v' : view P), v_cache v' = v_cache v → v_cache v' !! w = None) as Hnc.
  { intros w v' ->. by rewrite Hc. }
  assert (∀ (v' : view P), v_cache v' = v_cache v → fits ({[st]} ∪ dom (v_cache v'))) as Hfit.
  { intros v' ->. rewrite Hc, dom_empty_L, union_empty_r_L. apply (fits_mono _ {[st; st]}); [set_solver|].
    apply fits_pair. }
  eapply runs_mono; [apply (runs_readHead s v lg); auto; [unfold st in *; lia|apply Hok]|].
  intros a s1 (hb & L1 & Hhb & R1 & Hpre). fold d st in L1, Hpre. runs_step.
  eapply runs_mono; [apply (runs_install_recover s1 v _ R1 (proj1 (proj2 L1))); auto|].
  intros a' s2 (G2 & R2). simpl in R2. fold d st in R2. unfold set_n. runs_step. runs_step.
  set (s3 := set_header _ s2).
  assert (log_is s s3 (with_header lg (mkLogHeader 0 hb))) as L3.
  { destruct (log_is_globals _ _ _ _ L1 G2) as (E1 & E2 & E3). unfold s3, set_header, with_header in *.
    split_and!; simpl; [done| |done]. by rewrite !E2. }
  eapply runs_mono; [apply (runs_writeHead s3 _ _ R2 (proj1 (proj2 L3))); auto; simpl|].
  - unfold st in *; lia.
  - unfold LOG_SIZE, MAX_OP_BLOCKS. lia.
  - intros a'' s4 (G4 & R4). exists hb. split_and!; [by apply (log_is_globals _ s3)|done|].
    apply (frep_eq _ _ _ R4). simpl. rewrite disk_writes_snoc. fold d st. unfold recover_writes.
    do 4 f_equal. unfold header_data. simpl. f_equal. apply dblock_replay_notin.
    apply (logged_out d st); [done|done|]. unfold in_log, LOG_SIZE, MAX_OP_BLOCKS. lia.
Qed.

(** *** Commit *)

(** The writes of [commit]. *)
Definition commit_writes (d : gmap Z bytes) (lg : Log) (D : Z → bytes) : list (Z * bytes) :=
  let st := start lg in
  let hd := header_data (dblock d st) (header lg) in
  log_writes st D (txn lg) ++ (st, hd) :: install_writes D (txn lg) ++ [(st, st64 hd 0 0)].

(** The disk with the transaction installed. *)
Definition new_disk (d : gmap Z bytes) (lg : Log) (D : Z → bytes) : gmap Z bytes :=
  replay d (install_writes D (txn lg)).

Lemma log_writes_in_log st D bs : Z.of_nat (length bs) <= LOG_SIZE →
  ∀ b, b ∈ (log_writes st D bs).*1 → in_log st b ∧ b ≠ st.
Proof.
  intros Hl b ([b' x] & -> & Hin)%list_elem_of_fmap. unfold log_writes in Hin.
  apply list_elem_of_lookup_1 in Hin as [i Hi]. rewrite list_lookup_imap in Hi.
  destruct (bs !! i) eqn:E; [|done]. injection Hi as <- <-. apply lookup_lt_Some in E.
  unfold in_log. simpl. lia.
Qed.

Lemma dblock_log_writes d st D bs i b : bs !! i = Some b →
  dblock (replay d (log_writes st D bs)) (st + 1 + Z.of_nat i) = D b.
Proof.
  revert i; induction bs as [|b' bs IH] using rev_ind; intros i Hi; [done|].
  rewrite log_writes_snoc, replay_app. simpl. rewrite dblock_insert.
  apply lookup_app_Some in Hi as [Hi|[Hle Hi]].
  - apply lookup_lt_Some in Hi as Hlt. rewrite decide_False by lia. by apply IH.
  - destruct (i - length bs)%nat eqn:Ei; [|done]. injection Hi as ->.
    rewrite decide_True by lia. done.
Qed.

Lemma install_writes_fst D bs : (install_writes D bs).*1 = bs.
Proof. unfold install_writes. rewrite <- list_fmap_compose. apply list_fmap_id. Qed.

Lemma header_data_n hd h : is_block hd → 0 <= n h <= LOG_SIZE → ld64 (header_data hd h) 0 = n h.
Proof.
  intros Hd Hn. unfold header_data. rewrite ldN_store_blocks_below by lia.
  rewrite ldN_stN_eq; [apply Z.mod_small; unfold LOG_SIZE, MAX_OP_BLOCKS in *; simpl; lia|].
  intros i Hi. rewrite valid_addr_block by done. unfold BLOCK_SIZE. lia.
Qed.

Lemma ready_ext v v' lg D : v_cache v' = v_cache v → ready v lg D → ready v' lg D.
Proof.
  intros E [H1 H2 H3 H4 H5 H6 H7 H8]. split; auto.
  - intros b Hb. destruct (H5 b Hb) as (?&?&cb&Hc). split; [done|]. split; [done|].
    exists cb. by rewrite E.
  - by rewrite E.
  - by rewrite E.
Qed.

Lemma txn_out v lg D b : ready v lg D → in_log (start lg) b → b ∉ txn lg.
Proof. intros Hr Hl Hin. by apply (rd_blocks _ _ _ Hr) in Hin as (_ & ? & _). Qed.

Lemma runs_commit s v lg D : frep s v → log s = lg → ready v lg D → 0 < n (header lg) →
  runs commit s (λ _ s', log_is s s' (with_header lg (mkLogHeader 0 (hblock (header lg)))) ∧
    frep s' (unpin_all (txn lg) (disk_writes (commit_writes (v_disk v) lg D) v))).
Proof.
  intros R Hlg Hr Hn. unfold commit. runs_step. runs_step. rewrite Hlg.
  rewrite (proj2 (Z.ltb_lt _ _)) by lia.
  pose proof (rd_start _ _ _ Hr) as Hst. pose proof (rd_n _ _ _ Hr) as Hn'.
  pose proof (length_txn _ _ _ Hr) as Hlen.
  assert (in_log (start lg) (start lg)) as Hself.
  { unfold in_log, LOG_SIZE, MAX_OP_BLOCKS. lia. }
  assert (∀ v' : view P, dom (v_cache v') ⊆ dom (v_cache v) →
            fits ({[start lg]} ∪ dom (v_cache v'))) as Hfit.
  { intros v' Hv'. eapply fits_mono; [|apply (rd_fits _ _ _ Hr)].
    apply elem_of_log_blocks in Hself. set_solver. }
  runs_step. eapply runs_mono; [by apply (runs_writeLog s v lg D)|]. intros a s1 (G1 & R1).
  set (W := log_writes (start lg) D (txn lg)) in *.
  assert (dblock (replay (v_disk v) W) (start lg) = dblock (v_disk v) (start lg)) as Ehd.
  { apply dblock_replay_notin. intros Hin. apply log_writes_in_log in Hin; [|lia]. by destruct Hin. }
  runs_step. eapply runs_mono; [apply (runs_writeHead s1 _ lg R1)|].
  { destruct G1 as (_ & -> & _). done. }
  { apply (rd_dev _ _ _ Hr). }
  { lia. }
  { apply (rd_len _ _ _ Hr). }
  { done. }
  { by apply (rd_uncached _ _ _ Hr). }
  { by apply Hfit. }
  intros a1 s2 (G2 & R2). simpl in R2. rewrite Ehd, disk_writes_snoc in R2.
  runs_step. eapply runs_mono; [apply (runs_install s2 _ lg D R2)|].
  { destruct G1 as (_ & E1 & _), G2 as (_ & E2 & _). congruence. }
  { by apply (ready_ext v). }
  { intros i b Hb. simpl. rewrite replay_app. simpl. rewrite dblock_insert, decide_False by lia.
    by apply dblock_log_writes. }
  intros a2 s3 (G3 & R3). rewrite disk_writes_app in R3. unfold set_n. runs_step. runs_step.
  set (s4 := set_header _ s3).
  assert (log_is s s4 (with_header lg (mkLogHeader 0 (hblock (header lg))))) as L4.
  { destruct G1 as (A1 & A2 & A3), G2 as (B1 & B2 & B3), G3 as (C1 & C2 & C3).
    unfold s4, set_header. split_and!; simpl; [congruence| |congruence].
    unfold with_header. by rewrite C2, B2, A2, Hlg. }
  eapply runs_mono; [apply (runs_writeHead s4 _ _ R3 (proj1 (proj2 L4))); simpl|].
  { apply (rd_dev _ _ _ Hr). }
  { lia. }
  { apply (rd_len _ _ _ Hr). }
  { unfold LOG_SIZE, MAX_OP_BLOCKS. lia. }
  { rewrite lookup_unpin_all; [by apply (rd_uncached _ _ _ Hr)|by apply (txn_out v lg D)]. }
  { apply (Hfit (unpin_all (txn lg) v)), dom_unpin_all. }
  intros a3 s5 (G5 & R5). split; [by apply (log_is_globals _ s4)|].
  apply (frep_eq _ _ _ R5). unfold commit_writes. fold W. unfold unpin_all, disk_writes, with_cache, disk_write.
  simpl. rewrite !replay_app. simpl. rewrite !replay_app. simpl.
  rewrite (dblock_replay_notin _ (install_writes D (txn lg))).
  - rewrite dblock_insert, decide_True by done. unfold header_data at 2 4. simpl.
    by rewrite <- !app_assoc.
  - rewrite install_writes_fst. by apply (txn_out v lg D).
Qed.

Lemma is_log_start st : in_log st st.
Proof. unfold in_log, LOG_SIZE, MAX_OP_BLOCKS. lia. Qed.

Lemma hdr_ok_empty d st : hdr_n d st = 0 → hdr_ok d st ∧ recovered d st = d.
Proof.
  intros E. split; [|by unfold recovered; rewrite logged_0].
  split; rewrite E; [|intros; lia]. unfold LOG_SIZE, MAX_OP_BLOCKS. lia.
Qed.

(** Before the header is written, the log on disk stays empty. *)
Lemma log_writes_prefix d st D bs ws : Z.of_nat (length bs) <= LOG_SIZE → hdr_n d st = 0 →
  ws `prefix_of` log_writes st D bs →
  hdr_n (replay d ws) st = 0 ∧ same_data st (replay d ws) d.
Proof.
  intros Hl H0 [k E].
  assert (∀ b, b ∈ ws.*1 → in_log st b ∧ b ≠ st) as Hin.
  { intros b Hb. apply (log_writes_in_log st D bs Hl). rewrite E, fmap_app. set_solver. }
  split.
  - unfold hdr_n. rewrite dblock_replay_notin; [done|]. intros Hb. by apply Hin in Hb as [_ []].
  - apply replay_in_log. intros b Hb. by apply Hin.
Qed.

(** A disk whose log holds the transaction. *)
Definition sealed (lg : Log) (D : Z → bytes) (d : gmap Z bytes) : Prop :=
  hdr_ok d (start lg) ∧ logged d (start lg) = install_writes D (txn lg).

(** Writing the header seals the transaction. *)
Lemma seal v lg D d : ready v lg D → is_block (dblock d (start lg)) →
  let d1 := replay d (log_writes (start lg) D (txn lg) ++
              [(start lg, header_data (dblock d (start lg)) (header lg))]) in
  sealed lg D d1 ∧ same_data (start lg) d1 d.
Proof.
  intros Hr Hblk d1. set (st := start lg) in *. set (hd := header_data _ _) in d1.
  pose proof (rd_n _ _ _ Hr) as Hn. pose proof (length_txn _ _ _ Hr) as Hlen.
  assert (∀ b, dblock d1 b = if decide (b = st) then hd
            else dblock (replay d (log_writes st D (txn lg))) b) as Hd1.
  { intros b. unfold d1. rewrite replay_app. simpl. apply dblock_insert. }
  assert (hdr_n d1 st = n (header lg)) as En.
  { unfold hdr_n. rewrite Hd1, decide_True by done. by apply header_data_n. }
  assert (∀ i b, txn lg !! i = Some b → hdr_block d1 st (Z.of_nat i) = b) as Hb1.
  { intros i b Hi. unfold hdr_block. rewrite Hd1, decide_True by done.
    unfold hd, header_data. rewrite <- (Z.add_0_l (Z.of_nat i)). fold (txn lg).
    apply ld32_store_blocks; auto; [by apply is_block_stN|lia|lia|].
    apply list_elem_of_lookup_2 in Hi. by apply (rd_blocks _ _ _ Hr). }
  split; [split|].
  - fold st. split; [lia|]. intros i Hi. rewrite En in Hi.
    destruct (lookup_txn _ _ _ i Hr Hi) as (b & Hb & _).
    rewrite <- (Z2Nat.id i), (Hb1 _ _ Hb) by lia. apply list_elem_of_lookup_2 in Hb.
    by apply (rd_blocks _ _ _ Hr).
  - fold st. apply list_eq_same_length with (length (txn lg)).
    + unfold install_writes. by rewrite length_fmap.
    + pose proof (length_logged d1 st). lia.
    + intros i x y Hi Hx Hy. destruct (lookup_lt_is_Some_2 (txn lg) i Hi) as [b Hb].
      rewrite <- (Nat2Z.id i), lookup_logged, (Hb1 _ _ Hb) in Hx by lia.
      unfold install_writes in Hy. rewrite list_lookup_fmap, Hb in Hy. simpl in Hy.
      injection Hx as <-. injection Hy as <-. f_equal.
      rewrite Hd1, decide_False by lia. by apply dblock_log_writes.
  - intros b Hb. rewrite Hd1, decide_False by (intros ->; apply Hb, is_log_start).
    apply dblock_replay_notin. intros Hin. by apply log_writes_in_log in Hin as [? _]; [|lia].
Qed.

(** Blocks outside the log can be written without breaking the seal. *)
Lemma sealed_install lg D d ws : sealed lg D d → ws ⊆ install_writes D (txn lg) →
  sealed lg D (replay d ws).
Proof.
  intros [Hok El] Hs. rewrite <- El in Hs. set (st := start lg) in *.
  assert (∀ b, in_log st b → dblock (replay d ws) b = dblock d b) as Hsame.
  { intros b Hb. apply dblock_replay_notin. by apply (logged_out d st). }
  assert (hdr_n (replay d ws) st = hdr_n d st) as En.
  { unfold hdr_n. by rewrite Hsame by apply is_log_start. }
  split; [split|].
  - fold st. rewrite En. apply Hok.
  - fold st. rewrite En. intros i Hi. unfold hdr_block. rewrite Hsame by apply is_log_start.
    by apply Hok.
  - fold st. rewrite <- El. symmetry. apply logged_ext; [apply Hok|]. intros b Hb. by rewrite Hsame.
Qed.

Lemma sealed_recovered lg D d d0 ws : sealed lg D d → same_data (start lg) d d0 →
  ws ⊆ install_writes D (txn lg) →
  same_data (start lg) (recovered (replay d ws) (start lg)) (new_disk d0 lg D).
Proof.
  intros Hse Hd Hs. destruct (sealed_install _ _ _ _ Hse Hs) as [_ El].
  unfold recovered. rewrite El. intros b Hb. rewrite replay_prefix.
  - by apply (replay_same_data (start lg)).
  - intros x (w & -> & Hw)%list_elem_of_fmap. apply list_elem_of_fmap. exists w. auto.
Qed.

(** Stopping [commit] after any of its writes leaves a disk whose log is
    well formed and that recovery turns into the old or the new disk. *)
Lemma commit_prefix v lg D d ws : ready v lg D → is_block (dblock d (start lg)) →
  hdr_n d (start lg) = 0 → ws `prefix_of` commit_writes d lg D →
  hdr_ok (replay d ws) (start lg) ∧
  (same_data (start lg) (recovered (replay d ws) (start lg)) d ∨
   same_data (start lg) (recovered (replay d ws) (start lg)) (new_disk d lg D)).
Proof.
  intros Hr Hblk H0 Hpre. set (st := start lg) in *.
  pose proof (rd_n _ _ _ Hr) as Hn. pose proof (length_txn _ _ _ Hr) as Hlen.
  destruct (seal v lg D d Hr Hblk) as [Hse Hd1]. fold st in Hse, Hd1.
  unfold commit_writes in Hpre. fold st in Hpre. rewrite cons_middle, app_assoc in Hpre.
  set (A := log_writes st D (txn lg)) in *. set (hd := header_data _ _) in *.
  apply prefix_app_cases in Hpre as [Hpre|(ws1 & -> & Hpre)].
  { assert (ws `prefix_of` A ∨ ws = A ++ [(st, hd)]) as [Hp| ->].
    { apply prefix_app_cases in Hpre as [?|(k & -> & Hk)]; [by left|].
      destruct k as [|w k]; [left; by rewrite app_nil_r|]. right.
      apply prefix_cons_inv_1 in Hk as Ew. apply prefix_cons_inv_2 in Hk as ->%prefix_nil_inv.
      by rewrite Ew. }
    - destruct (log_writes_prefix d st D (txn lg) ws) as [E Hs]; [lia|done|done|].
      destruct (hdr_ok_empty _ _ E) as [Hok ->]. auto.
    - split; [apply Hse|]. right. apply (sealed_recovered lg D _ d [] Hse Hd1). set_solver. }
  rewrite replay_app. apply prefix_app_cases in Hpre as [Hpre|(ws2 & -> & Hpre)].
  - assert (ws1 ⊆ install_writes D (txn lg)) as Hs by (destruct Hpre as [k ->]; set_solver).
    split; [by apply (sealed_install lg D _ _ Hse)|]. right. by apply sealed_recovered.
  - destruct ws2 as [|w ws2].
    + rewrite app_nil_r. split; [by apply (sealed_install lg D _ _ Hse)|]. right. by apply sealed_recovered.
    + apply prefix_cons_inv_1 in Hpre as Ew. subst w. apply prefix_cons_inv_2 in Hpre as ->%prefix_nil_inv.
      rewrite replay_app. simpl. set (d2 := <[st := _]> _).
      assert (hdr_n d2 st = 0) as E2.
      { unfold hdr_n, d2. rewrite dblock_insert, decide_True by done. rewrite ldN_stN_eq; [done|].
        intros i Hi. rewrite valid_addr_block by by apply is_block_header_data.
        unfold BLOCK_SIZE. lia. }
      destruct (hdr_ok_empty _ _ E2) as [Hok ->]. split; [done|]. right. intros b Hb.
      unfold d2. rewrite dblock_insert, decide_False by (intros ->; apply Hb, is_log_start).
      by apply (replay_same_data st).
Qed.

(** [commit] writes whole blocks. *)
Lemma commit_writes_blocks (d : gmap Z bytes) lg (D : Z → bytes) :
  is_block (dblock d (start lg)) → (∀ b, is_block (D b)) → Forall (λ w, is_block w.2) (commit_writes d lg D).
Proof.
  intros Hblk HD. pose proof (is_block_header_data _ (header lg) Hblk) as Hhd. unfold commit_writes.
  apply Forall_app. split; [|apply Forall_cons; split; [done|apply Forall_app; split]].
  - apply Forall_lookup. unfold log_writes. intros i w Ew. apply list_lookup_imap_Some in Ew as (b & _ & ->). apply HD.
  - apply Forall_fmap, Forall_true. intros b. apply HD.
  - apply Forall_singleton. by apply is_block_stN.
Qed.

(** [commit] leaves an empty log on the disk. *)
Lemma hdr_n_commit_writes (d : gmap Z bytes) lg (D : Z → bytes) : is_block (dblock d (start lg)) →
  hdr_n (replay d (commit_writes d lg D)) (start lg) = 0.
Proof.
  intros Hblk. unfold commit_writes, hdr_n. rewrite app_comm_cons, app_assoc, replay_app. simpl.
  rewrite dblock_insert, decide_True by done. rewrite ldN_stN_eq; [done|].
  intros i Hi. rewrite valid_addr_block by by apply is_block_header_data. unfold BLOCK_SIZE. lia.
Qed.

(** *** Logging a buffer *)

(** The search of [writeLog(buf)] finds the position of the block among the
    logged ones, or their number. *)
Lemma runs_find_block s lg (fuel i : nat) b (Q : Z → FS S → Prop) :
  log s = lg → 0 <= n (header lg) → n (header lg) <= Z.of_nat (length (hblock (header lg))) →
  n (header lg) - Z.of_nat i <= Z.of_nat fuel → Z.of_nat i <= n (header lg) →
  (∀ j : nat, Z.of_nat i <= Z.of_nat j <= n (header lg) →
     (if decide (b ∈ drop i (txn lg)) then Z.of_nat j < n (header lg) ∧ hblock (header lg) !! j = Some b
      else Z.of_nat j = n (header lg)) → Q (Z.of_nat j) s) →
  runs (find_block fuel (Z.of_nat i) b) s Q.
Proof.
  intros Hlg Hn Hlen. revert i. induction fuel as [|f IH]; intros i Hf Hi HQ; cbn [find_block];
    runs_step; runs_step; rewrite Hlg; destruct (Z.ltb_spec (Z.of_nat i) (n (header lg))) as [Hlt|Hge]; try lia.
  1, 3: apply HQ; [lia|]; rewrite decide_False; [lia|];
    rewrite drop_ge; [apply not_elem_of_nil|unfold txn; rewrite length_take; lia].
  destruct (lookup_lt_is_Some_2 (hblock (header lg)) i) as [b' Hb']; [lia|].
  runs_step. apply (runs_header_block _ _ b'); [by rewrite Hlg|].
  assert (drop i (txn lg) = b' :: drop (Datatypes.S i) (txn lg)) as Ed.
  { apply drop_S. unfold txn. rewrite lookup_take_lt by lia. done. }
  destruct (Z.eqb_spec b' b) as [->|Hne].
  - apply runs_ret, HQ; [lia|]. rewrite decide_True; [done|]. rewrite Ed. left.
  - replace (Z.of_nat i + 1) with (Z.of_nat (Datatypes.S i)) by lia. apply IH; [lia|lia|].
    intros j Hj Hd. apply HQ; [lia|].
    assert (b ∈ drop i (txn lg) ↔ b ∈ drop (Datatypes.S i) (txn lg)) as Hiff.
    { rewrite Ed, elem_of_cons. naive_solver. }
    by rewrite (decide_ext _ _ _ _ Hiff).
Qed.

(** The log after the block [b] was logged. *)
Definition logged_block (lg : Log) (b : Z) : Log :=
  if decide (b ∈ txn lg) then lg
  else with_header lg (mkLogHeader (n (header lg) + 1)
         (<[Z.to_nat (n (header lg)) := b]> (hblock (header lg)))).

Lemma txn_logged_block lg b : 0 <= n (header lg) < Z.of_nat (length (hblock (header lg))) →
  txn (logged_block lg b) = if decide (b ∈ txn lg) then txn lg else txn lg ++ [b].
Proof.
  intros Hn. unfold logged_block. case_decide as Hd; [done|]. unfold txn. simpl.
  replace (Z.to_nat (n (header lg) + 1)) with (Datatypes.S (Z.to_nat (n (header lg)))) by lia.
  rewrite (take_S_r _ _ b) by (apply list_lookup_insert_eq; lia).
  f_equal. by apply take_insert_ge.
Qed.

Lemma runs_writeLog_buf s v lg b cb :
  frep s v → log s = lg → v_cache v !! b = Some cb → c_refs cb < 2 ^ 32 - 1 →
  Z.of_nat (length (hblock (header lg))) = LOG_SIZE →
  0 <= n (header lg) < LOG_SIZE → n (header lg) < size lg - 1 < 2 ^ 64 → 1 <= outstanding lg →
  runs (writeLog_buf (c_ptr cb)) s (λ _ s', log_is s s' (logged_block lg b) ∧
    frep s' (if decide (b ∈ txn lg) then v else put_cached b (with_refs cb (c_refs cb + 1)) v)).
Proof.
  intros R Hlg Hb Hmax Hlen Hn Hsz Hout. unfold writeLog_buf. runs_step. runs_step. rewrite Hlg.
  rewrite (wrap_small 64 (size lg - 1)) by lia.
  runs_step. apply runs_assert; [lia|]. runs_step. apply runs_assert; [lia|].
  runs_step. apply runs_assert; [lia|].
  runs_step. apply (runs_fblock dev _ _ _ _ _ _ R Hb); [done|].
  runs_step. unfold LOG_SIZE, MAX_OP_BLOCKS in *.
  apply (runs_find_block s lg log_fuel 0 b); [done|lia|lia|unfold log_fuel; lia|lia|].
  intros j Hj Hfound. rewrite drop_0 in Hfound. unfold set_header_block.
  runs_step. runs_step. runs_step. rewrite Hlg.
  rewrite (proj2 (Z.leb_le _ _)), (proj2 (Z.ltb_lt _ _)), Nat2Z.id by lia. simpl. runs_step.
  unfold logged_block. case_decide as Hd.
  - destruct Hfound as [Hlt Hjb]. rewrite (proj2 (Z.eqb_neq _ _)) by lia. apply runs_ret.
    rewrite list_insert_id by done. split; [|done]. unfold log_is, set_header. simpl. rewrite Hlg.
    split_and!; try done. by destruct lg as [? ? ? ? ? []].
  - rewrite (proj2 (Z.eqb_eq _ _)) by done. runs_step.
    eapply (runs_fpin dev); [exact R|exact Hb|done|done|]. intros s1 (E1 & E2 & E3) R1.
    unfold set_n. runs_step. split; [|done]. unfold log_is, set_header in *. simpl in *.
    rewrite E1, E2, E3, Hlg. simpl. rewrite wrap_small by lia. split_and!; try done.
    unfold with_header. do 3 f_equal. lia.
Qed.
End rules.

(** *** A concrete transaction, for the witnesses *)

Definition demo_log : Log := mkLog 2 40 1 false 1 (mkLogHeader 0 (replicate 30 0)).

Definition demo_super : SuperBlock := mkSuperBlock 0x10203040 2000 1900 200 40 2 42 60.

Definition demo_state : FS BufferCache :=
  mkFS (initializeBufferCache ∅ 1) demo_super demo_log [].

Definition demo_data : bytes := replicate 1024 7.

Lemma is_block_demo : is_block demo_data.
Proof. by apply is_block_replicate. Qed.

Lemma demo_rep : frep 1 demo_state (mkView ∅ [] ∅).
Proof.
  apply idle_rep.
Qed.

Lemma demo_got : ∃ (s : FS BufferCache) p,
  frep 1 s (put_cached 50 (mkCached p 1 true None) (mkView ∅ [] ∅)) ∧ log s = demo_log.
Proof.
  destruct (runs_inv _ _ _ (runs_fget 1 demo_state (mkView ∅ [] ∅) 50
    (λ p s', frep 1 s' (put_cached 50 (mkCached p 1 true None) (mkView ∅ [] ∅)) ∧ log s' = demo_log)
    demo_rep ltac:(lia) ltac:(apply (fits_mono _ {[50; 50]}); [simpl; set_solver|apply fits_pair])
    ltac:(done) ltac:(intros p s' (_ & E & _) _ R; split; [exact R|exact E])))
    as (p & s & _ & R & E).
  by exists s, p.
Qed.

(** The block 50 is written and logged: the transaction is ready. *)
Lemma demo_ready : ∃ (s : FS BufferCache) v lg D, frep 1 s v ∧ log s = lg ∧ ready 1 v lg D ∧
  0 < n (header lg) ∧ hdr_n (v_disk v) (start lg) = 0 ∧ start lg = 2 ∧ outstanding lg = 1 ∧ committing lg = false ∧ v_writes v = [].
Proof.
  pose proof demo_rep as R.
  assert (runs (p ← fget 1 50; fread p ;; fset_data p demo_data ;; writeLog_buf p ;; frelease p) demo_state
    (λ _ s', ∃ v lg D, frep 1 s' v ∧ log s' = lg ∧ ready 1 v lg D ∧ 0 < n (header lg) ∧
       hdr_n (v_disk v) (start lg) = 0 ∧ start lg = 2 ∧ outstanding lg = 1 ∧ committing lg = false ∧ v_writes v = []))
    as (a & s & _ & v & lg & D & HH)%runs_inv; [|by exists s, v, lg, D].
  apply (runs_get_read 1 demo_state _ 50 _ _ R); [lia|done| |].
  { apply (fits_mono _ {[50; 50]}); [simpl; set_solver|apply fits_pair]. }
  intros p s1 G1 R1. runs_step.
  eapply (runs_fset_data 1); [exact R1|apply lookup_insert_eq|done|done|apply is_block_demo|].
  intros s2 G2 R2. assert (log s2 = demo_log) as El.
  { destruct G1 as (_ & E1 & _), G2 as (_ & E2 & _). by rewrite E2, E1. }
  runs_step. eapply runs_mono.
  { apply (runs_writeLog_buf 1 s2 _ demo_log 50
      (mkCached p 1 true (Some demo_data)) R2 El); [apply lookup_insert_eq|simpl; lia|done..]. }
  intros a s3 [L3 R3]. rewrite decide_False in R3 by (unfold txn; simpl; apply not_elem_of_nil).
  eapply (runs_frelease 1); [exact R3|apply lookup_insert_eq|done|done|].
  intros s4 G4 R4. eexists _, _, (λ _, demo_data). split; [exact R4|].
  destruct (log_is_globals _ _ _ _ L3 G4) as (_ & E4 & _). split; [exact E4|].
  unfold logged_block. rewrite decide_False by (unfold txn; simpl; apply not_elem_of_nil).
  unfold released. simpl. split; [|done].
  split; simpl.
  - done.
  - lia.
  - done.
  - unfold LOG_SIZE, MAX_OP_BLOCKS. lia.
  - intros b ->%list_elem_of_singleton. split; [lia|]. split.
    + unfold in_log, LOG_SIZE, MAX_OP_BLOCKS. lia.
    + eexists. split; [apply lookup_insert_eq|]. done.
  - apply NoDup_singleton.
  - unfold in_log, LOG_SIZE, MAX_OP_BLOCKS. intros b Hb.
    by rewrite !lookup_insert_ne by lia.
  - apply cache_fits_small; [lia|]. intros b [Hb|Hb]%elem_of_union.
    + apply elem_of_log_blocks in Hb. unfold in_log, LOG_SIZE, MAX_OP_BLOCKS in Hb. simpl in Hb. lia.
    + apply elem_of_dom in Hb as [cb Hb].
      destruct (decide (b = 50)) as [->|]; [lia|]. by rewrite !lookup_insert_ne in Hb by done.
Qed.

(** ** Properties *)

Section properties.
Context {S P : Type} `{BufferOps S P} (dev : Z) `{!BufferLaws S P dev}.
Implicit Types (s : FS S) (v : view P).

(** Recovery of a rebooted machine. *)
Lemma runs_initializeLog s d lgs (sb : SuperBlock) :
  frep dev s (mkView d [] ∅) → 0 <= logStart sb < 2 ^ 31 →
  Z.of_nat (length (hblock (header (log s)))) = LOG_SIZE → hdr_ok d (logStart sb) →
  lgs = logStart sb →
  runs (initializeLog dev sb) s (λ _ s',
    frep dev s' (disk_writes (recover_writes d lgs) (mkView d [] ∅)) ∧
    n (header (log s')) = 0).
Proof.
  intros R Hst Hlen Hok ->. unfold initializeLog. runs_step. runs_step.
  rewrite swrap_small by (change (2 ^ (32 - 1)) with (2 ^ 31); lia).
  set (s1 := set_log _ s).
  eapply runs_mono; [apply (runs_recover dev s1 (mkView d [] ∅) _ R eq_refl); auto|].
  intros a s2 (hb & (_ & El & _) & _ & R2). split; [exact R2|]. by rewrite El.
Qed.

(** The writes of a recovery leave the recovered disk. *)
Lemma recover_writes_recovered d st : same_data st (replay d (recover_writes d st)) (recovered d st).
Proof.
  intros b Hb. unfold recover_writes. rewrite replay_app. simpl.
  by rewrite dblock_insert, decide_False by (intros ->; apply Hb, is_log_start).
Qed.

Lemma reboot_recovers s d (sb : SuperBlock) :
  frep dev s (mkView d [] ∅) → 0 <= logStart sb < 2 ^ 31 →
  Z.of_nat (length (hblock (header (log s)))) = LOG_SIZE → hdr_ok d (logStart sb) →
  ∃ s' v', initializeLog dev sb s = Ok (tt, s') ∧ frep dev s' v' ∧ n (header (log s')) = 0 ∧
    same_data (logStart sb) (v_disk v') (recovered d (logStart sb)).
Proof.
  intros R Hst Hlen Hok. destruct (runs_inv _ _ _ (runs_initializeLog s d (logStart sb) sb R Hst Hlen Hok eq_refl))
    as ([] & s' & E & R' & Hn). eexists s', _. split; [exact E|]. split; [exact R'|]. split; [exact Hn|].
  apply recover_writes_recovered.
Qed.

Lemma recover_writes_prefix d st ws : is_block (dblock d st) → hdr_ok d st →
  ws `prefix_of` recover_writes d st →
  hdr_ok (replay d ws) st ∧ same_data st (recovered (replay d ws) st) (recovered d st).
Proof.
  intros Hblk Hok Hpre. apply prefix_app_cases in Hpre as [Hpre|(ws1 & -> & Hpre)].
  - assert (ws ⊆ logged d st) as Hs by (destruct Hpre as [k ->]; set_solver).
    assert (∀ b, in_log st b → dblock (replay d ws) b = dblock d b) as Hsame.
    { intros b Hb. apply dblock_replay_notin. by apply (logged_out d st). }
    assert (hdr_n (replay d ws) st = hdr_n d st) as En.
    { unfold hdr_n. by rewrite Hsame by apply is_log_start. }
    split.
    + split; rewrite En; [apply Hok|]. intros i Hi. unfold hdr_block.
      rewrite Hsame by apply is_log_start. by apply Hok.
    + unfold recovered. rewrite <- (logged_ext d (replay d ws)).
      * intros b Hb. apply replay_prefix.
        intros x (w & -> & Hw)%list_elem_of_fmap. apply list_elem_of_fmap. exists w. auto.
      * apply Hok.
      * intros b Hb. by rewrite Hsame.
  - rewrite replay_app. fold (recovered d st). destruct ws1 as [|w ws1].
    + assert (hdr_ok (recovered d st) st ∧ logged (recovered d st) st = logged d st) as [Hok' El].
      { assert (∀ b, in_log st b → dblock (recovered d st) b = dblock d b) as Hsame.
        { intros b Hb. apply dblock_replay_notin. by apply (logged_out d st). }
        assert (hdr_n (recovered d st) st = hdr_n d st) as En.
        { unfold hdr_n. by rewrite Hsame by apply is_log_start. }
        split; [split; rewrite En; [apply Hok|]|].
        - intros i Hi. unfold hdr_block. rewrite Hsame by apply is_log_start. by apply Hok.
        - symmetry. apply logged_ext; [apply Hok|]. intros b Hb. by rewrite Hsame. }
      split; [done|]. simpl. unfold recovered at 1. rewrite El. intros b Hb. by apply replay_prefix.
    + apply prefix_cons_inv_1 in Hpre as Ew. subst w. apply prefix_cons_inv_2 in Hpre as ->%prefix_nil_inv.
      simpl. set (d2 := <[st := _]> _). assert (hdr_n d2 st = 0) as E2.
      { unfold hdr_n, d2. rewrite dblock_insert, decide_True by done. rewrite ldN_stN_eq; [done|].
        intros i Hi. rewrite valid_addr_block by done. unfold BLOCK_SIZE. lia. }
      destruct (hdr_ok_empty _ _ E2) as [Hok2 ->]. split; [done|]. intros b Hb.
      unfold d2. by rewrite dblock_insert, decide_False by (intros ->; apply Hb, is_log_start).
Qed.

(** After its last write [commit] has installed the transaction. *)
Lemma replay_commit_writes v lg D d : ready dev v lg D →
  same_data (start lg) (replay d (commit_writes d lg D)) (new_disk d lg D).
Proof.
  intros Hr b Hb. unfold commit_writes. rewrite !replay_app. simpl. rewrite replay_app. simpl.
  rewrite dblock_insert, decide_False by (intros ->; apply Hb, is_log_start).
  apply (replay_same_data (start lg)); [|done]. intros b' Hb'.
  rewrite dblock_insert, decide_False by (intros ->; apply Hb', is_log_start).
  apply dblock_replay_notin. intros Hin. pose proof (length_txn _ _ _ _ Hr).
  pose proof (rd_n _ _ _ _ Hr). by apply log_writes_in_log in Hin as [? _]; [|lia].
Qed.

(** C1: committing a transaction is atomic against crashes.  [commit] returns
    and leaves the logged blocks on disk; and if the machine stops after any
    number of the disk writes [commit] makes, [initializeLog] of the rebooted
    kernel returns with a disk that holds, outside the log, either the old
    contents of every block or the new contents of every block. *)
Theorem commit_crash_atomic s v lg (D : Z → bytes)
    (Hrep : frep dev s v) (Hlog : log s = lg) (Hready : ready dev v lg D)
    (Hn : 0 < n (header lg)) (Hempty : hdr_n (v_disk v) (start lg) = 0) :
  ∃ s' v' ws, commit s = Ok (tt, s') ∧ frep dev s' v' ∧
    v_writes v' = v_writes v ++ ws ∧ v_disk v' = replay (v_disk v) ws ∧
    same_data (start lg) (v_disk v') (new_disk (v_disk v) lg D) ∧
    ∀ ws1, ws1 `prefix_of` ws → ∀ s1 sb, logStart sb = start lg →
      frep dev s1 (mkView (replay (v_disk v) ws1) [] ∅) →
      Z.of_nat (length (hblock (header (log s1)))) = LOG_SIZE →
      ∃ s2 v2, initializeLog dev sb s1 = Ok (tt, s2) ∧ frep dev s2 v2 ∧
        n (header (log s2)) = 0 ∧
        (same_data (start lg) (v_disk v2) (v_disk v) ∨
         same_data (start lg) (v_disk v2) (new_disk (v_disk v) lg D)).
Proof.
  destruct (runs_inv _ _ _ (runs_commit dev s v lg D Hrep Hlog Hready Hn)) as ([] & s' & E & L & R).
  assert (is_block (dblock (v_disk v) (start lg))) as Hblk by apply (rep_block _ _ _ Hrep).
  eexists s', _, _. split; [exact E|]. split; [exact R|]. split; [reflexivity|]. split; [reflexivity|].
  split.
  - by apply (replay_commit_writes v).
  - intros ws1 Hpre s1 sb Esb R1 Hlen.
    destruct (commit_prefix dev v lg D _ ws1 Hready Hblk Hempty Hpre) as [Hok Hor].
    destruct (reboot_recovers s1 _ sb R1) as (s2 & v2 & E2 & R2 & Hn2 & Hrec); [|exact Hlen|by rewrite Esb|].
    { rewrite Esb. apply (rd_start _ _ _ _ Hready). }
    rewrite Esb in Hrec. exists s2, v2. split_and!; [exact E2|exact R2|exact Hn2|].
    destruct Hor as [Hor|Hor]; [left|right]; by rewrite Hrec.
Qed.

(** C2: recovery may itself be interrupted.  On a disk whose log header is in
    bounds, [recover] returns, makes exactly the logged installations and then
    empties the log; and stopping after any number of its writes leaves a
    disk that a second recovery turns into the same contents. *)
Theorem recovery_restartable s v lg
    (Hrep : frep dev s v) (Hlog : log s = lg) (Hdev : ldevice lg = dev)
    (Hstart : 0 <= start lg < 2 ^ 31)
    (Hlen : Z.of_nat (length (hblock (header lg))) = LOG_SIZE)
    (Hboot : v_cache v = ∅) (Hok : hdr_ok (v_disk v) (start lg)) :
  ∃ s' v' ws, recover s = Ok (tt, s') ∧ frep dev s' v' ∧ v_cache v' = ∅ ∧
    v_disk v' = replay (v_disk v) ws ∧ hdr_n (v_disk v') (start lg) = 0 ∧
    same_data (start lg) (v_disk v') (recovered (v_disk v) (start lg)) ∧
    ∀ ws1, ws1 `prefix_of` ws →
      hdr_ok (replay (v_disk v) ws1) (start lg) ∧
      same_data (start lg) (recovered (replay (v_disk v) ws1) (start lg))
        (recovered (v_disk v) (start lg)).
Proof.
  destruct (runs_inv _ _ _ (runs_recover dev s v lg Hrep Hlog Hdev Hstart Hlen Hboot Hok))
    as ([] & s' & E & hb & _ & _ & R).
  assert (is_block (dblock (v_disk v) (start lg))) as Hblk by apply (rep_block _ _ _ Hrep).
  eexists s', _, _. split; [exact E|]. split; [exact R|]. split; [exact Hboot|].
  split; [reflexivity|]. simpl. unfold recover_writes at 1 2. rewrite !replay_app. simpl. split_and!.
  - unfold hdr_n. rewrite dblock_insert, decide_True by done. rewrite ldN_stN_eq; [done|].
    intros i Hi. rewrite valid_addr_block by done. unfold BLOCK_SIZE. lia.
  - intros b Hb. by rewrite dblock_insert, decide_False by (intros ->; apply Hb, is_log_start).
  - intros ws1 Hpre. by apply recover_writes_prefix.
Qed.

(** [writeLog(buf)] logs a block once.  A block that is already in the
    transaction is absorbed: nothing changes.  Otherwise the block is appended
    to the header and its buffer pinned in the cache. *)
Theorem writeLog_absorbs s v lg (b : Z) (cb : cached P)
    (Hrep : frep dev s v) (Hlog : log s = lg) (Hb : v_cache v !! b = Some cb)
    (Hrefs : c_refs cb < 2 ^ 32 - 1)
    (Hlen : Z.of_nat (length (hblock (header lg))) = LOG_SIZE)
    (Hn : 0 <= n (header lg) < LOG_SIZE) (Hsize : n (header lg) < size lg - 1 < 2 ^ 64)
    (Hop : 1 <= outstanding lg) :
  ∃ s', writeLog_buf (c_ptr cb) s = Ok (tt, s') ∧
    if decide (b ∈ txn lg) then log s' = lg ∧ frep dev s' v
    else txn (log s') = txn lg ++ [b] ∧
         frep dev s' (put_cached b (with_refs cb (c_refs cb + 1)) v).
Proof.
  destruct (runs_inv _ _ _ (runs_writeLog_buf dev s v lg b cb Hrep Hlog Hb Hrefs Hlen Hn Hsize Hop))
    as ([] & s' & E & (_ & El & _) & R).
  exists s'. split; [exact E|]. rewrite El. case_decide as Hd.
  - split; [|done]. unfold logged_block. by rewrite decide_True.
  - split; [|done]. rewrite txn_logged_block by lia. by rewrite decide_False.
Qed.

(** The state [endOp] leaves. *)
Definition after_endOp (lg : Log) : Log :=
  mkLog (start lg) (size lg) (outstanding lg - 1) false (ldevice lg)
    (if outstanding lg =? 1 then mkLogHeader 0 (hblock (header lg)) else header lg).

Definition view_after_endOp (v : view P) (lg : Log) (D : Z → bytes) : view P :=
  if outstanding lg =? 1 then
    unpin_all (txn lg) (disk_writes (if 0 <? n (header lg) then commit_writes (v_disk v) lg D else []) v)
  else v.

Lemma runs_endOp s v lg (D : Z → bytes) :
  frep dev s v → log s = lg → ready dev v lg D → committing lg = false → 1 <= outstanding lg < 2 ^ 31 →
  runs endOp s (λ _ s', superBlock s' = superBlock s ∧ woken s' = woken s ++ [ChanLog] ∧
    log s' = after_endOp lg ∧ frep dev s' (view_after_endOp v lg D)).
Proof.
  intros Hrep Hlog Hready Hidle Hopen. unfold view_after_endOp, after_endOp.
  unfold endOp. runs_step. runs_step. rewrite Hlog, Hidle. runs_step. apply runs_assert; [done|].
  rewrite swrap_small by (change (2 ^ (32 - 1)) with (2 ^ 31); lia).
  destruct (Z.eqb_spec (outstanding lg) 1) as [E1|E1].
  - rewrite (proj2 (Z.eqb_eq _ _)) by lia. unfold set_outstanding, wakeup. runs_step. runs_step.
    set (s1 := set_log _ s). set (lg1 := log s1).
    assert (ready dev v lg1 D) as Hr1 by (unfold lg1; simpl; rewrite Hlog; by destruct Hready).
    assert (n (header lg1) = n (header lg)) as En by (unfold lg1; simpl; by rewrite Hlog).
    assert (commit_writes (v_disk v) lg1 D = commit_writes (v_disk v) lg D ∧ txn lg1 = txn lg) as [Ew Et].
    { unfold lg1, commit_writes, txn. simpl. by rewrite Hlog. }
    runs_step. destruct (Z.ltb_spec 0 (n (header lg))) as [Hn|Hn].
    + eapply runs_mono; [apply (runs_commit dev s1 v lg1 D); auto; by rewrite En|]. intros a s2 [(Eg & El & Ek) R2].
      do 5 runs_step. simpl. rewrite Eg, Ek, El, Et, Ew in *. unfold lg1. simpl. rewrite Hlog, E1. by split_and!.
    + pose proof (rd_n _ _ _ _ Hready). unfold commit. runs_step. runs_step. fold lg1. rewrite En.
      rewrite (proj2 (Z.ltb_ge _ _)) by lia. do 6 runs_step. simpl. rewrite Hlog, E1.
      assert (n (header lg) = 0) as E0 by lia. assert (txn lg = []) as -> by (unfold txn; by rewrite E0).
      split_and!; [done|done|destruct (header lg); simpl in *; by rewrite E0|].
      apply (frep_eq dev _ v); [done|]. rewrite disk_writes_nil. by destruct v.
  - rewrite (proj2 (Z.eqb_neq _ _)) by lia. unfold set_outstanding, wakeup. do 3 runs_step.
    simpl. by rewrite Hlog.
Qed.

(** [endOp] commits as a group.  It returns and wakes the waiters of the
    log; while other operations are open it only counts down and the disk is
    untouched, and when the last one ends every logged block is on disk, the
    log is empty again and the committing flag is off. *)
Theorem endOp_group_commit s v lg (D : Z → bytes)
    (Hrep : frep dev s v) (Hlog : log s = lg) (Hready : ready dev v lg D)
    (Hidle : committing lg = false) (Hopen : 1 <= outstanding lg < 2 ^ 31) :
  ∃ s' v', endOp s = Ok (tt, s') ∧ frep dev s' v' ∧ woken s' = woken s ++ [ChanLog] ∧
    committing (log s') = false ∧ outstanding (log s') = outstanding lg - 1 ∧
    if outstanding lg =? 1
    then n (header (log s')) = 0 ∧ same_data (start lg) (v_disk v') (new_disk (v_disk v) lg D)
    else v' = v ∧ header (log s') = header lg.
Proof.
  destruct (runs_inv _ _ _ (runs_endOp s v lg D Hrep Hlog Hready Hidle Hopen))
    as ([] & s' & E & _ & Ew & El & R). exists s', (view_after_endOp v lg D).
  rewrite El. split_and!; try done. unfold after_endOp, view_after_endOp.
  destruct (Z.eqb_spec (outstanding lg) 1); [|done]. split; [done|]. simpl.
  destruct (Z.ltb_spec 0 (n (header lg))); [by apply (replay_commit_writes v)|].
  pose proof (rd_n _ _ _ _ Hready). unfold new_disk, txn. by replace (n (header lg)) with 0 by lia.
Qed.
End properties.

Lemma commit_crash_atomic_witness : ∃ s s' : FS BufferCache, commit s = Ok (tt, s').
Proof.
  destruct demo_ready as (s & v & lg & D & R & El & Hr & Hn & H0 & _).
  destruct (commit_crash_atomic 1 s v lg D R El Hr Hn H0) as (s' & v' & ws & E & _).
  by exists s, s'.
Defined.

Lemma recovery_restartable_witness : ∃ s' : FS BufferCache, recover demo_state = Ok (tt, s').
Proof.
  destruct (recovery_restartable 1 demo_state (mkView ∅ [] ∅) demo_log) as (s' & v' & ws & E & _).
  - apply demo_rep.
  - done.
  - done.
  - simpl. lia.
  - done.
  - done.
  - by apply hdr_ok_empty.
  - by exists s'.
Defined.

Lemma writeLog_absorbs_witness : ∃ (s s' : FS BufferCache) p,
  writeLog_buf p s = Ok (tt, s') ∧ txn (log s') = [50].
Proof.
  destruct demo_got as (s & p & R & El).
  destruct (writeLog_absorbs 1 s _ demo_log 50 (mkCached p 1 true None) R El)
    as (s' & E & HH); [apply lookup_insert_eq|simpl; lia|done|simpl; unfold LOG_SIZE, MAX_OP_BLOCKS; lia|
    simpl; lia|simpl; lia|].
  exists s, s', p. split; [exact E|]. rewrite decide_False in HH by (unfold txn; simpl; apply not_elem_of_nil).
  destruct HH as [-> _]. done.
Defined.

Lemma endOp_group_commit_witness : ∃ s s' : FS BufferCache,
  endOp s = Ok (tt, s') ∧ committing (log s') = false.
Proof.
  destruct demo_ready as (s & v & lg & D & R & El & Hr & Hn & H0 & Hst & Ho & Hc & _).
  destruct (endOp_group_commit 1 s v lg D R El Hr Hc ltac:(lia)) as (s' & v' & E & _ & _ & E' & _).
  by exists s, s'.
Defined.

End Log.
