(* ===== verification/LogSpace.v ===== *)
(** * Reservation of log space

    The operations of the file system as an interleaving: an operation opens
    with [beginOp], logs buffers with [writeLog], works on buffers in between,
    and ends with [endOp].  The invariant is the reservation [beginOp] makes:
    the logged blocks and the blocks the open operations may still log fit
    into the log together. *)

From S2P Require Import Prelude HashMap SleepMutex Buffer FsState Log.
Import Buffer FsState Log.

Module LogSpace.

(** ** Definitions *)

Section relation.
Context {S P : Type} `{BufferOps S P}.

(** A state with, for every open operation, the number of [writeLog]s it has
    made. *)
Abbreviation config := (FS S * list Z)%type.

Inductive log_step : config → config → Prop :=
  | step_begin s s' us :
      beginOp s = Ok (tt, s') → log_step (s, us) (s', 0 :: us)
  | step_write s s' us1 u us2 (p : P) :
      u < MAX_OP_BLOCKS → writeLog_buf p s = Ok (tt, s') →
      log_step (s, us1 ++ u :: us2) (s', us1 ++ (u + 1) :: us2)
  | step_end s s' us1 u us2 :
      endOp s = Ok (tt, s') → log_step (s, us1 ++ u :: us2) (s', us1 ++ us2)
  | step_buffer {A} (c : M S A) s a s' us :
      on_cache c s = Ok (a, s') → log_step (s, us) (s', us).

Definition sum (us : list Z) : Z := foldr Z.add 0 us.

(** The reservation invariant. *)
Record space (c : config) : Prop := {
  sp_open : outstanding (log (fst c)) = Z.of_nat (length (snd c));
  sp_few : (length (snd c) <= 3)%nat;
  sp_idle : committing (log (fst c)) = false;
  sp_len : Z.of_nat (length (hblock (header (log (fst c))))) = LOG_SIZE;
  sp_used : Forall (λ u, 0 <= u <= MAX_OP_BLOCKS) (snd c);
  sp_n : 0 <= n (header (log (fst c)));
  sp_reserved : n (header (log (fst c))) +
    (MAX_OP_BLOCKS * Z.of_nat (length (snd c)) - sum (snd c)) <= LOG_SIZE;
}.
End relation.

(** ** Operations that do not touch the log *)

Abbreviation keeps_log := (keeps log).

Section keeps.
Context {S : Type}.

Lemma keeps_on_cache {A} (c : M S A) : keeps_log (on_cache c).
Proof. intros s a s' E. unfold on_cache in E. destruct (c (cache s)) as [[? ?]|]; by simplify_eq/=. Qed.

Lemma keeps_header_block i : keeps_log (header_block (S := S) i).
Proof. unfold header_block. keeps_steps. Qed.
End keeps.

#[export] Hint Resolve keeps_on_cache keeps_header_block : keeps.

Section commit.
Context {S P : Type} `{BufferOps S P}.

Lemma keeps_fget dev b : keeps_log (fget dev b). Proof. apply keeps_on_cache. Qed.
Lemma keeps_frelease p : keeps_log (frelease p). Proof. apply keeps_on_cache. Qed.
Lemma keeps_funpin p : keeps_log (funpin p). Proof. apply keeps_on_cache. Qed.
Lemma keeps_fpin p : keeps_log (fpin p). Proof. apply keeps_on_cache. Qed.
Lemma keeps_fread p : keeps_log (fread p). Proof. apply keeps_on_cache. Qed.
Lemma keeps_fwrite p : keeps_log (fwrite p). Proof. apply keeps_on_cache. Qed.
Lemma keeps_fdata p : keeps_log (fdata p). Proof. apply keeps_on_cache. Qed.
Lemma keeps_fset_data p bs : keeps_log (fset_data p bs). Proof. apply keeps_on_cache. Qed.
Lemma keeps_fblock p : keeps_log (fblock p). Proof. apply keeps_on_cache. Qed.

#[local] Hint Resolve keeps_fget keeps_frelease keeps_funpin keeps_fread keeps_fwrite keeps_fdata
  keeps_fset_data : keeps.

Lemma keeps_writeHead : keeps_log writeHead.
Proof. unfold writeHead. keeps_steps. Qed.

Lemma keeps_writeLog : keeps_log writeLog.
Proof. unfold writeLog, write_one. keeps_steps. Qed.

Lemma keeps_install rec : keeps_log (installTransaction rec).
Proof. unfold installTransaction, install_one. keeps_steps. Qed.

(** [commit] empties the header and leaves the rest of the log as it was. *)
Lemma commit_log s s' : commit s = Ok (tt, s') → 0 <= n (header (log s)) →
  log s' = with_header (log s) (mkLogHeader 0 (hblock (header (log s)))).
Proof.
  intros E Hn. unfold commit in E. run_inv E. injection Hrun as <- <-.
  destruct (Z.ltb_spec 0 (n (header (log s)))).
  - run_inv E. apply keeps_writeLog in Hrun. apply keeps_writeHead in Hrun0, E.
    apply keeps_install in Hrun1. injection Hrun2 as <- <-. rewrite E. simpl.
    by rewrite Hrun1, Hrun0, Hrun.
  - injection E as <-. assert (n (header (log s)) = 0) as <- by lia.
    by destruct (log s) as [? ? ? ? ? []].
Qed.

Lemma set_header_block_log (s s' : FS S) i b a : set_header_block i b s = Ok (a, s') →
  ∃ hb, length hb = length (hblock (header (log s))) ∧
    log s' = with_header (log s) (mkLogHeader (n (header (log s))) hb).
Proof.
  unfold set_header_block. intros E. run_inv E. injection Hrun as <- <-.
  destruct (_ && _); [|done]. injection E as <- <-. eexists. split; [|reflexivity].
  apply length_insert.
Qed.

Lemma keeps_find_block fuel i b : keeps_log (find_block (S := S) fuel i b).
Proof.
  revert i; induction fuel as [|f IH]; intros i; cbn [find_block];
    apply keeps_bind; try apply keeps_gets; intros hn; destruct (i <? hn);
    auto using keeps_ret, keeps_fail.
  apply keeps_bind; [apply keeps_header_block|]. intros b'.
  destruct (b' =? b); auto using keeps_ret.
Qed.

(** A [writeLog] that returns adds at most one block, below the size. *)
Lemma writeLog_buf_log s s' (p : P) : writeLog_buf p s = Ok (tt, s') →
  0 <= n (header (log s)) < LOG_SIZE ∧ n (header (log s)) < u64 (size (log s) - 1) →
  ∃ hb m, length hb = length (hblock (header (log s))) ∧
    (m = n (header (log s)) ∨ m = n (header (log s)) + 1) ∧
    log s' = with_header (log s) (mkLogHeader m hb).
Proof.
  intros E Hn. unfold LOG_SIZE, MAX_OP_BLOCKS in Hn. unfold writeLog_buf in E. run_inv E.
  injection Hrun as <- <-. apply assert_ok in Hrun0 as [_ ->], Hrun1 as [_ ->], Hrun2 as [_ ->].
  apply keeps_fblock in Hrun3. apply keeps_find_block in Hrun4.
  apply set_header_block_log in Hrun5 as (hb & Hlen & El). rewrite Hrun4, Hrun3 in Hlen, El.
  exists hb. destruct (_ =? _).
  - run_inv E. apply keeps_fpin in Hrun. injection E as <-. exists (n (header (log s)) + 1).
    split; [done|]. split; [by right|]. unfold set_header. simpl. rewrite Hrun, El. simpl.
    by rewrite wrap_small by lia.
  - injection E as <-. exists (n (header (log s))). auto.
Qed.
End commit.

(** ** The invariant *)

Section invariant.
Context {S P : Type} `{BufferOps S P}.

Lemma sum_app us1 us2 : sum (us1 ++ us2) = sum us1 + sum us2.
Proof. unfold sum. induction us1 as [|u us IH]; simpl; lia. Qed.

Lemma sum_le us : Forall (λ u, 0 <= u <= MAX_OP_BLOCKS) us →
  0 <= sum us <= MAX_OP_BLOCKS * Z.of_nat (length us).
Proof. unfold sum, MAX_OP_BLOCKS. induction 1; simpl length; simpl foldr; lia. Qed.

(** The other operations leave at least the room an open operation has left. *)
Lemma space_room s us1 u us2 : space (S := S) (s, us1 ++ u :: us2) → u < MAX_OP_BLOCKS →
  0 <= n (header (log s)) < LOG_SIZE.
Proof.
  intros [_ _ _ _ Hu Hn Hr] Hlt. simpl in *. rewrite length_app, sum_app in Hr. simpl in Hr.
  apply Forall_app in Hu as [Hu1%sum_le Hu2]. apply Forall_cons in Hu2 as [Hu Hu2%sum_le].
  unfold LOG_SIZE, MAX_OP_BLOCKS in *. lia.
Qed.

Lemma space_begin s s' us : space (s, us) → beginOp s = Ok (tt, s') → space (S := S) (s', 0 :: us).
Proof.
  intros [Ho Hf Hi Hl Hu Hn Hr] E. simpl in *. unfold beginOp in E. run_inv E.
  injection Hrun as <- <-. rewrite Hi in E. pose proof (sum_le _ Hu) as Hs.
  unfold LOG_SIZE, MAX_OP_BLOCKS in *.
  rewrite swrap_small in E by (change (2 ^ (32 - 1)) with (2 ^ 31); lia).
  rewrite (wrap_small 64 (_ * _)) in E by lia. rewrite wrap_small in E by lia.
  destruct (Z.ltb_spec (10 * 3) (n (header (log s)) + (outstanding (log s) + 1) * 10)); [done|].
  injection E as <-. split; simpl; try done; try lia.
  - constructor; [unfold MAX_OP_BLOCKS; lia|done].
  - unfold LOG_SIZE, MAX_OP_BLOCKS. lia.
Qed.

Lemma writeLog_buf_guard s s' (p : P) : writeLog_buf p s = Ok (tt, s') →
  n (header (log s)) < LOG_SIZE ∧ n (header (log s)) < u64 (size (log s) - 1).
Proof.
  unfold writeLog_buf. intros E. run_inv E. injection Hrun as <- <-.
  apply assert_ok in Hrun0 as [H1 ->], Hrun1 as [H2 ->]. lia.
Qed.

Lemma space_write s s' us1 u us2 (p : P) : space (s, us1 ++ u :: us2) →
  u < MAX_OP_BLOCKS → writeLog_buf p s = Ok (tt, s') → space (S := S) (s', us1 ++ (u + 1) :: us2).
Proof.
  intros Hsp Hlt E. pose proof (space_room _ _ _ _ Hsp Hlt) as Hroom.
  destruct (writeLog_buf_guard _ _ _ E) as [_ Hg].
  destruct (writeLog_buf_log _ _ _ E (conj Hroom Hg)) as (hb & m & Hlen & Hm & El).
  destruct Hsp as [Ho Hf Hi Hl Hu Hn Hr]. simpl in *. rewrite length_app, ?sum_app in *. simpl in *.
  apply Forall_app in Hu as [Hu1 Hu2]. apply Forall_cons in Hu2 as [Hu Hu2].
  split; simpl; rewrite ?El, ?length_app, ?sum_app; simpl; try done; try lia.
  - apply Forall_app. split; [done|]. apply Forall_cons. split; [lia|done].
Qed.

Lemma space_end s s' us1 u us2 : space (s, us1 ++ u :: us2) →
  endOp s = Ok (tt, s') → space (S := S) (s', us1 ++ us2).
Proof.
  intros [Ho Hf Hi Hl Hu Hn Hr] E. simpl in *. rewrite length_app, ?sum_app in *. simpl in *.
  apply Forall_app in Hu as [Hu1 Hu2]. apply Forall_cons in Hu2 as [Hu Hu2].
  pose proof (sum_le _ Hu1). pose proof (sum_le _ Hu2).
  unfold endOp in E. run_inv E. injection Hrun as <- <-. apply assert_ok in Hrun0 as [_ ->].
  rewrite swrap_small in E by (change (2 ^ (32 - 1)) with (2 ^ 31); lia).
  assert (Forall (λ u, 0 <= u <= MAX_OP_BLOCKS) (us1 ++ us2)) by (apply Forall_app; done).
  destruct (Z.eqb_spec (outstanding (log s) - 1) 0) as [E1|E1].
  - run_inv E. injection Hrun as <- <-. destruct a1.
    apply commit_log in Hrun0; [|done]. simpl in Hrun0.
    injection Hrun1 as <- <-. injection Hrun2 as <- <-. injection E as <-.
    split; simpl; rewrite ?Hrun0, ?length_app, ?sum_app; simpl; try done; try lia.
  - run_inv E. injection Hrun as <- <-. injection E as <-.
    split; simpl; rewrite ?length_app, ?sum_app; simpl; try done; try lia.
Qed.


Lemma space_step c c' : log_step c c' → space (S := S) c → space c'.
Proof.
  destruct 1; intros Hsp.
  - by apply (space_begin s).
  - by apply (space_write s _ _ _ _ p).
  - by apply (space_end s _ _ u).
  - apply keeps_on_cache in H0. destruct Hsp. split; simpl in *; by rewrite ?H0.
Qed.

Lemma space_steps c c' : rtc log_step c c' → space (S := S) c → space c'.
Proof. induction 1; eauto using space_step. Qed.
End invariant.

(** ** Properties *)

(** C3: the reservation of [beginOp] suffices.  From an idle log, however the
    operations interleave, an open operation that has logged fewer than
    [MAX_OP_BLOCKS] buffers finds room in the header, so [writeLog]'s first
    assertion holds; and on a disk whose log has more than [LOG_SIZE] blocks
    besides none of [writeLog]'s three assertions can fail. *)
Theorem log_space_reserved {S P : Type} `{BufferOps S P} (s s' : FS S)
    (us1 : list Z) (u : Z) (us2 : list Z)
    (Hopen : outstanding (log s) = 0) (Hidle : committing (log s) = false)
    (Hempty : n (header (log s)) = 0)
    (Hlen : Z.of_nat (length (hblock (header (log s)))) = LOG_SIZE)
    (Hsteps : rtc log_step (s, []) (s', us1 ++ u :: us2)) (Hu : u < MAX_OP_BLOCKS) :
  0 <= n (header (log s')) < LOG_SIZE ∧ 1 <= outstanding (log s') <= 3 ∧
  (LOG_SIZE < size (log s') <= 2 ^ 32 → n (header (log s')) < u64 (size (log s') - 1)).
Proof.
  assert (space (s', us1 ++ u :: us2)) as Hsp.
  { apply (space_steps _ _ Hsteps). split; simpl; auto; unfold LOG_SIZE, MAX_OP_BLOCKS, sum in *; simpl; lia. }
  pose proof (space_room _ _ _ _ Hsp Hu) as Hn. destruct Hsp as [Ho Hf _ _ _ _ _]. simpl in *.
  rewrite length_app in *. simpl in *. split; [done|]. split; [lia|].
  intros Hs. rewrite wrap_small by lia. lia.
Qed.

Lemma log_space_reserved_witness : ∃ s' : FS BufferCache,
  beginOp (mkFS (initializeBufferCache ∅ 1) demo_super
    (mkLog 2 40 0 false 1 (mkLogHeader 0 (replicate 30 0))) []) = Ok (tt, s') ∧
  n (header (log s')) < LOG_SIZE.
Proof.
  eexists. split; [reflexivity|].
  eapply (log_space_reserved (mkFS (initializeBufferCache ∅ 1) demo_super
    (mkLog 2 40 0 false 1 (mkLogHeader 0 (replicate 30 0))) []) _ [] 0 []);
    [reflexivity|reflexivity|reflexivity|reflexivity| |unfold MAX_OP_BLOCKS; lia].
  apply rtc_once. apply step_begin. reflexivity.
Defined.

(** The disk image the build makes has [numLogs = LOG_SIZE]
    ([disk/make_disk.cpp]), so [writeLog] refuses a block as soon as 29 are
    logged, although [beginOp] lets three operations reserve 30. *)
Theorem writeLog_refuses_last {S P : Type} `{BufferOps S P} (s : FS S) (p : P)
    (Hsize : size (log s) = LOG_SIZE) (Hn : n (header (log s)) = 29) :
  writeLog_buf p s = Err AssertFailed.
Proof.
  unfold writeLog_buf. rewrite (bind_ok (gets log) _ s _ _ eq_refl), Hn, Hsize. reflexivity.
Qed.

End LogSpace.
