(* ===== verification/Txn.v ===== *)
(** * Blocks inside a transaction

    What the block, inode and directory layers rely on between [beginOp] and
    [endOp]: an invariant of the cache and the log while one process works on
    them, the current contents of every block, and rules for the three idioms
    of the layers above the log: open a block ([get] and [read]), change it
    (write the data and [writeLog]), and close it ([release]). *)

From S2P Require Import Prelude HashMap SleepMutex Buffer FsState Log.
Import Buffer FsState Log.

Module Txn.

(** ** Definitions *)

Section definitions.
Context {S P : Type} `{BufferOps S P} (dev : Z) `{!BufferLaws S P dev}.
Implicit Types (s : FS S) (v : view P) (lg : Log).

(** The contents of block [b] that its next reader sees. *)
Definition cur v (b : Z) : bytes :=
  match v_cache v !! b with
  | Some cb => default (dblock (v_disk v) b) (c_data cb)
  | None => dblock (v_disk v) b
  end.

Definition is_held v (b : Z) : bool :=
  match v_cache v !! b with
  | Some cb => c_held cb
  | None => false
  end.

(** The invariant, for an operation that works on the blocks [X].  A cached
    block is logged (the log pins it once), held by the process, or both; a
    block that is not logged has the contents of the disk. *)
Record fsok (X : gset Z) v lg : Prop := {
  ok_dev : ldevice lg = dev;
  ok_start : 0 <= start lg < 2 ^ 31;
  ok_len : Z.of_nat (length (hblock (header lg))) = LOG_SIZE;
  ok_n : 0 <= n (header lg) <= LOG_SIZE;
  ok_X : ∀ b, b ∈ X → 0 <= b < 2 ^ 32 ∧ ¬ in_log (start lg) b;
  ok_dom : dom (v_cache v) ⊆ X;
  ok_fits : fits (dev := dev) (X ∪ log_blocks (start lg));
  ok_nodup : NoDup (txn lg);
  ok_logged : ∀ b, b ∈ txn lg → ∃ cb, v_cache v !! b = Some cb ∧ is_Some (c_data cb);
  ok_refs : ∀ b cb, v_cache v !! b = Some cb →
    c_refs cb = (if decide (b ∈ txn lg) then 1 else 0) + (if c_held cb then 1 else 0) ∧
    1 <= c_refs cb;
  ok_clean : ∀ b cb, v_cache v !! b = Some cb → b ∉ txn lg →
    c_data cb = None ∨ c_data cb = Some (dblock (v_disk v) b);
}.

(** An operation is open, and the log has room for [k] more blocks. *)
Definition room lg (k : Z) : Prop :=
  n (header lg) + k <= LOG_SIZE ∧ n (header lg) + k <= size lg - 1 ∧ size lg <= 2 ^ 32 ∧
  1 <= outstanding lg.

(** A state of the file system inside a transaction. *)
Definition txn_state (X : gset Z) s v : Prop := frep dev s v ∧ fsok X v (log s).

(** The process holds the buffer [p] of block [b], which was read. *)
Definition holds v (b : Z) (p : P) : Prop :=
  ∃ cb, v_cache v !! b = Some cb ∧ c_ptr cb = p ∧ c_held cb = true ∧ is_Some (c_data cb).

(** The views agree on the disk and on every block but [b]. *)
Definition same_but (b : Z) v v' : Prop :=
  v_disk v' = v_disk v ∧ v_writes v' = v_writes v ∧
  ∀ b', b' ≠ b → v_cache v' !! b' = v_cache v !! b'.
End definitions.

(** ** Rules *)

Section rules.
Context {S P : Type} `{BufferOps S P} (dev : Z) `{!BufferLaws S P dev}.
Implicit Types (s : FS S) (v : view P) (lg : Log) (cb : cached P).

Lemma cur_same_but b v v' b' : same_but b v v' → b' ≠ b → cur v' b' = cur v b'.
Proof. intros (Ed & _ & Ec) Hne. unfold cur. by rewrite Ec, Ed. Qed.

Lemma is_held_same_but b v v' b' : same_but b v v' → b' ≠ b → is_held v' b' = is_held v b'.
Proof. intros (_ & _ & Ec) Hne. unfold is_held. by rewrite Ec. Qed.

Lemma holds_same_but b v v' b' p : same_but b v v' → b' ≠ b → holds v b' p → holds v' b' p.
Proof. intros (_ & _ & Ec) Hne (cb & Hcb & ?). exists cb. by rewrite Ec. Qed.

Lemma is_block_cur s v b : frep dev s v → is_block (cur v b).
Proof.
  intros R. unfold cur. destruct (v_cache v !! b) as [cb|] eqn:E; [|apply (rep_block _ _ _ R)].
  destruct (c_data cb) as [d|] eqn:Ed; [|apply (rep_block _ _ _ R)].
  apply (rep_data _ _ _ _ _ R E Ed).
Qed.

(** Changing the entry of one cached block. *)
Lemma fsok_put X v lg b cb :
  fsok dev X v lg → b ∈ X →
  c_refs cb = (if decide (b ∈ txn lg) then 1 else 0) + (if c_held cb then 1 else 0) →
  1 <= c_refs cb → (b ∈ txn lg → is_Some (c_data cb)) →
  (b ∉ txn lg → c_data cb = None ∨ c_data cb = Some (dblock (v_disk v) b)) →
  fsok dev X (put_cached b cb v) lg.
Proof.
  intros [H1 H2 H3 H4 H6 H7 H8 H9 H10 H11 H12] Hb Hr H1r Hd Hcl. split; simpl; auto.
  - rewrite dom_insert. set_solver.
  - intros b' Hb'. destruct (decide (b' = b)) as [->|Hne].
    + exists cb. rewrite lookup_insert_eq. auto.
    + rewrite lookup_insert_ne by done. auto.
  - intros b' cb'. destruct (decide (b' = b)) as [->|Hne].
    + rewrite lookup_insert_eq. intros [= <-]. auto.
    + rewrite lookup_insert_ne by done. auto.
  - intros b' cb'. destruct (decide (b' = b)) as [->|Hne].
    + rewrite lookup_insert_eq. intros [= <-]. auto.
    + rewrite lookup_insert_ne by done. auto.
Qed.

Lemma fsok_drop X v lg b : fsok dev X v lg → b ∉ txn lg → fsok dev X (drop_cached b v) lg.
Proof.
  intros [H1 H2 H3 H4 H6 H7 H8 H9 H10 H11 H12] Hb. split; simpl; auto.
  - rewrite dom_delete. set_solver.
  - intros b' Hb'. rewrite lookup_delete_ne by congruence. auto.
  - intros b' cb' [_ ?]%lookup_delete_Some. auto.
  - intros b' cb' [_ ?]%lookup_delete_Some. auto.
Qed.

Lemma same_but_put b cb v : same_but b v (put_cached b cb v).
Proof. split_and!; [done|done|]. intros b' Hne. simpl. by rewrite lookup_insert_ne. Qed.

Lemma same_but_drop b v : same_but b v (drop_cached b v).
Proof. split_and!; [done|done|]. intros b' Hne. simpl. by rewrite lookup_delete_ne. Qed.

Lemma same_but_trans b v1 v2 v3 : same_but b v1 v2 → same_but b v2 v3 → same_but b v1 v3.
Proof.
  intros (?&?&E1) (?&?&E2). split_and!; [congruence|congruence|]. intros b' Hne. by rewrite E2, E1.
Qed.

(** Open a block: [get] and [read]. *)
Lemma runs_open {B} X s v b (k : P → M (FS S) B) (Q : B → FS S → Prop) :
  txn_state dev X s v → b ∈ X → is_held v b = false →
  (∀ p s' v', same_globals s s' → txn_state dev X s' v' → same_but b v v' → holds v' b p →
     cur v' b = cur v b → runs (k p) s' Q) →
  runs (p ← fget dev b; fread p ;; k p) s Q.
Proof.
  intros [R Hok] HbX Hh HQ. runs_step.
  assert (∀ cb, v_cache v !! b = Some cb → c_held cb = false ∧ c_refs cb = 1 ∧ b ∈ txn (log s)) as Hfree.
  { intros cb E. unfold is_held in Hh. rewrite E in Hh.
    destruct (ok_refs _ _ _ _ Hok _ _ E) as [Hr H1]. rewrite Hh in *. case_decide; auto; lia. }
  apply (runs_fget dev _ _ _ _ R); [by apply (ok_X _ _ _ _ Hok)| | |].
  { eapply fits_mono; [|apply (ok_fits _ _ _ _ Hok)]. pose proof (ok_dom _ _ _ _ Hok). set_solver. }
  { intros cb E. destruct (Hfree _ E) as (? & -> & _). split; [done|lia]. }
  intros p s1 G1 Hp R1. set (cb1 := got p (v_cache v !! b)) in *.
  runs_step. eapply (runs_fread dev); [exact R1|apply lookup_insert_eq|done|].
  intros s2 G2 R2. simpl in R2. set (d := default (dblock (v_disk v) b) (c_data cb1)) in R2.
  assert (d = cur v b) as Ed.
  { unfold d, cb1, cur. by destruct (v_cache v !! b). }
  assert (put_cached b (with_data cb1 d) (put_cached b cb1 v) = put_cached b (with_data cb1 d) v) as Ev.
  { unfold put_cached, with_cache. simpl. by rewrite insert_insert_eq. }
  rewrite Ev in R2. apply (HQ p s2 (put_cached b (with_data cb1 d) v)).
  - eauto using same_globals_trans.
  - split; [exact R2|]. destruct G1 as (_ & E1 & _), G2 as (_ & E2 & _). rewrite E2, E1.
    assert (c_held cb1 = true) as Hh1 by (unfold cb1; by destruct (v_cache v !! b)).
    apply fsok_put; auto; simpl.
    + rewrite Hh1. unfold cb1. destruct (v_cache v !! b) as [cb|] eqn:E; simpl.
      * destruct (Hfree _ eq_refl) as (_ & -> & Hin). by rewrite decide_True.
      * rewrite decide_False; [done|]. intros Hin.
        destruct (ok_logged _ _ _ _ Hok _ Hin) as (cb & E' & _). congruence.
    + unfold cb1. destruct (v_cache v !! b) as [cb|] eqn:E; simpl; [|lia].
      destruct (Hfree _ eq_refl) as (_ & -> & Hin). lia.
    + intros Hn. right. rewrite Ed. unfold cur. destruct (v_cache v !! b) as [cb|] eqn:E; [|done].
      destruct (ok_clean _ _ _ _ Hok _ _ E Hn) as [->| ->]; done.
  - apply same_but_put.
  - exists (with_data cb1 d). simpl. rewrite lookup_insert_eq. split_and!; [done|done| |eauto].
    unfold cb1. by destruct (v_cache v !! b).
  - unfold cur at 1. simpl. rewrite lookup_insert_eq. done.
Qed.

(** Read the data of a held block. *)
Lemma runs_data X s v b p (Q : bytes → FS S → Prop) :
  txn_state dev X s v → holds v b p → Q (cur v b) s → runs (fdata p) s Q.
Proof.
  intros [R Hok] (cb & E & <- & Hh & d & Ed) HQ.
  eapply (runs_fdata dev); [exact R|exact E|done|exact Ed|].
  unfold cur in HQ. by rewrite E, Ed in HQ.
Qed.

(** The steps of opening a block, as equations. *)
Lemma open_inv X s v b : txn_state dev X s v → b ∈ X → is_held v b = false →
  ∃ p s1 s2 v2, fget dev b s = Ok (p, s1) ∧ fread p s1 = Ok (tt, s2) ∧
    fdata p s2 = Ok (cur v b, s2) ∧ same_globals s s2 ∧ txn_state dev X s2 v2 ∧
    same_but b v v2 ∧ holds v2 b p ∧ cur v2 b = cur v b.
Proof.
  intros T Hb Hh.
  assert (runs (p ← fget dev b; fread p ;; mret p) s (λ p s2, ∃ v2, same_globals s s2 ∧
    txn_state dev X s2 v2 ∧ same_but b v v2 ∧ holds v2 b p ∧ cur v2 b = cur v b))
    as (p & s2 & E & v2 & HH)%runs_inv.
  { apply (runs_open X s v); auto. intros p s2 v2 G2 T2 B2 H2 C2. apply runs_ret. eauto 10. }
  apply bind_inv in E as (p' & s1 & Eg & E). apply bind_inv in E as ([] & s3 & Er & E).
  injection E as -> ->. exists p, s1, s2, v2. split; [done|]. split; [done|].
  split; [|exact HH]. destruct HH as (_ & T2 & _ & H2 & C2).
  destruct (runs_inv _ _ _ (runs_data X s2 v2 b p (λ d s', d = cur v b ∧ s' = s2) T2 H2
    (conj C2 eq_refl))) as (d & s3 & E & -> & ->). done.
Qed.

(** Close a block: [release]. *)
Lemma runs_close X s v b p (Q : unit → FS S → Prop) :
  txn_state dev X s v → holds v b p →
  (∀ s' v', same_globals s s' → txn_state dev X s' v' → same_but b v v' →
     cur v' b = cur v b → is_held v' b = false → Q tt s') →
  runs (frelease p) s Q.
Proof.
  intros [R Hok] (cb & E & <- & Hh & d & Ed) HQ.
  pose proof (ok_dom _ _ _ _ Hok b (elem_of_dom_2 _ _ _ E)) as HbX.
  destruct (ok_refs _ _ _ _ Hok _ _ E) as [Hr H1]. rewrite Hh in Hr.
  eapply (runs_frelease dev); [exact R|exact E|done|done|]. intros s1 G1 R1.
  assert (log s1 = log s) as El by apply G1.
  apply (HQ s1 (released b cb v) G1); unfold released in *; case_decide as Hd.
  - split; [done|]. rewrite El. apply fsok_drop; [done|]. intros Hin. rewrite decide_True in Hr by done. lia.
  - split; [done|]. rewrite El. apply fsok_put; simpl; auto; [lia|lia|].
    intros Hn. by apply (ok_clean _ _ _ _ Hok _ cb).
  - apply same_but_drop.
  - apply same_but_put.
  - unfold cur. simpl. rewrite lookup_delete_eq, E, Ed. simpl.
    assert (b ∉ txn (log s)) as Hn. { intros Hin. rewrite decide_True in Hr by done. lia. }
    destruct (ok_clean _ _ _ _ Hok _ _ E Hn); congruence.
  - unfold cur. simpl. by rewrite lookup_insert_eq, E.
  - unfold is_held. simpl. by rewrite lookup_delete_eq.
  - unfold is_held. simpl. by rewrite lookup_insert_eq.
Qed.

(** Change a held block: write its data, then [writeLog]. *)
Lemma runs_change {B} X s v b p d (k : unit → M (FS S) B) (Q : B → FS S → Prop) :
  txn_state dev X s v → holds v b p → is_block d → room (log s) 1 →
  (∀ s' v', superBlock s' = superBlock s → woken s' = woken s →
     log s' = logged_block (log s) b → txn_state dev X s' v' → same_but b v v' →
     holds v' b p → cur v' b = d → runs (k tt) s' Q) →
  runs (fset_data p d ;; u ← writeLog_buf p; k u) s Q.
Proof.
  intros [R Hok] (cb & E & <- & Hh & d0 & Ed) Hd (Hroom & Hroom' & Hroom'' & Hopen) HQ.
  pose proof (ok_dom _ _ _ _ Hok b (elem_of_dom_2 _ _ _ E)) as HbX.
  destruct (ok_refs _ _ _ _ Hok _ _ E) as [Hr H1]. rewrite Hh in Hr.
  pose proof (ok_n _ _ _ _ Hok). pose proof (ok_len _ _ _ _ Hok).
  runs_step. eapply (runs_fset_data dev); [exact R|exact E|done|exact Ed|exact Hd|].
  intros s1 (Es1 & El1 & Ew1) R1. runs_step. set (cb1 := with_data cb d) in *.
  eapply runs_mono.
  { apply (runs_writeLog_buf dev s1 _ (log s) b cb1 R1 El1); [apply lookup_insert_eq| |done|lia|lia|lia].
    simpl. case_decide; lia. }
  intros [] s2 [(Es2 & El2 & Ew2) R2]. set (lg' := logged_block (log s) b) in *.
  set (cb2 := if decide (b ∈ txn (log s)) then cb1 else with_refs cb1 (c_refs cb1 + 1)).
  assert ((if decide (b ∈ txn (log s)) then put_cached b cb1 v
           else put_cached b (with_refs cb1 (c_refs cb1 + 1)) (put_cached b cb1 v)) = put_cached b cb2 v) as Ev.
  { unfold cb2. case_decide; [done|]. unfold put_cached, with_cache. simpl. by rewrite insert_insert_eq. }
  rewrite Ev in R2.
  assert (b ∈ txn lg') as Hin'.
  { unfold lg'. rewrite txn_logged_block by lia. case_decide; [done|]. set_solver. }
  assert (∀ b', b' ≠ b → b' ∈ txn lg' ↔ b' ∈ txn (log s)) as Hother.
  { intros b' Hne. unfold lg'. rewrite txn_logged_block by lia. case_decide; [done|]. set_solver. }
  assert (c_ptr cb2 = c_ptr cb ∧ c_held cb2 = true ∧ c_data cb2 = Some d ∧ c_refs cb2 = 2) as (Hp2 & Hh2 & Hd2 & Hr2).
  { unfold cb2. case_decide; simpl; rewrite Hh; split_and!; auto; lia. }
  apply (HQ s2 (put_cached b cb2 v)); [congruence|congruence|done| | | |].
  - split; [exact R2|]. rewrite El2.
    assert (ldevice lg' = ldevice (log s) ∧ start lg' = start (log s) ∧ outstanding lg' = outstanding (log s) ∧
      length (hblock (header lg')) = length (hblock (header (log s))) ∧
      n (header (log s)) <= n (header lg') <= n (header (log s)) + 1) as (E1 & E2 & E3 & E4 & E5).
    { unfold lg', logged_block. case_decide; simpl; rewrite ?length_insert; split_and!; auto; lia. }
    destruct Hok as [K1 K2 K3 K4 K6 K7 K8 K9 K10 K11 K12]. split; simpl; rewrite ?E1, ?E2, ?E3, ?E4; auto.
    + lia.
    + rewrite dom_insert. set_solver.
    + unfold lg'. rewrite txn_logged_block by lia. case_decide as Hb; [done|].
      apply NoDup_app. split_and!; [done| |apply NoDup_singleton]. intros x Hx ->%list_elem_of_singleton. done.
    + intros b' Hb'. destruct (decide (b' = b)) as [->|Hne].
      * exists cb2. rewrite lookup_insert_eq. eauto.
      * rewrite lookup_insert_ne by done. by apply K10, Hother.
    + intros b' cb'. destruct (decide (b' = b)) as [->|Hne].
      * rewrite lookup_insert_eq. intros [= <-]. rewrite decide_True, Hh2, Hr2 by done. lia.
      * rewrite lookup_insert_ne by done. intros E'. rewrite (decide_ext _ _ _ _ (Hother _ Hne)). by apply (K11 b').
    + intros b' cb'. destruct (decide (b' = b)) as [->|Hne]; [done|].
      rewrite lookup_insert_ne by done. rewrite Hother by done. apply K12.
  - apply same_but_put.
  - exists cb2. simpl. rewrite lookup_insert_eq. eauto.
  - unfold cur. simpl. by rewrite lookup_insert_eq, Hd2.
Qed.

(** *** Around an operation *)

(** No operation is open and the log is empty. *)
Record quiet (X : gset Z) s v : Prop := {
  qt_txn : txn_state dev X s v;
  qt_held : ∀ b, is_held v b = false;
  qt_idle : committing (log s) = false;
  qt_none : outstanding (log s) = 0;
  qt_empty : n (header (log s)) = 0;
}.

(** [beginOp] in a quiet state. *)
Lemma runs_beginOp X s v (Q : unit → FS S → Prop) :
  quiet X s v →
  (∀ s', superBlock s' = superBlock s → woken s' = woken s → start (log s') = start (log s) →
     size (log s') = size (log s) → outstanding (log s') = 1 → committing (log s') = false →
     n (header (log s')) = 0 → txn_state dev X s' v → Q tt s') →
  runs beginOp s Q.
Proof.
  intros [[R Hok] Hh Hc Ho Hn] HQ. unfold beginOp. runs_step. runs_step. rewrite Hc, Ho, Hn.
  change (LOG_SIZE <? u64 (0 + u64 (s32 (0 + 1) * MAX_OP_BLOCKS))) with false. change (s32 (0 + 1)) with 1.
  unfold set_outstanding. runs_step. apply HQ; try done. split; [exact R|]. by destruct Hok.
Qed.

(** Nothing held and everything logged: [endOp] can commit. *)
Lemma fsok_ready X v lg : fsok dev X v lg → (∀ b, is_held v b = false) → ready dev v lg (cur v).
Proof.
  intros [H1 H2 H3 H4 H6 H7 H8 H9 H10 H11 H12] Hh. split; auto.
  - intros b Hb. destruct (H10 b Hb) as (cb & E & d & Ed).
    pose proof (H6 b (H7 b (elem_of_dom_2 _ _ _ E))) as [? ?]. split_and!; auto; try lia.
    specialize (Hh b). unfold is_held in Hh. rewrite E in Hh. destruct (H11 _ _ E) as [Hr Hr1].
    exists cb. unfold cur. rewrite E, Ed. case_decide; rewrite Hh in *; split_and!; auto; lia.
  - intros b Hb. destruct (v_cache v !! b) eqn:E; [|done].
    by destruct (H6 b (H7 b (elem_of_dom_2 _ _ _ E))) as [_ ?].
  - eapply fits_mono; [|exact H8]. set_solver.
Qed.
Lemma dblock_install (D : Z → bytes) (bs : list Z) (d : gmap Z bytes) b :
  dblock (replay d (install_writes D bs)) b = if decide (b ∈ bs) then D b else dblock d b.
Proof.
  revert d; induction bs as [|b' bs IH]; intros d; [done|].
  change (replay d (install_writes D (b' :: bs))) with (replay (<[b' := D b']> d) (install_writes D bs)).
  rewrite IH, dblock_insert.
  repeat case_decide; subst; try done; set_solver.
Qed.

(** A block pinned once leaves the cache. *)
Lemma unpin_all_gone bs (c : gmap Z (cached P)) b cb :
  NoDup bs → b ∈ bs → c !! b = Some cb → c_refs cb = 1 → fold_left (λ c b, unpin_cache b c) bs c !! b = None.
Proof.
  intros Hnd Hb. revert c Hb; induction Hnd as [|b' bs Hn Hnd IH]; intros c Hb E Hr; [by apply not_elem_of_nil in Hb|].
  simpl. destruct (decide (b = b')) as [<-|Hne].
  - rewrite lookup_unpin_all by done. unfold unpin_cache. rewrite E, decide_True by done. apply lookup_delete_eq.
  - apply elem_of_cons in Hb as [?|Hb]; [done|]. apply IH; auto. by rewrite lookup_unpin_cache.
Qed.

(** The disk writes that lead from [v] to [v'] are whole blocks and atomic against crashes: with an
    empty log on the disk of [v], stopping after any number of them leaves a disk
    whose recovery has the contents of [v] or those of [v']. *)
Definition crash_atomic (st : Z) v v' : Prop :=
  ∃ ws, v_writes v' = v_writes v ++ ws ∧ v_disk v' = replay (v_disk v) ws ∧ Forall (λ w, is_block w.2) ws ∧
  (hdr_n (v_disk v) st = 0 → hdr_n (v_disk v') st = 0 ∧
   ∀ ws1, ws1 `prefix_of` ws → hdr_ok (replay (v_disk v) ws1) st ∧
     (same_data st (recovered (replay (v_disk v) ws1) st) (v_disk v) ∨
      same_data st (recovered (replay (v_disk v) ws1) st) (v_disk v'))).

Lemma crash_atomic_endOp s v : frep dev s v → ready dev v (log s) (cur v) → outstanding (log s) = 1 →
  crash_atomic (start (log s)) v (view_after_endOp v (log s) (cur v)).
Proof.
  intros R Hr Ho. unfold view_after_endOp. rewrite Ho. change (1 =? 1) with true. cbv iota.
  assert (is_block (dblock (v_disk v) (start (log s)))) as Hblk by apply (rep_block _ _ _ R).
  eexists. split; [reflexivity|]. split; [reflexivity|]. split.
  { case_match; [|by apply Forall_nil]. apply commit_writes_blocks; [done|]. intros b. by apply (is_block_cur s). }
  intros H0.
  destruct (0 <? n (header (log s))) eqn:En.
  - split; [by apply hdr_n_commit_writes|]. intros ws1 Hpre.
    destruct (commit_prefix dev v (log s) (cur v) _ ws1 Hr Hblk H0 Hpre) as [Hok [Hs|Hs]]; (split; [done|]); [by left|].
    right. rewrite Hs. symmetry. by apply (replay_commit_writes dev v).
  - split; [done|]. intros ws1 ->%prefix_nil_inv. destruct (hdr_ok_empty _ _ H0) as [Hok E].
    split; [done|]. left. change (replay (v_disk v) []) with (v_disk v). by rewrite E.
Qed.

(** [endOp] of the only operation: the state is quiet again, the contents of the
    blocks are as they were, and they are on the disk. *)
Lemma runs_endOp_last X s v (Q : unit → FS S → Prop) :
  txn_state dev X s v → (∀ b, is_held v b = false) → committing (log s) = false → outstanding (log s) = 1 →
  (∀ s' v', quiet X s' v' → superBlock s' = superBlock s → start (log s') = start (log s) →
     size (log s') = size (log s) →
     (∀ b, ¬ in_log (start (log s)) b → cur v' b = cur v b ∧ dblock (v_disk v') b = cur v b) →
     crash_atomic (start (log s)) v v' → Q tt s') →
  runs endOp s Q.
Proof.
  intros [R Hok] Hh Hc Ho HQ. pose proof (fsok_ready X v _ Hok Hh) as Hready.
  pose proof (crash_atomic_endOp s v R Hready Ho) as Hcrash.
  eapply runs_mono; [apply (runs_endOp dev s v (log s) (cur v)); auto; lia|].
  intros [] s' (Es & _ & El & R'). unfold view_after_endOp, after_endOp in *. rewrite Ho in *.
  change (1 =? 1) with true in *. cbv iota in *. set (W := if 0 <? _ then _ else _) in *.
  set (v' := unpin_all _ _) in *.
  assert (v_cache v' = ∅) as Ec.
  { apply map_eq. intros b. rewrite lookup_empty. unfold v', unpin_all, with_cache. simpl.
    destruct (v_cache v !! b) as [cb|] eqn:E.
    - destruct (ok_refs _ _ _ _ Hok _ _ E) as [Hr Hr1]. specialize (Hh b). unfold is_held in Hh.
      rewrite E in Hh. rewrite Hh in Hr. case_decide; [|lia].
      eapply unpin_all_gone; [apply (ok_nodup _ _ _ _ Hok)|done|done|lia].
    - apply not_elem_of_dom. apply not_elem_of_dom in E. pose proof (dom_unpin_all (txn (log s)) (v_cache v)).
      set_solver. }
  assert (∀ b, cur v' b = dblock (v_disk v') b) as Ecur.
  { intros b. unfold cur. by rewrite Ec, lookup_empty. }
  assert (∀ b, ¬ in_log (start (log s)) b → dblock (v_disk v') b = cur v b) as Hdisk.
  { intros b Hb. transitivity (dblock (new_disk (v_disk v) (log s) (cur v)) b).
    - unfold v', W. simpl. destruct (Z.ltb_spec 0 (n (header (log s)))) as [Hn|Hn].
      + by apply (replay_commit_writes dev v (log s) (cur v)).
      + pose proof (rd_n _ _ _ _ Hready). unfold new_disk, txn. by replace (n (header (log s))) with 0 by lia.
    - unfold new_disk. rewrite dblock_install. case_decide as Hd; [done|]. unfold cur.
      destruct (v_cache v !! b) as [cb|] eqn:E; [|done].
      destruct (ok_clean _ _ _ _ Hok _ _ E Hd) as [->| ->]; done. }
  clearbody v'. apply (HQ s' v'); rewrite ?El; simpl; auto.
  - split; rewrite ?El; try done.
    + split; [done|]. rewrite El. destruct Hok as [H1 H2 H3 H4 H6 H7 H8 H9 H10 H11 H12].
      split; rewrite ?Ec; simpl; auto; try lia; try (intros b ?; by rewrite lookup_empty).
      * by rewrite dom_empty_L.
      * constructor.
      * intros b Hb. by apply not_elem_of_nil in Hb.
    + intros b. unfold is_held. by rewrite Ec, lookup_empty.
  - intros b Hb. rewrite Ecur. auto.
Qed.
End rules.

End Txn.
