(* ===== verification/Block.v ===== *)
(** * Disk blocks and the super block

    [kernel/fs/block.h], [block.cpp], [super_block.h], [super_block.cpp] and
    [fs.cpp]: the bitmap of used blocks, the super block, and the start of the
    file system. *)

From S2P Require Import Prelude CString HashMap SleepMutex Buffer FsState Log Txn.
Import CString Buffer FsState Log Txn.

Module Block.

(** ** Definitions *)

Definition BITS_PER_BLOCK : Z := BLOCK_SIZE * 8.

Definition FS_MAGIC : Z := 0x10203040.

(** The bitmap block of [block]. *)
Definition bblock (block : Z) (sb : SuperBlock) : Z :=
  u32 (u64 (block / BITS_PER_BLOCK + bmapStart sb)).

(** [1 << (bit % 8)]. *)
Definition bit_mask (bit : Z) : Z := Z.shiftl 1 (bit mod 8).

(** The inner loop of [allocateBlock]: the first clear bit from [bit] on. *)
Fixpoint find_bit (fuel : nat) (data : bytes) (block size bit : Z) : option Z :=
  if (bit <? BITS_PER_BLOCK) && (u32 (block + bit) <? size) then
    match fuel with
    | O => None
    | S f =>
        if Z.land (ld8 data (bit / 8)) (bit_mask bit) =? 0 then Some bit
        else find_bit f data block size (bit + 1)
    end
  else None.

Section operations.
Context {S P : Type} `{BufferOps S P}.

Definition fillBlock (device block ch : Z) : M (FS S) unit :=
  p ← fget device block;
  fread p ;;
  data ← fdata p;
  fset_data p (memset data 0 ch BLOCK_SIZE) ;;
  u ← writeLog_buf p;
  frelease p.

(** The outer loop of [allocateBlock], one bitmap block per round. *)
Fixpoint allocate_loop (fuel : nat) (device block : Z) : M (FS S) Z :=
  sb ← gets superBlock;
  if block <? sb_size sb then
    match fuel with
    | O => fail NoFuel
    | Datatypes.S f =>
        p ← fget device (bblock block sb);
        fread p ;;
        data ← fdata p;
        match find_bit (Z.to_nat BITS_PER_BLOCK) data block (sb_size sb) 0 with
        | Some bit =>
            fset_data p (st8 data (bit / 8) (Z.lor (ld8 data (bit / 8)) (bit_mask bit))) ;;
            u ← writeLog_buf p;
            frelease p ;;
            fillBlock device (u32 (block + bit)) 0 ;;
            mret (u32 (block + bit))
        | None => frelease p ;; allocate_loop f device (u32 (block + BITS_PER_BLOCK))
        end
    end
  else mret 0.

Definition allocateBlock (device : Z) : M (FS S) Z :=
  sb ← gets superBlock;
  allocate_loop (Z.to_nat (sb_size sb / BITS_PER_BLOCK + 1)) device 0.

Definition freeBlock (device block : Z) : M (FS S) unit :=
  sb ← gets superBlock;
  p ← fget device (bblock block sb);
  fread p ;;
  data ← fdata p;
  let bit := block mod BITS_PER_BLOCK in
  assert (negb (Z.land (ld8 data (bit / 8)) (bit_mask bit) =? 0)) ;;
  fset_data p (st8 data (bit / 8) (Z.land (ld8 data (bit / 8)) (Z.lnot (bit_mask bit)))) ;;
  u ← writeLog_buf p;
  frelease p.

(** The eight words at the start of the block. *)
Definition parse_super (data : bytes) : SuperBlock :=
  mkSuperBlock (ld32 data 0) (ld32 data 4) (ld32 data 8) (ld32 data 12)
    (ld32 data 16) (ld32 data 20) (ld32 data 24) (ld32 data 28).

(** [SuperBlock::read]. *)
Definition super_read (device : Z) : M (FS S) unit :=
  p ← fget device 1;
  fread p ;;
  data ← fdata p;
  modify (set_superBlock (parse_super data)) ;;
  frelease p.

Definition initializeFs (device : Z) : M (FS S) unit :=
  super_read device ;;
  sb ← gets superBlock;
  assert (magic sb =? FS_MAGIC) ;;
  initializeLog device sb.
End operations.

(** ** The bitmap *)

(** Whether bit [b mod 8192] of a bitmap block is set. *)
Definition used_in (data : bytes) (b : Z) : bool :=
  Z.testbit (ld8 data ((b mod BITS_PER_BLOCK) / 8)) (b mod 8).

(** Whether the bitmap marks block [b] used. *)
Definition used {P} (v : view P) (sb : SuperBlock) (b : Z) : bool :=
  used_in (cur v (bblock b sb)) b.

(** A bitmap block with the bit of [b] set or cleared. *)
Definition set_used (data : bytes) (b : Z) : bytes :=
  let i := (b mod BITS_PER_BLOCK) / 8 in
  st8 data i (Z.lor (ld8 data i) (bit_mask b)).

Definition set_free (data : bytes) (b : Z) : bytes :=
  let i := (b mod BITS_PER_BLOCK) / 8 in
  st8 data i (Z.land (ld8 data i) (Z.lnot (bit_mask b))).

Lemma land_mask_zero x k : 0 <= k → (Z.land x (Z.shiftl 1 k) =? 0) = negb (Z.testbit x k).
Proof.
  intros Hk. rewrite Z.shiftl_mul_pow2, Z.mul_1_l by done.
  destruct (Z.testbit x k) eqn:E; simpl.
  - apply Z.eqb_neq. intros E0. assert (Z.testbit (Z.land x (2 ^ k)) k = true) as Ht.
    { by rewrite Z.land_spec, E, Z.pow2_bits_true. }
    by rewrite E0, Z.bits_0 in Ht.
  - apply Z.eqb_eq, Z.bits_inj'. intros i Hi. rewrite Z.land_spec, Z.bits_0, Z.pow2_bits_eqb by done.
    destruct (Z.eqb_spec k i) as [->|]; [by rewrite E|by rewrite andb_false_r].
Qed.

Lemma bit_mask_range b : 0 < bit_mask b < 256.
Proof.
  unfold bit_mask. pose proof (Z.mod_pos_bound b 8). rewrite Z.shiftl_mul_pow2 by lia.
  assert (2 ^ 0 <= 2 ^ (b mod 8)) by (apply Z.pow_le_mono_r; lia).
  assert (2 ^ (b mod 8) <= 2 ^ 7) by (apply Z.pow_le_mono_r; lia). lia.
Qed.

Lemma testbit_mask b j : 0 <= j → Z.testbit (bit_mask b) j = (b mod 8 =? j).
Proof.
  intros Hj. unfold bit_mask. pose proof (Z.mod_pos_bound b 8).
  rewrite Z.shiftl_mul_pow2, Z.mul_1_l by lia. by apply Z.pow2_bits_eqb; lia.
Qed.

Lemma testbit_mod256 x j : 0 <= j < 8 → Z.testbit (x mod 256) j = Z.testbit x j.
Proof. intros Hj. change 256 with (2 ^ 8). apply Z.mod_pow2_bits_low. lia. Qed.

Lemma byte_index_valid data b : is_block data → valid_addr data ((b mod BITS_PER_BLOCK) / 8).
Proof.
  intros Hd. rewrite valid_addr_block by done. unfold BITS_PER_BLOCK, BLOCK_SIZE. dlia.
Qed.

(** Bits of the same bitmap block at different places. *)
Lemma bit_place b b' : b / BITS_PER_BLOCK = b' / BITS_PER_BLOCK →
  (b mod BITS_PER_BLOCK) / 8 = (b' mod BITS_PER_BLOCK) / 8 → b mod 8 = b' mod 8 → b = b'.
Proof. unfold BITS_PER_BLOCK, BLOCK_SIZE. intros. dlia. Qed.

Lemma used_in_update data b b' (bv : bool) : is_block data → b / BITS_PER_BLOCK = b' / BITS_PER_BLOCK →
  used_in ((if bv then set_used else set_free) data b) b' = if decide (b' = b) then bv else used_in data b'.
Proof.
  intros Hd Hq. pose proof (Z.mod_pos_bound b' 8).
  assert (∀ x, 0 <= x < 256 → x mod 256 = x) as Hm by (intros; by apply Z.mod_small).
  destruct (decide ((b mod BITS_PER_BLOCK) / 8 = (b' mod BITS_PER_BLOCK) / 8)) as [Ei|Ni].
  - assert (used_in ((if bv then set_used else set_free) data b) b' =
      if bv then Z.testbit (ld8 data (b' mod BITS_PER_BLOCK / 8)) (b' mod 8) || (b mod 8 =? b' mod 8)
      else Z.testbit (ld8 data (b' mod BITS_PER_BLOCK / 8)) (b' mod 8) && negb (b mod 8 =? b' mod 8)) as ->.
    { unfold used_in, set_used, set_free. destruct bv; cbv zeta;
        rewrite Ei, ld8_st8_eq by (by apply byte_index_valid); rewrite testbit_mod256 by lia.
      - by rewrite Z.lor_spec, testbit_mask by lia.
      - by rewrite Z.land_spec, Z.lnot_spec, testbit_mask by lia. }
    unfold used_in. case_decide as Hb.
    + subst b'. rewrite Z.eqb_refl. destruct bv; [apply orb_true_r|apply andb_false_r].
    + destruct (Z.eqb_spec (b mod 8) (b' mod 8)) as [E8|].
      * exfalso. apply Hb. symmetry. by apply bit_place.
      * destruct bv; [apply orb_false_r|apply andb_true_r].
  - rewrite decide_False by congruence. unfold used_in, set_used, set_free.
    destruct bv; cbv zeta; by rewrite ld8_st8_ne.
Qed.

Lemma is_block_st8 data i x : is_block data → is_block (st8 data i x).
Proof. apply (is_block_stN 1). Qed.

Lemma is_block_memset data ch : is_block data → is_block (memset data 0 ch BLOCK_SIZE).
Proof.
  intros Hd. unfold memset. generalize (pre_decrement_count BLOCK_SIZE) as k. intros k.
  revert data Hd. generalize 0 as d. induction k as [|k IH]; intros d data Hd; simpl; [done|].
  by apply IH, is_block_st8.
Qed.

(** The inner loop finds the first clear bit below [size]. *)
Lemma find_bit_spec fuel data block size bit :
  block mod BITS_PER_BLOCK = 0 → 0 <= block → 0 <= bit <= BITS_PER_BLOCK →
  BITS_PER_BLOCK - bit <= Z.of_nat fuel → block + BITS_PER_BLOCK < 2 ^ 32 →
  match find_bit fuel data block size bit with
  | Some b => bit <= b < BITS_PER_BLOCK ∧ block + b < size ∧ used_in data (block + b) = false ∧
      ∀ j, bit <= j < b → used_in data (block + j) = true
  | None => ∀ j, bit <= j < BITS_PER_BLOCK → block + j < size → used_in data (block + j) = true
  end.
Proof.
  intros Hal Hb0. revert bit. induction fuel as [|f IH]; intros bit Hbit Hf Hmax; cbn [find_bit].
  - rewrite (proj2 (Z.ltb_ge bit _)) by lia. simpl. intros j Hj. lia.
  - destruct (Z.ltb_spec bit BITS_PER_BLOCK) as [Hlt|]; simpl; [|intros j Hj; lia].
    rewrite wrap_small by lia.
    destruct (Z.ltb_spec (block + bit) size) as [Hs|Hs]; [|intros j Hj Hs'; lia].
    assert (used_in data (block + bit) = Z.testbit (ld8 data (bit / 8)) (bit mod 8)) as Eu.
    { unfold used_in. unfold BITS_PER_BLOCK, BLOCK_SIZE in *. f_equal; [|dlia]. f_equal. dlia. }
    unfold bit_mask. rewrite land_mask_zero by (apply Z.mod_pos_bound; lia). rewrite <- Eu.
    destruct (used_in data (block + bit)) eqn:Eb; simpl.
    + specialize (IH (bit + 1)). destruct (find_bit f data block size (bit + 1)) as [b|].
      * destruct IH as (?&?&?&Hj); [lia|lia|lia|]. split_and!; auto; try lia. intros j Hj'.
        destruct (decide (j = bit)) as [->|]; [done|]. apply Hj. lia.
      * intros j Hj Hs'. destruct (decide (j = bit)) as [->|]; [done|]. apply IH; lia.
    + split_and!; try lia; done.
Qed.

(** The bit the inner loop finds is the first free block [b0], when it is in
    this bitmap block. *)
Lemma find_bit_first (u : Z → bool) data block size b0 :
  block mod BITS_PER_BLOCK = 0 → 0 <= block → block + BITS_PER_BLOCK < 2 ^ 32 →
  (∀ j, 0 <= j < BITS_PER_BLOCK → block + j < size → used_in data (block + j) = u (block + j)) →
  u b0 = false → (∀ b, 0 <= b < b0 → u b = true) → block <= b0 < size →
  find_bit (Z.to_nat BITS_PER_BLOCK) data block size 0 =
    if b0 <? block + BITS_PER_BLOCK then Some (b0 - block) else None.
Proof.
  intros Hal Hb Hmax Hu Hfree Hused Hb0.
  assert (0 < BITS_PER_BLOCK) as Hpos by done.
  pose proof (find_bit_spec (Z.to_nat BITS_PER_BLOCK) data block size 0 Hal Hb) as Hfind.
  destruct (find_bit _ _ _ _ _) as [bit|].
  - destruct Hfind as (Hbit & Hlt & Hz & Hbelow); [lia..|].
    rewrite Hu in Hz by lia.
    assert (¬ block + bit < b0) by (intros Hl; rewrite Hused in Hz by lia; done).
    assert (¬ b0 < block + bit).
    { intros Hl. specialize (Hbelow (b0 - block)). rewrite Hu, Zplus_minus, Hfree in Hbelow by lia.
      discriminate Hbelow. lia. }
    rewrite (proj2 (Z.ltb_lt _ _)) by lia. f_equal. lia.
  - destruct (Z.ltb_spec b0 (block + BITS_PER_BLOCK)); [|done].
    specialize (Hfind ltac:(lia) ltac:(lia) ltac:(lia) (b0 - block)).
    rewrite Hu, Zplus_minus, Hfree in Hfind by lia. discriminate Hfind; lia.
Qed.

(** ** Rules of the operations *)

Section rules.
Context {S P : Type} `{BufferOps S P} (dev : Z) `{!BufferLaws S P dev}.
Implicit Types (s : FS S) (v : view P).

(** What an operation leaves: the super block, and a transaction state whose
    log has grown by at most [k] blocks. *)
Definition steps_to (X : gset Z) (k : Z) s s' v' : Prop :=
  superBlock s' = superBlock s ∧ woken s' = woken s ∧ txn_state dev X s' v' ∧
  size (log s') = size (log s) ∧ start (log s') = start (log s) ∧
  outstanding (log s') = outstanding (log s) ∧ committing (log s') = committing (log s) ∧
  n (header (log s)) <= n (header (log s')) <= n (header (log s)) + k.

Lemma steps_to_globals X k s s1 s2 v2 :
  same_globals s s1 → steps_to X k s1 s2 v2 → steps_to X k s s2 v2.
Proof.
  unfold steps_to, same_globals. intros (E1&E2&E3) (F1&F2&F3&F4&F5&F6&F7&F8). rewrite E2 in *.
  split_and!; (congruence || done || lia).
Qed.

Lemma steps_to_trans X j k s s1 s2 v1 v2 :
  steps_to X j s s1 v1 → steps_to X k s1 s2 v2 → steps_to X (j + k) s s2 v2.
Proof.
  unfold steps_to. intros (E1&E2&E3&E4&E5&E6&E7&E8) (F1&F2&F3&F4&F5&F6&F7&F8). split_and!; try congruence; try done; lia.
Qed.

Lemma steps_to_room X j k s s' v' : steps_to X j s s' v' → room (log s) (j + k) → room (log s') k.
Proof. unfold steps_to, room. intros (_&_&_&E&_&Eo&_&L) (?&?&?&?). rewrite E, Eo. lia. Qed.

Lemma logged_block_size lg b : size (logged_block lg b) = size lg ∧
  start (logged_block lg b) = start lg ∧
  outstanding (logged_block lg b) = outstanding lg ∧ committing (logged_block lg b) = committing lg ∧
  n (header lg) <= n (header (logged_block lg b)) <= n (header lg) + 1.
Proof. unfold logged_block. case_decide; simpl; split_and!; (done || lia). Qed.

(** The idiom of every change: open a block, replace its contents, log it; the
    [tail] closes it. *)
Lemma runs_replace {B} X s v b (f : bytes → bytes) (tail : P → M (FS S) B) (Q : B → FS S → Prop) :
  txn_state dev X s v → b ∈ X → is_held v b = false → room (log s) 1 →
  (∀ d, is_block d → is_block (f d)) →
  (∀ p s' v', steps_to X 1 s s' v' → same_but b v v' → cur v' b = f (cur v b) →
     holds v' b p → runs (tail p) s' Q) →
  runs (p ← fget dev b; fread p ;; d ← fdata p; fset_data p (f d) ;; u ← writeLog_buf p; tail p) s Q.
Proof.
  intros T Hb Hh Hroom Hf HQ. apply (runs_open dev X s v); auto.
  intros p s1 v1 G1 T1 B1 H1 C1. runs_step. apply (runs_data dev X s1 v1 b p _ T1 H1).
  assert (log s1 = log s) as El by apply G1.
  apply (runs_change dev X s1 v1 b p _ (λ _, tail p)); auto.
  { apply Hf. by apply (is_block_cur dev s1), T1. }
  { by rewrite El. }
  intros s2 v2 Es2 Ew2 El2 T2 B2 H2 C2. apply (HQ p s2 v2); auto.
  - destruct G1 as (F1&F2&F3). destruct (logged_block_size (log s1) b) as (L1 & L2 & L3 & L4 & L5).
    unfold steps_to. rewrite El2. rewrite El in *. split_and!; (congruence || done || lia).
  - eauto using same_but_trans.
  - by rewrite C2, C1.
Qed.

(** Closing after a change. *)
Lemma runs_close_after X k s s1 v1 b p (Q : unit → FS S → Prop) :
  steps_to X k s s1 v1 → holds v1 b p →
  (∀ s' v', steps_to X k s s' v' → same_but b v1 v' → cur v' b = cur v1 b →
     is_held v' b = false → Q tt s') →
  runs (frelease p) s1 Q.
Proof.
  intros St Hp HQ. apply (runs_close dev X s1 v1 b p); [apply St|done|].
  intros s2 v2 (E1&E2&E3) T2 B2 C2 Hh2. apply (HQ s2 v2); auto.
  destruct St as (F1&F2&F3&F4&F5&F6&F7&F8). unfold steps_to. rewrite E2. split_and!; (congruence || done || lia).
Qed.

(** The idiom without a change. *)
Lemma runs_view {B} X s v b (k : bytes → M (FS S) B) (Q : B → FS S → Prop) :
  txn_state dev X s v → b ∈ X → is_held v b = false →
  (∀ s' v', same_globals s s' → txn_state dev X s' v' → same_but b v v' → cur v' b = cur v b →
     is_held v' b = false → runs (k (cur v b)) s' Q) →
  runs (p ← fget dev b; fread p ;; d ← fdata p; frelease p ;; k d) s Q.
Proof.
  intros T Hb Hh HQ. apply (runs_open dev X s v); auto.
  intros p s1 v1 G1 T1 B1 H1 C1. runs_step. apply (runs_data dev X s1 v1 b p _ T1 H1).
  runs_step. apply (runs_close dev X s1 v1 b p _ T1 H1).
  intros s2 v2 G2 T2 B2 C2 Hh2. rewrite C1. apply (HQ s2 v2); eauto using same_globals_trans, same_but_trans.
  by rewrite C2.
Qed.

Lemma runs_fillBlock X s v b ch :
  txn_state dev X s v → b ∈ X → is_held v b = false → room (log s) 1 →
  runs (fillBlock dev b ch) s (λ _ s', ∃ v', steps_to X 1 s s' v' ∧ same_but b v v' ∧
    cur v' b = memset (cur v b) 0 ch BLOCK_SIZE ∧ is_held v' b = false).
Proof.
  intros T Hb Hh Hroom.
  apply (runs_replace X s v b (λ d, memset d 0 ch BLOCK_SIZE)); auto using is_block_memset.
  intros p s1 v1 St B1 C1 Hp. apply (runs_close_after X 1 s s1 v1 b p _ St Hp).
  intros s2 v2 St2 B2 C2 Hh2. exists v2. split_and!; auto; [eauto using same_but_trans|congruence].
Qed.

Lemma bblock_spec b sb : 0 <= b < 2 ^ 32 → 0 <= bmapStart sb → b / BITS_PER_BLOCK + bmapStart sb < 2 ^ 32 →
  bblock b sb = b / BITS_PER_BLOCK + bmapStart sb.
Proof.
  intros Hb Hs Hm. unfold bblock. assert (0 <= b / BITS_PER_BLOCK) by (apply Z.div_pos; [lia|done]).
  by rewrite (wrap_small 64), wrap_small by lia.
Qed.

(** The preconditions of the bitmap operations: the bitmap and the blocks it
    describes are within the working set and not held. *)
Record bitmap_ok (X : gset Z) s v : Prop := {
  bo_size : sb_size (superBlock s) + 2 * BITS_PER_BLOCK < 2 ^ 32;
  bo_start : 0 <= bmapStart (superBlock s);
  bo_bmap : ∀ b, 0 <= b < sb_size (superBlock s) →
    b / BITS_PER_BLOCK + bmapStart (superBlock s) ∈ X ∧
    is_held v (b / BITS_PER_BLOCK + bmapStart (superBlock s)) = false;
}.

Lemma bblock_ok X s v b : txn_state dev X s v → bitmap_ok X s v → 0 <= b < sb_size (superBlock s) →
  bblock b (superBlock s) = b / BITS_PER_BLOCK + bmapStart (superBlock s) ∧
  bblock b (superBlock s) ∈ X ∧ is_held v (bblock b (superBlock s)) = false.
Proof.
  intros [_ Hok] Hbm Hb. destruct (bo_bmap _ _ _ Hbm b Hb) as [Hin Hh].
  pose proof (ok_X _ _ _ _ Hok _ Hin) as [Hr _]. pose proof (bo_size _ _ _ Hbm).
  rewrite bblock_spec; auto; [unfold BITS_PER_BLOCK, BLOCK_SIZE in *; lia|apply (bo_start _ _ _ Hbm)|lia].
Qed.

(** What [allocateBlock] does when [b0] is the first free block. *)
Definition allocated (b0 : Z) (sb : SuperBlock) v v' : Prop :=
  cur v' b0 = memset (cur v b0) 0 0 BLOCK_SIZE ∧
  cur v' (bblock b0 sb) = set_used (cur v (bblock b0 sb)) b0 ∧
  ∀ b, b ≠ b0 → b ≠ bblock b0 sb → cur v' b = cur v b.

(** The search of one block of the bitmap. *)
Lemma find_bit_block X s v b0 k :
  txn_state dev X s v → bitmap_ok X s v → 0 <= b0 < sb_size (superBlock s) → used v (superBlock s) b0 = false →
  (∀ b, 0 <= b < b0 → used v (superBlock s) b = true) → 0 <= k → BITS_PER_BLOCK * k <= b0 →
  find_bit (Z.to_nat BITS_PER_BLOCK) (cur v (bblock (BITS_PER_BLOCK * k) (superBlock s))) (BITS_PER_BLOCK * k)
    (sb_size (superBlock s)) 0 =
  if b0 <? BITS_PER_BLOCK * k + BITS_PER_BLOCK then Some (b0 - BITS_PER_BLOCK * k) else None.
Proof.
  intros T Hbm Hb0 Hfree Hused Hk Hle. pose proof (bo_size _ _ _ Hbm) as Hsz.
  apply (find_bit_first (used v (superBlock s))); auto.
  - rewrite Z.mul_comm. by apply Z.mod_mul.
  - unfold BITS_PER_BLOCK, BLOCK_SIZE in *. lia.
  - unfold BITS_PER_BLOCK, BLOCK_SIZE in *. lia.
  - intros j Hj Hs. unfold used.
    destruct (bblock_ok X s v (BITS_PER_BLOCK * k) T Hbm) as (Eb & _); [unfold BITS_PER_BLOCK, BLOCK_SIZE in *; lia|].
    destruct (bblock_ok X s v (BITS_PER_BLOCK * k + j) T Hbm) as (Ej & _); [unfold BITS_PER_BLOCK, BLOCK_SIZE in *; lia|].
    rewrite Ej, Eb. do 2 f_equal. unfold BITS_PER_BLOCK, BLOCK_SIZE in *. dlia.
  - lia.
Qed.

(** The rest of the round that finds [b0]: the bit is set and logged, the bitmap
    released and the block filled with zeros. *)
Lemma runs_take_bit X s v s1 v1 b0 p block bit (bb := bblock b0 (superBlock s)) :
  same_globals s s1 → txn_state dev X s1 v1 → same_but bb v v1 → holds v1 bb p → cur v1 bb = cur v bb →
  room (log s) 2 → b0 ∈ X → is_held v b0 = false → b0 ≠ bb → is_block (cur v bb) →
  bit = b0 mod BITS_PER_BLOCK → u32 (block + bit) = b0 →
  runs (fset_data p (st8 (cur v bb) (bit / 8) (Z.lor (ld8 (cur v bb) (bit / 8)) (bit_mask bit))) ;;
    u ← writeLog_buf p; frelease p ;; fillBlock dev (u32 (block + bit)) 0 ;; mret (u32 (block + bit))) s1
    (λ b s', b = b0 ∧ ∃ v', steps_to X 2 s s' v' ∧ allocated b0 (superBlock s) v v').
Proof.
  intros G1 T1 B1 H1 C1 Hroom HX Hh Hne Hblk -> ->. assert (log s1 = log s) as El by apply G1.
  apply (runs_change dev X s1 v1 bb p); auto; [by apply is_block_st8|unfold room in *; rewrite El; lia|].
  intros s2 v2 Es2 Ew2 El2 T2 B2 H2 C2.
  assert (steps_to X 1 s s2 v2) as St2.
  { destruct G1 as (F1&F2&F3). destruct (logged_block_size (log s1) bb) as (L1 & L2 & L3 & L4 & L5).
    unfold steps_to. rewrite El2. rewrite El in *. split_and!; (congruence || done || lia). }
  runs_step. apply (runs_close_after X 1 s s2 v2 bb p _ St2 H2).
  intros s3 v3 St3 B3 C3 Hh3. assert (same_but bb v v3) as B by eauto using same_but_trans. runs_step.
  eapply runs_mono; [apply (runs_fillBlock X s3 v3 b0 0)|].
  - apply St3.
  - done.
  - by rewrite (is_held_same_but bb v v3).
  - by apply (steps_to_room X 1 1 s s3 v3).
  - intros a s4 (v4 & St4 & B4 & C4 & Hh4). apply runs_ret. split; [done|].
    exists v4. split; [by apply (steps_to_trans X 1 1 s s3 s4 v3 v4)|]. unfold allocated. fold bb. split_and!.
    + by rewrite C4, (cur_same_but bb v v3).
    + rewrite (cur_same_but b0 v3 v4), C3, C2 by done. unfold set_used. cbv zeta.
      assert (bit_mask (b0 mod BITS_PER_BLOCK) = bit_mask b0) as ->; [|done].
      unfold bit_mask. f_equal. unfold BITS_PER_BLOCK, BLOCK_SIZE in *. dlia.
    + intros b Hb Hb'. by rewrite (cur_same_but b0 v3 v4), (cur_same_but bb v v3) by done.
Qed.

(** A block that was opened and closed without a change. *)
Lemma closed_unchanged b v v1 v2 : same_but b v v1 → cur v1 b = cur v b →
  same_but b v1 v2 → cur v2 b = cur v1 b → is_held v2 b = false →
  (∀ b', cur v2 b' = cur v b') ∧ ∀ b', is_held v b' = false → is_held v2 b' = false.
Proof.
  intros B1 C1 B2 C2 Hh2. split; intros b'; destruct (decide (b' = b)) as [->|Hb].
  - by rewrite C2.
  - by rewrite (cur_same_but b v1 v2), (cur_same_but b v v1).
  - done.
  - by rewrite (is_held_same_but b v1 v2), (is_held_same_but b v v1).
Qed.

Lemma runs_allocate_loop X s v b0 (fuel : nat) k :
  txn_state dev X s v → bitmap_ok X s v → room (log s) 2 →
  0 <= b0 < sb_size (superBlock s) → used v (superBlock s) b0 = false →
  (∀ b, 0 <= b < b0 → used v (superBlock s) b = true) →
  b0 ∈ X → is_held v b0 = false → b0 ≠ bblock b0 (superBlock s) →
  0 <= k → BITS_PER_BLOCK * k <= b0 → b0 / BITS_PER_BLOCK - k < Z.of_nat fuel →
  runs (allocate_loop fuel dev (BITS_PER_BLOCK * k)) s (λ b s', b = b0 ∧
    ∃ v', steps_to X 2 s s' v' ∧ allocated b0 (superBlock s) v v').
Proof.
  intros T Hbm Hroom Hb0 Hfree Hused HX Hh Hne. revert s v T Hbm Hroom Hb0 Hfree Hused Hh Hne k.
  induction fuel as [|f IH]; intros s v T Hbm Hroom Hb0 Hfree Hused Hh Hne k Hk Hle Hf.
  { assert (k <= b0 / BITS_PER_BLOCK) by (apply Z.div_le_lower_bound; [done|lia]). lia. }
  cbn [allocate_loop]. runs_step. runs_step. rewrite (proj2 (Z.ltb_lt _ _)) by lia.
  pose proof (bo_size _ _ _ Hbm) as Hsz.
  destruct (bblock_ok X s v (BITS_PER_BLOCK * k) T Hbm) as (Eb & HbX & Hbh); [unfold BITS_PER_BLOCK, BLOCK_SIZE in *; lia|].
  pose proof (find_bit_block X s v b0 k T Hbm Hb0 Hfree Hused Hk Hle) as Hfind.
  set (bb := bblock (BITS_PER_BLOCK * k) (superBlock s)) in *.
  apply (runs_open dev X s v); auto. intros p s1 v1 G1 T1 B1 H1 C1.
  runs_step. apply (runs_data dev X s1 v1 bb p _ T1 H1). rewrite C1, Hfind.
  assert (is_block (cur v bb)) as Hblk by by apply (is_block_cur dev s), T.
  destruct (Z.ltb_spec b0 (BITS_PER_BLOCK * k + BITS_PER_BLOCK)) as [Hin|Hout].
  - assert (b0 / BITS_PER_BLOCK = k) as Ek by (unfold BITS_PER_BLOCK, BLOCK_SIZE in *; dlia).
    assert (bb = bblock b0 (superBlock s)) as Ebb.
    { destruct (bblock_ok X s v b0 T Hbm) as (-> & _); [lia|]. rewrite Eb, Ek.
      unfold BITS_PER_BLOCK, BLOCK_SIZE in *. f_equal. dlia. }
    clear Eb. clearbody bb. subst bb. apply (runs_take_bit X s v s1 v1 b0 p (BITS_PER_BLOCK * k) (b0 - BITS_PER_BLOCK * k)); try assumption.
    + rewrite <- Ek. unfold BITS_PER_BLOCK, BLOCK_SIZE in *. dlia.
    + rewrite Zplus_minus, wrap_small by lia. done.
  - runs_step. apply (runs_close dev X s1 v1 bb p _ T1 H1).
    intros s2 v2 G2 T2 B2 C2 Hh2. destruct (closed_unchanged bb v v1 v2 B1 C1 B2 C2 Hh2) as [Ec Eh].
    assert (same_globals s s2) as G by eauto using same_globals_trans.
    destruct (G) as (Es & El & Ew).
    replace (u32 (BITS_PER_BLOCK * k + BITS_PER_BLOCK)) with (BITS_PER_BLOCK * (k + 1)).
    2: { rewrite wrap_small; unfold BITS_PER_BLOCK, BLOCK_SIZE in *; lia. }
    eapply runs_mono; [apply (IH s2 v2); rewrite ?Es, ?El; auto; try lia|].
    + destruct Hbm as [? ? Hbm]. split; rewrite ?Es; auto. intros b Hb. destruct (Hbm b Hb). auto.
    + unfold used. by rewrite Ec.
    + intros b Hb. unfold used. rewrite Ec. by apply Hused.
    + intros b s3 (-> & v3 & St & A1 & A2 & A3). split; [done|]. exists v3.
      split; [by apply (steps_to_globals X 2 s s2)|]. rewrite Es in *.
      split_and!; [by rewrite A1, Ec|by rewrite A2, Ec|]. intros b Hb Hb'. by rewrite A3, Ec.
Qed.

(** The precondition of an operation that allocates the block [b0]. *)
Definition first_free (X : gset Z) s v b0 : Prop :=
  0 <= b0 < sb_size (superBlock s) ∧ used v (superBlock s) b0 = false ∧
  (∀ b, 0 <= b < b0 → used v (superBlock s) b = true) ∧
  b0 ∈ X ∧ is_held v b0 = false ∧ b0 ≠ bblock b0 (superBlock s).

Lemma runs_allocateBlock X s v b0 :
  txn_state dev X s v → bitmap_ok X s v → room (log s) 2 → first_free X s v b0 →
  runs (allocateBlock dev) s (λ b s', b = b0 ∧
    ∃ v', steps_to X 2 s s' v' ∧ allocated b0 (superBlock s) v v').
Proof.
  intros T Hbm Hroom (Hb0 & Hfree & Hused & HX & Hh & Hne). unfold allocateBlock.
  runs_step. runs_step. rewrite <- (Z.mul_0_r BITS_PER_BLOCK).
  apply runs_allocate_loop; auto; [lia|lia|].
  assert (b0 / BITS_PER_BLOCK <= sb_size (superBlock s) / BITS_PER_BLOCK) by (apply Z.div_le_mono; [done|lia]).
  assert (0 <= b0 / BITS_PER_BLOCK) by (apply Z.div_pos; [lia|done]). lia.
Qed.

Lemma runs_freeBlock X s v b :
  txn_state dev X s v → bitmap_ok X s v → room (log s) 1 →
  0 <= b < sb_size (superBlock s) → used v (superBlock s) b = true →
  runs (freeBlock dev b) s (λ _ s', ∃ v', steps_to X 1 s s' v' ∧
    same_but (bblock b (superBlock s)) v v' ∧
    cur v' (bblock b (superBlock s)) = set_free (cur v (bblock b (superBlock s))) b ∧
    is_held v' (bblock b (superBlock s)) = false).
Proof.
  intros T Hbm Hroom Hb Hu. unfold freeBlock. runs_step. runs_step.
  destruct (bblock_ok X s v b T Hbm Hb) as (_ & HbX & Hbh). set (bb := bblock b (superBlock s)) in *.
  apply (runs_open dev X s v); auto. intros p s1 v1 G1 T1 B1 H1 C1.
  runs_step. apply (runs_data dev X s1 v1 bb p _ T1 H1). rewrite C1.
  assert (is_block (cur v bb)) as Hblk by by apply (is_block_cur dev s), T.
  assert (log s1 = log s) as El by apply G1.
  runs_step. apply runs_assert.
  { unfold bit_mask. rewrite land_mask_zero by (apply Z.mod_pos_bound; lia).
    unfold used, used_in in Hu. fold bb in Hu.
    replace ((b mod BITS_PER_BLOCK) mod 8) with (b mod 8); [by rewrite Hu|].
    unfold BITS_PER_BLOCK, BLOCK_SIZE. dlia. }
  apply (runs_change dev X s1 v1 bb p); auto; [by apply is_block_st8|by rewrite El|].
  intros s2 v2 Es2 Ew2 El2 T2 B2 H2 C2.
  assert (steps_to X 1 s s2 v2) as St2.
  { destruct G1 as (F1&F2&F3). destruct (logged_block_size (log s1) bb) as (L1 & L2 & L3 & L4 & L5).
    unfold steps_to. rewrite El2. rewrite El in *. split_and!; (congruence || done || lia). }
  apply (runs_close_after X 1 s s2 v2 bb p _ St2 H2).
  intros s3 v3 St3 B3 C3 Hh3. exists v3. split_and!; auto; [eauto using same_but_trans|].
  rewrite C3, C2. unfold set_free. cbv zeta.
  assert (bit_mask (b mod BITS_PER_BLOCK) = bit_mask b) as ->; [|done].
  unfold bit_mask. f_equal. unfold BITS_PER_BLOCK, BLOCK_SIZE. dlia.
Qed.
End rules.

(** *** A concrete bitmap, for the witnesses *)

(** Blocks 0 to 63 are in use. *)
Definition demo_bitmap : bytes := replicate 8 255 ++ replicate 1016 0.

Definition demo_fs : FS BufferCache :=
  mkFS (initializeBufferCache {[60 := demo_bitmap]} 1) demo_super demo_log [].

Definition demo_view : view positive := mkView {[60 := demo_bitmap]} [] ∅.

Lemma is_block_demo_bitmap : is_block demo_bitmap.
Proof.
  split; [done|]. apply Forall_app. split; apply Forall_forall; intros x [-> _]%elem_of_replicate; lia.
Qed.

Lemma dblock_blocks (d : gmap Z bytes) : map_Forall (λ _ bs, is_block bs) d → ∀ b, is_block (dblock d b).
Proof. intros Hd b. unfold dblock. destruct (d !! b) eqn:E; [exact (Hd _ _ E)|apply is_block_zero]. Qed.

(** A transaction on the blocks 60 and 64 of any disk of well-formed blocks. *)
Lemma demo_txn_on (d : gmap Z bytes) sb : map_Forall (λ _ bs, is_block bs) d →
  txn_state 1 {[60; 64]} (mkFS (initializeBufferCache d 1) sb demo_log []) (mkView d [] ∅).
Proof.
  intros Hd. split.
  - apply cache_rep_init; [lia|]. by apply dblock_blocks.
  - split; simpl.
    + reflexivity.
    + lia.
    + reflexivity.
    + unfold LOG_SIZE, MAX_OP_BLOCKS. lia.
    + intros b [->%elem_of_singleton| ->%elem_of_singleton]%elem_of_union;
        (split; [lia|unfold in_log, LOG_SIZE, MAX_OP_BLOCKS; lia]).
    + by rewrite dom_empty_L.
    + apply cache_fits_small; [lia|]. intros b Hb. rewrite elem_of_union, elem_of_log_blocks in Hb.
      unfold in_log, LOG_SIZE, MAX_OP_BLOCKS in Hb. set_unfold. lia.
    + constructor.
    + intros b Hb. by apply not_elem_of_nil in Hb.
    + intros b cb. rewrite lookup_empty. discriminate.
    + intros b cb. rewrite lookup_empty. discriminate.
Qed.

Lemma demo_txn : txn_state 1 {[60; 64]} demo_fs demo_view.
Proof. apply demo_txn_on, map_Forall_singleton, is_block_demo_bitmap. Qed.

Lemma demo_bitmap_ok : bitmap_ok {[60; 64]} demo_fs demo_view.
Proof.
  split; simpl; [done|lia|]. intros b Hb.
  assert (b / BITS_PER_BLOCK = 0) as -> by (apply Z.div_small; unfold BITS_PER_BLOCK, BLOCK_SIZE; lia).
  split; [set_solver|done].
Qed.

Lemma demo_first_free : first_free {[60; 64]} demo_fs demo_view 64.
Proof.
  split_and!; [simpl; lia|simpl; lia|vm_compute; reflexivity| |set_solver|done|done].
  intros b Hb.
  assert (forallb (used demo_view demo_super) (seqZ 0 64) = true) as Hall by (vm_compute; reflexivity).
  rewrite List.forallb_forall in Hall.
  apply Hall. apply list_elem_of_In, elem_of_seqZ. lia.
Qed.

(** ** Properties *)

(** Mounting reads the super block and recovers the log.  From an empty
    cache, [initializeFs] stops with a failed assertion when block 1 does not
    carry the magic number; otherwise, when the log header of the disk is in
    bounds, it returns with the super block of the disk in memory, an empty
    log, and a disk that is the recovered one outside the log. *)
Theorem mount_recovers {S P : Type} `{BufferOps S P} (dev : Z) `{!BufferLaws S P dev}
    (s : FS S) (d : gmap Z bytes)
    (Hrep : frep dev s (mkView d [] ∅))
    (Hlen : Z.of_nat (length (hblock (header (log s)))) = LOG_SIZE)
    (Hstart : logStart (parse_super (dblock d 1)) < 2 ^ 31)
    (Hok : hdr_ok d (logStart (parse_super (dblock d 1)))) :
  let sb := parse_super (dblock d 1) in
  if magic sb =? FS_MAGIC then
    ∃ s' v', initializeFs dev s = Ok (tt, s') ∧ frep dev s' v' ∧ v_cache v' = ∅ ∧
      n (header (log s')) = 0 ∧
      same_data (logStart sb) (v_disk v') (recovered d (logStart sb))
  else initializeFs dev s = Err AssertFailed.
Proof.
  cbv zeta. set (sb := parse_super (dblock d 1)) in *.
  assert (runs (super_read dev) s (λ _ s1, frep dev s1 (mkView d [] ∅) ∧ superBlock s1 = sb ∧
    log s1 = log s)) as ([] & s1 & E1 & R1 & Esb & El)%runs_inv.
  { unfold super_read. apply (runs_get_read dev s _ 1 _ _ Hrep); [lia|done| |].
    { apply (fits_mono _ {[1; 1]}); [simpl; set_solver|apply fits_pair]. }
    intros p s1 G1 R1. runs_step. eapply (runs_fdata dev); [exact R1|apply lookup_insert_eq|done|done|].
    runs_step. runs_step. eapply (runs_release_last dev _ (mkView d [] ∅) 1); [exact R1|done|].
    intros s2 (F1 & F2 & F3) R2. split_and!; [exact R2|done|]. rewrite F2. apply G1. }
  destruct (Z.eqb_spec (magic sb) FS_MAGIC) as [Em|Em].
  - destruct (runs_inv _ _ _ (runs_initializeLog dev s1 d (logStart sb) sb R1
      (conj (proj1 (ldN_range 4 _ 20)) Hstart) ltac:(by rewrite El) Hok eq_refl)) as ([] & s2 & E2 & R2 & Hn).
    eexists s2, _. split.
    + unfold initializeFs. rewrite (bind_ok _ _ _ _ _ E1), (bind_ok (gets superBlock) _ s1 _ _ eq_refl), Esb.
      rewrite Em. exact E2.
    + split_and!; [exact R2|done|done|]. intros b Hb. simpl. unfold recover_writes. rewrite replay_app.
      simpl. by rewrite dblock_insert, decide_False by (intros ->; apply Hb, is_log_start).
  - unfold initializeFs. rewrite (bind_ok _ _ _ _ _ E1), (bind_ok (gets superBlock) _ s1 _ _ eq_refl), Esb.
    by rewrite (proj2 (Z.eqb_neq _ _)).
Qed.

(** A disk that carries only a super block. *)
Definition demo_disk : gmap Z bytes :=
  {[1 := st32 (st32 zero_block 0 FS_MAGIC) 20 2]}.

Lemma mount_recovers_witness : ∃ s', initializeFs 1
  (mkFS (initializeBufferCache demo_disk 1) demo_super demo_log []) = Ok (tt, s').
Proof.
  pose proof (mount_recovers 1 (mkFS (initializeBufferCache demo_disk 1) demo_super demo_log [])
    demo_disk) as HH. cbv zeta in HH.
  destruct HH as (s' & v' & E & _); [| | | |by exists s'].
  - apply cache_rep_init; [lia|]. intros b. unfold dblock, demo_disk.
    destruct (decide (b = 1)) as [->|Hne].
    + rewrite lookup_singleton_eq. apply is_block_stN, is_block_stN, is_block_zero.
    + rewrite lookup_singleton_ne by done. apply is_block_zero.
  - done.
  - vm_compute. reflexivity.
  - apply hdr_ok_empty. vm_compute. reflexivity.
Defined.

(** What [memset] leaves of a block. *)
Lemma memset_zero_block (blk : bytes) : is_block blk →
  (∀ i, 0 <= i < BLOCK_SIZE - 1 → ld8 (memset blk 0 0 BLOCK_SIZE) i = 0) ∧
  ld8 (memset blk 0 0 BLOCK_SIZE) (BLOCK_SIZE - 1) = ld8 blk (BLOCK_SIZE - 1).
Proof.
  intros Hb. unfold BLOCK_SIZE in *. split.
  - intros i Hi. rewrite <- (Z.add_0_l i), ld8_memset_eq; [done|done| |done].
    intros j Hj. destruct Hb as [Hl _]. unfold valid_addr; simpl. rewrite Hl. unfold BLOCK_SIZE. lia.
  - by apply ld8_memset_ne; lia.
Qed.

(** C32: [allocateBlock] takes the first free block of the bitmap.  It returns
    that block, marks it used and no other block, fills it with
    [memset(.., 0, BLOCK_SIZE)], so that every byte of it but the last is zero
    and the last one is what it was ([memset] stops one byte short), leaves every
    other block as it was, and does it all through the log. *)
Theorem allocateBlock_first_free {S P : Type} `{BufferOps S P} (dev : Z) `{!BufferLaws S P dev}
    (X : gset Z) (s : FS S) (v : view P) (b0 : Z)
    (Htxn : txn_state dev X s v) (Hbitmap : bitmap_ok X s v) (Hroom : room (log s) 2)
    (Hfirst : first_free X s v b0) :
  ∃ s' v', allocateBlock dev s = Ok (b0, s') ∧ txn_state dev X s' v' ∧
    cur v' b0 = memset (cur v b0) 0 0 BLOCK_SIZE ∧
    (∀ i, 0 <= i < BLOCK_SIZE - 1 → ld8 (cur v' b0) i = 0) ∧
    ld8 (cur v' b0) (BLOCK_SIZE - 1) = ld8 (cur v b0) (BLOCK_SIZE - 1) ∧
    (∀ b, 0 <= b < sb_size (superBlock s) → bblock b (superBlock s) ≠ b0 →
       used v' (superBlock s) b = if decide (b = b0) then true else used v (superBlock s) b) ∧
    (∀ b, b ≠ b0 → b ≠ bblock b0 (superBlock s) → cur v' b = cur v b) ∧
    n (header (log s')) <= n (header (log s)) + 2.
Proof.
  destruct (runs_inv _ _ _ (runs_allocateBlock dev X s v b0 Htxn Hbitmap Hroom Hfirst))
    as (b & s' & E & -> & v' & St & A1 & A2 & A3).
  exists s', v'. split; [done|]. split; [apply St|]. split; [done|]. rewrite A1.
  destruct (memset_zero_block (cur v b0)) as [Hz Hl]; [by apply (is_block_cur dev s), Htxn|].
  split_and!; [exact Hz|exact Hl| |done|apply St].
  intros b Hb Hnb. destruct Hfirst as (Hb0 & _ & _ & _ & _ & Hne).
  destruct (bblock_ok dev X s v b Htxn Hbitmap Hb) as (Eb & _ & _).
  destruct (bblock_ok dev X s v b0 Htxn Hbitmap Hb0) as (Eb0 & _ & _). unfold used.
  destruct (decide (bblock b (superBlock s) = bblock b0 (superBlock s))) as [Eq|Nq].
  - rewrite Eq, A2. apply (used_in_update _ b0 b true); [by apply (is_block_cur dev s), Htxn|lia].
  - rewrite A3 by done. by rewrite decide_False by congruence.
Qed.

Lemma allocateBlock_first_free_witness : ∃ s', allocateBlock 1 demo_fs = Ok (64, s').
Proof.
  destruct (allocateBlock_first_free 1 {[60; 64]} demo_fs demo_view 64 demo_txn demo_bitmap_ok)
    as (s' & v' & E & _).
  - split_and!; simpl; [unfold LOG_SIZE, MAX_OP_BLOCKS|..]; lia.
  - apply demo_first_free.
  - by exists s'.
Defined.

(** [freeBlock] clears the bit of a block in use and of no other block, and
    changes no other block of the disk; for a block that is not in use its
    assertion fails. *)
Theorem freeBlock_clears {S P : Type} `{BufferOps S P} (dev : Z) `{!BufferLaws S P dev}
    (X : gset Z) (s : FS S) (v : view P) (b0 : Z)
    (Htxn : txn_state dev X s v) (Hbitmap : bitmap_ok X s v) (Hroom : room (log s) 1)
    (Hb0 : 0 <= b0 < sb_size (superBlock s)) :
  if used v (superBlock s) b0 then
    ∃ s' v', freeBlock dev b0 s = Ok (tt, s') ∧ txn_state dev X s' v' ∧
      (∀ b, 0 <= b < sb_size (superBlock s) →
         used v' (superBlock s) b = if decide (b = b0) then false else used v (superBlock s) b) ∧
      (∀ b, b ≠ bblock b0 (superBlock s) → cur v' b = cur v b)
  else freeBlock dev b0 s = Err AssertFailed.
Proof.
  destruct (used v (superBlock s) b0) eqn:Hu.
  - destruct (runs_inv _ _ _ (runs_freeBlock dev X s v b0 Htxn Hbitmap Hroom Hb0 Hu))
      as ([] & s' & E & v' & St & B & C & _).
    exists s', v'. split; [done|]. split; [apply St|]. split.
    + intros b Hb. destruct (bblock_ok dev X s v b Htxn Hbitmap Hb) as (Eb & _ & _).
      destruct (bblock_ok dev X s v b0 Htxn Hbitmap Hb0) as (Eb0 & _ & _). unfold used.
      destruct (decide (bblock b (superBlock s) = bblock b0 (superBlock s))) as [Eq|Nq].
      * rewrite Eq, C. apply (used_in_update _ b0 b false); [by apply (is_block_cur dev s), Htxn|lia].
      * rewrite (cur_same_but _ v v' _ B) by done. by rewrite decide_False by congruence.
    + intros b Hb. by apply (cur_same_but _ v v' _ B).
  - destruct (bblock_ok dev X s v b0 Htxn Hbitmap Hb0) as (_ & HbX & Hbh).
    destruct (open_inv dev X s v _ Htxn HbX Hbh) as (p & s1 & s2 & v2 & Eg & Er & Ed & _).
    unfold freeBlock. rewrite (bind_ok (gets superBlock) _ s _ _ eq_refl).
    rewrite (bind_ok _ _ _ _ _ Eg), (bind_ok _ _ _ _ _ Er), (bind_ok _ _ _ _ _ Ed).
    unfold bit_mask. rewrite land_mask_zero by (apply Z.mod_pos_bound; lia).
    unfold used, used_in in Hu.
    replace ((b0 mod BITS_PER_BLOCK) mod 8) with (b0 mod 8); [by rewrite Hu|].
    unfold BITS_PER_BLOCK, BLOCK_SIZE. dlia.
Qed.

Lemma freeBlock_clears_witness :
  (∃ s', freeBlock 1 50 demo_fs = Ok (tt, s')) ∧ freeBlock 1 70 demo_fs = Err AssertFailed.
Proof.
  assert (room (log demo_fs) 1) as Hroom.
  { split_and!; simpl; [unfold LOG_SIZE, MAX_OP_BLOCKS|..]; lia. }
  split.
  - destruct (freeBlock_clears 1 {[60; 64]} demo_fs demo_view 50 demo_txn demo_bitmap_ok Hroom)
      as (s' & v' & E & _); [simpl; lia|]. by exists s'.
  - apply (freeBlock_clears 1 {[60; 64]} demo_fs demo_view 70 demo_txn demo_bitmap_ok Hroom).
    simpl. lia.
Defined.

End Block.
