(* ===== verification/Inode.v ===== *)
(** * Inodes, files and directories

    [kernel/fs/inode.h] and [inode.cpp]: the table of inodes in memory, the
    block map of a file, reading and writing file data, directories and path
    names.  An [Inode*] is a pointer into the table's nodes.  Of the current
    process the code uses the pid, the working directory and the page table,
    which are parameters, as is the stack address of the local [entry] of the
    directory operations. *)

From S2P Require Import Prelude CString HashMap Address Page PageTable Uvm SleepMutex Buffer FsState Log Txn Block.
Import CString HashMap Address Page PageTable Uvm Buffer FsState Log Txn Block.

Module Inode.

(** ** Definitions *)

Definition NUM_DIRECT_BLOCKS : Z := 12.
Definition NUM_INDIRECT_BLOCKS : Z := BLOCK_SIZE / 4.
Definition MAX_FILE : Z := NUM_DIRECT_BLOCKS + NUM_INDIRECT_BLOCKS.
Definition ROOT_DEVICE : Z := 1.
Definition ROOT_INUM : Z := 1.
(** [BLOCK_SIZE / sizeof(DiskInode)]. *)
Definition INODES_PER_BLOCK : Z := BLOCK_SIZE / 64.
Definition MAX_DIR_NAME_LENGTH : Z := 14.
(** [sizeof(DirectoryEntry)]. *)
Definition ENTRY_SIZE : Z := 16.
Definition T_DIR : Z := 1.
Definition T_FILE : Z := 2.
Definition T_DEVICE : Z := 3.

(** [struct DiskInode], the fields an inode has on the disk. *)
Record DiskInode := mkDiskInode {
  type : Z;
  major : Z;
  minor : Z;
  numLinks : Z;
  isize : Z;
  directBlocks : list Z;
  indirectBlock : Z;
}.

(** [struct Inode]; [fields] are the members it copies from the disk. *)
Record Inode := mkInode {
  device : Z;
  inum : Z;
  refCount : Z;
  imutex : SleepMutex.SleepMutex;
  ivalid : bool;
  fields : DiskInode;
}.

Definition zero_fields : DiskInode := mkDiskInode 0 0 0 0 0 (replicate 12 0) 0.

(** [Inode{}]. *)
Definition zero_inode : Inode := mkInode 0 0 0 SleepMutex.unlocked false zero_fields.

Definition set_device (x : Z) (i : Inode) : Inode :=
  mkInode x (inum i) (refCount i) (imutex i) (ivalid i) (fields i).
Definition set_inum (x : Z) (i : Inode) : Inode :=
  mkInode (device i) x (refCount i) (imutex i) (ivalid i) (fields i).
Definition set_ref (x : Z) (i : Inode) : Inode :=
  mkInode (device i) (inum i) x (imutex i) (ivalid i) (fields i).
Definition set_imutex (m : SleepMutex.SleepMutex) (i : Inode) : Inode :=
  mkInode (device i) (inum i) (refCount i) m (ivalid i) (fields i).
Definition set_ivalid (b : bool) (i : Inode) : Inode :=
  mkInode (device i) (inum i) (refCount i) (imutex i) b (fields i).
Definition set_fields (d : DiskInode) (i : Inode) : Inode :=
  mkInode (device i) (inum i) (refCount i) (imutex i) (ivalid i) d.

Definition set_type (x : Z) (d : DiskInode) : DiskInode :=
  mkDiskInode x (major d) (minor d) (numLinks d) (isize d) (directBlocks d) (indirectBlock d).
Definition set_device_numbers (ma mi : Z) (d : DiskInode) : DiskInode :=
  mkDiskInode (type d) ma mi (numLinks d) (isize d) (directBlocks d) (indirectBlock d).
Definition set_links (x : Z) (d : DiskInode) : DiskInode :=
  mkDiskInode (type d) (major d) (minor d) x (isize d) (directBlocks d) (indirectBlock d).
Definition set_size (x : Z) (d : DiskInode) : DiskInode :=
  mkDiskInode (type d) (major d) (minor d) (numLinks d) x (directBlocks d) (indirectBlock d).
Definition set_direct (l : list Z) (d : DiskInode) : DiskInode :=
  mkDiskInode (type d) (major d) (minor d) (numLinks d) (isize d) l (indirectBlock d).
Definition set_indirect (x : Z) (d : DiskInode) : DiskInode :=
  mkDiskInode (type d) (major d) (minor d) (numLinks d) (isize d) (directBlocks d) x.

(** [n] little-endian words from [off] on. *)
Fixpoint read_words (n : nat) (data : bytes) (off : Z) : list Z :=
  match n with
  | O => []
  | S n' => ld32 data off :: read_words n' data (off + 4)
  end.

Fixpoint write_words (data : bytes) (off : Z) (l : list Z) : bytes :=
  match l with
  | [] => data
  | x :: l' => write_words (st32 data off x) (off + 4) l'
  end.

(** The members of [*dip], [off] bytes into the block. *)
Definition read_dinode (data : bytes) (off : Z) : DiskInode :=
  mkDiskInode (s16 (ld16 data off)) (s16 (ld16 data (off + 2))) (s16 (ld16 data (off + 4)))
    (s16 (ld16 data (off + 6))) (ld32 data (off + 8)) (read_words 12 data (off + 12))
    (ld32 data (off + 60)).

Definition write_dinode (data : bytes) (off : Z) (d : DiskInode) : bytes :=
  let data := st16 data off (type d) in
  let data := st16 data (off + 2) (major d) in
  let data := st16 data (off + 4) (minor d) in
  let data := st16 data (off + 6) (numLinks d) in
  let data := st32 data (off + 8) (isize d) in
  let data := write_words data (off + 12) (directBlocks d) in
  st32 data (off + 60) (indirectBlock d).

(** [iblock(i, sb)]. *)
Definition iblock (i : Z) (sb : SuperBlock) : Z := u32 (u64 (i / INODES_PER_BLOCK + inodeStart sb)).

(** [reinterpret_cast<DiskInode*>(data) + i % INODES_PER_BLOCK]. *)
Definition ioffset (i : Z) : Z := 64 * (i mod INODES_PER_BLOCK).

(** *** Path names: [0] ends a path, so a path is the list before it *)

Fixpoint skip_slashes (path : bytes) : bytes :=
  match path with
  | c :: path' => if c =? 47 then skip_slashes path' else path
  | [] => []
  end.

(** The characters before the next slash, and the rest. *)
Fixpoint split_element (path : bytes) : bytes * bytes :=
  match path with
  | c :: path' =>
      if c =? 47 then ([], path)
      else let '(s, rest) := split_element path' in (c :: s, rest)
  | [] => ([], [])
  end.

(** [skipElement]: the rest of the path and the contents of [name]. *)
Definition skipElement (path name : bytes) : option (bytes * bytes) :=
  match skip_slashes path with
  | [] => None
  | path =>
      let '(s, rest) := split_element path in
      let len := Z.of_nat (length s) in
      let name :=
        if MAX_DIR_NAME_LENGTH <=? len then put_bytes name 0 (take 14 s)
        else st8 (put_bytes name 0 s) len 0 in
      Some (skip_slashes rest, name)
  end.

(** *** The state *)

Record IFS {S : Type} := mkIFS {
  base : FS S;
  inodes : HashMap Z positive;
  cells : gmap positive Inode;
  kernel : KMem;
}.
Arguments IFS : clear implicits.
Arguments mkIFS {S} _ _ _ _.

Section state.
Context {S : Type}.

(** An operation of a lower layer. *)
Definition on_base {A} (c : M (FS S) A) : M (IFS S) A := λ s,
  match c (base s) with
  | Ok (a, b) => Ok (a, mkIFS b (inodes s) (cells s) (kernel s))
  | Err f => Err f
  end.

Definition on_kernel {A} (c : M KMem A) : M (IFS S) A := λ s,
  match c (kernel s) with
  | Ok (a, m) => Ok (a, mkIFS (base s) (inodes s) (cells s) m)
  | Err f => Err f
  end.

(** [*ip]. *)
Definition deref (ip : positive) : M (IFS S) Inode := λ s,
  match cells s !! ip with
  | Some i => Ok (i, s)
  | None => Err NullDeref
  end.

Definition change (ip : positive) (f : Inode → Inode) : M (IFS S) unit :=
  i ← deref ip;
  modify (λ s, mkIFS (base s) (inodes s) (<[ip := f i]> (cells s)) (kernel s)).

(** [itable->inodes[key]]: a node, made with [Inode{}] when there is none. *)
Definition table_node (key : Z) : M (IFS S) positive := λ s,
  let new := fresh (dom (cells s)) in
  let '(p, t) := operator_index makeHash new (inodes s) key in
  Ok (p, mkIFS (base s) t (if decide (p = new) then <[new := zero_inode]> (cells s) else cells s) (kernel s)).
End state.

Definition inode_key (dev inum : Z) : Z := Z.lor (u64 (Z.shiftl dev 32)) inum.

Section operations.
Context {S P : Type} `{BufferOps S P}.
Variable pid : Z.
Variable cwd : positive.
Variable pageTable : Z.
Variable entry_addr : Z.

(** [Inode::get]. *)
Definition iget (dev inum : Z) : M (IFS S) positive :=
  let key := inode_key dev inum in
  t ← gets inodes;
  if contains makeHash t key then
    p ← table_node key;
    change p (λ i, set_ref (u32 (refCount i + 1)) i) ;;
    table_node key
  else
    p ← table_node key; change p (set_device dev) ;;
    p ← table_node key; change p (set_inum inum) ;;
    p ← table_node key; change p (set_ref 1) ;;
    p ← table_node key; change p (set_ivalid false) ;;
    table_node key.

(** The loop of [Inode::allocate]. *)
Fixpoint iallocate_loop (fuel : nat) (dev ty i : Z) : M (IFS S) (option positive) :=
  sb ← gets (λ s, superBlock (base s));
  if i <? numInodes sb then
    match fuel with
    | O => fail NoFuel
    | Datatypes.S f =>
        bp ← on_base (fget dev (iblock i sb));
        on_base (fread bp) ;;
        data ← on_base (fdata bp);
        if s16 (ld16 data (ioffset i)) =? 0 then
          on_base (fset_data bp (st16 (memset data (ioffset i) 0 64) (ioffset i) ty)) ;;
          u ← on_base (writeLog_buf bp);
          on_base (frelease bp) ;;
          p ← iget dev i; mret (Some p)
        else
          on_base (frelease bp) ;;
          iallocate_loop f dev ty (u32 (i + 1))
    end
  else mret None.

Definition iallocate (dev ty : Z) : M (IFS S) (option positive) :=
  sb ← gets (λ s, superBlock (base s));
  iallocate_loop (Z.to_nat (numInodes sb)) dev ty 1.

(** [Inode::dup]. *)
Definition idup (ip : positive) : M (IFS S) positive :=
  change ip (λ i, set_ref (u32 (refCount i + 1)) i) ;; mret ip.

(** [Inode::lock]. *)
Definition ilock (ip : positive) : M (IFS S) unit :=
  i ← deref ip;
  assert (1 <=? refCount i) ;;
  match SleepMutex.lock pid (imutex i) with
  | Err f => fail f
  | Ok m =>
      change ip (set_imutex m) ;;
      if ivalid i then mret tt
      else
        sb ← gets (λ s, superBlock (base s));
        bp ← on_base (fget (device i) (iblock (inum i) sb));
        on_base (fread bp) ;;
        data ← on_base (fdata bp);
        change ip (set_fields (read_dinode data (ioffset (inum i)))) ;;
        on_base (frelease bp) ;;
        change ip (set_ivalid true) ;;
        i ← deref ip;
        assert (negb (type (fields i) =? 0))
  end.

(** [Inode::unlock]. *)
Definition iunlock (ip : positive) : M (IFS S) unit :=
  i ← deref ip;
  assert (SleepMutex.holding pid (imutex i)) ;;
  assert (1 <=? refCount i) ;;
  change ip (set_imutex (SleepMutex.unlock (imutex i))).

(** [Inode::update]. *)
Definition iupdate (ip : positive) : M (IFS S) unit :=
  i ← deref ip;
  sb ← gets (λ s, superBlock (base s));
  bp ← on_base (fget (device i) (iblock (inum i) sb));
  on_base (fread bp) ;;
  data ← on_base (fdata bp);
  on_base (fset_data bp (write_dinode data (ioffset (inum i)) (fields i))) ;;
  u ← on_base (writeLog_buf bp);
  on_base (frelease bp).

(** One round of the first loop of [truncate]. *)
Definition free_direct (ip : positive) (k : Z) : M (IFS S) unit :=
  i ← deref ip;
  match directBlocks (fields i) !! Z.to_nat k with
  | None => fail OutOfRange
  | Some b =>
      if b =? 0 then mret tt
      else
        on_base (freeBlock (device i) b) ;;
        change ip (λ i, set_fields (set_direct (<[Z.to_nat k := 0]> (directBlocks (fields i))) (fields i)) i)
  end.

(** [Inode::truncate]. *)
Definition itruncate (ip : positive) : M (IFS S) unit :=
  for_range 12 0 (free_direct ip) ;;
  i ← deref ip;
  (if indirectBlock (fields i) =? 0 then mret tt
   else
     bp ← on_base (fget (device i) (indirectBlock (fields i)));
     on_base (fread bp) ;;
     for_range (Z.to_nat NUM_INDIRECT_BLOCKS) 0 (λ k,
       data ← on_base (fdata bp);
       if ld32 data (4 * k) =? 0 then mret tt
       else on_base (freeBlock (device i) (ld32 data (4 * k)))) ;;
     on_base (frelease bp) ;;
     on_base (freeBlock (device i) (indirectBlock (fields i))) ;;
     change ip (λ i, set_fields (set_indirect 0 (fields i)) i)) ;;
  change ip (λ i, set_fields (set_size 0 (fields i)) i) ;;
  iupdate ip.

(** [Inode::put]. *)
Definition iput (ip : positive) : M (IFS S) unit :=
  i ← deref ip;
  (if (refCount i =? 1) && ivalid i && (numLinks (fields i) =? 0) then
     match SleepMutex.lock pid (imutex i) with
     | Err f => fail f
     | Ok m =>
         change ip (set_imutex m) ;;
         itruncate ip ;;
         change ip (λ i, set_fields (set_type 0 (fields i)) i) ;;
         iupdate ip ;;
         change ip (set_ivalid false) ;;
         change ip (λ i, set_imutex (SleepMutex.unlock (imutex i)) i)
     end
   else mret tt) ;;
  change ip (λ i, set_ref (u32 (refCount i - 1)) i).

(** [Inode::bmap]: the block of the file's block [bn].  The indirect block is
    not read before it is used. *)
Definition bmap (ip : positive) (bn : Z) : M (IFS S) Z :=
  i ← deref ip;
  if bn <? NUM_DIRECT_BLOCKS then
    match directBlocks (fields i) !! Z.to_nat bn with
    | None => fail OutOfRange
    | Some b =>
        if b =? 0 then
          b ← on_base (allocateBlock (device i));
          change ip (λ i, set_fields (set_direct (<[Z.to_nat bn := b]> (directBlocks (fields i))) (fields i)) i) ;;
          mret b
        else mret b
    end
  else
    let bn := u32 (bn - NUM_DIRECT_BLOCKS) in
    assert (bn <? NUM_INDIRECT_BLOCKS) ;;
    (if indirectBlock (fields i) =? 0 then
       b ← on_base (allocateBlock (device i));
       change ip (λ i, set_fields (set_indirect b (fields i)) i)
     else mret tt) ;;
    i ← deref ip;
    if indirectBlock (fields i) =? 0 then mret 0
    else
      bp ← on_base (fget (device i) (indirectBlock (fields i)));
      data ← on_base (fdata bp);
      (if ld32 data (4 * bn) =? 0 then
         b ← on_base (allocateBlock (device i));
         data ← on_base (fdata bp);
         on_base (fset_data bp (st32 data (4 * bn) b)) ;;
         if b =? 0 then mret tt else on_base (writeLog_buf bp)
       else mret tt) ;;
      data ← on_base (fdata bp);
      on_base (frelease bp) ;;
      mret (ld32 data (4 * bn)).

(** [std::min<uint64_t>(length - tot, BLOCK_SIZE - offset % BLOCK_SIZE)]. *)
Definition piece (length tot offset : Z) : Z :=
  Z.min (u32 (length - tot)) (BLOCK_SIZE - offset mod BLOCK_SIZE).

(** The loop of [Inode::read]: the total, or [None] for the return of [-1]. *)
Fixpoint read_loop (fuel : nat) (ip : positive) (userDst : bool) (dst offset length tot : Z) :
    M (IFS S) (option Z) :=
  if tot <? length then
    match fuel with
    | O => fail NoFuel
    | Datatypes.S f =>
        address ← bmap ip (offset / BLOCK_SIZE);
        if address =? 0 then mret (Some tot)
        else
          i ← deref ip;
          bp ← on_base (fget (device i) address);
          on_base (fread bp) ;;
          data ← on_base (fdata bp);
          let len := piece length tot offset in
          ok ← on_kernel (eitherCopyout pageTable userDst dst
                 (get_bytes (Z.to_nat len) data (offset mod BLOCK_SIZE)));
          on_base (frelease bp) ;;
          if negb ok then mret None
          else read_loop f ip userDst (u64 (dst + len)) (u32 (offset + len)) length (u32 (tot + len))
    end
  else mret (Some tot).

(** [Inode::read]. *)
Definition iread (ip : positive) (userDst : bool) (dst offset length : Z) : M (IFS S) Z :=
  i ← deref ip;
  let size := isize (fields i) in
  if (size <? offset) || (u32 (offset + length) <? offset) then mret 0
  else
    let length := if size <? u32 (offset + length) then u32 (size - offset) else length in
    r ← read_loop (Z.to_nat (length / BLOCK_SIZE + 2)) ip userDst dst offset length 0;
    mret (match r with Some tot => s32 tot | None => -1 end).

(** The loop of [Inode::write]: the total and the offset at its end. *)
Fixpoint write_loop (fuel : nat) (ip : positive) (userSrc : bool) (src offset length tot : Z) :
    M (IFS S) (Z * Z) :=
  if tot <? length then
    match fuel with
    | O => fail NoFuel
    | Datatypes.S f =>
        addr ← bmap ip (offset / BLOCK_SIZE);
        if addr =? 0 then mret (tot, offset)
        else
          i ← deref ip;
          bp ← on_base (fget (device i) addr);
          on_base (fread bp) ;;
          data ← on_base (fdata bp);
          let len := piece length tot offset in
          r ← on_kernel (eitherCopyin pageTable userSrc src len);
          on_base (fset_data bp (put_bytes data (offset mod BLOCK_SIZE) (snd r))) ;;
          if negb (fst r) then on_base (frelease bp) ;; mret (tot, offset)
          else
            u ← on_base (writeLog_buf bp);
            on_base (frelease bp) ;;
            write_loop f ip userSrc (u64 (src + len)) (u32 (offset + len)) length (u32 (tot + len))
    end
  else mret (tot, offset).

(** [Inode::write]. *)
Definition iwrite (ip : positive) (userSrc : bool) (src offset length : Z) : M (IFS S) Z :=
  i ← deref ip;
  if (isize (fields i) <? offset) || (u32 (offset + length) <? offset) then mret (-1)
  else if MAX_FILE * BLOCK_SIZE <? u32 (offset + length) then mret (-1)
  else
    r ← write_loop (Z.to_nat (length / BLOCK_SIZE + 2)) ip userSrc src offset length 0;
    i ← deref ip;
    (if isize (fields i) <? snd r
     then change ip (λ i, set_fields (set_size (snd r) (fields i)) i) else mret tt) ;;
    iupdate ip ;;
    mret (s32 (fst r)).

(** [strncmp(name, entry.name, MAX_DIR_NAME_LENGTH) == 0]; the comparison does
    not stop at its bound, and running over the end of the names is a fault. *)
Definition same_name (name : bytes) : M (IFS S) bool :=
  r ← gets (λ s, strncmp 14 name 0 (kmem (kernel s)) (entry_addr + 2) MAX_DIR_NAME_LENGTH);
  match r with
  | None => fail OutOfRange
  | Some d => mret (d =? 0)
  end.

(** The loop of [dirLookup]: the inode found and its offset. *)
Fixpoint lookup_loop (fuel : nat) (ip : positive) (name : bytes) (offset : Z) :
    M (IFS S) (option (positive * Z)) :=
  i ← deref ip;
  if offset <? isize (fields i) then
    match fuel with
    | O => fail NoFuel
    | Datatypes.S f =>
        len ← iread ip false entry_addr offset ENTRY_SIZE;
        assert (len =? ENTRY_SIZE) ;;
        num ← gets (λ s, ld16 (kmem (kernel s)) entry_addr);
        if num =? 0 then lookup_loop f ip name (u32 (offset + ENTRY_SIZE))
        else
          eq ← same_name name;
          if eq : bool then
            change ip (set_inum num) ;;
            i ← deref ip;
            p ← iget (device i) (inum i);
            mret (Some (p, offset))
          else lookup_loop f ip name (u32 (offset + ENTRY_SIZE))
    end
  else mret None.

(** [Inode::dirLookup]; the offset is what is stored through [poffset]. *)
Definition dirLookup (ip : positive) (name : bytes) : M (IFS S) (option (positive * Z)) :=
  i ← deref ip;
  assert (type (fields i) =? T_DIR) ;;
  lookup_loop (Z.to_nat (isize (fields i) / ENTRY_SIZE + 1)) ip name 0.

(** The second loop of the directory operations: the first free entry. *)
Fixpoint free_entry_loop (fuel : nat) (ip : positive) (offset : Z) : M (IFS S) Z :=
  i ← deref ip;
  if offset <? isize (fields i) then
    match fuel with
    | O => fail NoFuel
    | Datatypes.S f =>
        len ← iread ip false entry_addr offset ENTRY_SIZE;
        assert (len =? ENTRY_SIZE) ;;
        num ← gets (λ s, ld16 (kmem (kernel s)) entry_addr);
        if num =? 0 then mret offset
        else free_entry_loop f ip (u32 (offset + ENTRY_SIZE))
    end
  else mret offset.

(** [Inode::dirLink]. *)
Definition dirLink (ip : positive) (name : bytes) (inum : Z) : M (IFS S) bool :=
  r ← dirLookup ip name;
  match r with
  | Some (p, _) => iput p ;; mret false
  | None =>
      i ← deref ip;
      offset ← free_entry_loop (Z.to_nat (isize (fields i) / ENTRY_SIZE + 1)) ip 0;
      on_kernel (modify (λ s, set_kmem (strncpy (kmem s) (entry_addr + 2) name 0 MAX_DIR_NAME_LENGTH) s)) ;;
      on_kernel (modify (λ s, set_kmem (st16 (kmem s) entry_addr inum) s)) ;;
      len ← iwrite ip false entry_addr offset ENTRY_SIZE;
      mret (len =? ENTRY_SIZE)
  end.

(** The loop of [Inode::open]: the inode, or null, and the contents of [name]. *)
Fixpoint open_loop (fuel : nat) (ip : positive) (path : bytes) (parent : bool) (name : bytes) :
    M (IFS S) (option positive * bytes) :=
  match fuel with
  | O => fail NoFuel
  | Datatypes.S f =>
      match skipElement path name with
      | None =>
          if parent then iput ip ;; mret (None, name) else mret (Some ip, name)
      | Some (path, name) =>
          ilock ip ;;
          i ← deref ip;
          if negb (type (fields i) =? T_DIR) then
            iunlock ip ;; iput ip ;; mret (None, name)
          else if parent && match path with [] => true | _ => false end then
            iunlock ip ;; mret (Some ip, name)
          else
            next ← dirLookup ip name;
            match next with
            | None => iunlock ip ;; iput ip ;; mret (None, name)
            | Some (next, _) =>
                iunlock ip ;; iput ip ;; open_loop f next path parent name
            end
      end
  end.

(** [Inode::open(path, parent, name)]. *)
Definition iopen (path : bytes) (parent : bool) (name : bytes) : M (IFS S) (option positive * bytes) :=
  ip ← match path with
       | 47 :: _ => iget ROOT_DEVICE ROOT_INUM
       | _ => idup cwd
       end;
  open_loop (Datatypes.S (length path)) ip path parent name.

(** The lambda [fail] of [Inode::create]. *)
Definition create_fail (ip dp : positive) : M (IFS S) (option positive) :=
  change ip (λ i, set_fields (set_links 0 (fields i)) i) ;;
  iupdate ip ;; iunlock ip ;; iput ip ;; iunlock dp ;; iput dp ;; mret None.

(** [Inode::create]; [name] is the initial contents of its local array. *)
Definition icreate (path : bytes) (ty ma mi : Z) (name : bytes) : M (IFS S) (option positive) :=
  r ← iopen path true name;
  match r with
  | (None, _) => mret None
  | (Some dp, name) =>
      ilock dp ;;
      found ← dirLookup dp name;
      match found with
      | Some (ip, _) =>
          iunlock dp ;; iput dp ;;
          i ← deref ip;
          if (ty =? T_FILE) && ((type (fields i) =? T_FILE) || (type (fields i) =? T_DEVICE))
          then mret (Some ip)
          else iunlock ip ;; iput ip ;; mret None
      | None =>
          d ← deref dp;
          new ← iallocate (device d) ty;
          match new with
          | None => iunlock dp ;; iput dp ;; mret None
          | Some ip =>
              ilock ip ;;
              change ip (λ i, set_fields (set_links 1 (set_device_numbers ma mi (fields i))) i) ;;
              iupdate ip ;;
              i ← deref ip;
              dots ← (if ty =? T_DIR then
                        ok ← dirLink ip [46; 0] (inum i);
                        if negb ok then mret false
                        else i ← deref ip; dirLink ip [46; 46; 0] (inum i)
                      else mret true);
              if negb dots then create_fail ip dp
              else
                i ← deref ip;
                ok ← dirLink dp name (inum i);
                if negb ok then create_fail ip dp
                else
                  (if ty =? T_DIR then
                     change dp (λ i, set_fields (set_links (s16 (numLinks (fields i) + 1)) (fields i)) i) ;;
                     iupdate dp
                   else mret tt) ;;
                  iunlock dp ;; iput dp ;; mret (Some ip)
          end
      end
  end.
End operations.

(** ** Path names *)

(** The pieces of a path between its slashes, and its components: the pieces
    that are not empty. *)
Fixpoint pieces (path : bytes) : list bytes :=
  match path with
  | [] => [[]]
  | c :: path' =>
      if c =? 47 then [] :: pieces path'
      else match pieces path' with e :: es => (c :: e) :: es | [] => [[c]] end
  end.

Definition components (path : bytes) : list bytes := filter (λ e, e ≠ []) (pieces path).

(** The string in a [char] array: the characters before the first NUL. *)
Fixpoint text (name : bytes) : bytes :=
  match name with
  | c :: name' => if c =? 0 then [] else c :: text name'
  | [] => []
  end.

Lemma components_skip path : components (skip_slashes path) = components path.
Proof.
  induction path as [|c path IH]; [done|]. cbn [skip_slashes]. destruct (Z.eqb_spec c 47) as [->|]; [|done].
  rewrite IH. done.
Qed.

Lemma skip_slashes_length path : (length (skip_slashes path) <= length path)%nat.
Proof. induction path as [|c path IH]; simpl; [lia|]. case_match; simpl; lia. Qed.

Lemma skip_slashes_empty path : skip_slashes path = [] ↔ components path = [].
Proof.
  rewrite <- components_skip. split; [by intros ->|].
  induction path as [|c path IH]; [done|]. cbn [skip_slashes].
  destruct (Z.eqb_spec c 47) as [->|Hc]; [done|]. unfold components. cbn [pieces].
  rewrite (proj2 (Z.eqb_neq c 47)) by done. by destruct (pieces path).
Qed.

(** The scan of one element. *)
Lemma split_element_spec path s rest :
  split_element path = (s, rest) →
  pieces path = s :: (match rest with [] => [] | _ :: rest' => pieces rest' end) ∧
  path = s ++ rest ∧ match rest with c :: _ => c = 47 | [] => True end ∧ s `sublist_of` path.
Proof.
  revert s rest; induction path as [|c path IH]; intros s rest E; cbn [split_element] in E.
  { by injection E as <- <-. }
  cbn [pieces]. destruct (Z.eqb_spec c 47) as [->|Hc].
  - injection E as <- <-. split_and!; [done|done|done|apply sublist_nil_l].
  - destruct (split_element path) as [s' rest'] eqn:E'. injection E as <- <-.
    destruct (IH _ _ eq_refl) as (Ep & -> & Hr & Hs). rewrite Ep.
    split_and!; [done|done|done|by apply sublist_skip].
Qed.

Lemma text_app l l' : Forall (λ c, c ≠ 0) l → text (l ++ 0 :: l') = l.
Proof.
  induction 1 as [|c l Hc _ IH]; [done|]. cbn. by rewrite (proj2 (Z.eqb_neq c 0)), IH.
Qed.

Lemma text_id l : Forall (λ c, c ≠ 0) l → text l = l.
Proof.
  induction 1 as [|c l Hc _ IH]; [done|]. cbn. by rewrite (proj2 (Z.eqb_neq c 0)), IH.
Qed.

(** Writing a list over the start of an array. *)
Lemma put_bytes_cons (a : bytes) k x l : put_bytes a k (x :: l) = put_bytes (st8 a k x) (k + 1) l.
Proof. done. Qed.

Lemma put_bytes_cons_array l (a : bytes) x k :
  0 <= k → put_bytes (x :: a) (k + 1) l = x :: put_bytes a k l.
Proof.
  revert a k; induction l as [|y l IH]; intros a k Hk; [done|].
  rewrite !put_bytes_cons. assert (st8 (x :: a) (k + 1) y = x :: st8 a k y) as ->.
  { unfold st8; simpl. rewrite !(proj2 (Z.leb_le 0 _)) by lia.
    by replace (Z.to_nat (k + 1)) with (S (Z.to_nat k)) by lia. }
  apply IH. lia.
Qed.

Lemma put_bytes_start l (a : bytes) :
  Forall (λ c, 0 <= c < 256) l → (length l <= length a)%nat →
  put_bytes a 0 l = l ++ drop (length l) a.
Proof.
  revert a; induction l as [|y l IH]; intros a Hl Hlen; [done|].
  destruct a as [|x a]; [simpl in Hlen; lia|]. apply Forall_cons in Hl as [Hy Hl].
  rewrite put_bytes_cons. assert (st8 (x :: a) 0 y = y :: a) as -> by (unfold st8; simpl; by rewrite Z.mod_small by lia).
  rewrite (put_bytes_cons_array l a y 0) by lia.
  cbn [app length drop]. rewrite IH; [done|done|simpl in Hlen; lia].
Qed.

(** ** The disk layout of inodes *)

Definition s16_range (x : Z) : Prop := - 2 ^ 15 <= x < 2 ^ 15.
Definition u32_range (x : Z) : Prop := 0 <= x < 2 ^ 32.

(** The fields hold values of their C++ types. *)
Record dinode_ok (d : DiskInode) : Prop := {
  di_type : s16_range (type d);
  di_major : s16_range (major d);
  di_minor : s16_range (minor d);
  di_links : s16_range (numLinks d);
  di_size : u32_range (isize d);
  di_direct : length (directBlocks d) = 12%nat ∧ Forall u32_range (directBlocks d);
  di_indirect : u32_range (indirectBlock d);
}.

Lemma s16_wrap x : s16_range x → s16 (x mod 2 ^ 16) = x.
Proof.
  intros Hx. unfold swrap. fold (wrap 16 x). rewrite wrap_wrap.
  change (s16 x = x). by apply swrap_small.
Qed.

Lemma ld_write_words l data off k a :
  a + Z.of_nat k <= off ∨ off + 4 * Z.of_nat (length l) <= a →
  ldN k (write_words data off l) a = ldN k data a.
Proof.
  revert data off; induction l as [|x l IH]; intros data off Ha; [done|]. cbn [write_words length] in *.
  rewrite IH by lia. apply ldN_stN_ne. simpl. lia.
Qed.

Lemma length_write_words l data off : length (write_words data off l) = length data.
Proof. revert data off; induction l as [|x l IH]; intros; [done|]. cbn. by rewrite IH, length_stN. Qed.

Lemma read_write_words l data off :
  Forall u32_range l → 0 <= off → off + 4 * Z.of_nat (length l) <= Z.of_nat (length data) →
  read_words (length l) (write_words data off l) off = l.
Proof.
  revert data off; induction l as [|x l IH]; intros data off Hl Ho Hd; [done|].
  apply Forall_cons in Hl as [Hx Hl]. cbn [write_words read_words length] in *. f_equal.
  - rewrite ld_write_words by (left; simpl; lia). rewrite ldN_stN_eq.
    + by apply Z.mod_small.
    + intros i Hi. unfold valid_addr; simpl in *. lia.
  - apply IH; [done|lia|]. rewrite length_stN. lia.
Qed.

Lemma read_words_ext n data data' off :
  (∀ k, 0 <= k < 4 * Z.of_nat n → ld8 data' (off + k) = ld8 data (off + k)) →
  read_words n data' off = read_words n data off.
Proof.
  revert off; induction n as [|n IH]; intros off E; [done|]. cbn [read_words]. f_equal.
  - apply ldN_ext. intros i Hi. apply E. simpl in Hi. lia.
  - apply IH. intros k Hk. rewrite <- !Z.add_assoc. apply E. lia.
Qed.

Lemma is_block_write_dinode data off d : is_block data → is_block (write_dinode data off d).
Proof.
  intros Hd. unfold write_dinode. apply (is_block_stN 4).
  assert (∀ l dt o, is_block dt → is_block (write_words dt o l)) as Hw.
  { induction l as [|x l IH]; intros dt o H; [done|]. by apply IH, (is_block_stN 4). }
  apply Hw. apply (is_block_stN 4). by do 4 apply (is_block_stN 2).
Qed.

Lemma ld8_write_dinode data off d a :
  length (directBlocks d) = 12%nat → a < off ∨ off + 64 <= a →
  ld8 (write_dinode data off d) a = ld8 data a.
Proof.
  intros Hl Ha. unfold write_dinode. rewrite ld8_stN_ne by (simpl; lia).
  assert (∀ l dt o, o + 4 * Z.of_nat (length l) <= a ∨ a < o → ld8 (write_words dt o l) a = ld8 dt a) as Hw.
  { induction l as [|x l IH]; intros dt o Ho; [done|]. cbn [write_words length] in *.
    rewrite IH by lia. apply ld8_stN_ne. simpl. lia. }
  rewrite Hw by (rewrite Hl; lia). rewrite !ld8_stN_ne by (simpl; lia). done.
Qed.

Lemma ldN_stN_block n (dt : bytes) a x :
  length dt = 1024%nat → 0 <= a → a + Z.of_nat n <= 1024 →
  ldN n (stN n dt a x) a = x mod 2 ^ (8 * Z.of_nat n).
Proof. intros Hd Ha Hn. apply ldN_stN_eq. intros i Hi. unfold valid_addr; simpl. lia. Qed.

(** A field written before the word array of [d5], read from the final block. *)
Ltac dinode_field Hpre later d :=
  rewrite Hpre by (simpl; lia); later;
  repeat (rewrite ldN_stN_ne by (simpl; lia));
  unfold d; rewrite ldN_stN_block by (done || simpl; lia).

(** What [update] stores, [lock] loads. *)
Lemma read_write_dinode data off d :
  is_block data → 0 <= off → off + 64 <= 1024 → dinode_ok d →
  read_dinode (write_dinode data off d) off = d.
Proof.
  intros [Hlen _] Ho Hoff [H1 H2 H3 H4 H5 [Hl H6] H7].
  assert (length data = 1024%nat) as Hdl by (unfold BLOCK_SIZE in Hlen; lia).
  unfold read_dinode, write_dinode. cbv zeta.
  set (d1 := st16 data off (type d)). set (d2 := st16 d1 (off + 2) (major d)).
  set (d3 := st16 d2 (off + 4) (minor d)). set (d4 := st16 d3 (off + 6) (numLinks d)).
  set (d5 := st32 d4 (off + 8) (isize d)). set (d6 := write_words d5 (off + 12) (directBlocks d)).
  assert (length d1 = 1024 ∧ length d2 = 1024 ∧ length d3 = 1024 ∧ length d4 = 1024 ∧
          length d5 = 1024 ∧ length d6 = 1024)%nat as (L1 & L2 & L3 & L4 & L5 & L6).
  { unfold d6, d5, d4, d3, d2, d1. rewrite length_write_words, !length_stN. by split_and!. }
  assert (∀ k a, (k <= 4)%nat → a + Z.of_nat k <= off + 12 →
    ldN k (st32 d6 (off + 60) (indirectBlock d)) a = ldN k d5 a) as Hpre.
  { intros k a Hk Ha. rewrite ldN_stN_ne by (simpl; lia). apply ld_write_words. lia. }
  destruct d as [ty ma mi nl sz di ind]; cbn [type major minor numLinks isize directBlocks indirectBlock] in *.
  f_equal.
  - dinode_field Hpre ltac:(unfold d5, d4, d3, d2) d1. by apply s16_wrap.
  - dinode_field Hpre ltac:(unfold d5, d4, d3) d2. by apply s16_wrap.
  - dinode_field Hpre ltac:(unfold d5, d4) d3. by apply s16_wrap.
  - dinode_field Hpre ltac:(unfold d5) d4. by apply s16_wrap.
  - dinode_field Hpre idtac d5. by apply Z.mod_small.
  - rewrite (read_words_ext 12 d6).
    + unfold d6. rewrite <- Hl at 1. apply read_write_words; [done|lia|rewrite Hl, L5; lia].
    + intros k Hk. apply ld8_stN_ne. simpl in *. lia.
  - rewrite ldN_stN_block by (done || simpl; lia). by apply Z.mod_small.
Qed.

(** ** Rules *)

Section rules.
Context {S P : Type} `{BufferOps S P} (dev : Z) `{!BufferLaws S P dev}.
Implicit Types (s : IFS S) (v : view P).

Definition set_base (b : FS S) s : IFS S := mkIFS b (inodes s) (cells s) (kernel s).

Definition set_cells (c : gmap positive Inode) s : IFS S := mkIFS (base s) (inodes s) c (kernel s).

Lemma runs_on_base {A} (c : M (FS S) A) s (Q : A → IFS S → Prop) :
  runs c (base s) (λ a b, Q a (set_base b s)) → runs (on_base c) s Q.
Proof. unfold runs, on_base. by destruct (c (base s)) as [[a b]|]. Qed.

Lemma runs_deref ip i s (Q : Inode → IFS S → Prop) :
  cells s !! ip = Some i → Q i s → runs (deref ip) s Q.
Proof. unfold runs, deref. by intros ->. Qed.

Lemma runs_ichange ip f i s (Q : unit → IFS S → Prop) :
  cells s !! ip = Some i → Q tt (set_cells (<[ip := f i]> (cells s)) s) → runs (change ip f) s Q.
Proof. intros Hi HQ. unfold change. runs_step. by apply (runs_deref ip i). Qed.

(** Open a block and look at its data. *)
Lemma runs_ifetch {B} X s v b (k : P → bytes → M (IFS S) B) (Q : B → IFS S → Prop) :
  txn_state dev X (base s) v → b ∈ X → is_held v b = false →
  (∀ p b' v', same_globals (base s) b' → txn_state dev X b' v' → same_but b v v' → holds v' b p →
     cur v' b = cur v b → runs (k p (cur v b)) (set_base b' s) Q) →
  runs (p ← on_base (fget dev b); on_base (fread p) ;; d ← on_base (fdata p); k p d) s Q.
Proof.
  intros T Hb Hh HQ.
  destruct (open_inv dev X _ v b T Hb Hh) as (p & s1 & s2 & v2 & E1 & E2 & E3 & G & T2 & B2 & H2 & C2).
  do 2 (runs_step; apply runs_on_base; eapply runs_ok; [done|]).
  runs_step. apply runs_on_base. eapply runs_ok; [exact E3|]. by eapply HQ.
Qed.

Lemma runs_iclose X s v b p (Q : unit → IFS S → Prop) :
  txn_state dev X (base s) v → holds v b p →
  (∀ b' v', same_globals (base s) b' → txn_state dev X b' v' → same_but b v v' →
     cur v' b = cur v b → is_held v' b = false → Q tt (set_base b' s)) →
  runs (on_base (frelease p)) s Q.
Proof. intros T Hp HQ. apply runs_on_base. by apply (runs_close dev X _ v b). Qed.

(** Two views of the same contents. *)
Record same_contents v v' : Prop := {
  sc_cur : ∀ b, cur v' b = cur v b;
  sc_held : ∀ b, is_held v b = false → is_held v' b = false;
}.

Lemma same_contents_refl v : same_contents v v.
Proof. by split. Qed.

Lemma same_contents_trans v1 v2 v3 :
  same_contents v1 v2 → same_contents v2 v3 → same_contents v1 v3.
Proof. intros [C1 H1] [C2 H2]. split; [intros b; by rewrite C2, C1|auto]. Qed.

(** A visit to a block leaves the contents as they were. *)
Lemma same_contents_visit b v v1 v2 :
  same_but b v v1 → cur v1 b = cur v b → same_but b v1 v2 → cur v2 b = cur v1 b →
  is_held v2 b = false → same_contents v v2.
Proof.
  intros B1 C1 B2 C2 Hh. assert (same_but b v v2) as B by eauto using same_but_trans. split.
  - intros x. destruct (decide (x = b)) as [->|Hne]; [by rewrite C2|by apply (cur_same_but b)].
  - intros x Hx. destruct (decide (x = b)) as [->|Hne]; [done|].
    by rewrite (is_held_same_but b v v2).
Qed.

(** *** update and lock *)

(** The inode [i] can be stored: its block is in the working set. *)
Definition storable (X : gset Z) (sb : SuperBlock) v (i : Inode) : Prop :=
  device i = dev ∧ dinode_ok (fields i) ∧ 0 <= inum i ∧
  iblock (inum i) sb ∈ X ∧ is_held v (iblock (inum i) sb) = false.

Lemma ioffset_range k : 0 <= ioffset k ∧ ioffset k + 64 <= 1024.
Proof. unfold ioffset, INODES_PER_BLOCK, BLOCK_SIZE. change (1024 / 64) with 16. dlia. Qed.

(** Change an open block and close it, as equations. *)
Lemma store_inv X b0 b1 v1 blk p d :
  same_globals b0 b1 → txn_state dev X b1 v1 → holds v1 blk p → is_block d → room (log b0) 1 →
  ∃ b2 b3 b' v', fset_data p d b1 = Ok (tt, b2) ∧ writeLog_buf p b2 = Ok (tt, b3) ∧
    frelease p b3 = Ok (tt, b') ∧ steps_to dev X 1 b0 b' v' ∧ same_but blk v1 v' ∧
    is_held v' blk = false ∧ cur v' blk = d.
Proof.
  intros G1 T1 H1 Hd Hroom. assert (log b1 = log b0) as El by apply G1.
  assert (runs (fset_data p d ;; u ← writeLog_buf p; frelease p) b1 (λ _ b', ∃ v',
    steps_to dev X 1 b0 b' v' ∧ same_but blk v1 v' ∧ is_held v' blk = false ∧ cur v' blk = d)) as Hrun.
  { apply (runs_change dev X b1 v1 blk p d (λ _, frelease p)); auto; [by rewrite El|].
    intros b2 v2 Es2 Ew2 El2 T2 B2 H2 C2.
    assert (steps_to dev X 1 b0 b2 v2) as St.
    { destruct G1 as (F1&F2&F3). destruct (logged_block_size (log b1) blk) as (L1 & L2 & L3 & L4 & L5).
      unfold steps_to. rewrite El2. rewrite El in *. split_and!; (congruence || done || lia). }
    apply (runs_close_after dev X 1 b0 b2 v2 blk p _ St H2).
    intros b3 v3 St3 B3 C3 Hh3. exists v3. split_and!; auto; [eauto using same_but_trans|congruence]. }
  destruct (runs_inv _ _ _ Hrun) as ([] & b' & E & v' & HH).
  apply bind_inv in E as ([] & b2 & E2 & E). apply bind_inv in E as ([] & b3 & E3 & E).
  by exists b2, b3, b', v'.
Qed.

Lemma runs_iupdate X s v ip i :
  txn_state dev X (base s) v → room (log (base s)) 1 → cells s !! ip = Some i →
  storable X (superBlock (base s)) v i →
  runs (iupdate ip) s (λ _ s', ∃ v' b', s' = set_base b' s ∧ steps_to dev X 1 (base s) b' v' ∧
    same_but (iblock (inum i) (superBlock (base s))) v v' ∧
    is_held v' (iblock (inum i) (superBlock (base s))) = false ∧
    cur v' (iblock (inum i) (superBlock (base s))) =
      write_dinode (cur v (iblock (inum i) (superBlock (base s)))) (ioffset (inum i)) (fields i)).
Proof.
  intros T Hroom Hi (Hdev & Hok & Hnum & HX & Hh). unfold iupdate.
  runs_step. apply (runs_deref ip i); [done|]. do 2 runs_step. rewrite Hdev.
  set (blk := iblock (inum i) (superBlock (base s))) in *.
  apply (runs_ifetch X s v blk); [done..|]. intros p b1 v1 G1 T1 B1 H1 C1.
  destruct (store_inv X (base s) b1 v1 blk p (write_dinode (cur v blk) (ioffset (inum i)) (fields i)))
    as (b2 & b3 & b' & v' & E2 & E3 & E4 & St & B' & Hh' & C'); [done..| |done|].
  { apply is_block_write_dinode, (is_block_cur dev (base s)), T. }
  runs_step. apply runs_on_base. eapply runs_ok; [exact E2|].
  runs_step. apply runs_on_base. eapply runs_ok; [exact E3|].
  apply runs_on_base. eapply runs_ok; [exact E4|]. exists v', b'. split_and!; eauto using same_but_trans.
Qed.

(** [lock] of an inode that is not loaded. *)
Lemma runs_ilock_load pid X s v ip i :
  txn_state dev X (base s) v → cells s !! ip = Some i → device i = dev → 1 <= refCount i →
  imutex i = SleepMutex.unlocked → ivalid i = false →
  iblock (inum i) (superBlock (base s)) ∈ X → is_held v (iblock (inum i) (superBlock (base s))) = false →
  let d := read_dinode (cur v (iblock (inum i) (superBlock (base s)))) (ioffset (inum i)) in
  type d ≠ 0 →
  runs (ilock pid ip) s (λ _ s', ∃ v' b' i', s' = set_cells (<[ip := i']> (cells s)) (set_base b' s) ∧
    i' = set_ivalid true (set_fields d (set_imutex (SleepMutex.mkSleepMutex true pid) i)) ∧
    same_globals (base s) b' ∧ txn_state dev X b' v' ∧ same_contents v v').
Proof.
  intros T Hi Hdev Href Hm Hv HX Hh d Hty. unfold ilock.
  runs_step. apply (runs_deref ip i); [done|]. runs_step. apply runs_assert; [lia|].
  rewrite Hm, SleepMutex.lock_free, Hv. runs_step. apply (runs_ichange ip _ i); [done|].
  do 2 runs_step. rewrite Hdev. set (blk := iblock (inum i) (superBlock (base s))) in *. fold blk.
  apply (runs_ifetch X _ v blk); [done..|]. intros p b1 v1 G1 T1 B1 H1 C1. runs_step.
  eapply runs_ichange; [apply lookup_insert_eq|]. runs_step.
  apply (runs_iclose X _ v1 blk p); [done|done|]. intros b2 v2 G2 T2 B2 C2 Hh2. runs_step.
  eapply runs_ichange; [apply lookup_insert_eq|]. runs_step.
  eapply runs_deref; [apply lookup_insert_eq|]. apply runs_assert.
  { apply negb_true_iff. by apply Z.eqb_neq. }
  exists v2, b2, (set_ivalid true (set_fields d (set_imutex (SleepMutex.mkSleepMutex true pid) i))).
  split_and!; auto.
  - unfold set_cells, set_base. simpl. by rewrite !insert_insert_eq.
  - eauto using same_globals_trans.
  - eauto using same_contents_visit.
Qed.

(** *** Reading file data *)

(** Byte [k] of a file, through its direct blocks. *)
Definition file_byte v (d : DiskInode) (k : Z) : Z :=
  ld8 (cur v (default 0 (directBlocks d !! Z.to_nat (k / BLOCK_SIZE)))) (k mod BLOCK_SIZE).

Definition file_bytes v (d : DiskInode) (off : Z) (n : nat) : bytes :=
  (λ k, file_byte v d k) <$> seqZ off (Z.of_nat n).

Lemma length_file_bytes v d off n : length (file_bytes v d off n) = n.
Proof. unfold file_bytes. rewrite length_fmap, length_seqZ. lia. Qed.

(** The bytes from [off] to [off + n] are in direct blocks that are allocated,
    in the working set, and not held. *)
Definition mapped (X : gset Z) v (d : DiskInode) (off n : Z) : Prop :=
  ∀ k, off <= k < off + n → ∃ b, directBlocks d !! Z.to_nat (k / BLOCK_SIZE) = Some b ∧
    b ≠ 0 ∧ b ∈ X ∧ is_held v b = false ∧ k / BLOCK_SIZE < NUM_DIRECT_BLOCKS.

Lemma mapped_same X v v' d off n : same_contents v v' → mapped X v d off n → mapped X v' d off n.
Proof.
  intros [_ Hh] Hm k Hk. destruct (Hm k Hk) as (b & ? & ? & ? & ? & ?). exists b. auto 10.
Qed.

Lemma file_bytes_same v v' d off n : same_contents v v' → file_bytes v' d off n = file_bytes v d off n.
Proof. intros [Hc _]. apply list_fmap_ext. intros i k _. unfold file_byte. by rewrite Hc. Qed.

Lemma seqZ_app_nat off (n1 n2 : nat) :
  seqZ off (Z.of_nat n1 + Z.of_nat n2) = seqZ off (Z.of_nat n1) ++ seqZ (off + Z.of_nat n1) (Z.of_nat n2).
Proof. apply seqZ_app; lia. Qed.

Lemma get_bytes_file v d off n b :
  0 <= off → off mod 1024 + Z.of_nat n <= 1024 → directBlocks d !! Z.to_nat (off / 1024) = Some b →
  get_bytes n (cur v b) (off mod 1024) = file_bytes v d off n.
Proof.
  intros Ho Hn Hb. apply list_eq_same_length with (n := n).
  - unfold file_bytes. rewrite length_fmap, length_seqZ. lia.
  - apply length_get_bytes.
  - intros i x y Hi Hx Hy. rewrite lookup_get_bytes in Hx by done. injection Hx as <-.
    unfold file_bytes in Hy. apply list_lookup_fmap_Some in Hy as (k & -> & Hk).
    apply lookup_seqZ in Hk as [-> Hk]. unfold file_byte, BLOCK_SIZE.
    replace ((off + Z.of_nat i) / 1024) with (off / 1024) by dlia. rewrite Hb. simpl.
    f_equal. dlia.
Qed.

(** The copy of a piece of a block to the destination. *)
Lemma runs_copyout {pageTable user} (D : Destination pageTable user) dst bs s (Q : bool → IFS S → Prop) :
  d_can D (kernel s) dst (Z.of_nat (length bs)) → 0 <= dst → dst + Z.of_nat (length bs) < 2 ^ 64 →
  (∀ m, d_put D (kernel s) dst bs m → Q true (mkIFS (base s) (inodes s) (cells s) m)) →
  runs (on_kernel (eitherCopyout pageTable user dst bs)) s Q.
Proof.
  intros Hc Hd Hn HQ. destruct (d_store _ _ D (kernel s) dst bs Hc Hd Hn) as (m & E & Hp).
  eapply runs_ok; [unfold on_kernel; by rewrite E|]. by apply HQ.
Qed.

(** [bmap] of an allocated direct block changes nothing. *)
Lemma bmap_direct ip i s bn b :
  cells s !! ip = Some i → 0 <= bn < NUM_DIRECT_BLOCKS →
  directBlocks (fields i) !! Z.to_nat bn = Some b → b ≠ 0 → bmap ip bn s = Ok (b, s).
Proof.
  intros Hi Hbn Hb Hne. unfold bmap, mbind, M_bind, deref. rewrite Hi.
  rewrite (proj2 (Z.ltb_lt bn _)) by lia. rewrite Hb. by rewrite (proj2 (Z.eqb_neq b 0)).
Qed.

Lemma file_bytes_app v d off (n1 n2 : nat) :
  file_bytes v d off (n1 + n2) = file_bytes v d off n1 ++ file_bytes v d (off + Z.of_nat n1) n2.
Proof. unfold file_bytes. rewrite <- fmap_app, <- seqZ_app_nat. do 2 f_equal. lia. Qed.

Lemma runs_read_loop {pageTable user} (D : Destination pageTable user) X s v ip i fuel dst off n tot :
  txn_state dev X (base s) v → cells s !! ip = Some i → device i = dev →
  0 <= off → 0 <= tot → tot + n < 2 ^ 32 → off + n < 2 ^ 32 → 0 <= n →
  0 <= dst → dst + n < 2 ^ 64 → mapped X v (fields i) off n → d_can D (kernel s) dst n →
  (0 < n → (off mod 1024 + n + 1023) / 1024 <= Z.of_nat fuel) →
  runs (read_loop pageTable fuel ip user dst off (tot + n) tot) s (λ r s', r = Some (tot + n) ∧
    ∃ b' v' m', s' = mkIFS b' (inodes s) (cells s) m' ∧
      d_put D (kernel s) dst (file_bytes v (fields i) off (Z.to_nat n)) m' ∧
      same_globals (base s) b' ∧ txn_state dev X b' v' ∧ same_contents v v').
Proof.
  intros T Hi Hdev Ho Ht Htn Hon Hn Hd Hdn Hmap Hcan Hf.
  revert s v T Hi dst off n tot Ho Ht Htn Hon Hn Hd Hdn Hmap Hcan Hf.
  induction fuel as [|fuel IH]; intros s v T Hi dst off n tot Ho Ht Htn Hon Hn Hd Hdn Hmap Hcan Hf; cbn [read_loop];
    destruct (Z.ltb_spec tot (tot + n)) as [Hlt|Hge].
  1: { specialize (Hf ltac:(lia)). dlia. }
  1, 3: assert (n = 0) as -> by lia; runs_step; rewrite Z.add_0_r; split; [done|];
    exists (base s), v, (kernel s); split_and!; [by destruct s|apply d_nil|done|done|apply same_contents_refl].
  destruct (Hmap off) as (b & Hb & Hb0 & HbX & Hbh & Hb12); [lia|].
  apply runs_bind. eapply runs_ok.
  { eapply bmap_direct; [done| |done|done]. split; [apply Z.div_pos; [lia|done]|done]. }
  rewrite (proj2 (Z.eqb_neq b 0)) by done. runs_step. apply (runs_deref ip i); [done|]. rewrite Hdev.
  apply (runs_ifetch X s v b); [done..|]. intros p b1 v1 G1 T1 B1 H1 C1.
  assert (piece (tot + n) tot off = Z.min n (1024 - off mod 1024)) as ->.
  { unfold piece, BLOCK_SIZE. rewrite Z.add_simpl_l, wrap_small by lia. done. }
  set (len := Z.min n (1024 - off mod 1024)).
  assert (0 < len <= n ∧ off mod 1024 + len <= 1024) as [Hlen Hlen4] by (unfold len; dlia).
  unfold BLOCK_SIZE in Hb |- *.
  rewrite (get_bytes_file v (fields i) off (Z.to_nat len) b) by (done || lia).
  set (bs := file_bytes v (fields i) off (Z.to_nat len)).
  assert (Z.of_nat (length bs) = len) as Ebs by (unfold bs; rewrite length_file_bytes; lia).
  runs_step. apply (runs_copyout D); [rewrite Ebs; eapply d_less; [exact Hcan|lia]|done|lia|]. intros m1 Hm1. cbn [negb].
  runs_step. apply (runs_iclose X _ v1 b p); [done|done|]. intros b2 v2 G2 T2 B2 C2 Hh2.
  assert (same_contents v v2) as Hsc by eauto using same_contents_visit.
  rewrite !wrap_small by lia. replace (tot + n) with (tot + len + (n - len)) by lia.
  eapply runs_mono; [apply (IH _ v2); cbn [base cells kernel set_base]; try done; try lia|].
  - intros k Hk. apply (mapped_same X v v2 _ off n Hsc Hmap). lia.
  - rewrite <- Ebs. apply (d_next _ _ D (kernel s)); [|lia|exact Hm1].
    replace (Z.of_nat (length bs) + (n - Z.of_nat (length bs))) with n by lia. exact Hcan.
  - intros Hpos. specialize (Hf ltac:(lia)).
    assert (len = 1024 - off mod 1024) as -> by (unfold len in *; lia). dlia.
  - intros r s' (-> & b' & v' & m' & -> & Hp & G & T' & Hsc'). split; [f_equal; lia|].
    exists b', v', m'. split_and!; [done| |by eauto using same_globals_trans|done|by eapply same_contents_trans].
    cbn [kernel] in Hp. rewrite (file_bytes_same v v2) in Hp by done.
    replace (Z.to_nat n) with (Z.to_nat len + Z.to_nat (n - len))%nat by lia.
    rewrite file_bytes_app, Z2Nat.id by lia. rewrite <- Ebs in Hp at 1. apply (d_app _ _ D _ m1); [|exact Hm1|exact Hp].
    rewrite length_file_bytes. eapply d_less; [exact Hcan|]. unfold bs. rewrite length_file_bytes. lia.
Qed.

(** [read], on any destination. *)
Lemma runs_iread {pageTable user} (D : Destination pageTable user) X s v ip i dst offset length :
  txn_state dev X (base s) v → cells s !! ip = Some i → device i = dev →
  0 <= offset → 0 <= length → offset + length < 2 ^ 32 → isize (fields i) < 2 ^ 31 →
  0 <= dst → dst + length < 2 ^ 64 →
  let n := Z.max 0 (Z.min length (isize (fields i) - offset)) in
  mapped X v (fields i) offset n → d_can D (kernel s) dst n →
  runs (iread pageTable ip user dst offset length) s (λ r s', r = n ∧ ∃ b' v' m',
    s' = mkIFS b' (inodes s) (cells s) m' ∧
    d_put D (kernel s) dst (file_bytes v (fields i) offset (Z.to_nat n)) m' ∧
    same_globals (base s) b' ∧ txn_state dev X b' v' ∧ same_contents v v').
Proof.
  intros T Hcell Hdev Hoff Hlen Hmax Hint Hdst Hdst64 n Hmap Hcan. set (sz := isize (fields i)) in *.
  unfold iread. runs_step. apply (runs_deref ip i); [done|]. fold sz. rewrite wrap_small by lia.
  rewrite (proj2 (Z.ltb_ge (offset + length) offset)), orb_false_r by lia.
  destruct (Z.ltb_spec sz offset) as [Hbeyond|Hin].
  { runs_step. assert (n = 0) as -> by lia. split; [done|]. exists (base s), v, (kernel s).
    split_and!; [by destruct s|apply d_nil|done|done|apply same_contents_refl]. }
  assert ((if sz <? offset + length then u32 (sz - offset) else length) = n) as ->.
  { destruct (Z.ltb_spec sz (offset + length)); [rewrite wrap_small by lia|]; lia. }
  runs_step. eapply runs_mono.
  { apply (runs_read_loop D X s v ip i (Z.to_nat (n / BLOCK_SIZE + 2)) dst offset n 0); try done; try lia.
    unfold BLOCK_SIZE. dlia. }
  intros r s' (-> & b' & v' & m' & -> & Hp & G & T' & Hsc). runs_step.
  split; [rewrite Z.add_0_l, swrap_small by lia; done|]. by exists b', v', m'.
Qed.
End rules.

(** *** A concrete directory of files, for the witnesses

    The inode table is at block 64; inode 1 is loaded and owns block 60, whose
    first 8 bytes are 255. *)
Definition demo_fields : DiskInode := mkDiskInode T_FILE 0 0 1 6 (60 :: replicate 11 0) 0.

Definition demo_inode : Inode := mkInode 1 1 1 SleepMutex.unlocked true demo_fields.

Definition demo_ifs : IFS BufferCache :=
  mkIFS (set_superBlock (mkSuperBlock FS_MAGIC 2000 1900 200 40 2 64 61) demo_fs)
    (make 8) {[1%positive := demo_inode]} (mkKMem ∅ 0 0).

Lemma demo_fields_ok : dinode_ok demo_fields.
Proof.
  unfold demo_fields. split; unfold s16_range, u32_range, T_FILE;
    cbn [type major minor numLinks isize directBlocks indirectBlock]; try lia.
  split; [done|]. apply Forall_cons; split; [lia|].
  apply Forall_forall. intros x [-> _]%elem_of_replicate. lia.
Qed.

(** ** Properties *)

(** C36: [skipElement] peels a path one component at a time: it returns null
    exactly when no component is left; otherwise the string it stores in the
    14-byte array is the first component, cut to 14 characters, the path it
    returns has the remaining components and is shorter, and that path is empty
    exactly when the component was the last one, which is the test by which
    [open] finds the parent directory. *)
Theorem skipElement_components (path name : bytes)
    (Hpath : Forall (λ c, 0 < c < 256) path) (Hname : length name = 14%nat) :
  match skipElement path name with
  | None => components path = []
  | Some (path', name') => ∃ e es, components path = e :: es ∧ components path' = es ∧
      text name' = take 14 e ∧ length name' = 14%nat ∧
      (path' = [] ↔ es = []) ∧ (length path' < length path)%nat
  end.
Proof.
  unfold skipElement. rewrite <- (components_skip path).
  destruct (skip_slashes path) as [|c p] eqn:Eskip; [done|].
  pose proof (skip_slashes_length path) as Hlen. rewrite Eskip in Hlen.
  assert (c ≠ 47) as Hc.
  { clear -Eskip. revert c p Eskip. induction path as [|x path IH]; [done|]. intros c p. cbn [skip_slashes].
    destruct (Z.eqb_spec x 47); [apply IH|]. by intros [= <- <-]. }
  assert (Forall (λ c, 0 < c < 256) (c :: p)) as Hcp.
  { rewrite <- Eskip. clear -Hpath. induction Hpath as [|x path Hx Hp IH]; [constructor|].
    cbn [skip_slashes]. case_match; [done|by constructor]. }
  destruct (split_element (c :: p)) as [e rest] eqn:Es.
  destruct (split_element_spec _ _ _ Es) as (Ep & Eapp & Hrest & Hsub).
  assert (e ≠ []) as He.
  { intros ->. cbn [split_element] in Es. rewrite (proj2 (Z.eqb_neq c 47) Hc) in Es.
    by destruct (split_element p). }
  assert (components (skip_slashes rest) = components rest) as Ecr by apply components_skip.
  assert (components (c :: p) = e :: components rest) as Ecomp.
  { unfold components. rewrite Ep, filter_cons_True by done. f_equal.
    destruct rest as [|r rest]; [done|]. by rewrite Hrest. }
  exists e, (components rest). split_and!; [done|done| | |rewrite skip_slashes_empty; tauto|].
  - assert (Forall (λ c, 0 < c < 256) e) as Hfe.
    { rewrite Eapp in Hcp. by apply Forall_app in Hcp as [? _]. }
    assert (Forall (λ c, 0 <= c < 256) e) as Hfe0 by (eapply Forall_impl; [exact Hfe|]; simpl; lia).
    assert (Forall (λ c, c ≠ 0) e) as Hfz by (eapply Forall_impl; [exact Hfe|]; simpl; lia).
    unfold MAX_DIR_NAME_LENGTH. destruct (Z.leb_spec 14 (Z.of_nat (length e))) as [Hge|Hlt].
    + rewrite put_bytes_start by (first [by apply Forall_take|rewrite length_take; lia]).
      rewrite length_take, drop_ge, app_nil_r by lia. apply text_id. by apply Forall_take.
    + rewrite put_bytes_start by (done || lia). rewrite (take_ge e) by lia.
      unfold st8; simpl. rewrite (proj2 (Z.leb_le 0 _)) by lia. change (0 mod 256) with 0.
      rewrite Nat2Z.id, insert_app_r_alt, Nat.sub_diag by lia.
      destruct (drop (length e) name) as [|x l] eqn:Ed; [|by apply text_app].
      apply (f_equal length) in Ed. rewrite length_drop in Ed. simpl in Ed. lia.
  - destruct (MAX_DIR_NAME_LENGTH <=? Z.of_nat (length e)); by rewrite ?length_st8, length_put_bytes.
  - pose proof (skip_slashes_length rest). rewrite Eapp in Hlen. rewrite length_app in Hlen.
    destruct e; [done|]. simpl in Hlen. lia.
Qed.

Lemma skipElement_components_witness : ∃ name',
  skipElement [47; 97; 98; 47; 47; 99] (replicate 14 7) = Some ([99], name') ∧ text name' = [97; 98].
Proof.
  pose proof (skipElement_components [47; 97; 98; 47; 47; 99] (replicate 14 7)
    ltac:(repeat constructor; lia) eq_refl) as H.
  assert (∃ name', skipElement [47; 97; 98; 47; 47; 99] (replicate 14 7) = Some ([99], name')) as [name' E].
  { eexists. reflexivity. }
  rewrite E in H. destruct H as (e & es & Ec & _ & Ht & _).
  assert (components [47; 97; 98; 47; 47; 99] = [[97; 98]; [99]]) as E2 by reflexivity.
  rewrite E2 in Ec. injection Ec as <- <-. exists name'. split; [exact E|exact Ht].
Defined.

(** What [update] stores, a later [lock] loads: [update] writes the fields
    of the inode to its slot of the inode block through the log and leaves the
    slots of all other inodes and all other blocks as they were; a [lock] of any
    unloaded in-memory copy of that inode then reads exactly those fields. *)
Theorem update_lock_roundtrip {S P : Type} `{BufferOps S P} (dev : Z) `{!BufferLaws S P dev}
    (pid : Z) (X : gset Z) (s : IFS S) (v : view P) (ip : positive) (i : Inode)
    (Htxn : txn_state dev X (base s) v) (Hroom : room (log (base s)) 1)
    (Hcell : cells s !! ip = Some i) (Hi : storable dev X (superBlock (base s)) v i)
    (Htype : type (fields i) ≠ 0) :
  let blk := iblock (inum i) (superBlock (base s)) in
  ∃ s' v', iupdate ip s = Ok (tt, s') ∧ txn_state dev X (base s') v' ∧
    (∀ b, b ≠ blk → cur v' b = cur v b) ∧
    (∀ k, ioffset k ≠ ioffset (inum i) → read_dinode (cur v' blk) (ioffset k) = read_dinode (cur v blk) (ioffset k)) ∧
    ∀ jp j, 1 <= refCount j → device j = dev → inum j = inum i → ivalid j = false →
      imutex j = SleepMutex.unlocked →
      runs (ilock pid jp) (set_cells (<[jp := j]> (cells s')) s') (λ _ s'', ∃ j',
        cells s'' !! jp = Some j' ∧ fields j' = fields i ∧ ivalid j' = true ∧ inum j' = inum i).
Proof.
  intros blk. destruct (runs_inv _ _ _ (runs_iupdate dev X s v ip i Htxn Hroom Hcell Hi))
    as ([] & s' & E & v' & b' & -> & St & B & Hh & C).
  destruct Hi as (Hdev & Hok & Hnum & HX & Hheld). fold blk in B, Hh, C, HX, Hheld.
  assert (is_block (cur v blk)) as Hblk by (apply (is_block_cur dev (base s)), Htxn).
  assert (superBlock b' = superBlock (base s)) as Esb by apply St.
  exists (set_base b' s), v'. split_and!.
  - done.
  - apply St.
  - intros b Hb. by apply (cur_same_but blk).
  - intros k Hk. rewrite C. pose proof (ioffset_range k). pose proof (ioffset_range (inum i)).
    assert (∀ a, ioffset k <= a < ioffset k + 64 →
      ld8 (write_dinode (cur v blk) (ioffset (inum i)) (fields i)) a = ld8 (cur v blk) a) as Hout.
    { intros a Ha. apply ld8_write_dinode; [apply (di_direct _ Hok)|].
      unfold ioffset in *. lia. }
    unfold read_dinode. rewrite (read_words_ext 12 (cur v blk))
      by (intros j Hj; apply Hout; simpl in Hj; lia).
    f_equal; try (f_equal; apply ldN_ext; intros j Hj; apply Hout; simpl in Hj; lia);
      apply ldN_ext; intros j Hj; apply Hout; simpl in Hj; lia.
  - intros jp j Hr Hjd Hjn Hjv Hjm.
    assert (read_dinode (cur v' blk) (ioffset (inum i)) = fields i) as Ed.
    { rewrite C. apply read_write_dinode; [done| | |done]; apply ioffset_range. }
    eapply runs_mono.
    { apply (runs_ilock_load dev pid X _ v' jp j); cbn [base set_base set_cells cells]; rewrite ?Esb, ?Hjn; auto;
        [apply St|apply lookup_insert_eq|]. fold blk. by rewrite Ed. }
    intros [] s'' (v'' & b'' & j' & -> & -> & _). cbn. eexists. split; [apply lookup_insert_eq|].
    cbn. rewrite Esb, Hjn. fold blk. by rewrite Ed.
Qed.

Lemma update_lock_roundtrip_witness : ∃ s',
  iupdate 1 demo_ifs = Ok (tt, s') ∧
  runs (ilock 1 2) (set_cells (<[2%positive := mkInode 1 1 1 SleepMutex.unlocked false zero_fields]> (cells s')) s')
    (λ _ s'', ∃ j', cells s'' !! 2%positive = Some j' ∧ fields j' = demo_fields ∧ ivalid j' = true ∧ inum j' = 1).
Proof.
  destruct (update_lock_roundtrip 1 1 {[60; 64]} demo_ifs demo_view 1 demo_inode demo_txn)
    as (s' & v' & E & _ & _ & _ & Hlock).
  - split_and!; simpl; [unfold LOG_SIZE, MAX_OP_BLOCKS|..]; lia.
  - done.
  - split_and!; [done|apply demo_fields_ok|simpl; lia| |by vm_compute].
    apply elem_of_union_r, elem_of_singleton. by vm_compute.
  - done.
  - exists s'. split; [exact E|]. by apply Hlock.
Defined.

(** C35: [read] returns the bytes of the file, within the direct blocks that are
    allocated to it (its first 12 KiB; behind them [bmap] does not read the indirect
    block, see [bmap_ignores_indirect_block]): the number of bytes between the
    offset and the smaller of the end of the request and the end of the file
    ([0] beyond the end), and exactly those bytes of the file's direct blocks
    are stored at the destination, a kernel buffer or user memory, across block
    and page boundaries; the file system keeps its contents. *)
Theorem read_returns_contents {S P : Type} `{BufferOps S P} (dev : Z) `{!BufferLaws S P dev}
    (pageTable : Z) (user : bool) (D : Destination pageTable user)
    (X : gset Z) (s : IFS S) (v : view P) (ip : positive) (i : Inode) (dst offset length : Z)
    (Htxn : txn_state dev X (base s) v) (Hcell : cells s !! ip = Some i) (Hdev : device i = dev)
    (Hoff : 0 <= offset) (Hlen : 0 <= length) (Hmax : offset + length < 2 ^ 32)
    (Hint : isize (fields i) < 2 ^ 31) (Hdst : 0 <= dst) (Hdst64 : dst + length < 2 ^ 64) :
  let n := Z.max 0 (Z.min length (isize (fields i) - offset)) in
  mapped X v (fields i) offset n → d_can D (kernel s) dst n →
  ∃ b' v' m', iread pageTable ip user dst offset length s = Ok (n, mkIFS b' (inodes s) (cells s) m') ∧
    d_put D (kernel s) dst (file_bytes v (fields i) offset (Z.to_nat n)) m' ∧
    txn_state dev X b' v' ∧ same_contents v v'.
Proof.
  intros n Hmap Hcan.
  destruct (runs_inv _ _ _ (runs_iread dev D X s v ip i dst offset length Htxn Hcell Hdev Hoff Hlen Hmax Hint
    Hdst Hdst64 Hmap Hcan)) as (r & s' & E & -> & b' & v' & m' & -> & Hp & _ & T' & Hsc).
  by exists b', v', m'.
Qed.

Lemma read_returns_contents_witness : ∃ b',
  iread 0 1 false 0x9000 4 100 demo_ifs =
    Ok (2, mkIFS b' (inodes demo_ifs) (cells demo_ifs)
      (set_kmem (put_bytes ∅ 0x9000 [255; 255]) (kernel demo_ifs))).
Proof.
  destruct (read_returns_contents 1 0 false (kernel_destination 0) {[60; 64]} demo_ifs demo_view 1 demo_inode
    0x9000 4 100 demo_txn) as (b' & v' & m' & E & Hp & _); [done|done|lia|lia|lia|simpl; lia|lia|lia| |done|].
  - intros k Hk. simpl in Hk. assert (k / BLOCK_SIZE = 0) as -> by (unfold BLOCK_SIZE; dlia).
    exists 60. split_and!; [done|done|set_solver|done|done].
  - exists b'. rewrite E. simpl in Hp. by rewrite Hp.
Defined.

(** ** The indirect block

    A file whose block 12 is disk block 5, by the first word of its indirect
    block 70.  [bmap] uses the buffer of block 70 without reading it, finds a
    zero there, and allocates a new block instead: the data of the file beyond
    its direct blocks is lost when the indirect block is not cached. *)
Definition demo_indirect : bytes := st32 zero_block 0 5.

Definition demo_big_file : IFS BufferCache :=
  mkIFS (mkFS (initializeBufferCache {[60 := demo_bitmap; 70 := demo_indirect]} 1) demo_super demo_log [])
    (make 8)
    {[1%positive := mkInode 1 1 1 SleepMutex.unlocked true
        (mkDiskInode T_FILE 0 0 1 20000 (seqZ 20 12) 70)]}
    (mkKMem ∅ 0 0).

Theorem bmap_ignores_indirect_block :
  ld32 demo_indirect 0 = 5 ∧
  match bmap 1 12 demo_big_file with Ok (b, _) => b = 64 | Err _ => False end.
Proof. split; [reflexivity|]. vm_compute. reflexivity. Qed.

End Inode.
