(* ===== verification/InodeWrite.v ===== *)
(** * Writing file data

    [Inode::write] of [kernel/fs/inode.cpp] on blocks that are allocated: the
    loop as one change of the file's bytes, the new size, and the round trip
    through [Inode::read]. *)

From S2P Require Import Prelude CString HashMap Address Page PageTable Uvm SleepMutex Buffer FsState Log Txn Block Inode.
Import CString HashMap Address Page PageTable Uvm Buffer FsState Log Txn Block Inode.

Module InodeWrite.

(** ** Definitions *)

(** The number of blocks that [n] bytes from offset [off] lie in: the rounds of
    the loop, and the log blocks it takes at most. *)
Definition blocks_of (off n : Z) : Z := if n <=? 0 then 0 else (off mod 1024 + n + 1023) / 1024.

(** [l] with [bs] written over it from position [k] on, extending it. *)
Definition splice (k : nat) (bs l : bytes) : bytes := take k l ++ bs ++ drop (k + length bs) l.

Section definitions.
Context {S P : Type} `{BufferOps S P} (dev : Z) `{!BufferLaws S P dev}.

(** No two blocks of the file are the same block. *)
Definition distinct (d : DiskInode) : Prop := ∀ j1 j2 b,
  directBlocks d !! j1 = Some b → directBlocks d !! j2 = Some b → b ≠ 0 → j1 = j2.

(** The bytes [bs] were written at [off] of the file [d], and nothing else. *)
Record wrote (v v' : view P) (d : DiskInode) (off : Z) (bs : bytes) : Prop := {
  wr_bytes : ∀ k, 0 <= k → file_byte v' d k =
    (if decide (off <= k < off + Z.of_nat (length bs)) then default 0 (bs !! Z.to_nat (k - off))
     else file_byte v d k);
  wr_other : ∀ b, (∀ k, off <= k < off + Z.of_nat (length bs) →
    directBlocks d !! Z.to_nat (k / BLOCK_SIZE) ≠ Some b) → cur v' b = cur v b;
  wr_held : ∀ b, is_held v b = false → is_held v' b = false;
  wr_disk : v_disk v' = v_disk v ∧ v_writes v' = v_writes v;
}.
End definitions.

(** ** Lemmas *)

Lemma blocks_of_step off n : 0 <= off → 0 < n →
  blocks_of off n = 1 + blocks_of (off + Z.min n (1024 - off mod 1024)) (n - Z.min n (1024 - off mod 1024)).
Proof.
  intros Ho Hn. unfold blocks_of. rewrite (proj2 (Z.leb_gt n 0)) by lia.
  destruct (Z.leb_spec (n - Z.min n (1024 - off mod 1024)) 0); [dlia|].
  assert (Z.min n (1024 - off mod 1024) = 1024 - off mod 1024) as -> by dlia. dlia.
Qed.

Lemma blocks_of_nonneg off n : 0 <= off → 0 <= blocks_of off n.
Proof. intros Ho. unfold blocks_of. case_match; dlia. Qed.

Section lemmas.
Context {S P : Type} `{BufferOps S P} (dev : Z) `{!BufferLaws S P dev}.
Implicit Types (s : IFS S) (v : view P) (d : DiskInode).

Lemma wrote_nil v d off : wrote v v d off [].
Proof. split; try done. intros k Hk. by rewrite decide_False by (simpl; lia). Qed.

Lemma wrote_app v v1 v2 d off bs1 bs2 : 0 <= off →
  wrote v v1 d off bs1 → wrote v1 v2 d (off + Z.of_nat (length bs1)) bs2 →
  wrote v v2 d off (bs1 ++ bs2).
Proof.
  intros Ho [W1 O1 H1 D1] [W2 O2 H2 D2]. split; [| |auto|destruct D1, D2; split; congruence].
  - intros k Hk. rewrite W2, W1, length_app by done. repeat case_decide; try lia; try done.
    + f_equal. rewrite lookup_app_r by lia. f_equal. lia.
    + f_equal. by rewrite lookup_app_l by lia.
  - intros b Hb. rewrite length_app in Hb. rewrite O2, O1; [done|..]; intros k Hk; apply Hb; lia.
Qed.

(** The change of one block. *)
Lemma wrote_piece v v' d off b (bs : bytes) :
  0 <= off → off mod 1024 + Z.of_nat (length bs) <= 1024 → (0 < length bs)%nat →
  directBlocks d !! Z.to_nat (off / 1024) = Some b → b ≠ 0 → distinct d → is_block (cur v b) →
  Forall (λ x, 0 <= x < 256) bs → same_but b v v' → is_held v' b = false →
  cur v' b = put_bytes (cur v b) (off mod 1024) bs → wrote v v' d off bs.
Proof.
  intros Ho Hn Hpos Hb Hb0 Hd [Hlen _] Hbs B Hh C. split.
  - intros k Hk. unfold file_byte, BLOCK_SIZE in *. case_decide as Hin.
    + replace (k / 1024) with (off / 1024) by dlia. rewrite Hb. simpl. rewrite C.
      replace (k mod 1024) with (off mod 1024 + (k - off)) by dlia.
      rewrite ld8_put_bytes_eq; [|lia|unfold valid_addr; simpl; dlia].
      destruct (lookup_lt_is_Some_2 bs (Z.to_nat (k - off))) as [x Ex]; [lia|].
      rewrite Ex. simpl. rewrite Forall_lookup in Hbs. apply Z.mod_small. by eapply Hbs.
    + destruct (decide (k / 1024 = off / 1024)) as [E|E].
      * rewrite E, Hb. simpl. rewrite C. apply ld8_put_bytes_ne. dlia.
      * rewrite (cur_same_but b v v'); [done|done|].
        destruct (directBlocks d !! Z.to_nat (k / 1024)) as [b'|] eqn:Eb; simpl; [|done].
        intros ->. pose proof (Hd _ _ _ Eb Hb Hb0). assert (0 <= off / 1024) by dlia.
        assert (0 <= k / 1024) by dlia. lia.
  - intros b' Hb'. apply (cur_same_but b); [done|]. intros ->. apply (Hb' off); [lia|done].
  - intros b' Hb'. destruct (decide (b' = b)) as [->|Hne]; [done|]. by rewrite (is_held_same_but b v v').
  - by destruct B as (? & ? & _).
Qed.

Lemma mapped_held X v v' d off n off' n' : (∀ b, is_held v b = false → is_held v' b = false) →
  off <= off' → off' + n' <= off + n → mapped X v d off n → mapped X v' d off' n'.
Proof.
  intros Hh Ho Hn Hm k Hk. destruct (Hm k ltac:(lia)) as (b & ? & ? & ? & ? & ?). exists b. auto 10.
Qed.

(** The bytes of the file after a write. *)
Lemma wrote_file_bytes v v' d off bs m :
  0 <= off <= Z.of_nat m → wrote v v' d off bs →
  file_bytes v' d 0 (Nat.max m (Z.to_nat off + length bs)) =
    splice (Z.to_nat off) bs (file_bytes v d 0 m).
Proof.
  intros Ho [W _ _].
  assert (length (file_bytes v d 0 m) = m) as Hm by apply length_file_bytes.
  apply list_eq_same_length with (n := Nat.max m (Z.to_nat off + length bs)).
  - unfold splice. rewrite !length_app, length_take, length_drop, Hm. lia.
  - by rewrite length_file_bytes.
  - intros i x y Hi Hx Hy. unfold file_bytes in Hx at 1.
    apply list_lookup_fmap_Some in Hx as (k & -> & Hk). apply lookup_seqZ in Hk as [-> Hk].
    rewrite Z.add_0_l, W by lia.
    assert (∀ j z, file_bytes v d 0 m !! j = Some z → z = file_byte v d (Z.of_nat j)) as Hfb.
    { intros j z (k & -> & E)%list_lookup_fmap_Some. by apply lookup_seqZ in E as [-> _]. }
    unfold splice in Hy. case_decide as Hin.
    + rewrite lookup_app_r in Hy by (rewrite length_take; lia).
      rewrite length_take, Hm, lookup_app_l in Hy by lia.
      replace (Z.to_nat (Z.of_nat i - off)) with (i - Z.to_nat off `min` m)%nat by lia. by rewrite Hy.
    + destruct (decide (i < Z.to_nat off)%nat).
      * rewrite lookup_app_l, lookup_take_lt in Hy by (rewrite ?length_take; lia). by rewrite (Hfb _ _ Hy).
      * rewrite lookup_app_r, length_take, Hm, lookup_app_r, lookup_drop in Hy by (rewrite ?length_take; lia).
        rewrite (Hfb _ _ Hy). f_equal. lia.
Qed.
Lemma file_bytes_ext v v' d off m : 0 <= off →
  (∀ k, off <= k < off + Z.of_nat m → file_byte v' d k = file_byte v d k) →
  file_bytes v' d off m = file_bytes v d off m.
Proof.
  intros Ho E. apply list_fmap_ext. intros j k [-> Hk]%lookup_seqZ. apply E. lia.
Qed.

(** A change of a block that is not of the file. *)
Lemma file_bytes_same_but v v' d blk off (m : nat) : 0 <= off → off + Z.of_nat m <= 12288 →
  length (directBlocks d) = 12%nat → (∀ j : nat, directBlocks d !! j ≠ Some blk) → same_but blk v v' →
  file_bytes v' d off m = file_bytes v d off m.
Proof.
  intros Ho Hm Hl Hb B. apply file_bytes_ext; [done|]. intros k Hk. unfold file_byte, BLOCK_SIZE.
  destruct (lookup_lt_is_Some_2 (directBlocks d) (Z.to_nat (k / 1024))) as [b Eb]; [dlia|].
  rewrite Eb. simpl. rewrite (cur_same_but blk v v'); [done|done|]. intros ->. by apply (Hb _ Eb).
Qed.

(** The direct blocks end at 12288 bytes. *)
Lemma mapped_limit X v d off n : 0 <= off <= 12288 → mapped X v d off n → off + n <= 12288.
Proof.
  intros Ho Hm. destruct (Z.le_gt_cases n 0); [lia|].
  destruct (Hm (off + n - 1)) as (b & _ & _ & _ & _ & Hk); [lia|]. unfold NUM_DIRECT_BLOCKS, BLOCK_SIZE in Hk. dlia.
Qed.

(** Loading from the source. *)
Lemma runs_copyin {pageTable user} (D : Source pageTable user) src bs s (Q : bool * bytes → IFS S → Prop) :
  s_has D (kernel s) src bs → 0 <= src < 2 ^ 64 → Q (true, bs) s →
  runs (on_kernel (eitherCopyin pageTable user src (Z.of_nat (length bs)))) s Q.
Proof.
  intros Hs Hr HQ. eapply runs_ok; [|exact HQ]. unfold on_kernel. rewrite (s_load _ _ D _ _ _ Hs Hr).
  by destruct s.
Qed.

Lemma runs_write_loop {pageTable user} (D : Source pageTable user) X s v ip i fuel src off bs tot :
  txn_state dev X (base s) v → cells s !! ip = Some i → device i = dev → distinct (fields i) →
  0 <= off → 0 <= tot → tot + Z.of_nat (length bs) < 2 ^ 32 → off + Z.of_nat (length bs) < 2 ^ 32 →
  0 <= src → src + Z.of_nat (length bs) < 2 ^ 64 →
  mapped X v (fields i) off (Z.of_nat (length bs)) → s_has D (kernel s) src bs →
  blocks_of off (Z.of_nat (length bs)) <= Z.of_nat fuel →
  room (log (base s)) (blocks_of off (Z.of_nat (length bs))) →
  runs (write_loop pageTable fuel ip user src off (tot + Z.of_nat (length bs)) tot) s (λ r s',
    r = (tot + Z.of_nat (length bs), off + Z.of_nat (length bs)) ∧
    ∃ b' v', s' = set_base b' s ∧
      steps_to dev X (blocks_of off (Z.of_nat (length bs))) (base s) b' v' ∧ wrote v v' (fields i) off bs).
Proof.
  intros T Hi Hdev Hd Ho Ht Htn Hon Hsrc Hsn Hmap Hs Hf Hroom.
  revert s v T Hi src off bs tot Ho Ht Htn Hon Hsrc Hsn Hmap Hs Hf Hroom.
  induction fuel as [|fuel IH]; intros s v T Hi src off bs tot Ho Ht Htn Hon Hsrc Hsn Hmap Hs Hf Hroom;
    cbn [write_loop]; destruct (Z.ltb_spec tot (tot + Z.of_nat (length bs))) as [Hlt|Hge].
  1: { rewrite blocks_of_step in Hf by lia. pose proof (blocks_of_nonneg (off + Z.min (Z.of_nat (length bs)) (1024 - off mod 1024))
       (Z.of_nat (length bs) - Z.min (Z.of_nat (length bs)) (1024 - off mod 1024))). dlia. }
  1, 3: destruct bs; [|simpl in *; lia]; simpl; runs_step; rewrite !Z.add_0_r; split; [done|];
    exists (base s), v; split_and!; [by destruct s|unfold steps_to, blocks_of; simpl; split_and!; (done || lia)|
      apply wrote_nil].
  set (n := Z.of_nat (length bs)) in *.
  destruct (Hmap off) as (b & Hb & Hb0 & HbX & Hbh & Hb12); [lia|].
  apply runs_bind. eapply runs_ok.
  { eapply bmap_direct; [done| |done|done]. split; [apply Z.div_pos; [lia|done]|done]. }
  rewrite (proj2 (Z.eqb_neq b 0)) by done. runs_step. apply (runs_deref ip i); [done|]. rewrite Hdev.
  apply (runs_ifetch dev X s v b); [done..|]. intros p b1 v1 G1 T1 B1 H1 C1.
  assert (piece (tot + n) tot off = Z.min n (1024 - off mod 1024)) as ->.
  { unfold piece, BLOCK_SIZE. rewrite Z.add_simpl_l, wrap_small by lia. done. }
  rewrite (blocks_of_step off n) in Hf, Hroom |- * by lia.
  set (len := Z.min n (1024 - off mod 1024)) in *.
  assert (0 < len <= n ∧ off mod 1024 + len <= 1024) as [Hlen Hlen4] by (unfold len; dlia).
  set (bs1 := take (Z.to_nat len) bs). set (bs2 := drop (Z.to_nat len) bs).
  assert (Z.of_nat (length bs1) = len ∧ Z.of_nat (length bs2) = n - len) as [E1 E2].
  { unfold bs1, bs2, n in *. rewrite length_take, length_drop. lia. }
  assert (bs = bs1 ++ bs2) as Ebs by (symmetry; apply take_drop).
  pose proof (blocks_of_nonneg (off + len) (n - len) ltac:(lia)) as Hnn.
  rewrite Ebs in Hs. apply (s_split _ _ D) in Hs as [Hs1 Hs2].
  runs_step. rewrite <- E1. apply (runs_copyin D); [exact Hs1|lia|]. cbn [fst snd negb]. rewrite E1.
  assert (is_block (cur v b)) as Hblk by apply (is_block_cur dev (base s)), T.
  destruct (store_inv dev X (base s) b1 v1 b p (put_bytes (cur v b) (off mod BLOCK_SIZE) bs1))
    as (b2 & b3 & b' & v' & F2 & F3 & F4 & St & B' & Hh' & C'); [done..|by apply is_block_put_bytes|
      unfold room in *; lia|].
  runs_step. apply runs_on_base. eapply runs_ok; [exact F2|].
  runs_step. apply runs_on_base. eapply runs_ok; [exact F3|].
  runs_step. apply runs_on_base. eapply runs_ok; [exact F4|].
  assert (wrote v v' (fields i) off bs1) as W1.
  { apply (wrote_piece v v' _ off b); [lia|lia|lia|done|done|done|done|by apply (s_bytes _ _ D _ _ _ Hs1)|
      by eapply same_but_trans|done|done]. }
  rewrite !wrap_small by lia. replace (tot + n) with (tot + len + Z.of_nat (length bs2)) by lia.
  eapply runs_mono; [apply (IH (set_base b' s) v' (proj1 (proj2 (proj2 St)))); cbn [base cells kernel set_base]; try done; try lia|].
  - eapply mapped_held; [apply (wr_held _ _ _ _ _ W1)| | |exact Hmap]; lia.
  - by rewrite <- E1.
  - rewrite E2. lia.
  - rewrite E2. by eapply steps_to_room.
  - intros r s' (-> & b'' & v'' & -> & St' & W2). rewrite E2 in *. split; [f_equal; lia|].
    exists b'', v''. split_and!; [done|by eapply steps_to_trans|]. rewrite Ebs.
    apply (wrote_app v v'); [done|done|]. by rewrite E1.
Qed.
Lemma wrote_range v v' d off bs : 0 <= off → wrote v v' d off bs → file_bytes v' d off (length bs) = bs.
Proof.
  intros Ho [W _ _ _]. apply list_eq_same_length with (n := length bs); [done|by rewrite length_file_bytes|].
  intros i x y Hi (k & -> & Hk)%list_lookup_fmap_Some Hy. apply lookup_seqZ in Hk as [-> Hk].
  rewrite W, decide_True by lia. replace (Z.to_nat (off + Z.of_nat i - off)) with i by lia. by rewrite Hy.
Qed.

(** The state after a write: the inode has the fields [d]. *)
Definition with_fields (ip : positive) (i : Inode) (d : DiskInode) (b' : FS S) s s' : Prop :=
  base s' = b' ∧ inodes s' = inodes s ∧ kernel s' = kernel s ∧
  cells s' !! ip = Some (set_fields d i) ∧ ∀ jp, jp ≠ ip → cells s' !! jp = cells s !! jp.

Lemma set_size_ok d x : dinode_ok d → u32_range x → dinode_ok (set_size x d).
Proof. by intros []; split. Qed.

(** The end of [write]: the new size, then [update]. *)
Lemma runs_grow ip i size' s (Q : unit → IFS S → Prop) :
  cells s !! ip = Some i →
  (∀ s', with_fields ip i (set_size (Z.max (isize (fields i)) size') (fields i)) (base s) s s' → Q tt s') →
  runs (if isize (fields i) <? size' then change ip (λ i, set_fields (set_size size' (fields i)) i)
        else mret tt) s Q.
Proof.
  intros Hi HQ. destruct (Z.ltb_spec (isize (fields i)) size').
  - apply (runs_ichange ip _ i); [done|]. apply HQ. rewrite Z.max_r by lia. split_and!; try done; simpl.
    + apply lookup_insert_eq.
    + intros jp Hj. by rewrite lookup_insert_ne.
  - runs_step. apply HQ. rewrite Z.max_l by lia. split_and!; try done. rewrite Hi. by destruct i as [????? []].
Qed.

Lemma runs_iwrite {pageTable user} (D : Source pageTable user) X s v ip i src off bs :
  let n := Z.of_nat (length bs) in let blk := iblock (inum i) (superBlock (base s)) in
  txn_state dev X (base s) v → cells s !! ip = Some i → storable dev X (superBlock (base s)) v i →
  distinct (fields i) → (∀ j : nat, directBlocks (fields i) !! j ≠ Some blk) →
  0 <= off <= isize (fields i) → off + n <= MAX_FILE * BLOCK_SIZE → 0 <= src → src + n < 2 ^ 64 →
  mapped X v (fields i) off n → s_has D (kernel s) src bs → room (log (base s)) (blocks_of off n + 1) →
  runs (iwrite pageTable ip user src off n) s (λ r s', r = n ∧ ∃ b' v1 v',
    with_fields ip i (set_size (Z.max (isize (fields i)) (off + n)) (fields i)) b' s s' ∧
    steps_to dev X (blocks_of off n + 1) (base s) b' v' ∧
    wrote v v1 (fields i) off bs ∧ is_block (cur v1 blk) ∧ same_but blk v1 v' ∧ is_held v' blk = false ∧
    cur v' blk = write_dinode (cur v1 blk) (ioffset (inum i)) (set_size (Z.max (isize (fields i)) (off + n)) (fields i))).
Proof.
  intros n blk T Hi Hst Hd Hnb [Ho Hos] Hmax Hsrc Hsn Hmap Hs Hroom.
  change (MAX_FILE * BLOCK_SIZE) with 274432 in Hmax. destruct Hst as (Hdev & Hok & Hnum & HX & Hh).
  pose proof (di_size _ Hok) as Hsz. unfold u32_range in Hsz.
  unfold iwrite. runs_step. apply (runs_deref ip i); [done|]. rewrite wrap_small by lia.
  rewrite (proj2 (Z.ltb_ge (isize (fields i)) off)), (proj2 (Z.ltb_ge (off + n) off)) by lia. cbn [orb].
  change (MAX_FILE * BLOCK_SIZE) with 274432. rewrite (proj2 (Z.ltb_ge 274432 (off + n))) by lia.
  runs_step. pose proof (blocks_of_nonneg off n Ho) as Hnn.
  eapply runs_mono.
  { apply (runs_write_loop D X s v ip i _ src off bs 0); fold n; try done; try lia.
    - unfold blocks_of, BLOCK_SIZE. case_match; dlia.
    - unfold room in *. lia. }
  intros r s1 (-> & b1 & v1 & -> & St1 & W). fold n in St1, W. rewrite Z.add_0_l. cbn [fst snd].
  runs_step. apply (runs_deref ip i); [done|]. runs_step. apply (runs_grow ip i); [done|].
  intros s2 (Eb & Ei & Ek & Ec & Eo). runs_step.
  assert (superBlock b1 = superBlock (base s)) as Esb by apply St1.
  set (d' := set_size (Z.max (isize (fields i)) (off + n)) (fields i)) in *.
  eapply runs_mono.
  { apply (runs_iupdate dev X s2 v1 ip (set_fields d' i)); rewrite ?Eb; cbn [base set_base].
    - apply St1.
    - by eapply steps_to_room.
    - done.
    - rewrite Esb. cbn [inum device fields set_fields]. split_and!; [done| |done|done|].
      + apply set_size_ok; [done|]. unfold u32_range. lia.
      + by apply (wr_held _ _ _ _ _ W). }
  intros [] s3 (v' & b' & -> & St2 & B & Hh' & C). runs_step.
  rewrite Eb in *. cbn [base set_base inum set_fields fields] in *. rewrite Esb in B, Hh', C.
  split; [apply swrap_small; lia|]. exists b', v1, v'. split_and!; auto.
  - by split_and!.
  - by eapply steps_to_trans.
  - apply (is_block_cur dev b1), St1.
Qed.
End lemmas.

(** ** Properties *)

(** C33: [write] then [read], within the direct blocks that are allocated to the
    file (its first 12 KiB; no block is allocated), the block of the inode lying
    outside the log: [write] of [n] bytes
    from a kernel buffer or from user memory returns [n]; the contents of the
    file are the old contents with the bytes written over them at the offset,
    and the file grows when they pass its end; the inode's slot on the disk holds
    the new size, no block outside the file and the inode block changes; and a
    [read] of the range returns the bytes that were written. *)
Theorem write_read_roundtrip {S P : Type} `{BufferOps S P} (dev : Z) `{!BufferLaws S P dev}
    (pageTable : Z) (user : bool) (D : Source pageTable user) (X : gset Z) (s : IFS S) (v : view P)
    (ip : positive) (i : Inode) (src off : Z) (bs : bytes)
    (Htxn : txn_state dev X (base s) v) (Hcell : cells s !! ip = Some i)
    (Hi : storable dev X (superBlock (base s)) v i) (Hd : distinct (fields i))
    (Hblk : ∀ j : nat, directBlocks (fields i) !! j ≠ Some (iblock (inum i) (superBlock (base s))))
    (Hoff : 0 <= off <= isize (fields i)) (Hsmall : isize (fields i) <= NUM_DIRECT_BLOCKS * BLOCK_SIZE)
    (Hsrc : 0 <= src) (Hsrc64 : src + Z.of_nat (length bs) < 2 ^ 64)
    (Hmap : mapped X v (fields i) off (Z.of_nat (length bs))) (Hhas : s_has D (kernel s) src bs)
    (Hroom : room (log (base s)) (blocks_of off (Z.of_nat (length bs)) + 1)) :
  let n := Z.of_nat (length bs) in
  let d' := set_size (Z.max (isize (fields i)) (off + n)) (fields i) in
  ∃ s' v', iwrite pageTable ip user src off n s = Ok (n, s') ∧ txn_state dev X (base s') v' ∧
    with_fields ip i d' (base s') s s' ∧
    file_bytes v' d' 0 (Z.to_nat (isize d')) =
      splice (Z.to_nat off) bs (file_bytes v (fields i) 0 (Z.to_nat (isize (fields i)))) ∧
    read_dinode (cur v' (iblock (inum i) (superBlock (base s)))) (ioffset (inum i)) = d' ∧
    (∀ b, b ≠ iblock (inum i) (superBlock (base s)) → b ∉ directBlocks (fields i) → cur v' b = cur v b) ∧
    ∀ userDst (D' : Destination pageTable userDst) dst, 0 <= dst → dst + n < 2 ^ 64 →
      d_can D' (kernel s') dst n →
      runs (iread pageTable ip userDst dst off n) s' (λ r s'', r = n ∧ d_put D' (kernel s') dst bs (kernel s'')).
Proof.
  intros n d'. set (blk := iblock (inum i) (superBlock (base s))) in *.
  change (NUM_DIRECT_BLOCKS * BLOCK_SIZE) with 12288 in Hsmall.
  pose proof (mapped_limit X v (fields i) off n ltac:(lia) Hmap) as Hlim.
  destruct (runs_inv _ _ _ (runs_iwrite dev D X s v ip i src off bs Htxn Hcell Hi Hd Hblk Hoff
    ltac:(change (MAX_FILE * BLOCK_SIZE) with 274432; lia) Hsrc Hsrc64 Hmap Hhas Hroom))
    as (r & s' & E & -> & b' & v1 & v' & Wf & St & W & Hblock & B & Hh & C).
  fold n blk d' in E, Wf, St, C, B, Hh. exists s', v'. pose proof Wf as (Eb & _ & Ek & Ec & _). rewrite Eb.
  destruct Hi as (Hdev & Hok & _ & HX & _). pose proof (proj1 (di_direct _ Hok)) as H12.
  assert (txn_state dev X b' v') as T' by apply St.
  assert (∀ m, off <= m <= 12288 → file_bytes v' d' off (Z.to_nat (m - off)) =
    file_bytes v1 (fields i) off (Z.to_nat (m - off))) as Hrange.
  { intros m Hm. change (file_bytes v' d' ?o ?k) with (file_bytes v' (fields i) o k).
    apply (file_bytes_same_but v1 v' _ blk); [lia|lia|done|done|done]. }
  split_and!; [exact E|done|done| | | |].
  - change (file_bytes v' d' ?o ?k) with (file_bytes v' (fields i) o k).
    rewrite (file_bytes_same_but v1 v' _ blk); [|lia|simpl; lia|done|done|done].
    rewrite <- (wrote_file_bytes v v1); [|lia|done]. f_equal. simpl. lia.
  - rewrite C. pose proof (ioffset_range (inum i)). apply read_write_dinode; [done|lia|lia|].
    apply set_size_ok; [done|]. unfold u32_range. lia.
  - intros b Hb Hnb. rewrite (cur_same_but blk v1 v'), (wr_other _ _ _ _ _ W); [done| |done|done].
    intros k Hk Hkb. apply Hnb. by eapply list_elem_of_lookup_2.
  - intros userDst D' dst Hdst Hdst64 Hcan.
    assert (Z.max 0 (Z.min n (isize d' - off)) = n) as En by (simpl; lia).
    eapply runs_mono.
    { apply (runs_iread dev D' X s' v' ip (set_fields d' i) dst off n); rewrite ?Eb; try done; try lia.
      - simpl. lia.
      - cbn [fields set_fields]. rewrite En. change (mapped X v' d' off n) with (mapped X v' (fields i) off n).
        eapply (mapped_held X v v'); [|done|done|done]. intros b Hb. destruct (decide (b = blk)) as [->|Hne]; [done|].
        rewrite (is_held_same_but blk v1 v') by done. by apply (wr_held _ _ _ _ _ W).
      - cbn [fields set_fields]. by rewrite En. }
    intros r s'' (-> & b'' & v'' & m' & -> & Hp & _). cbn [fields set_fields kernel] in *. rewrite En in *.
    split; [done|]. replace n with (off + n - off) in Hp by lia. rewrite Hrange in Hp by lia.
    replace (off + n - off) with (Z.of_nat (length bs)) in Hp by lia.
    by rewrite Nat2Z.id, (wrote_range v v1) in Hp by (done || lia).
Qed.

(** The directory of [Inode.demo_ifs], with three bytes in kernel memory. *)
Definition demo_source : IFS BufferCache :=
  mkIFS (base demo_ifs) (inodes demo_ifs) (cells demo_ifs) (mkKMem (put_bytes ∅ 0x9000 [7; 8; 9]) 0 0).

Lemma demo_distinct : distinct demo_fields.
Proof.
  intros [|j1] [|j2] b E1 E2 Hb; [done| | |];
    repeat match goal with
    | E : directBlocks demo_fields !! S _ = Some _ |- _ => apply lookup_replicate in E as [-> _]; done
    end.
Qed.

Lemma write_read_roundtrip_witness : ∃ s' (v' : view positive),
  iwrite 0 1 false 0x9000 5 3 demo_source = Ok (3, s') ∧
  file_bytes v' (set_size 8 demo_fields) 0 8 = [255; 255; 255; 255; 255; 7; 8; 9] ∧
  runs (iread 0 1 false 0xa000 5 3) s' (λ r s'', r = 3 ∧
    kernel s'' = set_kmem (put_bytes (kmem (kernel s')) 0xa000 [7; 8; 9]) (kernel s')).
Proof.
  destruct (write_read_roundtrip 1 0 false (kernel_source 0) {[60; 64]} demo_source demo_view 1 demo_inode
    0x9000 5 [7; 8; 9] demo_txn) as (s' & v' & E & _ & _ & Hf & _ & _ & Hr).
  - done.
  - split_and!; [done|apply demo_fields_ok|simpl; lia| |by vm_compute].
    apply elem_of_union_r, elem_of_singleton. by vm_compute.
  - apply demo_distinct.
  - intros [|j] Hj; [by vm_compute in Hj|]. by apply lookup_replicate in Hj as [? _].
  - simpl. lia.
  - simpl. unfold NUM_DIRECT_BLOCKS, BLOCK_SIZE. lia.
  - lia.
  - simpl. lia.
  - intros k Hk. simpl in Hk. assert (k / BLOCK_SIZE = 0) as -> by (unfold BLOCK_SIZE; dlia).
    exists 60. split_and!; [done|done|set_solver|done|done].
  - split; [by vm_compute|repeat constructor; lia].
  - assert (blocks_of 5 (Z.of_nat (length [7; 8; 9])) = 1) as -> by (by vm_compute).
    split_and!; simpl; [unfold LOG_SIZE, MAX_OP_BLOCKS|..]; lia.
  - exists s', v'. split_and!; [exact E|exact Hf|].
    apply (Hr false (kernel_destination 0) 0xa000); [lia|simpl; lia|done].
Defined.

End InodeWrite.
