(* ===== verification/MakeDisk.v ===== *)
(** * The builder of disk images

    [disk/make_disk.cpp], the host program that writes the file system the kernel
    mounts.  The image file is a sequence of sectors; the stream [fsimg] stops
    doing anything after its first failed access.  What a build has put into an
    image is stated as a list of files of bytes. *)

From S2P Require Import Prelude Buffer FsState Log Txn Block Inode.
Import Buffer FsState Block Inode.

Module MakeDisk.

(** ** Definitions *)

Definition FS_SIZE : Z := 2000.
Definition NUM_INODES : Z := 200.

(** The file [fsimg] with its fail bit, and the globals [freeInode], [freeBlock]
    and [sb].  Sectors that were never written read as zero up to [sectors]. *)
Record Maker := mkMaker {
  image : gmap Z bytes;
  sectors : Z;
  failed : bool;
  freeInode : Z;
  freeBlock : Z;
  msb : SuperBlock;
}.

Definition set_image (im : gmap Z bytes) (n : Z) (s : Maker) : Maker :=
  mkMaker im n (failed s) (freeInode s) (freeBlock s) (msb s).
Definition set_failed (s : Maker) : Maker :=
  mkMaker (image s) (sectors s) true (freeInode s) (freeBlock s) (msb s).
Definition set_freeInode (x : Z) (s : Maker) : Maker :=
  mkMaker (image s) (sectors s) (failed s) x (freeBlock s) (msb s).
Definition set_freeBlock (x : Z) (s : Maker) : Maker :=
  mkMaker (image s) (sectors s) (failed s) (freeInode s) x (msb s).
Definition set_msb (x : SuperBlock) (s : Maker) : Maker :=
  mkMaker (image s) (sectors s) (failed s) (freeInode s) (freeBlock s) x.

(** [convOrder<Int>] for an [Int] of [k] bytes: byte [i] of the result is byte
    [i] of the value, and the host is little-endian. *)
Definition convOrder (k : nat) (n : Z) : Z :=
  ldN k ((λ i, u8 (Z.shiftr n (i * 8))) <$> seqZ 0 (Z.of_nat k)) 0.

Definition convOrder16 (n : Z) : Z := s16 (convOrder 2 n).
Definition convOrder32 (n : Z) : Z := convOrder 4 n.

(** Reading at or past the end sets the fail bit and leaves [buf] as it is. *)
Definition readSector (sector : Z) (buf : bytes) : M Maker bytes := λ s,
  if failed s then Ok (buf, s)
  else if sector <? sectors s then Ok (dblock (image s) sector, s)
  else Ok (buf, set_failed s).

Definition writeSector (sector : Z) (buf : bytes) : M Maker unit :=
  modify (λ s, if failed s then s
    else set_image (<[sector := buf]> (image s)) (Z.max (sectors s) (sector + 1)) s).

(** [freeBlock++]. *)
Definition take_block : M Maker Z :=
  b ← gets freeBlock;
  modify (set_freeBlock (u32 (b + 1))) ;;
  mret b.

Section operations.
(** What the uninitialised local arrays hold. *)
Variable junk : bytes.

Definition readInode (inum : Z) : M Maker DiskInode :=
  sb ← gets msb;
  buf ← readSector (iblock inum sb) junk;
  mret (read_dinode buf (ioffset inum)).

Definition writeInode (inum : Z) (ip : DiskInode) : M Maker unit :=
  sb ← gets msb;
  let block := iblock inum sb in
  buf ← readSector block junk;
  writeSector block (write_dinode buf (ioffset inum) ip).

Definition allocateInode (ty : Z) : M Maker Z :=
  inum ← gets freeInode;
  modify (set_freeInode (u32 (inum + 1))) ;;
  writeInode inum
    (set_size (convOrder32 0) (set_links (convOrder16 1) (set_type (convOrder16 ty) zero_fields))) ;;
  mret inum.

(** Lines 92-98: the sector entered for block [fbn] in the block of indirect
    numbers, allocated if there is none. *)
Definition entry_of (dinode : DiskInode) (indirect : bytes) (fbn : Z) : M Maker (DiskInode * bytes * Z) :=
  indirect ← readSector (convOrder32 (indirectBlock dinode)) indirect;
  let i := fbn - NUM_DIRECT_BLOCKS in
  if NUM_INDIRECT_BLOCKS <=? i then fail OutOfRange
  else
    indirect ← (if ld32 indirect (4 * i) =? 0
      then b ← take_block;
           let indirect := st32 indirect (4 * i) (convOrder32 b) in
           writeSector (convOrder32 (indirectBlock dinode)) indirect ;;
           mret indirect
      else mret indirect);
    mret (dinode, indirect, convOrder32 (ld32 indirect (4 * i))).

(** Lines 83-99: the sector of block [fbn] of the file, allocated if there is
    none, with the local inode and the local [indirect]. *)
Definition block_of (dinode : DiskInode) (indirect : bytes) (fbn : Z) : M Maker (DiskInode * bytes * Z) :=
  if fbn <? NUM_DIRECT_BLOCKS then
    dinode ← (if convOrder32 (default 0 (directBlocks dinode !! Z.to_nat fbn)) =? 0
      then b ← take_block;
           mret (set_direct (<[Z.to_nat fbn := convOrder32 b]> (directBlocks dinode)) dinode)
      else mret dinode);
    mret (dinode, indirect, convOrder32 (default 0 (directBlocks dinode !! Z.to_nat fbn)))
  else
    dinode ← (if convOrder32 (indirectBlock dinode) =? 0
      then b ← take_block; mret (set_indirect (convOrder32 b) dinode)
      else mret dinode);
    entry_of dinode indirect fbn.

(** Lines 101-104. *)
Definition fill_sector (x pos : Z) (piece : bytes) : M Maker unit :=
  buf ← readSector x junk;
  writeSector x (put_bytes buf pos piece).

(** The loop of [appendInode]; [data] are the [n] bytes at [p].  A round takes a
    byte at least. *)
Fixpoint append_loop (fuel : nat) (dinode : DiskInode) (indirect data : bytes) (offset : Z) :
    M Maker (DiskInode * Z) :=
  if 0 <? Z.of_nat (length data) then
    match fuel with
    | O => fail NoFuel
    | S f =>
        let fbn := offset / BLOCK_SIZE in
        r ← block_of dinode indirect fbn;
        let len := Z.min (Z.of_nat (length data)) ((fbn + 1) * BLOCK_SIZE - offset) in
        fill_sector r.2 (offset - fbn * BLOCK_SIZE) (take (Z.to_nat len) data) ;;
        append_loop f r.1.1 r.1.2 (drop (Z.to_nat len) data) (u32 (offset + len))
    end
  else mret (dinode, offset).

Definition appendInode (inum : Z) (xp : bytes) : M Maker unit :=
  dinode ← readInode inum;
  r ← append_loop (length xp) dinode junk xp (convOrder32 (isize dinode));
  writeInode inum (set_size (convOrder32 r.2) r.1).

(** The loop of [allocateBlock]: [buf[i / 8] |= 1 << (i % 8)]. *)
Fixpoint mark_used (n : nat) (i : Z) (buf : bytes) : bytes :=
  match n with
  | O => buf
  | S n' => mark_used n' (i + 1) (st8 buf (i / 8) (Z.lor (ld8 buf (i / 8)) (bit_mask i)))
  end.

Definition allocateBlock (used : Z) : M Maker unit :=
  assert (used <? BLOCK_SIZE * 8) ;;
  sb ← gets msb;
  writeSector (bmapStart sb) (mark_used (Z.to_nat used) 0 zero_block).

(** [strncpy(entry.name, name, MAX_DIR_NAME_LENGTH)] of the host's library: the
    rest of the array is filled with zeros. *)
Definition entry_bytes (inum : Z) (name : bytes) : bytes :=
  put_bytes (st16 (replicate 16 0) 0 inum) 2 (take 14 (text name ++ replicate 14 0)).

(** [std::filesystem::path(s).filename()]: what follows the last slash. *)
Fixpoint filename (last s : bytes) : bytes :=
  match s with
  | [] => last
  | c :: s' => filename (if c =? 47 then s' else last) s'
  end.

(** The [readsome] loop of a file whose contents arrive in these chunks. *)
Fixpoint copy_chunks (inum : Z) (chunks : list bytes) : M Maker unit :=
  match chunks with
  | [] => mret tt
  | c :: cs =>
      if Z.of_nat (length c) =? 0 then mret tt
      else appendInode inum c ;; copy_chunks inum cs
  end.

(** A file of the command line: its path and what reading it gives. *)
Record Source := mkSource { path : bytes; chunks : list bytes }.

Definition add_file (root : Z) (f : Source) : M Maker unit :=
  inum ← allocateInode T_FILE;
  appendInode root (entry_bytes (convOrder 2 inum) (filename (path f) (path f))) ;;
  copy_chunks inum (chunks f).

Fixpoint add_files (root : Z) (fs : list Source) : M Maker unit :=
  match fs with
  | [] => mret tt
  | f :: fs' => add_file root f ;; add_files root fs'
  end.

Definition numInodeBlocks : Z := NUM_INODES / INODES_PER_BLOCK + 1.

Definition numMeta : Z :=
  2 + Log.LOG_SIZE + numInodeBlocks + (FS_SIZE / (BLOCK_SIZE * 8) + 1).

Definition make_super : SuperBlock :=
  mkSuperBlock FS_MAGIC (convOrder32 FS_SIZE) (convOrder32 (u32 (FS_SIZE - numMeta)))
    (convOrder32 NUM_INODES) (convOrder32 Log.LOG_SIZE) (convOrder32 2)
    (convOrder32 (2 + Log.LOG_SIZE)) (convOrder32 (2 + Log.LOG_SIZE + numInodeBlocks)).

(** [memmove(buf, &sb, sizeof(sb))] on a cleared [buf]. *)
Definition super_bytes (sb : SuperBlock) : bytes :=
  write_words zero_block 0
    [magic sb; sb_size sb; numBlocks sb; numInodes sb; numLogs sb; logStart sb; inodeStart sb;
     bmapStart sb].

(** The loop that clears the image; its counter steps by [BLOCK_SIZE]. *)
Fixpoint clear_loop (fuel : nat) (i : Z) : M Maker unit :=
  if i <? FS_SIZE then
    match fuel with
    | O => fail NoFuel
    | S f => writeSector (u32 i) zero_block ;; clear_loop f (i + BLOCK_SIZE)
    end
  else mret tt.

(** Lines 147-164: the super block and the cleared image. *)
Definition format : M Maker unit :=
  modify (set_msb make_super) ;;
  modify (set_freeBlock (u32 numMeta)) ;;
  clear_loop (Z.to_nat FS_SIZE) 0 ;;
  writeSector 1 (super_bytes make_super).

(** Lines 166-177: the root directory with its two entries. *)
Definition make_root : M Maker Z :=
  root ← allocateInode T_DIR;
  appendInode root (entry_bytes (convOrder 2 root) [46]) ;;
  appendInode root (entry_bytes (convOrder 2 root) [46; 46]) ;;
  mret root.

(** Lines 197-202: the size of the root directory goes up to a whole block. *)
Definition round_root (root : Z) : M Maker unit :=
  dinode ← readInode root;
  let offset := convOrder32 (isize dinode) in
  let offset := u32 ((offset / BLOCK_SIZE + 1) * BLOCK_SIZE) in
  writeInode root (set_size (convOrder32 offset) dinode).

(** [main] after the image file is open. *)
Definition build (files : list Source) : M Maker unit :=
  format ;;
  root ← make_root;
  add_files root files ;;
  round_root root ;;
  used ← gets freeBlock;
  allocateBlock used.

(** [main]: [argv] has the name of the image first; [opened] says whether it can
    be opened.  The messages on [std::cerr] are left out. *)
Definition main (argv : option (list Source)) (opened : bool) : M Maker Z :=
  match argv with
  | None => mret 1
  | Some files => if negb opened then mret 2 else build files ;; mret 0
  end.
End operations.

(** The program's globals before [main], with the file opened and truncated. *)
Definition initial : Maker :=
  mkMaker ∅ 0 false 1 0 (mkSuperBlock 0 0 0 0 0 0 0 0).

(** ** Lemmas *)

Lemma ldN_shifts k (l : bytes) a m :
  (∀ i, 0 <= i < Z.of_nat k → ld8 l (a + i) = u8 (Z.shiftr m (i * 8))) →
  ldN k l a = m mod 2 ^ (8 * Z.of_nat k).
Proof.
  revert a m; induction k as [|k IH]; intros a m E; [by rewrite Z.mod_1_r|].
  unfold ldN; fold (@ldN bytes _ k). rewrite (IH (a + 1) (m / 256)).
  - rewrite <- (Z.add_0_r a) at 1. rewrite E by lia. rewrite Z.shiftr_0_r.
    replace (8 * Z.of_nat (S k)) with (8 + 8 * Z.of_nat k) by lia.
    rewrite Z.pow_add_r by lia. rewrite Z.rem_mul_r by lia. done.
  - intros i Hi. rewrite <- Z.add_assoc, E by lia. f_equal.
    replace ((1 + i) * 8) with (8 + i * 8) by lia. rewrite <- Z.shiftr_shiftr by lia.
    by rewrite (Z.shiftr_div_pow2 m 8) by lia.
Qed.

(** On a little-endian host the conversion only wraps. *)
Lemma convOrder_wrap k n : convOrder k n = n mod 2 ^ (8 * Z.of_nat k).
Proof.
  unfold convOrder. apply ldN_shifts. intros i Hi. rewrite Z.add_0_l. unfold ld8; simpl.
  destruct (Z.leb_spec 0 i); [|lia].
  rewrite list_lookup_fmap, lookup_seqZ_lt, Z2Nat.id, Z.add_0_l by lia. simpl.
  apply Zmod_mod.
Qed.

Lemma convOrder32_id n : 0 <= n < 2 ^ 32 → convOrder32 n = n.
Proof. intros Hn. unfold convOrder32. rewrite convOrder_wrap. by apply Z.mod_small. Qed.

Lemma convOrder16_id n : s16_range n → convOrder16 n = n.
Proof. intros Hn. unfold convOrder16. rewrite convOrder_wrap. by apply s16_wrap. Qed.

(** *** Sectors and their owners *)

(** The number of sectors the cleared image has. *)
Definition capacity : Z := 1025.

(** The owner of a sector: a file, and the block of it the sector holds; none
    for the block of indirect numbers. *)
Abbreviation slot := (Z * option Z)%type.

Definition own_add (own : Z → option slot) (b : Z) (o : slot) : Z → option slot :=
  λ b', if decide (b' = b) then Some o else own b'.

Lemma own_add_eq own b o : own_add own b o b = Some o.
Proof. unfold own_add. by rewrite decide_True. Qed.

Lemma own_add_ne own b o b' : b' ≠ b → own_add own b o b' = own b'.
Proof. intros. unfold own_add. by rewrite decide_False. Qed.

Record good (s : Maker) (own : Z → option slot) : Prop := {
  gd_failed : failed s = false;
  gd_sectors : sectors s = capacity;
  gd_blocks b : is_block (dblock (image s) b);
  gd_zero b : freeBlock s <= b → dblock (image s) b = zero_block;
  gd_range : numMeta <= freeBlock s <= capacity;
  gd_own b o : own b = Some o → numMeta <= b < freeBlock s;
}.

(** What writing file [i] may change. *)
Record grows (i : Z) (s : Maker) (own : Z → option slot) (s' : Maker) (own' : Z → option slot) : Prop := {
  gr_own b : b < freeBlock s → own' b = own b;
  gr_frame b : b < freeBlock s → (∀ o, own b ≠ Some (i, o)) →
    dblock (image s') b = dblock (image s) b;
  gr_free : freeBlock s <= freeBlock s';
  gr_inode : freeInode s' = freeInode s;
  gr_super : msb s' = msb s;
}.

Lemma grows_refl i s own : grows i s own s own.
Proof. by split. Qed.

Lemma grows_trans i s1 o1 s2 o2 s3 o3 :
  grows i s1 o1 s2 o2 → grows i s2 o2 s3 o3 → grows i s1 o1 s3 o3.
Proof.
  intros [A1 A2 A3 A4 A5] [B1 B2 B3 B4 B5]. split; try congruence; try lia.
  - intros b Hb. rewrite B1 by lia. by apply A1.
  - intros b Hb Ho. rewrite B2; [by apply A2|lia|]. intros o. rewrite A1 by done. apply Ho.
Qed.

Definition put (x : Z) (b : bytes) (s : Maker) : Maker :=
  set_image (<[x := b]> (image s)) (sectors s) s.

Lemma dblock_put x b s y :
  dblock (image (put x b s)) y = if decide (y = x) then b else dblock (image s) y.
Proof. apply dblock_insert. Qed.

Lemma good_put s own x b : good s own → is_block b → x < freeBlock s → good (put x b s) own.
Proof.
  intros [? ? ? Hz ? ?] Hb Hx. split; try done.
  - intros y. rewrite dblock_put. by destruct (decide (y = x)).
  - intros y Hy. rewrite dblock_put, decide_False; [by apply Hz|]. simpl in Hy. lia.
Qed.

Lemma grows_put i s own x b o : own x = Some (i, o) → grows i s own (put x b s) own.
Proof.
  intros Hx. split; try done. intros y Hy Ho. rewrite dblock_put, decide_False; [done|].
  intros ->. by apply (Ho o).
Qed.

Lemma good_take s own o : good s own → freeBlock s < capacity →
  good (set_freeBlock (freeBlock s + 1) s) (own_add own (freeBlock s) o).
Proof.
  intros [? ? ? Hz Hr Ho] Hf. split; simpl in *; try done; try lia.
  - intros y Hy. apply Hz. lia.
  - intros b o'. unfold own_add. destruct (decide (b = freeBlock s)) as [->|]; [lia|].
    intros E. apply Ho in E. lia.
Qed.

Lemma grows_take i s own o :
  grows i s own (set_freeBlock (freeBlock s + 1) s) (own_add own (freeBlock s) o).
Proof. split; try done; simpl; try lia. intros b Hb. apply own_add_ne. lia. Qed.

(** *** The accesses *)

Lemma runs_readSector s own x buf (Q : bytes → Maker → Prop) :
  good s own → x < capacity → Q (dblock (image s) x) s → runs (readSector x buf) s Q.
Proof.
  intros G Hx HQ. unfold runs, readSector. rewrite (gd_failed _ _ G), (gd_sectors _ _ G).
  by destruct (Z.ltb_spec x capacity); [|lia].
Qed.

Lemma runs_writeSector s own x b (Q : unit → Maker → Prop) :
  good s own → x < capacity → Q tt (put x b s) → runs (writeSector x b) s Q.
Proof.
  intros G Hx HQ. unfold runs, writeSector, modify. rewrite (gd_failed _ _ G).
  unfold put in HQ. rewrite Z.max_l by (rewrite (gd_sectors _ _ G); lia). done.
Qed.

Lemma runs_take_block s own (Q : Z → Maker → Prop) :
  good s own → Q (freeBlock s) (set_freeBlock (freeBlock s + 1) s) → runs take_block s Q.
Proof.
  intros G HQ. unfold take_block. do 3 runs_step.
  pose proof (gd_range _ _ G) as Hr. change numMeta with 46 in Hr. unfold capacity in Hr.
  by rewrite wrap_small by lia.
Qed.

(** *** Files of the image *)

(** The sector of block [j] of a file. *)
Definition block_no (im : gmap Z bytes) (d : DiskInode) (j : Z) : Z :=
  if j <? NUM_DIRECT_BLOCKS then default 0 (directBlocks d !! Z.to_nat j)
  else ld32 (dblock im (indirectBlock d)) (4 * (j - NUM_DIRECT_BLOCKS)).

(** Byte [k] of a file, through direct and indirect blocks. *)
Definition image_byte (im : gmap Z bytes) (d : DiskInode) (k : Z) : Z :=
  ld8 (dblock im (block_no im d (k / BLOCK_SIZE))) (k mod BLOCK_SIZE).

(** File [i] with inode [d] has [nb] blocks of its own and contents [c]. *)
Record file_ok (im : gmap Z bytes) (own : Z → option slot) (i : Z) (d : DiskInode)
    (c : bytes) (nb : Z) : Prop := {
  fo_nb : 0 <= nb <= MAX_FILE;
  fo_len : Z.of_nat (length c) <= BLOCK_SIZE * nb;
  fo_direct : length (directBlocks d) = 12%nat;
  fo_blocks j : 0 <= j < nb → own (block_no im d j) = Some (i, Some j);
  fo_rest j : nb <= j < NUM_DIRECT_BLOCKS → block_no im d j = 0;
  fo_indirect : (indirectBlock d = 0 ∧ nb <= NUM_DIRECT_BLOCKS) ∨
    (own (indirectBlock d) = Some (i, None) ∧
     ∀ j, Z.max nb NUM_DIRECT_BLOCKS <= j < MAX_FILE → block_no im d j = 0);
  fo_bytes k x : c !! k = Some x → image_byte im d (Z.of_nat k) = x;
}.

Lemma block_no_direct im im' d j : j < NUM_DIRECT_BLOCKS → block_no im' d j = block_no im d j.
Proof. intros Hj. unfold block_no. by destruct (Z.ltb_spec j NUM_DIRECT_BLOCKS); [|lia]. Qed.

Lemma block_no_same im im' d j :
  dblock im' (indirectBlock d) = dblock im (indirectBlock d) → block_no im' d j = block_no im d j.
Proof. intros E. unfold block_no. by rewrite E. Qed.

Lemma block_no_direct_eq im d j : j < NUM_DIRECT_BLOCKS →
  block_no im d j = default 0 (directBlocks d !! Z.to_nat j).
Proof. intros Hj. unfold block_no. by destruct (Z.ltb_spec j NUM_DIRECT_BLOCKS); [|lia]. Qed.

Lemma block_no_indirect_eq im d j : NUM_DIRECT_BLOCKS <= j →
  block_no im d j = ld32 (dblock im (indirectBlock d)) (4 * (j - NUM_DIRECT_BLOCKS)).
Proof. intros Hj. unfold block_no. by destruct (Z.ltb_spec j NUM_DIRECT_BLOCKS); [lia|]. Qed.

(** Only the block numbers of the inode matter. *)
Lemma file_ok_fields im own i d d' c nb :
  directBlocks d' = directBlocks d → indirectBlock d' = indirectBlock d →
  file_ok im own i d c nb → file_ok im own i d' c nb.
Proof.
  intros E1 E2 F.
  assert (∀ j, block_no im d' j = block_no im d j) as E.
  { intros j. unfold block_no. by rewrite E1, E2. }
  destruct F as [H1 H2 H3 H4 H5 H6 H7]. split; [done|done|by rewrite E1| | | |].
  - intros j. rewrite E. apply H4.
  - intros j. rewrite E. apply H5.
  - rewrite E2. destruct H6 as [?|[? H6]]; [by left|right]. split; [done|]. intros j. rewrite E. apply H6.
  - intros k x. unfold image_byte. rewrite E. apply H7.
Qed.

(** The block a byte of the contents is in. *)
Lemma byte_block (c : bytes) k x nb : c !! k = Some x → Z.of_nat (length c) <= BLOCK_SIZE * nb →
  0 <= Z.of_nat k / BLOCK_SIZE < nb.
Proof. intros E%lookup_lt_Some Hn. unfold BLOCK_SIZE in *. dlia. Qed.

(** A change elsewhere leaves the file as it is. *)
Lemma file_ok_frame im im' own own' i d c nb :
  file_ok im own i d c nb →
  (∀ b o, own b = Some o → own' b = Some o) →
  (∀ b o, own b = Some (i, o) → dblock im' b = dblock im b) →
  file_ok im' own' i d c nb.
Proof.
  intros F Ho Hb.
  assert (∀ j, 0 <= j < nb ∨ j < NUM_DIRECT_BLOCKS → block_no im' d j = block_no im d j) as Hn.
  { intros j Hj. destruct (Z.lt_ge_cases j NUM_DIRECT_BLOCKS); [by apply block_no_direct|].
    apply block_no_same. destruct (fo_indirect _ _ _ _ _ _ F) as [[_ ?]|[E _]]; [lia|].
    by apply (Hb _ None). }
  split; try apply F.
  - intros j Hj. rewrite Hn by auto. by apply Ho, F.
  - intros j Hj. rewrite Hn by lia. by apply F.
  - destruct (fo_indirect _ _ _ _ _ _ F) as [?|[E Hz]]; [by left|right].
    split; [by apply Ho|]. intros j Hj. rewrite (block_no_same im); [by apply Hz|]. by apply (Hb _ None).
  - intros k x E. pose proof (byte_block _ _ _ _ E (fo_len _ _ _ _ _ _ F)) as Hk. unfold image_byte.
    rewrite Hn by auto. rewrite (Hb _ (Some (Z.of_nat k / BLOCK_SIZE))) by (by apply F). by apply F.
Qed.

Lemma file_ok_grows i' s own s' own' i d c nb :
  good s own → grows i' s own s' own' → i ≠ i' →
  file_ok (image s) own i d c nb → file_ok (image s') own' i d c nb.
Proof.
  intros G W Hi F. eapply file_ok_frame; [exact F| |].
  - intros b o E. by rewrite (gr_own _ _ _ _ _ W) by apply (gd_own _ _ G _ _ E).
  - intros b o E. apply (gr_frame _ _ _ _ _ W); [by apply (gd_own _ _ G _ _ E)|]. congruence.
Qed.

Lemma file_ok_empty im own i ty ma mi nl sz :
  file_ok im own i (mkDiskInode ty ma mi nl sz (replicate 12 0) 0) [] 0.
Proof.
  split; cbn [length directBlocks indirectBlock].
  - change MAX_FILE with 268. lia.
  - simpl. lia.
  - done.
  - lia.
  - intros j Hj. rewrite block_no_direct_eq by lia. cbn [directBlocks].
    rewrite lookup_replicate_2; [done|]. change NUM_DIRECT_BLOCKS with 12 in Hj. lia.
  - left. change NUM_DIRECT_BLOCKS with 12. lia.
  - intros k x E. by rewrite lookup_nil in E.
Qed.

(** A fresh direct block. *)
Lemma file_ok_direct s own i d c nb :
  good s own → file_ok (image s) own i d c nb → nb < NUM_DIRECT_BLOCKS →
  file_ok (image s) (own_add own (freeBlock s) (i, Some nb)) i
    (set_direct (<[Z.to_nat nb := freeBlock s]> (directBlocks d)) d) c (nb + 1).
Proof.
  intros G F Hn. pose proof (fo_nb _ _ _ _ _ _ F) as H0.
  set (d' := set_direct _ d). set (own' := own_add _ _ _).
  assert (∀ j, 0 <= j → j ≠ nb → block_no (image s) d' j = block_no (image s) d j) as Hj.
  { intros j Hj Hne. unfold block_no, d'; simpl. by rewrite list_lookup_insert_ne by lia. }
  assert (∀ b o, own b = Some o → own' b = Some o) as Ho.
  { intros b o E. unfold own'. rewrite own_add_ne; [done|]. apply (gd_own _ _ G) in E. lia. }
  assert (block_no (image s) d' nb = freeBlock s) as Eb.
  { unfold block_no, d'; simpl. destruct (Z.ltb_spec nb NUM_DIRECT_BLOCKS); [|lia].
    rewrite list_lookup_insert_eq; [done|]. rewrite (fo_direct _ _ _ _ _ _ F).
    unfold NUM_DIRECT_BLOCKS in *. lia. }
  split.
  - change MAX_FILE with 268 in *. change NUM_DIRECT_BLOCKS with 12 in *. lia.
  - pose proof (fo_len _ _ _ _ _ _ F). unfold BLOCK_SIZE in *. lia.
  - simpl. rewrite length_insert. apply F.
  - intros j Hjn. destruct (decide (j = nb)) as [->|].
    + rewrite Eb. apply own_add_eq.
    + rewrite Hj by lia. apply Ho, F. lia.
  - intros j Hjn. rewrite Hj by lia. apply F. lia.
  - destruct (fo_indirect _ _ _ _ _ _ F) as [[? ?]|[E Hz]]; [left; split; [done|lia]|right].
    split; [by apply Ho|]. intros j Hjn. rewrite Hj by lia. apply Hz. lia.
  - intros k x E. pose proof (byte_block _ _ _ _ E (fo_len _ _ _ _ _ _ F)).
    unfold image_byte. rewrite Hj by lia. by apply F.
Qed.

Lemma ld8_zero_block a : ld8 zero_block a = 0.
Proof.
  unfold ld8, bytes_store, zero_block. destruct (0 <=? a); [|reflexivity].
  destruct (replicate 1024 0 !! Z.to_nat a) as [x|] eqn:E; [|reflexivity].
  apply lookup_replicate in E as [-> _]. reflexivity.
Qed.

Lemma ld32_zero_block a : ld32 zero_block a = 0.
Proof.
  rewrite (ldN_shifts 4 zero_block a 0); [done|]. intros i _.
  by rewrite ld8_zero_block, Z.shiftr_0_l.
Qed.

(** A fresh block of indirect numbers. *)
Lemma file_ok_indirect s own i d c :
  good s own → file_ok (image s) own i d c NUM_DIRECT_BLOCKS → indirectBlock d = 0 →
  file_ok (image s) (own_add own (freeBlock s) (i, None)) i
    (set_indirect (freeBlock s) d) c NUM_DIRECT_BLOCKS.
Proof.
  intros G F Hi. pose proof (fo_nb _ _ _ _ _ _ F) as H0.
  assert (∀ j, j < NUM_DIRECT_BLOCKS →
    block_no (image s) (set_indirect (freeBlock s) d) j = block_no (image s) d j) as Hj.
  { intros j Hj. by rewrite !block_no_direct_eq by done. }
  split; try apply F.
  - intros j Hjn. rewrite Hj by lia. pose proof (fo_blocks _ _ _ _ _ _ F j Hjn) as E.
    rewrite own_add_ne; [done|]. apply (gd_own _ _ G) in E. lia.
  - intros j Hjn. rewrite Hj by lia. by apply F.
  - right. split; [apply own_add_eq|]. intros j Hjn.
    rewrite block_no_indirect_eq by lia. simpl. rewrite (gd_zero _ _ G) by lia.
    apply ld32_zero_block.
  - intros k x E. pose proof (byte_block _ _ _ _ E (fo_len _ _ _ _ _ _ F)).
    unfold image_byte. rewrite Hj by lia. by apply F.
Qed.

(** A fresh block entered in the block of indirect numbers. *)
Lemma file_ok_entry s own i d c nb :
  good s own → file_ok (image s) own i d c nb → NUM_DIRECT_BLOCKS <= nb < MAX_FILE →
  own (indirectBlock d) = Some (i, None) → freeBlock s < capacity →
  file_ok
    (<[indirectBlock d := st32 (dblock (image s) (indirectBlock d)) (4 * (nb - NUM_DIRECT_BLOCKS))
        (freeBlock s)]> (image s))
    (own_add own (freeBlock s) (i, Some nb)) i d c (nb + 1).
Proof.
  intros G F Hn Hi Hf. set (ib := indirectBlock d) in *. set (blk := st32 _ _ _).
  change MAX_FILE with 268 in *. change NUM_DIRECT_BLOCKS with 12 in *.
  assert (length (dblock (image s) ib) = 1024%nat) as Hl.
  { destruct (gd_blocks _ _ G ib) as [Hl _]. unfold BLOCK_SIZE in Hl. lia. }
  assert (∀ b o, own b = Some o → own_add own (freeBlock s) (i, Some nb) b = Some o) as Ho.
  { intros b o E. rewrite own_add_ne; [done|]. apply (gd_own _ _ G) in E. lia. }
  assert (∀ j, 0 <= j < 268 → j ≠ nb →
    block_no (<[ib := blk]> (image s)) d j = block_no (image s) d j) as Hj.
  { intros j Hj Hne. unfold block_no. change NUM_DIRECT_BLOCKS with 12. fold ib.
    destruct (Z.ltb_spec j 12); [done|]. rewrite dblock_insert, decide_True by done.
    apply ldN_stN_ne. simpl. lia. }
  assert (block_no (<[ib := blk]> (image s)) d nb = freeBlock s) as Eb.
  { rewrite block_no_indirect_eq by (change NUM_DIRECT_BLOCKS with 12; lia).
    fold ib. change NUM_DIRECT_BLOCKS with 12.
    rewrite dblock_insert, decide_True by done. unfold blk. rewrite ldN_stN_block by (simpl; lia).
    pose proof (gd_range _ _ G) as Hr. change numMeta with 46 in Hr. unfold capacity in *.
    apply Z.mod_small. simpl. lia. }
  split.
  - change MAX_FILE with 268. lia.
  - pose proof (fo_len _ _ _ _ _ _ F). unfold BLOCK_SIZE in *. lia.
  - apply F.
  - intros j Hjn. destruct (decide (j = nb)) as [->|].
    + rewrite Eb. apply own_add_eq.
    + rewrite Hj by lia. apply Ho, F. lia.
  - change NUM_DIRECT_BLOCKS with 12. lia.
  - right. split; [by apply Ho|]. change NUM_DIRECT_BLOCKS with 12. change MAX_FILE with 268.
    intros j Hjn. rewrite Hj by lia. destruct (fo_indirect _ _ _ _ _ _ F) as [[E0 _]|[_ Hz]].
    + fold ib in E0. rewrite E0 in Hi. apply (gd_own _ _ G) in Hi. change numMeta with 46 in Hi. lia.
    + apply Hz. change NUM_DIRECT_BLOCKS with 12. change MAX_FILE with 268. lia.
  - intros k x E. pose proof (byte_block _ _ _ _ E (fo_len _ _ _ _ _ _ F)) as Hk.
    unfold image_byte. rewrite Hj by lia. rewrite dblock_insert, decide_False; [by apply F|].
    intros E'. pose proof (fo_blocks _ _ _ _ _ _ F _ Hk) as E2. rewrite E' in E2.
    unfold BLOCK_SIZE in E2. congruence.
Qed.

Definition is_bytes (c : bytes) : Prop := Forall (λ x, 0 <= x < 256) c.

(** The next bytes of the file, put into the sector of their block. *)
Lemma file_ok_fill s own i d c nb fbn pos piece :
  good s own → file_ok (image s) own i d c nb → 0 <= fbn < nb →
  Z.of_nat (length c) = fbn * BLOCK_SIZE + pos → 0 <= pos → is_bytes piece →
  pos + Z.of_nat (length piece) <= BLOCK_SIZE →
  let x := block_no (image s) d fbn in
  file_ok (<[x := put_bytes (dblock (image s) x) pos piece]> (image s)) own i d (c ++ piece) nb.
Proof.
  intros G F Hf Hc Hp Hb Hl x. pose proof (fo_blocks _ _ _ _ _ _ F fbn Hf) as Ex. fold x in Ex.
  assert (length (dblock (image s) x) = 1024%nat) as Hlen.
  { destruct (gd_blocks _ _ G x) as [E _]. unfold BLOCK_SIZE in E. lia. }
  set (im' := <[x := _]> _).
  assert (∀ j, 0 <= j < nb ∨ j < MAX_FILE ∧ own (indirectBlock d) = Some (i, None) →
    block_no im' d j = block_no (image s) d j) as Hj.
  { intros j Hj. destruct (Z.lt_ge_cases j NUM_DIRECT_BLOCKS); [by apply block_no_direct|].
    apply block_no_same. unfold im'. rewrite dblock_insert, decide_False; [done|]. intros E.
    destruct (fo_indirect _ _ _ _ _ _ F) as [[_ ?]|[E' _]]; [|congruence].
    destruct Hj as [?|[_ ?]]; [lia|congruence]. }
  split; try apply F.
  - rewrite length_app. unfold BLOCK_SIZE in *. nia.
  - intros j Hjn. rewrite Hj by auto. by apply F.
  - intros j Hjn. rewrite block_no_direct with (im := image s) by lia. by apply F.
  - destruct (fo_indirect _ _ _ _ _ _ F) as [?|[E Hz]]; [by left|right]. split; [done|].
    intros j Hjn. rewrite Hj by (right; split; [lia|done]). by apply Hz.
  - intros k y E. assert (0 <= Z.of_nat k / BLOCK_SIZE < nb) as Hk.
    { apply lookup_lt_Some in E. rewrite length_app in E. unfold BLOCK_SIZE in *. dlia. }
    unfold image_byte. rewrite Hj by auto. unfold im'. rewrite dblock_insert.
    destruct (decide (block_no (image s) d (Z.of_nat k / BLOCK_SIZE) = x)) as [Eq|Ne].
    + pose proof (fo_blocks _ _ _ _ _ _ F _ Hk) as E2. rewrite Eq, Ex in E2.
      injection E2 as Ef. destruct (decide (k < length c)%nat) as [Hlt|Hge].
      * rewrite lookup_app_l in E by done. rewrite ld8_put_bytes_ne.
        -- rewrite <- Eq. by apply F.
        -- unfold BLOCK_SIZE in *. left. dlia.
      * rewrite lookup_app_r in E by lia. pose proof (lookup_lt_Some _ _ _ E) as Hkl.
        replace (Z.of_nat k mod BLOCK_SIZE) with (pos + Z.of_nat (k - length c))
          by (unfold BLOCK_SIZE in *; dlia).
        rewrite ld8_put_bytes_eq; [|lia|].
        -- rewrite Nat2Z.id, E. simpl. apply Z.mod_small. by apply (Forall_lookup_1 _ _ _ _ Hb E).
        -- unfold valid_addr; simpl. rewrite Hlen. unfold BLOCK_SIZE in *. lia.
    + destruct (decide (k < length c)%nat) as [Hlt|Hge].
      * rewrite lookup_app_l in E by done. by apply F.
      * exfalso. apply Ne. unfold x. f_equal. apply lookup_lt_Some in E. rewrite length_app in E.
        unfold BLOCK_SIZE in *. dlia.
Qed.

(** Sectors a file of [nb] blocks takes. *)
Definition cost (nb : Z) : Z := nb + (if NUM_DIRECT_BLOCKS <? nb then 1 else 0).

(** The block of indirect numbers is there exactly when it is needed. *)
Definition tight (d : DiskInode) (nb : Z) : Prop := indirectBlock d = 0 ↔ nb <= NUM_DIRECT_BLOCKS.

(** The members a write to the file leaves alone. *)
Definition same_kind (d d' : DiskInode) : Prop :=
  type d' = type d ∧ major d' = major d ∧ minor d' = minor d ∧ numLinks d' = numLinks d.

Lemma owned_conv s own b o : good s own → own b = Some o → convOrder32 b = b ∧ b ≠ 0 ∧ b < capacity.
Proof.
  intros G E%(gd_own _ _ G). pose proof (gd_range _ _ G). change numMeta with 46 in *.
  unfold capacity in *. rewrite convOrder32_id by lia. lia.
Qed.

Section block_of.
Variables (i : Z).

(** What [block_of] gives for block [fbn] of the file. *)
Definition block_result (s : Maker) own (d : DiskInode) (c : bytes) (nb fbn : Z)
    (r : DiskInode * bytes * Z) (s' : Maker) : Prop :=
  ∃ own', good s' own' ∧ grows i s own s' own' ∧
    let nb' := Z.max nb (fbn + 1) in
    freeBlock s' = freeBlock s + cost nb' - cost nb ∧
    file_ok (image s') own' i r.1.1 c nb' ∧ tight r.1.1 nb' ∧ same_kind d r.1.1 ∧
    r.2 = block_no (image s') r.1.1 fbn.

Lemma runs_block_of_direct s own d c nb fbn ind :
  good s own → file_ok (image s) own i d c nb → tight d nb →
  0 <= fbn <= nb → fbn < NUM_DIRECT_BLOCKS →
  freeBlock s + cost (Z.max nb (fbn + 1)) - cost nb <= capacity →
  runs (block_of d ind fbn) s (block_result s own d c nb fbn).
Proof.
  intros G F T Hf Hd Hc. unfold block_of. rewrite (proj2 (Z.ltb_lt _ _) Hd).
  rewrite <- (block_no_direct_eq (image s)) by done. runs_step.
  destruct (decide (fbn = nb)) as [->|Hne].
  - rewrite (fo_rest _ _ _ _ _ _ F) by lia. replace (convOrder32 0) with 0 by reflexivity.
    change (0 =? 0) with true. cbv iota. rewrite Z.max_r in Hc by lia. unfold cost in *.
    destruct (Z.ltb_spec NUM_DIRECT_BLOCKS (nb + 1)); [lia|].
    destruct (Z.ltb_spec NUM_DIRECT_BLOCKS nb); [lia|].
    runs_step. apply (runs_take_block _ own); [done|]. runs_step. runs_step.
    assert (convOrder32 (freeBlock s) = freeBlock s) as Ec.
    { pose proof (gd_range _ _ G) as Hr. change numMeta with 46 in Hr. unfold capacity in *.
      apply convOrder32_id. lia. }
    rewrite Ec. set (d' := set_direct _ d). pose proof (file_ok_direct s own i d c nb G F Hd) as F'.
    fold d' in F'. exists (own_add own (freeBlock s) (i, Some nb)). cbn [fst snd].
    rewrite Z.max_r by lia.
    split_and!; [apply good_take; [done|lia]|apply grows_take| |exact F'| |done|].
    + unfold cost. simpl. destruct (Z.ltb_spec NUM_DIRECT_BLOCKS (nb + 1)); [lia|].
      destruct (Z.ltb_spec NUM_DIRECT_BLOCKS nb); lia.
    + unfold tight in *. simpl. rewrite T. lia.
    + rewrite block_no_direct_eq by done.
      unfold d'; simpl. rewrite list_lookup_insert_eq; [done|].
      rewrite (fo_direct _ _ _ _ _ _ F). change NUM_DIRECT_BLOCKS with 12 in *. lia.
  - pose proof (fo_blocks _ _ _ _ _ _ F fbn ltac:(lia)) as E.
    destruct (owned_conv _ _ _ _ G E) as (Ec & Hn & _).
    rewrite Ec, (proj2 (Z.eqb_neq _ _) Hn). runs_step. runs_step.
    exists own. cbn [fst snd]. rewrite Z.max_l by lia.
    split_and!; [done|apply grows_refl|lia|done|done|done|].
    by rewrite <- block_no_direct_eq with (im := image s), Ec.
Qed.

Lemma runs_entry_of s own d c nb fbn ind :
  good s own → file_ok (image s) own i d c nb → own (indirectBlock d) = Some (i, None) →
  NUM_DIRECT_BLOCKS <= fbn <= nb → fbn < MAX_FILE →
  freeBlock s + Z.max nb (fbn + 1) - nb <= capacity →
  runs (entry_of d ind fbn) s (λ r s', ∃ own', good s' own' ∧ grows i s own s' own' ∧
    freeBlock s' = freeBlock s + Z.max nb (fbn + 1) - nb ∧
    file_ok (image s') own' i r.1.1 c (Z.max nb (fbn + 1)) ∧ r.1.1 = d ∧
    r.2 = block_no (image s') d fbn).
Proof.
  intros G F Hi Hf Hm Hc. destruct (owned_conv _ _ _ _ G Hi) as (Ei & Hi0 & Hic).
  unfold entry_of. rewrite Ei. runs_step. apply (runs_readSector _ own); [done|done|]. cbv zeta.
  change NUM_INDIRECT_BLOCKS with 256. rewrite (proj2 (Z.leb_gt _ _))
    by (change MAX_FILE with 268 in *; change NUM_DIRECT_BLOCKS with 12; lia).
  rewrite <- (block_no_indirect_eq (image s)) by lia. runs_step.
  destruct (decide (fbn = nb)) as [->|Hne].
  - destruct (fo_indirect _ _ _ _ _ _ F) as [[? _]|[_ Hz]]; [done|].
    rewrite Hz by lia. change (0 =? 0) with true. cbv iota. rewrite Z.max_r in * by lia.
    pose proof (gd_range _ _ G) as Hr. change numMeta with 46 in Hr.
    pose proof (file_ok_entry s own i d c nb G F ltac:(lia) Hi ltac:(lia)) as F'.
    pose proof (good_take s own (i, Some nb) G ltac:(lia)) as G1.
    runs_step. apply (runs_take_block _ own); [done|].
    assert (convOrder32 (freeBlock s) = freeBlock s) as ->
      by (apply convOrder32_id; unfold capacity in *; lia).
    assert (is_block (st32 (dblock (image s) (indirectBlock d)) (4 * (nb - NUM_DIRECT_BLOCKS)) (freeBlock s)))
      as Hb by (apply is_block_stN, (gd_blocks _ _ G)).
    set (blk := st32 _ _ _) in *.
    assert (own_add own (freeBlock s) (i, Some nb) (indirectBlock d) = Some (i, None)) as Hi'.
    { rewrite own_add_ne; [done|]. apply (gd_own _ _ G) in Hi. lia. }
    runs_step. apply (runs_writeSector _ _ _ _ _ G1); [done|]. runs_step. runs_step.
    exists (own_add own (freeBlock s) (i, Some nb)). cbn [fst snd].
    split_and!.
    + apply good_put; [done|done|]. apply (gd_own _ _ G) in Hi. simpl. lia.
    + eapply grows_trans; [apply grows_take|]. by eapply grows_put.
    + simpl. lia.
    + exact F'.
    + done.
    + assert (ld32 blk (4 * (nb - NUM_DIRECT_BLOCKS)) =
        block_no (image (put (indirectBlock d) blk (set_freeBlock (freeBlock s + 1) s))) d nb) as ->.
      { rewrite block_no_indirect_eq, dblock_put, decide_True by (done || lia). done. }
      apply (owned_conv (put (indirectBlock d) blk (set_freeBlock (freeBlock s + 1) s))
        (own_add own (freeBlock s) (i, Some nb)) _ (i, Some nb)).
      * apply good_put; [done|done|]. apply (gd_own _ _ G) in Hi. simpl. lia.
      * apply (fo_blocks _ _ _ _ _ _ F'). change NUM_DIRECT_BLOCKS with 12 in *. lia.
  - pose proof (fo_blocks _ _ _ _ _ _ F fbn ltac:(change NUM_DIRECT_BLOCKS with 12 in *; lia)) as E.
    destruct (owned_conv _ _ _ _ G E) as (Ec & Hn & _).
    rewrite (proj2 (Z.eqb_neq _ _) Hn). runs_step. runs_step.
    exists own. cbn [fst snd]. rewrite Z.max_l by lia.
    split_and!; [done|apply grows_refl|lia|done|done|].
    by rewrite <- (block_no_indirect_eq (image s)), Ec by lia.
Qed.

Lemma runs_block_of s own d c nb fbn ind :
  good s own → file_ok (image s) own i d c nb → tight d nb →
  0 <= fbn <= nb → fbn < MAX_FILE →
  freeBlock s + cost (Z.max nb (fbn + 1)) - cost nb <= capacity →
  runs (block_of d ind fbn) s (block_result s own d c nb fbn).
Proof.
  intros G F T Hf Hm Hc.
  destruct (Z.lt_ge_cases fbn NUM_DIRECT_BLOCKS) as [Hd|Hd]; [by apply runs_block_of_direct|].
  unfold block_of. rewrite (proj2 (Z.ltb_ge _ _) Hd).
  destruct (decide (indirectBlock d = 0)) as [E0|N0].
  - assert (nb = NUM_DIRECT_BLOCKS) as -> by (unfold tight in T; lia).
    assert (fbn = NUM_DIRECT_BLOCKS) as -> by lia. rewrite Z.max_r in Hc by lia.
    unfold cost in Hc. change NUM_DIRECT_BLOCKS with 12 in Hc. simpl in Hc.
    rewrite E0. runs_step. change (convOrder32 0 =? 0) with true. cbv iota.
    pose proof (gd_range _ _ G) as Hr. change numMeta with 46 in Hr.
    runs_step. apply (runs_take_block _ own); [done|]. runs_step.
    assert (convOrder32 (freeBlock s) = freeBlock s) as ->
      by (apply convOrder32_id; unfold capacity in *; lia).
    eapply runs_mono; [apply (runs_entry_of _ (own_add own (freeBlock s) (i, None)) _ c NUM_DIRECT_BLOCKS)|].
    + apply good_take; [done|lia].
    + exact (file_ok_indirect s own i d c G F E0).
    + apply own_add_eq.
    + lia.
    + done.
    + rewrite Z.max_r by lia. change NUM_DIRECT_BLOCKS with 12. simpl. lia.
    + intros r s' (own' & G' & W & Ef & F' & Ed & Ex). exists own'. cbv zeta. rewrite Ed.
      split_and!; [done|eapply grows_trans; [apply grows_take|done]| |by rewrite <- Ed| |done|done].
      * rewrite Ef, Z.max_r by lia. unfold cost. change NUM_DIRECT_BLOCKS with 12. simpl. lia.
      * unfold tight. simpl. change NUM_DIRECT_BLOCKS with 12. lia.
  - destruct (fo_indirect _ _ _ _ _ _ F) as [[? _]|[Hi _]]; [done|].
    destruct (owned_conv _ _ _ _ G Hi) as (Ei & _ & _). rewrite Ei, (proj2 (Z.eqb_neq _ _) N0).
    runs_step. runs_step.
    assert (cost (Z.max nb (fbn + 1)) - cost nb = Z.max nb (fbn + 1) - nb) as Ecost.
    { unfold cost, tight in *. destruct (Z.ltb_spec NUM_DIRECT_BLOCKS nb); [|lia].
      destruct (Z.ltb_spec NUM_DIRECT_BLOCKS (Z.max nb (fbn + 1))); lia. }
    pose proof (runs_entry_of s own d c nb fbn ind G F Hi ltac:(lia) Hm ltac:(lia)) as HR.
    eapply runs_mono; [exact HR|].
    intros r s' (own' & G' & W & Ef & F' & Ed & Ex). exists own'. cbv zeta. rewrite Ed in *.
    split_and!; [done|done|lia|done| |done|done]. unfold tight in *. lia.
Qed.
End block_of.

(** Blocks a file of [n] bytes has. *)
Definition nblocks (n : Z) : Z := (n + (BLOCK_SIZE - 1)) / BLOCK_SIZE.

Lemma cost_mono a b : a <= b → cost a <= cost b.
Proof.
  intros. unfold cost. destruct (Z.ltb_spec NUM_DIRECT_BLOCKS a), (Z.ltb_spec NUM_DIRECT_BLOCKS b); lia.
Qed.

Lemma nblocks_mono a b : a <= b → nblocks a <= nblocks b.
Proof. intros. unfold nblocks. apply Z.div_le_mono; unfold BLOCK_SIZE; lia. Qed.

Lemma nblocks_step L len : 0 <= L → 0 < len → L + len <= (L / BLOCK_SIZE + 1) * BLOCK_SIZE →
  Z.max (nblocks L) (L / BLOCK_SIZE + 1) = nblocks (L + len).
Proof. unfold nblocks, BLOCK_SIZE. intros. dlia. Qed.

(** The piece a round takes. *)
Lemma piece_range L n : 0 <= L → 0 < n → L + n <= MAX_FILE * BLOCK_SIZE →
  let fbn := L / BLOCK_SIZE in
  let len := Z.min n ((fbn + 1) * BLOCK_SIZE - L) in
  0 < len <= n ∧ L + len <= (fbn + 1) * BLOCK_SIZE ∧ 0 <= fbn < MAX_FILE ∧
  fbn <= nblocks L ∧ 0 <= L - fbn * BLOCK_SIZE.
Proof.
  unfold nblocks, BLOCK_SIZE. change MAX_FILE with 268. intros. cbv zeta.
  assert (L / 1024 <= (L + (1024 - 1)) / 1024) by (apply Z.div_le_mono; lia).
  pose proof (Z.div_mod L 1024). pose proof (Z.mod_pos_bound L 1024). lia.
Qed.

Lemma same_kind_trans d1 d2 d3 : same_kind d1 d2 → same_kind d2 d3 → same_kind d1 d3.
Proof. unfold same_kind. intros (? & ? & ? & ?) (? & ? & ? & ?). split_and!; congruence. Qed.

Section append.
Variables (junk : bytes) (i : Z).

Lemma runs_fill_sector s own d c nb fbn pos piece (Q : unit → Maker → Prop) :
  good s own → file_ok (image s) own i d c nb → 0 <= fbn < nb →
  Z.of_nat (length c) = fbn * BLOCK_SIZE + pos → 0 <= pos → is_bytes piece →
  pos + Z.of_nat (length piece) <= BLOCK_SIZE →
  (∀ s', good s' own → grows i s own s' own → freeBlock s' = freeBlock s →
    file_ok (image s') own i d (c ++ piece) nb → Q tt s') →
  runs (fill_sector junk (block_no (image s) d fbn) pos piece) s Q.
Proof.
  intros G F Hf Hc Hp Hb Hl HQ. pose proof (fo_blocks _ _ _ _ _ _ F fbn Hf) as E.
  destruct (owned_conv _ _ _ _ G E) as (_ & _ & Hx). unfold fill_sector.
  runs_step. apply (runs_readSector _ own); [done|done|].
  apply (runs_writeSector _ own); [done|done|]. apply HQ.
  - apply good_put; [done|apply is_block_put_bytes, (gd_blocks _ _ G)|]. apply (gd_own _ _ G) in E. lia.
  - by eapply grows_put.
  - done.
  - by apply file_ok_fill with (fbn := fbn).
Qed.

(** What appending [data] to the file gives. *)
Definition appended (s : Maker) own (d : DiskInode) (c data : bytes)
    (r : DiskInode * Z) (s' : Maker) : Prop :=
  ∃ own', good s' own' ∧ grows i s own s' own' ∧
    freeBlock s' = freeBlock s + cost (nblocks (Z.of_nat (length (c ++ data)))) -
      cost (nblocks (Z.of_nat (length c))) ∧
    file_ok (image s') own' i r.1 (c ++ data) (nblocks (Z.of_nat (length (c ++ data)))) ∧
    tight r.1 (nblocks (Z.of_nat (length (c ++ data)))) ∧ same_kind d r.1 ∧
    r.2 = Z.of_nat (length (c ++ data)).

Lemma appended_nil s own d c : good s own →
  file_ok (image s) own i d c (nblocks (Z.of_nat (length c))) →
  tight d (nblocks (Z.of_nat (length c))) → appended s own d c [] (d, Z.of_nat (length c)) s.
Proof.
  intros. exists own. rewrite app_nil_r. split_and!; [done|apply grows_refl|lia|done|done|done|done].
Qed.

Lemma runs_append_loop fuel s own d c data ind :
  (length data <= fuel)%nat → good s own →
  file_ok (image s) own i d c (nblocks (Z.of_nat (length c))) →
  tight d (nblocks (Z.of_nat (length c))) → is_bytes data →
  Z.of_nat (length (c ++ data)) <= MAX_FILE * BLOCK_SIZE →
  freeBlock s + cost (nblocks (Z.of_nat (length (c ++ data)))) -
    cost (nblocks (Z.of_nat (length c))) <= capacity →
  runs (append_loop junk fuel d ind data (Z.of_nat (length c))) s (appended s own d c data).
Proof.
  revert s own d c data ind. induction fuel as [|f IH]; intros s own d c data ind Hf G F T Hb Hm Hc.
  { destruct data; [|simpl in Hf; lia]. apply runs_ret. by apply appended_nil. }
  cbn [append_loop]. destruct (Z.ltb_spec 0 (Z.of_nat (length data))) as [Hd|Hd].
  2:{ destruct data; [|simpl in Hd; lia]. apply runs_ret. by apply appended_nil. }
  rewrite length_app in *. set (L := Z.of_nat (length c)) in *.
  set (fbn := L / BLOCK_SIZE). set (len := Z.min _ _).
  assert (0 < len ∧ len <= Z.of_nat (length data) ∧ L + len <= (fbn + 1) * BLOCK_SIZE ∧ 0 <= fbn < MAX_FILE
    ∧ fbn <= nblocks L ∧ 0 <= L - fbn * BLOCK_SIZE) as (H1 & H2 & H3 & H4 & H5 & H6).
  { pose proof (piece_range L (Z.of_nat (length data)) ltac:(lia) Hd ltac:(lia)) as HP.
    cbv zeta in HP. fold fbn in HP. fold len in HP. lia. }
  pose proof (nblocks_step L len ltac:(lia) H1 H3) as En. fold fbn in En.
  assert (fbn < nblocks (L + len)) as Hfn by lia.
  pose proof (cost_mono _ _ (nblocks_mono (L + len) (Z.of_nat (length c + length data)) ltac:(lia))).
  set (piece := take (Z.to_nat len) data). set (rest := drop (Z.to_nat len) data).
  assert (data = piece ++ rest) as Edata by (symmetry; apply take_drop).
  assert (Z.of_nat (length piece) = len) as Hpl by (unfold piece; rewrite length_take; lia).
  assert (is_bytes piece ∧ is_bytes rest) as [Hbp Hbr] by (rewrite Edata in Hb; by apply Forall_app).
  cbv zeta. runs_step. eapply runs_mono; [apply (runs_block_of i s own d c _ fbn ind G F T); [lia|lia|]|].
  { rewrite En. lia. }
  intros r s1 (o1 & G1 & W1 & Ef1 & F1 & T1 & K1 & Ex1). rewrite En in *. rewrite Ex1. runs_step.
  eapply (runs_fill_sector s1 o1 _ c (nblocks (L + len)) fbn);
    [done|done|lia|fold L; lia|done|done|rewrite Hpl; lia|].
  intros s2 G2 W2 Ef2 F2.
  assert (u32 (L + len) = Z.of_nat (length (c ++ piece))) as EL.
  { rewrite length_app, Nat2Z.inj_add, Hpl. apply wrap_small. change MAX_FILE with 268 in Hm.
    unfold BLOCK_SIZE in Hm. lia. }
  rewrite EL. assert (nblocks (L + len) = nblocks (Z.of_nat (length (c ++ piece)))) as EB.
  { rewrite length_app, Nat2Z.inj_add, Hpl. done. }
  rewrite EB in *. eapply runs_mono; [apply (IH s2 o1 _ (c ++ piece) rest)|].
  - unfold rest. rewrite length_drop. lia.
  - done.
  - done.
  - done.
  - done.
  - rewrite <- app_assoc, <- Edata, length_app. lia.
  - rewrite <- app_assoc, <- Edata, length_app. lia.
  - intros r2 s3 (o3 & G3 & W3 & Ef3 & F3 & T3 & K3 & Ex3). exists o3.
    rewrite <- app_assoc, <- Edata in *.
    split_and!; [done| |fold L; lia|done|done|by eapply same_kind_trans|done].
    eapply grows_trans; [done|]. by eapply grows_trans.
Qed.
End append.

(** *** Inodes of the image *)

Definition inode_at (im : gmap Z bytes) (inum : Z) : DiskInode :=
  read_dinode (dblock im (iblock inum make_super)) (ioffset inum).

(** The inodes that fit in the inode blocks. *)
Definition inum_ok (inum : Z) : Prop := 0 <= inum < numInodeBlocks * INODES_PER_BLOCK.

Lemma iblock_make inum : inum_ok inum → iblock inum make_super = inum / 16 + 32.
Proof.
  unfold inum_ok, iblock. change (numInodeBlocks * INODES_PER_BLOCK) with 208.
  change (inodeStart make_super) with 32. change INODES_PER_BLOCK with 16. intros Hi.
  rewrite (wrap_small 64) by dlia. rewrite wrap_small by dlia. done.
Qed.

Lemma iblock_range inum : inum_ok inum → 32 <= iblock inum make_super < 45.
Proof.
  intros Hi. rewrite iblock_make by done. unfold inum_ok in Hi.
  change (numInodeBlocks * INODES_PER_BLOCK) with 208 in Hi. dlia.
Qed.

Lemma inode_at_same im im' inum :
  dblock im' (iblock inum make_super) = dblock im (iblock inum make_super) →
  inode_at im' inum = inode_at im inum.
Proof. intros E. unfold inode_at. by rewrite E. Qed.

(** Storing one inode. *)
Definition put_inode (inum : Z) (d : DiskInode) (s : Maker) : Maker :=
  let b := iblock inum make_super in
  put b (write_dinode (dblock (image s) b) (ioffset inum) d) s.

Lemma inode_at_put_eq s own inum d : good s own → inum_ok inum → dinode_ok d →
  inode_at (image (put_inode inum d s)) inum = d.
Proof.
  intros G Hi Hd. unfold inode_at, put_inode. cbv zeta. rewrite dblock_put, decide_True by done.
  pose proof (ioffset_range inum). apply read_write_dinode; [apply (gd_blocks _ _ G)|lia|lia|done].
Qed.

Lemma read_dinode_ext data data' off :
  (∀ a, off <= a < off + 64 → ld8 data' a = ld8 data a) → read_dinode data' off = read_dinode data off.
Proof.
  intros E. unfold read_dinode.
  assert (∀ k a, off <= a → a + Z.of_nat k <= off + 64 → ldN k data' a = ldN k data a) as En.
  { intros k a Ha Hk. apply ldN_ext. intros j Hj. apply E. lia. }
  rewrite !En by (simpl; lia). f_equal. apply read_words_ext. intros k Hk. apply E.
  simpl in Hk. lia.
Qed.

Lemma inode_at_put_ne s inum inum' d : inum_ok inum → inum_ok inum' → inum' ≠ inum →
  length (directBlocks d) = 12%nat →
  inode_at (image (put_inode inum d s)) inum' = inode_at (image s) inum'.
Proof.
  intros Hi Hi' Hne Hl. unfold inode_at, put_inode. cbv zeta. rewrite dblock_put.
  destruct (decide _) as [E|]; [|done]. rewrite E. apply read_dinode_ext. intros a Ha.
  apply ld8_write_dinode; [done|]. rewrite !iblock_make in E by done.
  unfold ioffset in *. change INODES_PER_BLOCK with 16 in *.
  assert (inum' mod 16 ≠ inum mod 16) by dlia. lia.
Qed.

Lemma dblock_put_inode s inum d b : inum_ok inum → b < 32 ∨ 45 <= b →
  dblock (image (put_inode inum d s)) b = dblock (image s) b.
Proof.
  intros Hi Hb. unfold put_inode. cbv zeta. rewrite dblock_put, decide_False; [done|].
  pose proof (iblock_range _ Hi). lia.
Qed.

Lemma good_put_inode s own inum d : good s own → inum_ok inum → good (put_inode inum d s) own.
Proof.
  intros G Hi. apply good_put; [done|apply is_block_write_dinode, (gd_blocks _ _ G)|].
  pose proof (iblock_range _ Hi). pose proof (gd_range _ _ G) as Hr. change numMeta with 46 in Hr. lia.
Qed.

Lemma file_ok_put_inode s own inum d i d' c nb : good s own → inum_ok inum →
  file_ok (image s) own i d' c nb → file_ok (image (put_inode inum d s)) own i d' c nb.
Proof.
  intros G Hi F. eapply file_ok_frame; [exact F|done|]. intros b o E. apply dblock_put_inode; [done|].
  apply (gd_own _ _ G) in E. change numMeta with 46 in E. lia.
Qed.

Section inodes.
Variable junk : bytes.

Lemma runs_readInode s own inum (Q : DiskInode → Maker → Prop) :
  good s own → msb s = make_super → inum_ok inum → Q (inode_at (image s) inum) s →
  runs (readInode junk inum) s Q.
Proof.
  intros G Es Hi HQ. unfold readInode. do 2 runs_step. rewrite Es. runs_step.
  pose proof (iblock_range _ Hi). apply (runs_readSector _ own); [done|unfold capacity; lia|]. exact HQ.
Qed.

Lemma runs_writeInode s own inum d (Q : unit → Maker → Prop) :
  good s own → msb s = make_super → inum_ok inum → Q tt (put_inode inum d s) →
  runs (writeInode junk inum d) s Q.
Proof.
  intros G Es Hi HQ. unfold writeInode. do 2 runs_step. rewrite Es. cbv zeta. runs_step.
  pose proof (iblock_range _ Hi). apply (runs_readSector _ own); [done|unfold capacity; lia|].
  apply (runs_writeSector _ own); [done|unfold capacity; lia|]. exact HQ.
Qed.
End inodes.

(** ** The abstract image: a list of files *)

(** A file: its type and its contents.  File [k] has inode number [k + 1]. *)
Abbreviation File := (Z * bytes)%type.

Definition size_of (f : File) : Z := Z.of_nat (length f.2).

(** Sectors the files take. *)
Fixpoint total (fs : list File) : Z :=
  match fs with
  | [] => 0
  | f :: fs' => cost (nblocks (size_of f)) + total fs'
  end.

Record image_fits (fs : list File) : Prop := {
  fit_total : numMeta + total fs <= capacity;
  fit_count : Z.of_nat (length fs) < NUM_INODES;
  fit_each k f : fs !! k = Some f → size_of f <= MAX_FILE * BLOCK_SIZE ∧ s16_range f.1;
}.

(** Inode [i] of the image is this file. *)
Record stored (s : Maker) (own : Z → option slot) (i : Z) (f : File) : Prop := {
  so_fields : inode_at (image s) i =
    mkDiskInode f.1 0 0 1 (size_of f) (directBlocks (inode_at (image s) i))
      (indirectBlock (inode_at (image s) i));
  so_file : file_ok (image s) own i (inode_at (image s) i) f.2 (nblocks (size_of f));
  so_tight : tight (inode_at (image s) i) (nblocks (size_of f));
}.

(** The state of the builder when it has stored these files. *)
Record Rep_by (own : Z → option slot) (s : Maker) (fs : list File) : Prop := {
  rp_good : good s own;
  rp_super : msb s = make_super;
  rp_block1 : dblock (image s) 1 = super_bytes make_super;
  rp_log b : 2 <= b < 32 → dblock (image s) b = zero_block;
  rp_inode : freeInode s = 1 + Z.of_nat (length fs);
  rp_free : freeBlock s = numMeta + total fs;
  rp_fits : image_fits fs;
  rp_unused i : inum_ok i → i = 0 ∨ Z.of_nat (length fs) < i → inode_at (image s) i = zero_fields;
  rp_files k f : fs !! k = Some f → stored s own (Z.of_nat k + 1) f;
}.

Definition Rep (s : Maker) (fs : list File) : Prop := ∃ own, Rep_by own s fs.

Lemma total_app fs fs' : total (fs ++ fs') = total fs + total fs'.
Proof. induction fs as [|f fs IH]; simpl; [done|]. lia. Qed.

Lemma nblocks_nonneg n : 0 <= n → 0 <= nblocks n.
Proof. intros. unfold nblocks, BLOCK_SIZE. dlia. Qed.

Lemma cost_nonneg n : 0 <= n → 0 <= cost n.
Proof. intros. unfold cost. destruct (_ <? _); lia. Qed.

Lemma cost_size_nonneg f : 0 <= cost (nblocks (size_of f)).
Proof. apply cost_nonneg, nblocks_nonneg. unfold size_of. lia. Qed.

Lemma total_size_nonneg fs : 0 <= total fs.
Proof.
  induction fs as [|f fs IH]; simpl; [done|]. pose proof (cost_size_nonneg f). lia.
Qed.

Lemma total_insert fs k f f' : fs !! k = Some f →
  total (<[k := f']> fs) = total fs - cost (nblocks (size_of f)) + cost (nblocks (size_of f')).
Proof.
  revert k; induction fs as [|g fs IH]; intros [|k] E; simplify_eq/=; [lia|].
  rewrite (IH k E). lia.
Qed.

(** Files grow, and new ones come at the end. *)
Definition grown (fs fs' : list File) : Prop :=
  ∀ k f, fs !! k = Some f → ∃ f', fs' !! k = Some f' ∧ f'.1 = f.1 ∧ size_of f <= size_of f'.

Lemma total_grown fs fs' : grown fs fs' → total fs <= total fs'.
Proof.
  revert fs'; induction fs as [|f fs IH]; intros fs' H; [apply total_size_nonneg|].
  destruct (H 0%nat f eq_refl) as (f' & E & _ & Hs). destruct fs' as [|g fs']; [done|].
  injection E as ->. simpl. pose proof (cost_mono _ _ (nblocks_mono _ _ Hs)).
  specialize (IH fs' ltac:(intros k; apply (H (S k)))). lia.
Qed.

Lemma grown_length fs fs' : grown fs fs' → (length fs <= length fs')%nat.
Proof.
  intros H. destruct (decide (length fs = 0)%nat); [lia|].
  destruct (lookup_lt_is_Some_2 fs (length fs - 1)) as [f E]; [lia|].
  destruct (H _ _ E) as (f' & E' & _). apply lookup_lt_Some in E'. lia.
Qed.

Lemma image_fits_grown fs fs' : grown fs fs' → image_fits fs' → image_fits fs.
Proof.
  intros H [H1 H2 H3]. split.
  - pose proof (total_grown _ _ H). lia.
  - pose proof (grown_length _ _ H). lia.
  - intros k f E. destruct (H k f E) as (f' & E' & Et & Hs). destruct (H3 k f' E').
    rewrite <- Et. split; [lia|done].
Qed.

Lemma grown_refl fs : grown fs fs.
Proof. intros k f E. eauto with lia. Qed.

Lemma grown_trans fs1 fs2 fs3 : grown fs1 fs2 → grown fs2 fs3 → grown fs1 fs3.
Proof.
  intros H1 H2 k f E. destruct (H1 k f E) as (f1 & E1 & T1 & S1).
  destruct (H2 k f1 E1) as (f2 & E2 & T2 & S2). exists f2. split_and!; [done|congruence|lia].
Qed.

Lemma grown_app fs fs' : grown fs (fs ++ fs').
Proof. intros k f E. exists f. rewrite (lookup_app_l_Some _ _ _ _ E). eauto with lia. Qed.

Lemma grown_append fs k ty c data : fs !! k = Some (ty, c) → grown fs (<[k := (ty, c ++ data)]> fs).
Proof.
  intros Ek k' f E. destruct (decide (k' = k)) as [->|Hne].
  - exists (ty, c ++ data). rewrite list_lookup_insert_eq by (by eapply lookup_lt_Some).
    simplify_eq. split_and!; [done|done|]. unfold size_of. simpl. rewrite length_app. lia.
  - exists f. rewrite list_lookup_insert_ne by done. split_and!; [done|done|lia].
Qed.

Lemma Rep_inum s fs k f : Rep s fs → fs !! k = Some f → inum_ok (Z.of_nat k + 1).
Proof.
  intros [own R] E%lookup_lt_Some. pose proof (fit_count _ (rp_fits _ _ _ R)) as H.
  unfold inum_ok. change (numInodeBlocks * INODES_PER_BLOCK) with 208. change NUM_INODES with 200 in H. lia.
Qed.

(** The numbers in the inode are 32-bit ones. *)
Lemma stored_range s own i d c nb : good s own → file_ok (image s) own i d c nb →
  Forall u32_range (directBlocks d) ∧ u32_range (indirectBlock d).
Proof.
  intros G F. pose proof (gd_range _ _ G) as Hr. unfold capacity in Hr. change numMeta with 46 in Hr.
  assert (∀ b o, own b = Some o → u32_range b) as Ho.
  { intros b o E%(gd_own _ _ G). change numMeta with 46 in E. unfold u32_range. lia. }
  split.
  - apply Forall_lookup_2. intros k x E. pose proof (lookup_lt_Some _ _ _ E) as Hk.
    rewrite (fo_direct _ _ _ _ _ _ F) in Hk. pose proof (fo_nb _ _ _ _ _ _ F).
    assert (block_no (image s) d (Z.of_nat k) = x) as Eb.
    { rewrite block_no_direct_eq, Nat2Z.id, E by (change NUM_DIRECT_BLOCKS with 12; lia). done. }
    destruct (Z.lt_ge_cases (Z.of_nat k) nb) as [Hlt|Hge].
    + eapply Ho. rewrite <- Eb. apply (fo_blocks _ _ _ _ _ _ F). lia.
    + rewrite (fo_rest _ _ _ _ _ _ F) in Eb by (change NUM_DIRECT_BLOCKS with 12; lia).
      subst x. unfold u32_range. lia.
  - destruct (fo_indirect _ _ _ _ _ _ F) as [[-> _]|[E _]]; [unfold u32_range; lia|by eapply Ho].
Qed.

Lemma grows_meta i s own s' own' b : good s own → grows i s own s' own' → b < numMeta →
  dblock (image s') b = dblock (image s) b.
Proof.
  intros G W Hb. pose proof (gd_range _ _ G). apply (gr_frame _ _ _ _ _ W); [lia|].
  intros o E. apply (gd_own _ _ G) in E. lia.
Qed.

Lemma inode_at_grows i s own s' own' inum : good s own → grows i s own s' own' → inum_ok inum →
  inode_at (image s') inum = inode_at (image s) inum.
Proof.
  intros G W Hi. apply inode_at_same. apply (grows_meta _ _ _ _ _ _ G W).
  pose proof (iblock_range _ Hi). change numMeta with 46. lia.
Qed.

(** Another file, when one is written and its inode stored. *)
Lemma stored_other s own i s' own' d j f :
  good s own → grows i s own s' own' → good s' own' → inum_ok i → inum_ok j → j ≠ i →
  length (directBlocks d) = 12%nat → stored s own j f → stored (put_inode i d s') own' j f.
Proof.
  intros G W G' Hi Hj Hne Hl [F1 F2 F3].
  assert (inode_at (image (put_inode i d s')) j = inode_at (image s) j) as E.
  { rewrite inode_at_put_ne by done. by eapply inode_at_grows. }
  split; rewrite E; [done| |done]. apply file_ok_put_inode; [done|done|].
  by apply (file_ok_grows i s own).
Qed.

Lemma stored_put s own i d f :
  good s own → inum_ok i → dinode_ok d →
  d = mkDiskInode f.1 0 0 1 (size_of f) (directBlocks d) (indirectBlock d) →
  file_ok (image s) own i d f.2 (nblocks (size_of f)) → tight d (nblocks (size_of f)) →
  stored (put_inode i d s) own i f.
Proof.
  intros G Hi Hd Ed F T. split; rewrite (inode_at_put_eq _ _ _ _ G Hi Hd); [done| |done].
  by apply file_ok_put_inode.
Qed.

Lemma size_range f : size_of f <= MAX_FILE * BLOCK_SIZE → u32_range (size_of f).
Proof.
  change MAX_FILE with 268. unfold BLOCK_SIZE, u32_range, size_of. lia.
Qed.

(** A file's inode, as a step of the builder stores it. *)
Lemma stored_dinode_ok s own i d f nb : good s own → file_ok (image s) own i d f.2 nb →
  s16_range f.1 → size_of f <= MAX_FILE * BLOCK_SIZE →
  dinode_ok (mkDiskInode f.1 0 0 1 (size_of f) (directBlocks d) (indirectBlock d)).
Proof.
  intros G F Ht Hs. destruct (stored_range _ _ _ _ _ _ G F) as [Hd Hi].
  split; simpl; try done; [by apply size_range|]. split; [apply F|done].
Qed.

Section files.
Variable junk : bytes.

Lemma runs_allocateInode s fs ty :
  Rep s fs → image_fits (fs ++ [(ty, [])]) →
  runs (allocateInode junk ty) s
    (λ r s', r = 1 + Z.of_nat (length fs) ∧ Rep s' (fs ++ [(ty, [])])).
Proof.
  intros [own R] Hfit. pose proof (fit_count _ Hfit) as Hn. rewrite length_app in Hn. simpl in Hn.
  change NUM_INODES with 200 in Hn. destruct (fit_each _ Hfit (length fs) (ty, [])) as [_ Ht].
  { by rewrite lookup_app_r, Nat.sub_diag by done. }
  simpl in Ht. set (i := 1 + Z.of_nat (length fs)).
  assert (inum_ok i) as Hi.
  { unfold inum_ok, i. change (numInodeBlocks * INODES_PER_BLOCK) with 208. lia. }
  unfold allocateInode. do 2 runs_step. rewrite (rp_inode _ _ _ R). fold i. runs_step. runs_step.
  rewrite wrap_small by (unfold i; lia). set (s1 := set_freeInode (i + 1) s).
  assert (good s1 own) as G1 by (destruct (rp_good _ _ _ R); by split).
  set (d := set_size _ _).
  assert (d = mkDiskInode ty 0 0 1 0 (replicate 12 0) 0) as Ed.
  { unfold d. by rewrite (convOrder16_id ty). }
  runs_step. apply (runs_writeInode junk s1 own); [done|apply (rp_super _ _ _ R)|done|].
  runs_step. split; [done|]. exists own.
  assert (dinode_ok d) as Hd.
  { rewrite Ed. split; simpl; try done. split; [done|].
    by repeat (apply Forall_cons; split; [unfold u32_range; lia|]). }
  assert (length (directBlocks d) = 12%nat) as Hl by (by rewrite Ed).
  split.
  - by apply good_put_inode.
  - apply (rp_super _ _ _ R).
  - rewrite dblock_put_inode by (done || lia). apply (rp_block1 _ _ _ R).
  - intros b Hb. rewrite dblock_put_inode by (done || lia). by apply (rp_log _ _ _ R).
  - change (i + 1 = 1 + Z.of_nat (length (fs ++ [(ty, [] : bytes)]))). rewrite length_app.
    cbn [length]. unfold i. lia.
  - simpl. rewrite total_app, (rp_free _ _ _ R). simpl. unfold size_of. simpl.
    change (cost (nblocks (Z.of_nat 0))) with 0. lia.
  - done.
  - intros j Hj Hu. rewrite length_app in Hu. simpl in Hu.
    rewrite inode_at_put_ne; [|done|done|unfold i; lia|done].
    apply (rp_unused _ _ _ R); [done|lia].
  - intros k f E. apply lookup_app_Some in E as [E|[Hk E]].
    + eapply (stored_other s1 own i); [done|apply grows_refl|done|done| | |done|].
      * by eapply Rep_inum; [exists own|].
      * apply lookup_lt_Some in E. unfold i. lia.
      * destruct (rp_files _ _ _ R _ _ E) as [H1 H2 H3]. by split.
    + destruct (k - length fs)%nat eqn:E0; simplify_eq/=.
      replace (Z.of_nat k + 1) with i by (unfold i; lia).
      apply stored_put; [done|done|done|by rewrite Ed| |]; rewrite Ed.
      * apply file_ok_empty.
      * unfold tight. simpl. done.
Qed.

Lemma runs_appendInode s fs k ty c data :
  Rep s fs → fs !! k = Some (ty, c) → is_bytes data → image_fits (<[k := (ty, c ++ data)]> fs) →
  runs (appendInode junk (Z.of_nat k + 1) data) s
    (λ _ s', Rep s' (<[k := (ty, c ++ data)]> fs)).
Proof.
  intros Rp Ek Hb Hfit. pose proof (Rep_inum _ _ _ _ Rp Ek) as Hi. destruct Rp as [own R].
  set (i := Z.of_nat k + 1) in *. set (d := inode_at (image s) i).
  destruct (rp_files _ _ _ R _ _ Ek) as [Fd Ff Ft]. fold i in Fd, Ff, Ft. fold d in Fd, Ff, Ft.
  pose proof (lookup_lt_Some _ _ _ Ek) as Hk.
  destruct (fit_each _ Hfit k (ty, c ++ data)) as [Hm Hty]; [by apply list_lookup_insert_eq|].
  pose proof (fit_total _ Hfit) as Htot. rewrite (total_insert _ _ _ _ Ek) in Htot.
  simpl in Hty. unfold size_of in Fd, Ff, Ft, Hm, Htot. cbn [fst snd] in Fd, Ff, Ft, Hm, Htot.
  unfold appendInode. runs_step. apply (runs_readInode junk s own); [apply R|apply R|done|]. fold d.
  assert (convOrder32 (isize d) = Z.of_nat (length c)) as ->.
  { rewrite Fd. simpl. apply convOrder32_id. rewrite length_app in Hm. change MAX_FILE with 268 in Hm.
    unfold BLOCK_SIZE in Hm. lia. }
  runs_step. eapply runs_mono.
  { apply (runs_append_loop junk i _ s own d c data junk); [done|apply R|done|done|done|done|].
    rewrite (rp_free _ _ _ R). lia. }
  intros r s1 (o1 & G1 & W1 & Ef1 & F1 & T1 & (K1 & K2 & K3 & K4) & Er).
  rewrite Er. set (c' := c ++ data) in *.
  assert (convOrder32 (Z.of_nat (length c')) = Z.of_nat (length c')) as ->.
  { apply convOrder32_id, size_range with (f := (ty, c')). done. }
  set (d' := set_size _ _).
  assert (d' = mkDiskInode ty 0 0 1 (size_of (ty, c')) (directBlocks r.1) (indirectBlock r.1)) as Ed'.
  { unfold d', set_size. rewrite K1, K2, K3, K4, Fd. done. }
  assert (length (directBlocks d') = 12%nat) as Hl by (rewrite Ed'; apply F1).
  apply (runs_writeInode junk s1 o1); [done|by rewrite (gr_super _ _ _ _ _ W1), (rp_super _ _ _ R)|done|].
  exists o1. pose proof (rp_good _ _ _ R) as G. split.
  - by apply good_put_inode.
  - simpl. by rewrite (gr_super _ _ _ _ _ W1), (rp_super _ _ _ R).
  - rewrite dblock_put_inode by (done || lia).
    rewrite (grows_meta _ _ _ _ _ 1 G W1) by done. apply (rp_block1 _ _ _ R).
  - intros b Hbl. rewrite dblock_put_inode by (done || lia).
    rewrite (grows_meta _ _ _ _ _ b G W1) by (change numMeta with 46; lia). by apply (rp_log _ _ _ R).
  - simpl. by rewrite (gr_inode _ _ _ _ _ W1), (rp_inode _ _ _ R), length_insert.
  - simpl. rewrite Ef1, (rp_free _ _ _ R), (total_insert _ _ _ _ Ek). unfold size_of. simpl. lia.
  - done.
  - intros j Hj Hu. rewrite length_insert in Hu. rewrite inode_at_put_ne; [|done|done|unfold i; lia|done].
    rewrite (inode_at_grows _ _ _ _ _ j G W1 Hj). by apply (rp_unused _ _ _ R).
  - intros k' f E. destruct (decide (k' = k)) as [->|Hne].
    + rewrite list_lookup_insert_eq in E by done. injection E as <-. fold i.
      apply stored_put; [done|done| |by rewrite Ed'| |].
      * rewrite Ed'. exact (stored_dinode_ok s1 o1 i r.1 (ty, c') _ G1 F1 Hty Hm).
      * by apply (file_ok_fields _ _ _ r.1).
      * exact T1.
    + rewrite list_lookup_insert_ne in E by done.
      eapply stored_other; [exact G|exact W1|done|done| |unfold i; lia|done|by apply R].
      by eapply Rep_inum; [exists own|].
Qed.
End files.

(** *** The bitmap *)

Lemma used_in_mark n i buf b : is_block buf → 0 <= i → i + Z.of_nat n <= BITS_PER_BLOCK →
  0 <= b < BITS_PER_BLOCK →
  used_in (mark_used n i buf) b = (i <=? b) && (b <? i + Z.of_nat n) || used_in buf b.
Proof.
  revert i buf; induction n as [|n IH]; intros i buf Hb Hi Hn Hr; cbn [mark_used].
  { destruct (Z.leb_spec i b), (Z.ltb_spec b (i + Z.of_nat 0)); try reflexivity; lia. }
  assert (st8 buf (i / 8) (Z.lor (ld8 buf (i / 8)) (bit_mask i)) = set_used buf i) as ->.
  { unfold set_used. by rewrite (Z.mod_small i BITS_PER_BLOCK) by lia. }
  rewrite IH by (try lia; by apply is_block_st8).
  rewrite (used_in_update buf i b true) by (done || (rewrite !Z.div_small by lia; done)).
  case_decide as Hd.
  - rewrite orb_true_r, Hd, Z.leb_refl. symmetry. apply orb_true_intro. left. apply Z.ltb_lt. lia.
  - f_equal. destruct (Z.leb_spec (i + 1) b), (Z.ltb_spec b (i + 1 + Z.of_nat n)), (Z.leb_spec i b),
      (Z.ltb_spec b (i + Z.of_nat (S n))); try reflexivity; lia.
Qed.

Lemma is_block_mark n i buf : is_block buf → is_block (mark_used n i buf).
Proof.
  revert i buf; induction n as [|n IH]; intros i buf Hb; [done|]. apply IH. by apply is_block_st8.
Qed.

(** *** What the builder stores for its arguments *)

(** The contents of a source: [readsome] is called until it gives nothing. *)
Fixpoint file_contents (cs : list bytes) : bytes :=
  match cs with
  | [] => []
  | c :: cs' => if Z.of_nat (length c) =? 0 then [] else c ++ file_contents cs'
  end.

(** The directory entries of the sources, numbered from [inum]. *)
Fixpoint entries (inum : Z) (files : list Source) : bytes :=
  match files with
  | [] => []
  | f :: fs => entry_bytes inum (filename (path f) (path f)) ++ entries (inum + 1) fs
  end.

Definition source_file (f : Source) : File := (T_FILE, file_contents (chunks f)).

(** The files of the image: the root directory and one file for each source. *)
Definition files_of (files : list Source) : list File :=
  (T_DIR, entry_bytes 1 [46] ++ entry_bytes 1 [46; 46] ++ entries 2 files) ::
  (source_file <$> files).

Lemma is_bytes_st8 (l : bytes) a x : is_bytes l → is_bytes (st8 l a x).
Proof.
  intros Hl. unfold st8, bytes_store. destruct (0 <=? a); [|done].
  apply Forall_insert; [done|]. apply Z.mod_pos_bound. lia.
Qed.

Lemma is_bytes_entry inum name : is_bytes (entry_bytes inum name).
Proof.
  unfold entry_bytes. generalize (take 14 (text name ++ replicate 14 0)). generalize 2.
  assert (is_bytes (st16 (replicate 16 0) 0 inum)) as H.
  { unfold stN. do 2 apply is_bytes_st8. by apply Forall_replicate. }
  revert H. generalize (st16 (replicate 16 0) 0 inum). intros l Hl z bs. revert l z Hl.
  induction bs as [|x bs IH]; intros l z Hl; [done|]. apply IH. by apply is_bytes_st8.
Qed.

Lemma grown_cons f f' fs fs' : f'.1 = f.1 → size_of f <= size_of f' → grown fs fs' →
  grown (f :: fs) (f' :: fs').
Proof. intros H1 H2 H [|k] g E; simplify_eq/=; [eauto|by apply H]. Qed.

Lemma grown_dir (r r' : bytes) fs : grown ((T_DIR, r) :: fs) ((T_DIR, r ++ r') :: fs).
Proof.
  apply grown_cons; [done| |apply grown_refl]. unfold size_of. simpl. rewrite length_app. lia.
Qed.

(** *** The parts of [main] *)

Section main.
Variable junk : bytes.

Lemma Rep_nil s own : good s own → msb s = make_super → dblock (image s) 1 = super_bytes make_super →
  (∀ b, 2 <= b < 45 → dblock (image s) b = zero_block) → freeInode s = 1 → freeBlock s = numMeta →
  Rep s [].
Proof.
  intros G Es E1 Ez Ei Ef. exists own. split; [done|done|done| | | | | |].
  - intros b Hb. apply Ez. lia.
  - done.
  - by rewrite Ef, Z.add_0_r.
  - split; [done|done|]. intros k f E. by rewrite lookup_nil in E.
  - intros i Hi _. unfold inode_at. pose proof (iblock_range i Hi). rewrite Ez by lia.
    unfold read_dinode. cbn [read_words].
    rewrite !ld32_zero_block. assert (∀ a, ld16 zero_block a = 0) as E16.
    { intros a. rewrite (ldN_shifts 2 zero_block a 0); [done|]. intros k _.
      by rewrite ld8_zero_block, Z.shiftr_0_l. }
    by rewrite !E16.
  - intros k f E. by rewrite lookup_nil in E.
Qed.

Lemma runs_format : runs format initial (λ _ s, Rep s []).
Proof.
  assert (format initial = Ok (tt, mkMaker (<[1 := super_bytes make_super]>
    (<[1024 := zero_block]> (<[0 := zero_block]> ∅))) 1025 false 1 46 make_super)) as E
    by (vm_compute; reflexivity).
  eapply runs_ok; [exact E|].
  assert (∀ b, b ≠ 1 → dblock (<[1 := super_bytes make_super]>
    (<[1024 := zero_block]> (<[0 := zero_block]> (∅ : gmap Z bytes)))) b = zero_block) as Hz.
  { intros b Hb. rewrite !dblock_insert. rewrite decide_False by done. by repeat case_decide. }
  eapply (Rep_nil _ (λ _, None)); [| | | |reflexivity|reflexivity].
  - split; [reflexivity|reflexivity| | |split; by vm_compute|done].
    + intros b. cbn [image]. destruct (decide (b = 1)) as [->|Hb].
      * rewrite dblock_insert, decide_True by done. unfold super_bytes. cbn [write_words].
        repeat apply (is_block_stN 4). apply is_block_zero.
      * rewrite Hz by done. apply is_block_zero.
    + intros b Hb. apply Hz. cbn [freeBlock] in Hb. lia.
  - reflexivity.
  - cbn [image]. rewrite dblock_insert. by rewrite decide_True.
  - intros b Hb. apply Hz. lia.
Qed.

Lemma convOrder16_small n : 0 <= n < 2 ^ 16 → convOrder 2 n = n.
Proof. intros. rewrite convOrder_wrap. by apply Z.mod_small. Qed.

Lemma runs_copy_chunks cs s fs k ty c :
  Rep s fs → fs !! k = Some (ty, c) → Forall is_bytes cs →
  image_fits (<[k := (ty, c ++ file_contents cs)]> fs) →
  runs (copy_chunks junk (Z.of_nat k + 1) cs) s
    (λ _ s', Rep s' (<[k := (ty, c ++ file_contents cs)]> fs)).
Proof.
  revert s fs c; induction cs as [|x cs IH]; intros s fs c R Ek Hb Hfit; cbn [copy_chunks file_contents] in *.
  { apply runs_ret. by rewrite app_nil_r, list_insert_id. }
  apply Forall_cons in Hb as [Hx Hb]. destruct (Z.eqb_spec (Z.of_nat (length x)) 0).
  { apply runs_ret. by rewrite app_nil_r, list_insert_id. }
  pose proof (lookup_lt_Some _ _ _ Ek) as Hk.
  rewrite app_assoc in *. rewrite <- (list_insert_insert_eq fs k _ (ty, c ++ x)) in *.
  assert ((<[k := (ty, c ++ x)]> fs) !! k = Some (ty, c ++ x)) as Ek'
    by (by apply list_lookup_insert_eq).
  runs_step. eapply runs_mono; [apply (runs_appendInode junk _ _ _ ty c x R Ek Hx)|].
  - eapply image_fits_grown; [|exact Hfit]. by apply grown_append.
  - intros [] s1 R1. by apply IH.
Qed.

Lemma runs_add_file s r dn f :
  let e := entry_bytes (2 + Z.of_nat (length dn)) (filename (path f) (path f)) in
  Rep s ((T_DIR, r) :: dn) → Forall is_bytes (chunks f) →
  image_fits ((T_DIR, r ++ e) :: dn ++ [source_file f]) →
  runs (add_file junk 1 f) s (λ _ s', Rep s' ((T_DIR, r ++ e) :: dn ++ [source_file f])).
Proof.
  intros e R Hb Hfit.
  assert (grown (dn ++ [(T_FILE, [])]) (dn ++ [source_file f])) as Hg.
  { intros k g E. apply lookup_app_Some in E as [E|[Hk E]].
    - exists g. rewrite (lookup_app_l_Some _ _ _ _ E). eauto with lia.
    - destruct (k - length dn)%nat eqn:Ed; simplify_eq/=.
      exists (source_file f). rewrite lookup_app_r, Ed by done. split_and!; [done|done|].
      unfold size_of. simpl. lia. }
  assert (image_fits ((T_DIR, r ++ e) :: dn ++ [(T_FILE, [])])) as Hfit1.
  { eapply image_fits_grown; [|exact Hfit]. apply grown_cons; [done|lia|exact Hg]. }
  pose proof (fit_count _ Hfit) as Hn. simpl in Hn. rewrite length_app in Hn. simpl in Hn.
  change NUM_INODES with 200 in Hn.
  unfold add_file. runs_step.
  eapply runs_mono; [apply (runs_allocateInode junk s _ T_FILE R)|].
  { eapply image_fits_grown; [|exact Hfit1]. apply (grown_dir r e). }
  intros inum s1 [-> R1]. rewrite <- app_comm_cons in R1. cbn [length].
  assert (convOrder 2 (1 + Z.of_nat (S (length dn))) = 2 + Z.of_nat (length dn)) as ->.
  { rewrite convOrder16_small by lia. lia. }
  fold e. runs_step.
  eapply runs_mono; [apply (runs_appendInode junk s1 _ 0 T_DIR r e R1 eq_refl (is_bytes_entry _ _) Hfit1)|].
  intros [] s2 R2. cbn [insert list_insert] in R2.
  replace (1 + Z.of_nat (S (length dn))) with (Z.of_nat (length ((T_DIR, r ++ e) :: dn)) + 1)
    by (simpl; lia).
  change (((T_DIR, r ++ e) :: dn ++ [(T_FILE, [])])) with (((T_DIR, r ++ e) :: dn) ++ [(T_FILE, [] : bytes)]) in R2.
  eapply runs_mono; [apply (runs_copy_chunks (chunks f) s2 _ _ T_FILE [] R2)|].
  - by rewrite lookup_app_r, Nat.sub_diag by done.
  - done.
  - rewrite insert_app_r_alt, Nat.sub_diag by done. exact Hfit.
  - intros [] s3. rewrite insert_app_r_alt, Nat.sub_diag by done. done.
Qed.

Lemma runs_add_files files s r dn :
  let fs := (T_DIR, r ++ entries (2 + Z.of_nat (length dn)) files) :: dn ++ (source_file <$> files) in
  Rep s ((T_DIR, r) :: dn) → Forall (λ f, Forall is_bytes (chunks f)) files → image_fits fs →
  runs (add_files junk 1 files) s (λ _ s', Rep s' fs).
Proof.
  revert s r dn; induction files as [|f files IH]; intros s r dn fs R Hb Hfit; subst fs; cbn in *.
  { apply runs_ret. by rewrite !app_nil_r. }
  apply Forall_cons in Hb as [Hf Hb].
  set (e := entry_bytes (2 + Z.of_nat (length dn)) (filename (path f) (path f))) in *.
  replace (2 + Z.of_nat (length dn) + 1) with (2 + Z.of_nat (length (dn ++ [source_file f]))) in *
    by (rewrite length_app; simpl; lia).
  rewrite app_assoc in *. rewrite (cons_middle (source_file f) dn (source_file <$> files)),
    (app_assoc dn) in *.
  runs_step. eapply runs_mono; [apply (runs_add_file s r dn f R Hf)|].
  - fold e. eapply image_fits_grown; [|exact Hfit]. apply grown_cons; [done| |apply grown_app].
    unfold size_of. simpl. rewrite !length_app. lia.
  - intros [] s1 R1. by apply IH.
Qed.

Lemma runs_make_root s : Rep s [] →
  image_fits [(T_DIR, entry_bytes 1 [46] ++ entry_bytes 1 [46; 46])] →
  runs (make_root junk) s
    (λ r s', r = 1 ∧ Rep s' [(T_DIR, entry_bytes 1 [46] ++ entry_bytes 1 [46; 46])]).
Proof.
  intros R Hfit.
  assert (image_fits [(T_DIR, entry_bytes 1 [46])]) as Hfit1.
  { eapply image_fits_grown; [|exact Hfit]. apply grown_dir. }
  unfold make_root. runs_step. eapply runs_mono; [apply (runs_allocateInode junk s [] T_DIR R)|].
  { eapply image_fits_grown; [|exact Hfit1]. apply (grown_dir []). }
  intros r s1 [-> R1]. change (1 + Z.of_nat (length (A := File) [])) with 1.
  change (convOrder 2 1) with 1. runs_step.
  eapply runs_mono.
  { apply (runs_appendInode junk s1 _ 0 T_DIR [] _ R1 eq_refl (is_bytes_entry _ _) Hfit1). }
  intros [] s2 R2. runs_step. eapply runs_mono.
  { apply (runs_appendInode junk s2 _ 0 T_DIR _ _ R2 eq_refl (is_bytes_entry _ _) Hfit). }
  intros [] s3 R3. runs_step. split; [done|exact R3].
Qed.
End main.

(** The bytes of a file of the image. *)
Definition image_bytes (im : gmap Z bytes) (d : DiskInode) (n : Z) : bytes :=
  image_byte im d <$> seqZ 0 n.

Lemma image_bytes_ok im own i d c nb : file_ok im own i d c nb →
  image_bytes im d (Z.of_nat (length c)) = c.
Proof.
  intros F. apply list_eq_same_length with (n := length c).
  - done.
  - unfold image_bytes. rewrite length_fmap, length_seqZ. lia.
  - intros k x y Hk Hx Hy. unfold image_bytes in Hx.
    apply list_lookup_fmap_Some in Hx as (z & -> & Hz). apply lookup_seqZ in Hz as [-> _].
    by apply F.
Qed.

(** A disk that nobody has read yet shows the kernel these bytes. *)
Lemma kernel_file_bytes {P} (v : view P) im own i d c nb : file_ok im own i d c nb →
  v_disk v = im → v_cache v = ∅ → Z.of_nat (length c) <= NUM_DIRECT_BLOCKS * BLOCK_SIZE →
  file_bytes v d 0 (length c) = c.
Proof.
  intros F Ed Ec Hl. rewrite <- (image_bytes_ok _ _ _ _ _ _ F) at 2.
  unfold file_bytes, image_bytes. apply list_fmap_ext. intros k x Hx.
  apply lookup_seqZ in Hx as [-> Hk]. unfold file_byte, image_byte, Txn.cur.
  rewrite Ec, lookup_empty, Ed. rewrite block_no_direct_eq; [done|].
  change NUM_DIRECT_BLOCKS with 12 in *. unfold BLOCK_SIZE in *. dlia.
Qed.

(** Inode [d] names the block [b]: in a direct slot, as its indirect block, or
    in an entry of its indirect block. *)
Definition names (im : gmap Z bytes) (d : DiskInode) (b : Z) : Prop :=
  b ≠ 0 ∧ ((∃ j, 0 <= j < NUM_DIRECT_BLOCKS ∧ b = block_no im d j) ∨ b = indirectBlock d ∨
    indirectBlock d ≠ 0 ∧ ∃ j, NUM_DIRECT_BLOCKS <= j < MAX_FILE ∧ b = block_no im d j).

Lemma names_own im own i d c nb b : file_ok im own i d c nb → names im d b → ∃ o, own b = Some (i, o).
Proof.
  intros F [Hb Hn]. assert (∀ j, 0 <= j < nb → b = block_no im d j → ∃ o, own b = Some (i, o)) as Hlow.
  { intros j Hj ->. eexists. by apply (fo_blocks _ _ _ _ _ _ F). }
  destruct Hn as [(j & Hj & Ej)|[Ei|(Hi & j & Hj & Ej)]].
  - destruct (Z.lt_ge_cases j nb); [apply (Hlow j); [lia|done]|].
    by rewrite (fo_rest _ _ _ _ _ _ F) in Ej by lia.
  - destruct (fo_indirect _ _ _ _ _ _ F) as [[E0 _]|[E0 _]]; [congruence|]. exists None. by rewrite Ei.
  - destruct (Z.lt_ge_cases j nb); [apply (Hlow j); [change NUM_DIRECT_BLOCKS with 12 in *; lia|done]|].
    destruct (fo_indirect _ _ _ _ _ _ F) as [[E0 _]|[_ E0]]; [done|]. by rewrite E0 in Ej by lia.
Qed.

(** What the finished image holds. *)
Record Finished (s : Maker) (fs : list File) : Prop := {
  fin_failed : failed s = false;
  fin_super : parse_super (dblock (image s) 1) = make_super;
  fin_log : Log.hdr_ok (image s) (logStart make_super) ∧
    Log.recovered (image s) (logStart make_super) = image s;
  fin_bitmap b : 0 <= b < BITS_PER_BLOCK →
    used_in (dblock (image s) (bmapStart make_super)) b = (b <? numMeta + total fs);
  fin_unused i : inum_ok i → i = 0 ∨ Z.of_nat (length fs) < i → inode_at (image s) i = zero_fields;
  fin_named k f b : fs !! k = Some f → names (image s) (inode_at (image s) (Z.of_nat k + 1)) b →
    numMeta <= b ∧ used_in (dblock (image s) (bmapStart make_super)) b = true;
  fin_apart k f k' f' b : fs !! k = Some f → fs !! k' = Some f' →
    names (image s) (inode_at (image s) (Z.of_nat k + 1)) b →
    names (image s) (inode_at (image s) (Z.of_nat k' + 1)) b → k = k';
  fin_blocks k f j : fs !! k = Some f → 0 <= j < nblocks (size_of f) →
    let d := inode_at (image s) (Z.of_nat k + 1) in names (image s) d (block_no (image s) d j) ∧
    ∀ j', 0 <= j' < nblocks (size_of f) → block_no (image s) d j' = block_no (image s) d j → j' = j;
  fin_files k f : fs !! k = Some f → let d := inode_at (image s) (Z.of_nat k + 1) in
    type d = f.1 ∧ numLinks d = 1 ∧
    isize d = (if decide (k = 0)%nat then (size_of f / BLOCK_SIZE + 1) * BLOCK_SIZE else size_of f) ∧
    image_bytes (image s) d (size_of f) = f.2 ∧
    (size_of f <= NUM_DIRECT_BLOCKS * BLOCK_SIZE → ∀ (P : Type) (v : view P),
      v_disk v = image s → v_cache v = ∅ → file_bytes v d 0 (length f.2) = f.2);
}.

Lemma stored_put_low s own b blk i f : good s own → inum_ok i → b < numMeta →
  (b < 32 ∨ 45 <= b) → stored s own i f → stored (put b blk s) own i f.
Proof.
  intros G Hi Hb Hr [H1 H2 H3].
  assert (inode_at (image (put b blk s)) i = inode_at (image s) i) as E.
  { apply inode_at_same. rewrite dblock_put, decide_False; [done|]. pose proof (iblock_range _ Hi). lia. }
  split; rewrite E; [done| |done]. eapply file_ok_frame; [exact H2|done|].
  intros b' o Ho. rewrite dblock_put, decide_False; [done|]. intros ->.
  apply (gd_own _ _ G) in Ho. lia.
Qed.

(** The root's inode with its size rounded, and the finished image. *)
Definition rounded (s : Maker) (f : File) : DiskInode :=
  set_size ((size_of f / BLOCK_SIZE + 1) * BLOCK_SIZE) (inode_at (image s) 1).

Definition finished (s : Maker) (f : File) (used : Z) : Maker :=
  put 45 (mark_used (Z.to_nat used) 0 zero_block) (put_inode 1 (rounded s f) s).

Section finish.
Variables (junk : bytes) (own : Z → option slot) (s : Maker) (r : bytes) (fs : list File).
Hypothesis R : Rep_by own s ((T_DIR, r) :: fs).

Notation root := (T_DIR, r).
Notation n := (numMeta + total (root :: fs)).

Let G : good s own := rp_good _ _ _ R.

Lemma finish_root : stored s own 1 root.
Proof. apply (rp_files _ _ _ R 0%nat _ eq_refl). Qed.

Lemma finish_root_size : size_of root <= MAX_FILE * BLOCK_SIZE.
Proof. apply (fit_each _ (rp_fits _ _ _ R) 0%nat _ eq_refl). Qed.

Lemma finish_free : 46 <= n <= capacity.
Proof. pose proof (gd_range _ _ G) as Hr. by rewrite (rp_free _ _ _ R) in Hr. Qed.

Lemma finish_rounded_range : u32_range ((size_of root / BLOCK_SIZE + 1) * BLOCK_SIZE).
Proof.
  pose proof finish_root_size as Hm. change MAX_FILE with 268 in Hm.
  unfold u32_range, BLOCK_SIZE, size_of in *. dlia.
Qed.

Lemma finish_rounded : rounded s root =
  mkDiskInode T_DIR 0 0 1 ((size_of root / BLOCK_SIZE + 1) * BLOCK_SIZE)
    (directBlocks (inode_at (image s) 1)) (indirectBlock (inode_at (image s) 1)).
Proof. unfold rounded, set_size. by rewrite (so_fields _ _ _ _ finish_root). Qed.

Lemma finish_rounded_ok : dinode_ok (rounded s root).
Proof.
  destruct (stored_dinode_ok s own 1 _ root _ G (so_file _ _ _ _ finish_root) ltac:(done) finish_root_size).
  rewrite finish_rounded. split; try done. apply finish_rounded_range.
Qed.

(** What the end of [main] does: a change of one inode and of the bitmap. *)
Lemma runs_finished (Q : unit → Maker → Prop) :
  Q tt (finished s root n) →
  runs (round_root junk 1 ;; used ← gets freeBlock; allocateBlock used) s Q.
Proof.
  intros HQ. pose proof finish_free as Hn. runs_step.
  apply (runs_mono (round_root junk 1) s (λ _ s', s' = put_inode 1 (rounded s root) s)).
  { unfold round_root. runs_step. apply (runs_readInode junk s own); [apply G|apply R|done|].
    replace (isize (inode_at (image s) 1)) with (size_of root)
      by (by rewrite (so_fields _ _ _ _ finish_root)).
    pose proof finish_rounded_range.
    rewrite (convOrder32_id (size_of _)) by apply size_range, finish_root_size. cbv zeta.
    rewrite (wrap_small 32), convOrder32_id by done.
    by apply (runs_writeInode junk s own); [apply G|apply R|done|]. }
  intros [] s1 ->. do 2 runs_step.
  change (freeBlock (put_inode _ _ s)) with (freeBlock s). rewrite (rp_free _ _ _ R).
  unfold allocateBlock. runs_step. apply runs_assert.
  { apply Z.ltb_lt. unfold BLOCK_SIZE, capacity in *. lia. }
  do 2 runs_step. change (msb (put_inode _ _ s)) with (msb s). rewrite (rp_super _ _ _ R).
  apply (runs_writeSector _ own); [by apply good_put_inode|done|]. exact HQ.
Qed.

Lemma finished_low b : b < 32 → dblock (image (finished s root n)) b = dblock (image s) b.
Proof.
  intros Hb. unfold finished. rewrite dblock_put, decide_False by lia.
  apply dblock_put_inode; [done|lia].
Qed.

Lemma finished_inode i : inum_ok i →
  inode_at (image (finished s root n)) i = inode_at (image (put_inode 1 (rounded s root) s)) i.
Proof.
  intros Hi. apply inode_at_same. unfold finished. rewrite dblock_put, decide_False; [done|].
  pose proof (iblock_range _ Hi). lia.
Qed.

Lemma finished_bitmap b : 0 <= b < BITS_PER_BLOCK →
  used_in (dblock (image (finished s root n)) 45) b = (b <? n).
Proof.
  intros Hb. pose proof finish_free as Hn. unfold capacity in Hn.
  unfold finished. rewrite dblock_put, decide_True by done.
  rewrite used_in_mark; [|apply is_block_zero|lia|unfold BITS_PER_BLOCK, BLOCK_SIZE; lia|done].
  rewrite Z2Nat.id, Z.add_0_l by lia. unfold used_in. rewrite ld8_zero_block, Z.bits_0, orb_false_r.
  by rewrite (proj2 (Z.leb_le 0 b)) by lia.
Qed.

Lemma finished_root : inode_at (image (finished s root n)) 1 = rounded s root ∧
  file_ok (image (finished s root n)) own 1 (rounded s root) r (nblocks (size_of root)).
Proof.
  split.
  - rewrite finished_inode by done. eapply inode_at_put_eq; [apply G|done|apply finish_rounded_ok].
  - assert (good (put_inode 1 (rounded s root) s) own) as G1 by (by apply good_put_inode).
    eapply file_ok_frame with (im := image (put_inode 1 (rounded s root) s)); [|done|].
    + apply file_ok_put_inode; [apply G|done|].
      apply (file_ok_fields _ _ _ (inode_at (image s) 1)); [done|done|].
      apply (so_file _ _ _ _ finish_root).
    + intros b o Ho. unfold finished. rewrite dblock_put, decide_False; [done|].
      apply (gd_own _ _ G1) in Ho. change numMeta with 46 in Ho. lia.
Qed.

Lemma finished_file k f : (root :: fs) !! k = Some f → k ≠ 0%nat →
  stored (finished s root n) own (Z.of_nat k + 1) f.
Proof.
  intros E Hk. assert (inum_ok (Z.of_nat k + 1)) as Hi by (eapply Rep_inum; [by exists own|done]).
  apply stored_put_low; [by apply good_put_inode|done|done|lia|].
  eapply stored_other; [exact G|apply grows_refl|exact G|done|done|lia| |by apply R].
  apply finish_rounded_ok.
Qed.

(** Every stored file of the finished image, the root included. *)
Lemma finished_file_ok k f : (root :: fs) !! k = Some f →
  file_ok (image (finished s root n)) own (Z.of_nat k + 1)
    (inode_at (image (finished s root n)) (Z.of_nat k + 1)) f.2 (nblocks (size_of f)).
Proof.
  intros E. destruct (decide (k = 0)%nat) as [->|Hk].
  - injection E as <-. destruct finished_root as [Er F]. change (Z.of_nat 0 + 1) with 1. by rewrite Er.
  - apply (so_file _ _ _ _ (finished_file k f E Hk)).
Qed.

Lemma finished_named k f b : (root :: fs) !! k = Some f →
  names (image (finished s root n)) (inode_at (image (finished s root n)) (Z.of_nat k + 1)) b →
  numMeta <= b < n ∧ ∃ o, own b = Some (Z.of_nat k + 1, o).
Proof.
  intros E Hn. destruct (names_own _ _ _ _ _ _ _ (finished_file_ok k f E) Hn) as [o Ho].
  split; [|by exists o]. rewrite <- (rp_free _ _ _ R). by apply (gd_own _ _ G _ _ Ho).
Qed.

Lemma finished_blocks k f j : (root :: fs) !! k = Some f → 0 <= j < nblocks (size_of f) →
  let d := inode_at (image (finished s root n)) (Z.of_nat k + 1) in
  names (image (finished s root n)) d (block_no (image (finished s root n)) d j) ∧
  ∀ j', 0 <= j' < nblocks (size_of f) →
    block_no (image (finished s root n)) d j' = block_no (image (finished s root n)) d j → j' = j.
Proof.
  intros E Hj d. pose proof (finished_file_ok k f E) as F. fold d in F.
  pose proof (fo_blocks _ _ _ _ _ _ F j Hj) as Ho. pose proof (gd_own _ _ G _ _ Ho) as Hr.
  pose proof (fo_nb _ _ _ _ _ _ F). split.
  - split; [intros E0; rewrite E0 in Hr; change numMeta with 46 in Hr; lia|]. destruct (Z.lt_ge_cases j NUM_DIRECT_BLOCKS) as [Hd|Hd].
    + left. exists j. split; [lia|done].
    + right; right. split; [|exists j; split; [lia|done]].
      destruct (fo_indirect _ _ _ _ _ _ F) as [[_ E0]|[Ei _]]; [lia|].
      apply (gd_own _ _ G) in Ei. change numMeta with 46 in Ei. lia.
  - intros j' Hj' Eb. pose proof (fo_blocks _ _ _ _ _ _ F j' Hj') as Ho'. rewrite Eb in Ho'. congruence.
Qed.

Lemma finished_ok : Finished (finished s root n) (root :: fs).
Proof.
  split.
  - apply (gd_failed _ _ G).
  - rewrite finished_low, (rp_block1 _ _ _ R) by lia. vm_compute. reflexivity.
  - apply Log.hdr_ok_empty. unfold Log.hdr_n. change (logStart make_super) with 2.
    rewrite finished_low, (rp_log _ _ _ R) by lia. vm_compute. reflexivity.
  - apply finished_bitmap.
  - intros i Hi Hu. rewrite finished_inode by done. simpl in Hu.
    rewrite inode_at_put_ne; [by apply R|done|done|lia|apply finish_rounded_ok].
  - intros k f b E Hn. destruct (finished_named k f b E Hn) as [Hb _]. split; [lia|].
    pose proof finish_free as Hf. change (bmapStart make_super) with 45. rewrite finished_bitmap.
    + apply Z.ltb_lt; lia.
    + assert (0 < numMeta) by done. unfold capacity in Hf. unfold BITS_PER_BLOCK, BLOCK_SIZE. lia.
  - intros k f k' f' b E E' Hn Hn'. destruct (finished_named k f b E Hn) as [_ [o Ho]].
    destruct (finished_named k' f' b E' Hn') as [_ [o' Ho']]. rewrite Ho in Ho'. simplify_eq. lia.
  - intros k f j. apply finished_blocks.
  - intros k f E d. destruct (decide (k = 0)%nat) as [->|Hk].
    + injection E as <-. destruct finished_root as [Er F]. unfold d.
      change (Z.of_nat 0 + 1) with 1. rewrite Er. rewrite finish_rounded in *.
      split_and!; [done|done|done|by apply (image_bytes_ok _ _ _ _ _ _ F)|].
      intros Hs P v Ed Ec. by apply (kernel_file_bytes v _ _ _ _ _ _ F).
    + destruct (finished_file k f E Hk) as [K1 K2 K3]. fold d in K1, K2.
      split_and!; [by rewrite K1|by rewrite K1|by rewrite K1|by apply (image_bytes_ok _ _ _ _ _ _ K2)|].
      intros Hs P v Ed Ec. by apply (kernel_file_bytes v _ _ _ _ _ _ K2).
Qed.
End finish.

(** *** After a failed access *)

(** Once the fail bit is set, the operation leaves the file alone. *)
Definition frozen {A} (c : M Maker A) : Prop := ∀ s a s', failed s = true → c s = Ok (a, s') →
  failed s' = true ∧ image s' = image s ∧ sectors s' = sectors s.

Lemma frozen_bind {A B} (c : M Maker A) (k : A → M Maker B) :
  frozen c → (∀ a, frozen (k a)) → frozen (c ≫= k).
Proof.
  intros Hc Hk s b s' Hf (a & s1 & E1 & E2)%bind_inv. destruct (Hc _ _ _ Hf E1) as (F1 & <- & <-).
  by apply (Hk a _ _ _ F1 E2).
Qed.

Lemma frozen_ret {A} (a : A) : frozen (mret a).
Proof. by intros s b s' Hf [= _ <-]. Qed.

Lemma frozen_fail {A} e : frozen (fail e : M Maker A).
Proof. done. Qed.

Lemma frozen_gets {A} (f : Maker → A) : frozen (gets f).
Proof. by intros s b s' Hf [= _ <-]. Qed.

Lemma frozen_modify g : (∀ s, failed (g s) = failed s ∧ image (g s) = image s ∧ sectors (g s) = sectors s) →
  frozen (modify g).
Proof. intros Hg s b s' Hf [= _ <-]. destruct (Hg s) as (-> & -> & ->). done. Qed.

Lemma frozen_assert b : frozen (assert b).
Proof. intros s a s' Hf [_ E]%assert_inv. by simplify_eq. Qed.

Lemma frozen_read x buf : frozen (readSector x buf).
Proof. intros s a s' Hf. unfold readSector. rewrite Hf. by intros [= _ <-]. Qed.

Lemma frozen_write x buf : frozen (writeSector x buf).
Proof. intros s a s' Hf. unfold writeSector, modify. rewrite Hf. by intros [= _ <-]. Qed.

Create HintDb frozen.
#[local] Hint Resolve frozen_ret frozen_fail frozen_gets frozen_assert frozen_read frozen_write : frozen.

Ltac frozen_steps :=
  repeat first
    [ solve [auto with frozen]
    | lazymatch goal with
      | |- frozen (mbind _ _) => apply frozen_bind; [|intros ?]
      | |- frozen (modify _) => apply frozen_modify; by intros ?
      | |- frozen (match ?x with _ => _ end) => destruct x
      end ].

Section frozen.
Variable junk : bytes.

Lemma frozen_take_block : frozen take_block.
Proof. unfold take_block. frozen_steps. Qed.
#[local] Hint Resolve frozen_take_block : frozen.

Lemma frozen_readInode inum : frozen (readInode junk inum).
Proof. unfold readInode. frozen_steps. Qed.

Lemma frozen_writeInode inum d : frozen (writeInode junk inum d).
Proof. unfold writeInode. cbv zeta. frozen_steps. Qed.
#[local] Hint Resolve frozen_readInode frozen_writeInode : frozen.

Lemma frozen_block_of d ind fbn : frozen (block_of d ind fbn).
Proof. unfold block_of, entry_of. cbv zeta. frozen_steps. Qed.
#[local] Hint Resolve frozen_block_of : frozen.

Lemma frozen_append_loop fuel d ind data off : frozen (append_loop junk fuel d ind data off).
Proof.
  revert d ind data off; induction fuel as [|f IH]; intros d ind data off; cbn [append_loop];
    unfold fill_sector; cbv zeta; frozen_steps.
Qed.
#[local] Hint Resolve frozen_append_loop : frozen.

Lemma frozen_appendInode inum xp : frozen (appendInode junk inum xp).
Proof. unfold appendInode. frozen_steps. Qed.
#[local] Hint Resolve frozen_appendInode : frozen.

Lemma frozen_add_files root files : frozen (add_files junk root files).
Proof.
  induction files as [|f files IH]; cbn [add_files]; frozen_steps.
  unfold add_file, allocateInode. frozen_steps.
  induction (chunks f) as [|c cs IHc]; cbn [copy_chunks]; frozen_steps.
Qed.

Lemma frozen_rest root files : frozen (add_files junk root files ;; round_root junk root ;;
  used ← gets freeBlock; allocateBlock used).
Proof.
  pose proof (frozen_add_files root files). unfold round_root, allocateBlock. cbv zeta. frozen_steps.
Qed.
End frozen.

(** ** Properties *)


Definition demo_source : Source := mkSource [47; 98; 47; 115; 104] [[104; 105]; []; [1]].


(** A failed access to the image is not noticed.  Once one has failed, as
    the append to a full image does, the steps that remain, when they return,
    return as if nothing had happened, and they leave the image file as it is. *)
Theorem failed_access_unnoticed (junk : bytes) (files : list Source) (root : Z) (s s' : Maker)
    (Hfail : failed s = true)
    (Hrun : (add_files junk root files ;; round_root junk root ;;
      used ← gets freeBlock; allocateBlock used) s = Ok (tt, s')) :
  failed s' = true ∧ image s' = image s ∧ sectors s' = sectors s.
Proof. by apply (frozen_rest junk root files s tt s'). Qed.

(** The image with no sector left, before one more file is added. *)
Definition demo_full : Maker := mkMaker ∅ capacity false 2 capacity make_super.

Lemma failed_access_unnoticed_witness : ∃ s s',
  appendInode zero_block 1 [7] demo_full = Ok (tt, s) ∧ failed s = true ∧
  (add_files zero_block 1 [] ;; round_root zero_block 1 ;; used ← gets freeBlock; allocateBlock used) s =
    Ok (tt, s') ∧ image s' = image s.
Proof.
  assert (failed ∘ snd <$> result_value (appendInode zero_block 1 [7] demo_full) = Some true) as E
    by (by vm_compute).
  assert (fst <$> result_value ((appendInode zero_block 1 [7] ;; add_files zero_block 1 [] ;;
    round_root zero_block 1 ;; used ← gets freeBlock; allocateBlock used) demo_full) = Some tt) as E'
    by (by vm_compute).
  revert E. destruct (appendInode zero_block 1 [7] demo_full) as [[[] s]|] eqn:E1; [|done].
  intros [= Hf]. rewrite (bind_ok _ _ _ _ _ E1) in E'. revert E'.
  destruct ((add_files zero_block 1 [] ;; _) s) as [[[] s']|] eqn:E2; [|done]. intros _.
  exists s, s'. split_and!; [done|done|done|].
  by destruct (failed_access_unnoticed zero_block [] 1 s s' Hf E2) as (_ & -> & _).
Defined.

End MakeDisk.
