(* ===== verification/File.v ===== *)
(** * Open files and devices

    [kernel/fs/file.h], [file.cpp] and [device.cpp]: the table of open files with
    its reference counts, reading and writing through a [File] (an inode or the
    console), and the device table.  A [File*] is an index into [ftable.files];
    [ftable.mutex] delimits the critical sections the operations run as.  The
    union of [File] is its common first member [ip] and one 32-bit word, the
    offset of an inode or the major number of a device. *)

From stdpp Require Import gmultiset.
From S2P Require Import Prelude CString HashMap Address Page PageTable Uvm Ring Uart Console SleepMutex Buffer FsState Log Txn Block Inode InodeWrite.
Import CString HashMap Address Page PageTable Uvm Ring Uart Console Buffer FsState Log Txn Block Inode InodeWrite.

Module File.

(** ** Definitions *)

Definition NUM_FILES : nat := 200.
Definition NUM_DEVICES : Z := 10.
Definition CONSOLE : Z := 1.

Inductive FileType := TNone | TPipe | TInode | TDevice.

Record File := mkFile {
  ftype : FileType;
  frefCount : Z;
  readable : bool;
  writable : bool;
  fip : option positive;
  fword : Z;
}.

(** The members of the union. *)
Definition offset (f : File) : Z := fword f.
Definition fmajor (f : File) : Z := s16 (fword f mod 2 ^ 16).

Definition zero_file : File := mkFile TNone 0 false false None 0.

Definition set_ref (x : Z) (f : File) : File := mkFile (ftype f) x (readable f) (writable f) (fip f) (fword f).
Definition set_ftype (x : FileType) (f : File) : File :=
  mkFile x (frefCount f) (readable f) (writable f) (fip f) (fword f).
Definition set_offset (x : Z) (f : File) : File :=
  mkFile (ftype f) (frefCount f) (readable f) (writable f) (fip f) x.

(** The functions whose addresses a [Device] holds. *)
Inductive driver := ConsoleRead | ConsoleWrite.

Record Device := mkDevice { dread : option driver; dwrite : option driver }.

(** The file system, the console, [ftable.files] and [deviceMap].  The kernel's
    memory is the one of the file system; the field of [Console] is a copy. *)
Record FileState {S : Type} := mkFileState {
  ifs : IFS S;
  cons : Console;
  files : list File;
  deviceMap : list Device;
}.
Arguments FileState : clear implicits.
Arguments mkFileState {S} _ _ _ _.

(** The table before the first [allocate]: static storage. *)
Definition initial_files : list File := replicate NUM_FILES zero_file.
Definition initial_devices : list Device := replicate (Z.to_nat NUM_DEVICES) (mkDevice None None).

Section state.
Context {S : Type}.

Definition set_ifs (x : IFS S) (s : FileState S) : FileState S := mkFileState x (cons s) (files s) (deviceMap s).
Definition set_files (x : list File) (s : FileState S) : FileState S :=
  mkFileState (ifs s) (cons s) x (deviceMap s).

Definition on_ifs {A} (c : M (IFS S) A) : M (FileState S) A := λ s,
  match c (ifs s) with
  | Ok (a, x) => Ok (a, set_ifs x s)
  | Err f => Err f
  end.

(** An operation of the console, on the kernel's memory. *)
Definition on_console {A} (c : M Console A) : M (FileState S) A := λ s,
  match c (set_memory (kernel (ifs s)) (cons s)) with
  | Ok (a, x) => Ok (a, mkFileState (mkIFS (base (ifs s)) (inodes (ifs s)) (cells (ifs s)) (memory x)) x (files s) (deviceMap s))
  | Err f => Err f
  end.

(** [*f] *)
Definition deref_file (f : nat) : M (FileState S) File := λ s,
  match files s !! f with
  | Some x => Ok (x, s)
  | None => Err NullDeref
  end.

Definition change_file (f : nat) (g : File → File) : M (FileState S) unit :=
  x ← deref_file f; modify (λ s, set_files (<[f := g x]> (files s)) s).

(** [f->inode.ip]: the null pointer is not dereferenced. *)
Definition inode_of (x : File) : M (FileState S) positive :=
  match fip x with Some ip => mret ip | None => fail NullDeref end.

(** [initializeDevices] *)
Definition initializeDevices : M (FileState S) unit :=
  modify (λ s, mkFileState (ifs s) (cons s) (files s)
    (<[Z.to_nat CONSOLE := mkDevice (Some ConsoleRead) (Some ConsoleWrite)]> (deviceMap s))).

(** [getDevice]: an index into [deviceMap]. *)
Definition getDevice (id : Z) : option nat :=
  if (id <? 0) || (NUM_DEVICES <=? id) then None else Some (Z.to_nat id).

(** [File::allocate] *)
Fixpoint free_file (l : list File) : option nat :=
  match l with
  | [] => None
  | f :: l' => if frefCount f =? 0 then Some O else Datatypes.S <$> free_file l'
  end.

Definition allocate : M (FileState S) (option nat) :=
  l ← gets files;
  match free_file l with
  | Some f => change_file f (λ x, set_ref (u32 (frefCount x + 1)) x) ;; mret (Some f)
  | None => mret None
  end.

(** [File::dup] *)
Definition dup (f : nat) : M (FileState S) nat :=
  x ← deref_file f;
  assert (1 <=? frefCount x) ;;
  change_file f (λ x, set_ref (u32 (frefCount x + 1)) x) ;;
  mret f.

(** The critical section of [File::close]: the copy of a file that was closed
    for the last time. *)
Definition release (f : nat) : M (FileState S) (option File) :=
  x ← deref_file f;
  assert (1 <=? frefCount x) ;;
  change_file f (λ x, set_ref (u32 (frefCount x - 1)) x) ;;
  x ← deref_file f;
  if 0 <? frefCount x then mret None
  else
    change_file f (set_ref 0) ;;
    change_file f (set_ftype TNone) ;;
    mret (Some x).
End state.

Section operations.
Context {S P : Type} `{BufferOps S P}.
(** The current process: its pid and its page table. *)
Variable pid : Z.
Variable pageTable : Z.
(** The registers of the UART and the bound on the polls of [uartPutcSync]. *)
Variable uart_device : list access → Z → Z.
Variable polls : nat.

(** [consoleRead]; the count is converted to [size_t]. *)
Definition consoleRead (user : bool) (dst n : Z) : M (FileState S) Z :=
  on_console (readline pageTable user dst (u64 n)).

(** The loop of [consoleWrite]: [n] bytes are left, [offset] are written. *)
Fixpoint consoleWrite_loop (fuel : nat) (user : bool) (src n offset : Z) : M (FileState S) Z :=
  if 0 <? n then
    match fuel with
    | O => fail NoFuel
    | Datatypes.S f =>
        let len := Z.min n 1024 in
        r ← on_ifs (on_kernel (eitherCopyin pageTable user (u64 (src + offset)) len));
        if negb (fst r) then mret offset
        else
          on_console (put_string uart_device polls (snd r)) ;;
          consoleWrite_loop f user src (s32 (n - len)) (s32 (offset + len))
    end
  else mret offset.

Definition consoleWrite (user : bool) (src n : Z) : M (FileState S) Z :=
  consoleWrite_loop (Z.to_nat (n / 1024 + 1)) user src n 0.

(** A call through a function pointer of a [Device]. *)
Definition call (d : option driver) (user : bool) (address n : Z) : M (FileState S) Z :=
  match d with
  | None => fail NullDeref
  | Some ConsoleRead => consoleRead user address n
  | Some ConsoleWrite => consoleWrite user address n
  end.

(** [dev->read] and [dev->write] for the device of a major number; the result
    [-1] without a device. *)
Definition device_call (field : Device → option driver) (major address n : Z) : M (FileState S) Z :=
  match getDevice major with
  | None => mret (-1)
  | Some d =>
      l ← gets deviceMap;
      match l !! d with
      | None => fail OutOfRange
      | Some dev => call (field dev) true address n
      end
  end.

(** [File::read]; the count is converted to [uint32_t] for an inode. *)
Definition read (f : nat) (address n : Z) : M (FileState S) Z :=
  x ← deref_file f;
  if negb (readable x) then mret (-1)
  else
    match ftype x with
    | TPipe => mret 0
    | TDevice => device_call dread (fmajor x) address n
    | TInode =>
        ip ← inode_of x;
        on_ifs (ilock pid ip) ;;
        len ← on_ifs (iread pageTable ip true address (offset x) (u32 n));
        (if 0 <? len then change_file f (λ x, set_offset (u32 (offset x + len)) x) else mret tt) ;;
        on_ifs (iunlock pid ip) ;;
        mret len
    | TNone => fail AssertFailed
    end.

(** [((MAX_OP_BLOCKS - 1 - 1 - 2) / 2) * BLOCK_SIZE] *)
Definition max_write : Z := (MAX_OP_BLOCKS - 1 - 1 - 2) / 2 * BLOCK_SIZE.

(** One round of the loop of [File::write]: an operation of its own. *)
Definition write_round (f : nat) (ip : positive) (address i len : Z) : M (FileState S) Z :=
  on_ifs (on_base beginOp) ;;
  on_ifs (ilock pid ip) ;;
  x ← deref_file f;
  res ← on_ifs (iwrite pageTable ip true (u64 (address + i)) (offset x) (u32 len));
  (if 0 <? res then change_file f (λ x, set_offset (u32 (offset x + res)) x) else mret tt) ;;
  on_ifs (iunlock pid ip) ;;
  on_ifs (on_base endOp) ;;
  mret res.

(** The loop of [File::write]: [i] at its end. *)
Fixpoint file_write_loop (fuel : nat) (f : nat) (ip : positive) (address n i : Z) : M (FileState S) Z :=
  if i <? n then
    match fuel with
    | O => fail NoFuel
    | Datatypes.S fuel' =>
        let len := if max_write <? n - i then max_write else n - i in
        res ← write_round f ip address i len;
        if negb (res =? len) then mret i
        else file_write_loop fuel' f ip address n (i + res)
    end
  else mret i.

(** [File::write] *)
Definition write (f : nat) (address n : Z) : M (FileState S) Z :=
  x ← deref_file f;
  if negb (writable x) then mret (-1)
  else
    match ftype x with
    | TPipe => mret 0
    | TDevice => device_call dwrite (fmajor x) address n
    | TInode =>
        ip ← inode_of x;
        i ← file_write_loop (Z.to_nat (n / max_write + 1)) f ip address n 0;
        mret (if i =? n then n else -1)
    | TNone => fail AssertFailed
    end.

(** The [switch] of [File::close]: the inode of a closed file is put. *)
Definition drop_inode (x : File) : M (FileState S) unit :=
  match ftype x with
  | TNone | TPipe => mret tt
  | TInode | TDevice =>
      on_ifs (on_base beginOp) ;;
      ip ← inode_of x;
      on_ifs (iput pid ip) ;;
      on_ifs (on_base endOp)
  end.

(** [File::close] *)
Definition close (f : nat) : M (FileState S) unit :=
  r ← release f;
  match r with
  | None => mret tt
  | Some x => drop_inode x
  end.
End operations.

(** ** Reference counts *)

(** The counts of a table. *)
Definition refs (l : list File) : list Z := frefCount <$> l.

Section references.
Context {S P : Type} `{BufferOps S P}.
Implicit Types (s : FileState S).

(** The part of the state that reads and writes leave alone. *)
Definition file_refs s : list Z := refs (files s).

Lemma keeps_on_ifs {A} (c : M (IFS S) A) : keeps file_refs (on_ifs c).
Proof. intros s a s'. unfold on_ifs. destruct (c (ifs s)) as [[b x]|]; [by intros [= _ <-]|done]. Qed.

Lemma keeps_on_console {A} (c : M Console A) : keeps file_refs (on_console (S := S) c).
Proof. intros s a s'. unfold on_console. destruct (c _) as [[b x]|]; [by intros [= _ <-]|done]. Qed.

Lemma keeps_deref f : keeps file_refs (deref_file f).
Proof. intros s a s'. unfold deref_file. destruct (files s !! f); [by intros [= _ <-]|done]. Qed.

Lemma keeps_change f g : (∀ x, frefCount (g x) = frefCount x) → keeps file_refs (change_file f g).
Proof.
  intros Hg s a s'. unfold change_file, mbind, M_bind, deref_file, modify.
  destruct (files s !! f) as [x|] eqn:E; [|done]. intros [= _ <-]. unfold file_refs. simpl. unfold refs.
  rewrite list_fmap_insert, Hg. apply list_insert_id. by rewrite list_lookup_fmap, E.
Qed.

Lemma keeps_inode_of x : keeps file_refs (inode_of x).
Proof. unfold inode_of. keeps_steps. Qed.
End references.

Lemma keeps_set_offset {S} f (o : File → Z) : keeps (file_refs (S := S)) (change_file f (λ x, set_offset (o x) x)).
Proof. by apply keeps_change. Qed.

#[export] Hint Resolve keeps_on_ifs keeps_on_console keeps_deref keeps_inode_of keeps_set_offset : keeps.

Section references_io.
Context {S P : Type} `{BufferOps S P}.
Variable pid : Z.
Variable pageTable : Z.
Variable uart_device : list access → Z → Z.
Variable polls : nat.

Lemma keeps_consoleWrite fuel user src n off :
  keeps file_refs (consoleWrite_loop (S := S) pageTable uart_device polls fuel user src n off).
Proof. revert src n off; induction fuel; intros; cbn [consoleWrite_loop]; keeps_steps. Qed.

Lemma keeps_device field major address n :
  keeps file_refs (device_call (S := S) pageTable uart_device polls field major address n).
Proof.
  unfold device_call, call, consoleRead, consoleWrite.
  keeps_steps; apply keeps_consoleWrite.
Qed.

Lemma keeps_read f address n : keeps file_refs (read pid pageTable uart_device polls f address n).
Proof. unfold read. keeps_steps. apply keeps_device. Qed.

Lemma keeps_write_round f ip address i len : keeps file_refs (write_round pid pageTable f ip address i len).
Proof. unfold write_round. keeps_steps. Qed.

Lemma keeps_write f address n : keeps file_refs (write pid pageTable uart_device polls f address n).
Proof.
  unfold write. keeps_steps; [|apply keeps_device].
  match goal with |- keeps _ (file_write_loop _ _ ?k _ _ _ _ ?i) => generalize i; induction k; intros j end;
    cbn [file_write_loop]; keeps_steps; apply keeps_write_round.
Qed.

Lemma keeps_drop x : keeps file_refs (drop_inode pid x).
Proof. unfold drop_inode. keeps_steps. Qed.
End references_io.

(** ** The table of open files *)

Section table.
Context {S P : Type} `{BufferOps S P}.
Variable pid : Z.
Variable pageTable : Z.
Variable uart_device : list access → Z → Z.
Variable polls : nat.
Implicit Types (s : FileState S) (L : gmultiset nat).

(** What the holders of the references [L] can do; setting the members of an
    open file, as [Process::open] does, keeps its count.  A file has fewer than
    [2 ^ 32 - 1] references when another one is made. *)
Inductive file_step : FileState S * gmultiset nat → FileState S * gmultiset nat → Prop :=
  | step_allocate s s' L f : allocate s = Ok (Some f, s') → file_step (s, L) (s', {[+ f +]} ⊎ L)
  | step_full s s' L : allocate s = Ok (None, s') → file_step (s, L) (s', L)
  | step_set s s' L f g : f ∈ L → (∀ x, frefCount (g x) = frefCount x) →
      change_file f g s = Ok (tt, s') → file_step (s, L) (s', L)
  | step_dup s s' L f : f ∈ L → Z.of_nat (multiplicity f L) < 2 ^ 32 - 1 →
      dup f s = Ok (f, s') → file_step (s, L) (s', {[+ f +]} ⊎ L)
  | step_close s s' L f : f ∈ L → close pid f s = Ok (tt, s') → file_step (s, L) (s', L ∖ {[+ f +]})
  | step_read s s' L f r address n : f ∈ L →
      read pid pageTable uart_device polls f address n s = Ok (r, s') → file_step (s, L) (s', L)
  | step_write s s' L f r address n : f ∈ L →
      write pid pageTable uart_device polls f address n s = Ok (r, s') → file_step (s, L) (s', L).

(** Every file counts its references. *)
Definition counts (l : list File) L : Prop :=
  refs l = ((λ f, Z.of_nat (multiplicity f L)) <$> seq 0 NUM_FILES) ∧
  ∀ f, f ∈ L → (f < NUM_FILES)%nat ∧ Z.of_nat (multiplicity f L) < 2 ^ 32.

Lemma counts_lookup l L f : counts l L → (f < NUM_FILES)%nat →
  ∃ x, l !! f = Some x ∧ frefCount x = Z.of_nat (multiplicity f L).
Proof.
  intros [E _] Hf.
  assert (refs l !! f = Some (Z.of_nat (multiplicity f L))) as El.
  { rewrite E, list_lookup_fmap, lookup_seq_lt by done. done. }
  unfold refs in El. rewrite list_lookup_fmap in El. destruct (l !! f) as [x|]; [|done].
  injection El as El. by exists x.
Qed.

Lemma counts_insert l L L' f x : counts l L → (f < NUM_FILES)%nat →
  (∀ g, multiplicity g L' = if decide (g = f) then Z.to_nat (frefCount x) else multiplicity g L) →
  0 <= frefCount x < 2 ^ 32 → counts (<[f := x]> l) L'.
Proof.
  intros [E Hin] Hf Hm Hx. split.
  - apply list_eq. intros g. unfold refs. rewrite list_fmap_insert. fold (refs l). rewrite E.
    destruct (decide (g = f)) as [->|Hne].
    + rewrite list_lookup_insert_eq by (rewrite length_fmap, length_seq; done).
      rewrite list_lookup_fmap, lookup_seq_lt by done. simpl. rewrite Hm, decide_True by done. f_equal. lia.
    + rewrite list_lookup_insert_ne by done. rewrite !list_lookup_fmap.
      destruct (seq 0 NUM_FILES !! g) as [k|] eqn:Ek; [|done]. apply lookup_seq in Ek as [-> _]. simpl.
      by rewrite Hm, decide_False by done.
  - intros g Hg. assert (0 < multiplicity g L')%nat as Hpos by by rewrite <- elem_of_multiplicity.
    rewrite Hm in Hpos |- *. case_decide as Hd; [subst; lia|]. apply Hin. by rewrite elem_of_multiplicity.
Qed.

Lemma counts_refs l l' L : refs l' = refs l → counts l L → counts l' L.
Proof. intros E [E' Hin]. split; [by rewrite E|done]. Qed.

Lemma free_file_spec l :
  match free_file l with
  | Some f => ∃ x, l !! f = Some x ∧ frefCount x = 0
  | None => ∀ f x, l !! f = Some x → frefCount x ≠ 0
  end.
Proof.
  induction l as [|x l IH]; simpl; [by intros f y|].
  destruct (Z.eqb_spec (frefCount x) 0) as [E|E]; [by exists x|].
  destruct (free_file l) as [f|]; simpl; [done|]. intros [|f] y Hy; [by injection Hy as <-|by eapply IH].
Qed.

Lemma runs_deref_file f s x (Q : File → FileState S → Prop) :
  files s !! f = Some x → Q x s → runs (deref_file f) s Q.
Proof. intros E HQ. unfold runs, deref_file. by rewrite E. Qed.

Lemma runs_change_file f g s x (Q : unit → FileState S → Prop) :
  files s !! f = Some x → Q tt (set_files (<[f := g x]> (files s)) s) → runs (change_file f g) s Q.
Proof. intros E HQ. unfold change_file. runs_step. apply (runs_deref_file f s x); [done|]. by runs_step. Qed.

(** The table operations on a table that counts its references. *)
Lemma runs_allocate s L : counts (files s) L →
  runs allocate s (λ r s', match r with
    | Some f => (f < NUM_FILES)%nat ∧ (f ∉ L) ∧ counts (files s') (disj_union {[+ f +]} L)
    | None => s' = s ∧ ∀ f, (f < NUM_FILES)%nat → f ∈ L
    end).
Proof.
  intros Hc. unfold allocate. do 2 runs_step. pose proof (free_file_spec (files s)) as Hff.
  destruct (free_file (files s)) as [f|] eqn:Ef.
  - destruct Hff as (x & Ex & Hx). runs_step. apply (runs_change_file f _ s x); [done|]. runs_step.
    assert (f < NUM_FILES)%nat as Hf.
    { apply lookup_lt_Some in Ex. destruct Hc as [E _]. apply (f_equal length) in E. unfold refs in E.
      rewrite !length_fmap, length_seq in E. lia. }
    destruct (counts_lookup _ _ _ Hc Hf) as (y & Ey & Hy). assert (y = x) as -> by congruence.
    split_and!; [done| |].
    + rewrite elem_of_multiplicity. lia.
    + rewrite Hx. change (u32 (0 + 1)) with 1. apply (counts_insert _ L); [done|done| |simpl; lia].
      intros g. rewrite multiplicity_disj_union, multiplicity_singleton.
      case_decide; subst; simpl; lia.
  - runs_step. split; [done|]. intros f Hf.
    destruct (counts_lookup _ _ _ Hc Hf) as (x & Ex & Hx). rewrite elem_of_multiplicity.
    specialize (Hff _ _ Ex). lia.
Qed.

Lemma runs_dup s L f : counts (files s) L → f ∈ L → Z.of_nat (multiplicity f L) < 2 ^ 32 - 1 →
  runs (dup f) s (λ r s', r = f ∧ counts (files s') ({[+ f +]} ⊎ L)).
Proof.
  intros Hc Hin Hm. destruct (proj2 Hc f Hin) as [Hf _].
  destruct (counts_lookup _ _ _ Hc Hf) as (x & Ex & Hx). rewrite elem_of_multiplicity in Hin.
  unfold dup. runs_step. apply (runs_deref_file f s x); [done|]. runs_step. apply runs_assert; [lia|].
  runs_step. apply (runs_change_file f _ s x); [done|]. runs_step. split; [done|].
  rewrite wrap_small by lia. apply (counts_insert _ L); [done|done| |simpl; lia].
  intros g. rewrite multiplicity_disj_union, multiplicity_singleton. simpl.
  case_decide; subst; lia.
Qed.

(** What [close] leaves of a file, and the copy it goes on with. *)
Lemma release_eq s L f : counts (files s) L → f ∈ L →
  ∃ x, files s !! f = Some x ∧ release f s =
    if decide (multiplicity f L = 1%nat)
    then Ok (Some (set_ref 0 x), set_files (<[f := set_ftype TNone (set_ref 0 x)]> (files s)) s)
    else Ok (None, set_files (<[f := set_ref (Z.of_nat (multiplicity f L) - 1) x]> (files s)) s).
Proof.
  intros Hc Hin. destruct (proj2 Hc f Hin) as [Hf Hmax].
  destruct (counts_lookup _ _ _ Hc Hf) as (x & Ex & Hx). rewrite elem_of_multiplicity in Hin.
  assert (f < length (files s))%nat as Hlen by (by apply lookup_lt_Some in Ex). exists x. split; [done|].
  destruct (runs_inv (release f) s (λ r s', Ok (r, s') = if decide (multiplicity f L = 1%nat)
    then Ok (Some (set_ref 0 x), set_files (<[f := set_ftype TNone (set_ref 0 x)]> (files s)) s)
    else Ok (None, set_files (<[f := set_ref (Z.of_nat (multiplicity f L) - 1) x]> (files s)) s)))
    as (r & s' & E & <-); [|done].
  unfold release. runs_step. apply (runs_deref_file f s x); [done|]. runs_step. apply runs_assert; [lia|].
  runs_step. apply (runs_change_file f _ s x); [done|]. runs_step. rewrite wrap_small by lia.
  eapply runs_deref_file; [by apply list_lookup_insert_eq|]. simpl.
  destruct (Z.ltb_spec 0 (frefCount x - 1)) as [Hlt|Hge].
  - runs_step. rewrite decide_False by lia. by rewrite Hx.
  - assert (frefCount x - 1 = 0) as -> by lia. rewrite decide_True by lia.
    runs_step. eapply runs_change_file; [by apply list_lookup_insert_eq|]. runs_step.
    eapply runs_change_file; [simpl; rewrite list_insert_insert_eq; by apply list_lookup_insert_eq|]. runs_step.
    simpl. rewrite !list_insert_insert_eq. done.
Qed.

(** [close]: the last reference hands its file over, with the count it has. *)
Lemma runs_release s L f : counts (files s) L → f ∈ L →
  runs (release f) s (λ r s', ifs s' = ifs s ∧ counts (files s') (L ∖ {[+ f +]}) ∧
    (is_Some r ↔ multiplicity f L = 1%nat)).
Proof.
  intros Hc Hin. destruct (proj2 Hc f Hin) as [Hf Hmax].
  destruct (counts_lookup _ _ _ Hc Hf) as (x & Ex & Hx). rewrite elem_of_multiplicity in Hin.
  unfold release. runs_step. apply (runs_deref_file f s x); [done|]. runs_step. apply runs_assert; [lia|].
  runs_step. apply (runs_change_file f _ s x); [done|]. runs_step. rewrite wrap_small by lia.
  assert (f < length (files s))%nat as Hlen by (by apply lookup_lt_Some in Ex).
  eapply runs_deref_file; [by apply list_lookup_insert_eq|]. simpl.
  assert (∀ g, multiplicity g (L ∖ {[+ f +]}) =
    if decide (g = f) then Nat.pred (multiplicity g L) else multiplicity g L) as Hdiff.
  { intros g. rewrite multiplicity_difference, multiplicity_singleton. case_decide; lia. }
  destruct (Z.ltb_spec 0 (frefCount x - 1)) as [Hlt|Hge].
  - runs_step. split_and!; [done| |split; [by intros []|lia]].
    apply (counts_insert _ L); [done|done| |simpl; lia]. intros g. rewrite Hdiff. simpl.
    case_decide; [subst; lia|done].
  - runs_step. eapply runs_change_file; [by apply list_lookup_insert_eq|]. runs_step.
    eapply runs_change_file; [simpl; rewrite list_insert_insert_eq; by apply list_lookup_insert_eq|]. runs_step.
    simpl. rewrite !list_insert_insert_eq. split_and!; [done| |split; [lia|eauto]].
    apply (counts_insert _ L); [done|done| |simpl; lia]. intros g. rewrite Hdiff. simpl.
    case_decide; [subst; lia|done].
Qed.

Lemma counts_initial : counts initial_files ∅.
Proof.
  split; [by vm_compute|]. intros f Hf. by apply gmultiset_not_elem_of_empty in Hf.
Qed.

Lemma counts_step s L s' L' : file_step (s, L) (s', L') → counts (files s) L → counts (files s') L'.
Proof.
  intros Hs Hc. remember (s, L) as a eqn:Ea. remember (s', L') as b eqn:Eb.
  destruct Hs as [s1 s2 L1 f E|s1 s2 L1 E|s1 s2 L1 f g Hf Hg E|s1 s2 L1 f Hf Hm E|s1 s2 L1 f Hf E|
    s1 s2 L1 f r a n Hf E|s1 s2 L1 f r a n Hf E]; simplify_eq.
  - pose proof (runs_allocate s L Hc) as R. unfold runs in R. rewrite E in R. apply R.
  - pose proof (runs_allocate s L Hc) as R. unfold runs in R. rewrite E in R. by destruct R as [-> _].
  - eapply counts_refs; [|exact Hc]. by eapply (keeps_change f g Hg).
  - pose proof (runs_dup s L f Hc Hf Hm) as R. unfold runs in R. rewrite E in R. apply R.
  - unfold close in E. apply bind_inv in E as (r & s1 & E1 & E2).
    pose proof (runs_release s L f Hc Hf) as R. unfold runs in R. rewrite E1 in R. destruct R as (_ & R & _).
    destruct r as [x|]; [|by injection E2 as ->]. eapply counts_refs; [|exact R].
    by eapply (keeps_drop pid x).
  - eapply counts_refs; [|exact Hc]. by eapply keeps_read.
  - eapply counts_refs; [|exact Hc]. by eapply keeps_write.
Qed.
End table.

(** ** Reading and writing an inode *)

Section inode_file.
Context {S P : Type} `{BufferOps S P} (dev : Z) `{!BufferLaws S P dev}.
Variable pid : Z.
Variable pageTable : Z.
Variable uart_device : list access → Z → Z.
Variable polls : nat.
Implicit Types (s : FileState S) (v : view P) (x : File) (i : Inode).

Lemma runs_on_ifs {A} (c : M (IFS S) A) s (Q : A → FileState S → Prop) :
  runs c (ifs s) (λ a y, Q a (set_ifs y s)) → runs (on_ifs c) s Q.
Proof. unfold runs, on_ifs. by destruct (c (ifs s)) as [[a y]|]. Qed.

Lemma runs_inode_of x ip s (Q : positive → FileState S → Prop) :
  fip x = Some ip → Q ip s → runs (inode_of x) s Q.
Proof. intros E HQ. unfold inode_of. rewrite E. by runs_step. Qed.

(** The file [x] is open on the inode [ip], which is loaded and not locked; all
    its bytes are in allocated direct blocks. *)
Record open_inode (X : gset Z) s v (f : nat) x (ip : positive) i : Prop := {
  oi_file : files s !! f = Some x;
  oi_type : ftype x = TInode;
  oi_ip : fip x = Some ip;
  oi_cell : cells (ifs s) !! ip = Some i;
  oi_dev : device i = dev;
  oi_refs : 1 <= Inode.refCount i;
  oi_free : imutex i = SleepMutex.unlocked;
  oi_valid : ivalid i = true;
  oi_size : 0 <= isize (fields i) < 2 ^ 31;
  oi_offset : 0 <= offset x <= isize (fields i);
  oi_mapped : mapped X v (fields i) 0 (isize (fields i));
}.

Definition locked_by (i : Inode) : Inode := set_imutex (SleepMutex.mkSleepMutex true pid) i.

(** [lock] and [unlock] of a loaded inode. *)
Lemma runs_ilock_valid ip i (y : IFS S) (Q : unit → IFS S → Prop) :
  cells y !! ip = Some i → 1 <= Inode.refCount i → imutex i = SleepMutex.unlocked → ivalid i = true →
  Q tt (set_cells (<[ip := locked_by i]> (cells y)) y) → runs (ilock pid ip) y Q.
Proof.
  intros Hc Hr Hm Hv HQ. unfold ilock. runs_step. apply (runs_deref ip i); [done|].
  runs_step. apply runs_assert; [lia|]. rewrite Hm, SleepMutex.lock_free, Hv. runs_step.
  apply (runs_ichange ip _ i); [done|]. by runs_step.
Qed.

Lemma runs_iunlock ip i (y : IFS S) (Q : unit → IFS S → Prop) :
  cells y !! ip = Some (locked_by i) → 1 <= Inode.refCount i → imutex i = SleepMutex.unlocked →
  Q tt (set_cells (<[ip := i]> (cells y)) y) → runs (iunlock pid ip) y Q.
Proof.
  intros Hc Hr Hm HQ. unfold iunlock. runs_step. apply (runs_deref ip (locked_by i)); [done|].
  runs_step. apply runs_assert; [apply SleepMutex.holding_locked|].
  runs_step. apply runs_assert; [simpl; lia|]. eapply runs_ichange; [done|].
  assert (set_imutex (SleepMutex.unlock (imutex (locked_by i))) (locked_by i) = i) as ->; [|done].
  destruct i as [? ? ? m ? ?]. simpl in Hm. by subst.
Qed.

(** One [read]. *)
Lemma runs_read (D : Destination pageTable true) X s v f x ip i address n :
  open_inode X s v f x ip i → readable x = true → txn_state dev X (base (ifs s)) v →
  0 <= n < 2 ^ 31 → 0 <= address → address + n < 2 ^ 64 →
  let m := Z.min n (isize (fields i) - offset x) in
  d_can D (kernel (ifs s)) address m →
  runs (read pid pageTable uart_device polls f address n) s (λ r s', r = m ∧ ∃ v',
    open_inode X s' v' f (set_offset (offset x + m) x) ip i ∧ txn_state dev X (base (ifs s')) v' ∧
    same_contents v v' ∧
    d_put D (kernel (ifs s)) address (file_bytes v (fields i) (offset x) (Z.to_nat m)) (kernel (ifs s'))).
Proof.
  intros [Hf Hty Hip Hc Hdev Hr Hm Hv Hsz Hoff Hmap] Hread T Hn Ha Han m Hcan.
  unfold read. runs_step. apply (runs_deref_file f s x); [done|]. rewrite Hread, Hty. cbn [negb].
  runs_step. apply (runs_inode_of x ip); [done|]. runs_step. apply runs_on_ifs.
  apply (runs_ilock_valid ip i); [done..|]. runs_step. apply runs_on_ifs.
  set (y := set_cells _ _). rewrite wrap_small by lia.
  assert (Z.max 0 (Z.min n (isize (fields (locked_by i)) - offset x)) = m) as Em by (unfold m; simpl; lia).
  eapply runs_mono.
  { apply (runs_iread dev D X y v ip (locked_by i) address (offset x) n); try done; try lia.
    - apply lookup_insert_eq.
    - simpl. lia.
    - rewrite Em. eapply mapped_held; [by intros| | |exact Hmap]; lia.
    - rewrite Em. done. }
  intros r s1 (-> & b' & v' & m' & -> & Hp & _ & T' & Hsc). rewrite Em in *. cbn [fields locked_by set_imutex] in Hp.
  assert (files (set_ifs (mkIFS b' (inodes y) (cells y) m') s) !! f = Some x) as Hf' by done.
  set (s1 := set_ifs _ s) in *.
  assert (runs (if 0 <? m then change_file f (λ x, set_offset (u32 (offset x + m)) x) else mret tt) s1
    (λ _ s2, s2 = set_files (<[f := set_offset (offset x + m) x]> (files s)) s1)) as (? & s2 & E2 & Hs2)%runs_inv.
  { destruct (Z.ltb_spec 0 m).
    - apply (runs_change_file f _ s1 x); [done|]. rewrite wrap_small by lia. done.
    - runs_step. replace (offset x + m) with (offset x) by lia. unfold s1, set_files, set_ifs. simpl.
      f_equal. symmetry. apply list_insert_id. rewrite Hf. by destruct x. }
  runs_step. eapply runs_ok; [exact E2|]. subst s2. runs_step. apply runs_on_ifs.
  apply (runs_iunlock ip i); [apply lookup_insert_eq|done|done|]. runs_step. split; [done|].
  exists v'. split_and!; [|done|done|done]. split; simpl; try done.
  - apply list_lookup_insert_eq. by apply lookup_lt_Some in Hf.
  - apply lookup_insert_eq.
  - change (0 <= offset x + m <= isize (fields i)). unfold m. lia.
  - by eapply mapped_same.
Qed.
(** A program's reads, one after the other: addresses and counts. *)
Fixpoint read_all (f : nat) (reqs : list (Z * Z)) : M (FileState S) (list Z) :=
  match reqs with
  | [] => mret []
  | (a, n) :: reqs' =>
      r ← read pid pageTable uart_device polls f a n;
      rs ← read_all f reqs';
      mret (r :: rs)
  end.

(** The chunks are stored at the addresses of the requests, in order. *)
Fixpoint puts (D : Destination pageTable true) (m : KMem) (reqs : list (Z * Z)) (chunks : list bytes) (m' : KMem) : Prop :=
  match reqs, chunks with
  | [], [] => m' = m
  | (a, _) :: reqs', c :: chunks' => ∃ m1, d_put D m a c m1 ∧ puts D m1 reqs' chunks' m'
  | _, _ => False
  end.

Definition total (reqs : list (Z * Z)) : Z := foldr (λ r t, r.2 + t) 0 reqs.

(** A request that can be served. *)
Definition served (D : Destination pageTable true) (m : KMem) (r : Z * Z) : Prop :=
  0 <= r.2 < 2 ^ 31 ∧ 0 <= r.1 ∧ r.1 + r.2 < 2 ^ 64 ∧ d_can D m r.1 r.2.

Lemma total_nonneg D m reqs : Forall (served D m) reqs → 0 <= total reqs.
Proof. induction 1 as [|r reqs (? & _) _ IH]; simpl; lia. Qed.

Lemma runs_read_all (D : Destination pageTable true) X s v f x ip i reqs :
  open_inode X s v f x ip i → readable x = true → txn_state dev X (base (ifs s)) v →
  Forall (served D (kernel (ifs s))) reqs →
  let m := Z.min (total reqs) (isize (fields i) - offset x) in
  runs (read_all f reqs) s (λ rs s', ∃ chunks v', rs = (λ c : bytes, Z.of_nat (length c)) <$> chunks ∧
    concat chunks = file_bytes v (fields i) (offset x) (Z.to_nat m) ∧
    puts D (kernel (ifs s)) reqs chunks (kernel (ifs s')) ∧
    open_inode X s' v' f (set_offset (offset x + m) x) ip i ∧ same_contents v v').
Proof.
  revert s v x. induction reqs as [|[a n] reqs IH]; intros s v x Ho Hr T Hreqs m; cbn [read_all].
  { runs_step. pose proof (oi_offset _ _ _ _ _ _ _ Ho). assert (m = 0) as -> by (unfold m; simpl; lia).
    exists [], v. split_and!; [done|done|done| |apply same_contents_refl].
    rewrite Z.add_0_r. by destruct x. }
  pose proof (total_nonneg _ _ _ Hreqs) as Ht.
  apply Forall_cons in Hreqs as [(Hn & Ha & Han & Hcan) Hreqs]. simpl in Hn, Ha, Han, Hcan.
  pose proof (total_nonneg _ _ _ Hreqs) as Ht'. pose proof (oi_offset _ _ _ _ _ _ _ Ho) as Hoff.
  set (k := Z.min n (isize (fields i) - offset x)).
  assert (d_can D (kernel (ifs s)) a k) as Hcan' by (eapply d_less; [exact Hcan|unfold k; lia]).
  runs_step. eapply runs_mono; [by apply (runs_read D X s v f x ip i a n)|]. fold k.
  intros r s1 (-> & v1 & Ho1 & T1 & Hsc & Hp). runs_step. set (c := file_bytes v _ _ _) in *.
  assert (Z.of_nat (length c) = k) as Ec by (unfold c, k; rewrite length_file_bytes; lia).
  eapply runs_mono; [apply (IH s1 v1 _ Ho1 Hr T1)|].
  - eapply Forall_impl; [exact Hreqs|]. intros r (? & ? & ? & Hc). split_and!; try lia.
    eapply d_keep; [exact Hc| |exact Hp]. by rewrite Ec.
  - set (m2 := Z.min (total reqs) _). intros rs s2 (chunks & v2 & -> & Econ & Hps & Ho2 & Hsc2). runs_step.
    assert (m = k + m2) as Em.
    { unfold m, m2, k. change (offset (set_offset ?o x)) with o. simpl. lia. }
    exists (c :: chunks), v2. split_and!.
    + by rewrite <- Ec.
    + change (concat (c :: chunks)) with (c ++ concat chunks).
      rewrite Econ, (file_bytes_same v v1) by done. change (offset (set_offset ?o x)) with o.
      rewrite Em, Z2Nat.inj_add, file_bytes_app by (unfold m2, k; change (offset (set_offset ?o x)) with o; lia).
      unfold c. rewrite Z2Nat.id by (unfold k; lia). done.
    + by exists (kernel (ifs s1)).
    + rewrite Em. replace (offset x + (k + m2)) with (offset (set_offset (offset x + k) x) + m2) by (unfold offset; simpl; lia).
      exact Ho2.
    + by eapply same_contents_trans.
Qed.
End inode_file.

(** *** A concrete state, for the witnesses *)

Definition demo_files (b : IFS BufferCache) : FileState BufferCache :=
  mkFileState b (mkConsole (replicate 1024 0) 0 0 0 (mkUart [] (replicate 32 0) 0 0 []) (mkKMem ∅ 0 0) 0) initial_files initial_devices.

(** ** Properties *)

(** C34: the table of open files counts references.  Starting from the empty
    table, after any sequence of [allocate], [dup], [close], [read], [write] and
    of settings of the members of open files, by users that hold the references
    they use, every file's count is the number of references to it; [allocate]
    then returns a file without references, and the null pointer only when all
    200 are in use; and [close] of a held reference counts down and does nothing
    else, unless the reference is the last one: then it frees the entry and, for a
    file or a device, puts the inode of the entry inside an operation of the
    log. *)
Theorem file_table_counts_references {S P : Type} `{BufferOps S P} (pid pageTable : Z)
    (uart_device : list access → Z → Z) (polls : nat) (s s' : FileState S) (L : gmultiset nat)
    (Hinit : files s = initial_files) (Hsteps : rtc (file_step pid pageTable uart_device polls) (s, ∅) (s', L)) :
  counts (files s') L ∧
  runs allocate s' (λ r _, match r with
    | Some f => f ∉ L
    | None => ∀ f, (f < NUM_FILES)%nat → f ∈ L
    end) ∧
  ∀ f, f ∈ L → ∃ x, files s' !! f = Some x ∧ close pid f s' =
    if decide (multiplicity f L = 1%nat) then
      match ftype x with
      | TInode | TDevice =>
          on_ifs (on_base beginOp) ;; ip ← inode_of x; on_ifs (iput pid ip) ;; on_ifs (on_base endOp)
      | TNone | TPipe => mret tt
      end (set_files (<[f := set_ftype TNone (set_ref 0 x)]> (files s')) s')
    else Ok (tt, set_files (<[f := set_ref (Z.of_nat (multiplicity f L) - 1) x]> (files s')) s').
Proof.
  assert (counts (files s') L) as Hc.
  { remember (s, ∅) as a eqn:Ea. remember (s', L) as b eqn:Eb.
    assert (counts (files a.1) a.2) as Ha by (subst; simpl; rewrite Hinit; apply counts_initial).
    change (counts (files (s', L).1) (s', L).2). rewrite <- Eb. clear Ea Eb.
    induction Hsteps as [|[s1 L1] [s2 L2] b Hs _ IH]; [done|]. apply IH. by eapply counts_step. }
  split_and!; [done| |].
  - eapply runs_mono; [by apply (runs_allocate s' L)|]. intros [f|] s''; [by intros (_ & ? & _)|by intros [_ ?]].
  - intros f Hf. destruct (release_eq s' L f Hc Hf) as (x & Ex & E). exists x. split; [done|].
    unfold close, mbind at 1, M_bind at 1. rewrite E. case_decide; [|done].
    unfold drop_inode. by destruct x as [[] ? ? ? ? ?].
Qed.

Lemma file_table_counts_references_witness : ∃ s',
  rtc (file_step 1 0 (λ _ _, 0) 0) (demo_files demo_ifs, ∅) (s', {[+ 0%nat +]} ⊎ ({[+ 0%nat +]} ⊎ ∅)) ∧
  counts (files s') ({[+ 0%nat +]} ⊎ ({[+ 0%nat +]} ⊎ ∅)) ∧
  ∃ x, close 1 0 s' = Ok (tt, set_files (<[0%nat := set_ref 1 x]> (files s')) s').
Proof.
  assert (∃ s', rtc (file_step 1 0 (λ _ _, 0) 0) (demo_files demo_ifs, ∅)
    (s', {[+ 0%nat +]} ⊎ ({[+ 0%nat +]} ⊎ ∅))) as [s' Hs].
  { eexists. eapply rtc_l; [by eapply step_allocate|]. eapply rtc_l; [|apply rtc_refl].
    eapply step_dup; [|by vm_compute|reflexivity]. by apply gmultiset_elem_of_disj_union; left; apply gmultiset_elem_of_singleton. }
  destruct (file_table_counts_references 1 0 (λ _ _, 0) 0 (demo_files demo_ifs) s' _ eq_refl Hs) as (Hc & _ & Hclose).
  exists s'. split; [exact Hs|]. split; [exact Hc|].
  destruct (Hclose 0%nat) as (x & _ & E); [by apply gmultiset_elem_of_disj_union; left; apply gmultiset_elem_of_singleton|].
  exists x. rewrite E. reflexivity.
Defined.

(** Reads through a file go on where the last one ended.  A sequence of
    [read]s of an open file returns consecutive pieces of its bytes: each is
    stored at the address of its request, together they are the bytes from the
    file's offset to the end of the requests or of the file, and the offset ends
    behind them; the inode is unlocked again and the contents of the disk are
    unchanged. *)
Theorem sequential_reads {S P : Type} `{BufferOps S P} (dev : Z) `{!BufferLaws S P dev}
    (pid pageTable : Z) (uart_device : list access → Z → Z) (polls : nat)
    (D : Destination pageTable true) (X : gset Z) (s : FileState S) (v : view P) (f : nat) (x : File)
    (ip : positive) (i : Inode) (reqs : list (Z * Z))
    (Hopen : open_inode dev X s v f x ip i) (Hread : readable x = true)
    (Htxn : txn_state dev X (base (ifs s)) v) (Hreqs : Forall (served pageTable D (kernel (ifs s))) reqs) :
  let m := Z.min (total reqs) (isize (fields i) - offset x) in
  ∃ s' chunks v', read_all pid pageTable uart_device polls f reqs s = Ok ((λ c : bytes, Z.of_nat (length c)) <$> chunks, s') ∧
    concat chunks = file_bytes v (fields i) (offset x) (Z.to_nat m) ∧
    puts pageTable D (kernel (ifs s)) reqs chunks (kernel (ifs s')) ∧
    open_inode dev X s' v' f (set_offset (offset x + m) x) ip i ∧ same_contents v v'.
Proof.
  intros m. destruct (runs_inv _ _ _ (runs_read_all dev pid pageTable uart_device polls D X s v f x ip i reqs
    Hopen Hread Htxn Hreqs)) as (rs & s' & E & chunks & v' & -> & HH).
  by exists s', chunks, v'.
Qed.

(** The file of [Inode.demo_ifs], open at offset 2. *)
Definition demo_open (m : KMem) : FileState BufferCache :=
  let y := mkIFS (base demo_ifs) (inodes demo_ifs) (cells demo_ifs) m in
  let s := demo_files y in
  mkFileState y (cons s) (<[0%nat := mkFile TInode 1 true true (Some 1%positive) 2]> (files s)) (deviceMap s).

Lemma demo_open_inode m : open_inode 1 {[60; 64]} (demo_open m) demo_view 0 (mkFile TInode 1 true true (Some 1%positive) 2) 1 demo_inode.
Proof.
  split; try done; try (simpl; lia).
  - intros k Hk. simpl in Hk. assert (k / BLOCK_SIZE = 0) as -> by (unfold BLOCK_SIZE; dlia).
    exists 60. split_and!; [done|done|set_solver|done|done].
Qed.

Lemma sequential_reads_witness : ∃ m s' chunks,
  read_all 1 0x1000 (λ _ _, 0) 0 0 [(0x5000, 3); (0x5ff0, 8)] (demo_open m) =
    Ok ((λ c : bytes, Z.of_nat (length c)) <$> chunks, s') ∧ concat chunks = [255; 255; 255; 255].
Proof.
  destruct demo_user as (m & N & l & Hw & Hr & Hs & Hu). exists m.
  destruct (sequential_reads 1 1 0x1000 (λ _ _, 0) 0 (user_destination 0x1000 N l 0x1000 Hr) {[60; 64]} (demo_open m)
    demo_view 0 _ 1 demo_inode [(0x5000, 3); (0x5ff0, 8)] (demo_open_inode m)) as (s' & chunks & v' & E & Hc & _).
  - done.
  - apply demo_txn.
  - repeat apply Forall_cons_2; [..|by apply Forall_nil_2]; split_and!; simpl; try lia;
      (split; [exact Hw|split; [exact Hs|]]); intros j Hj.
    + rewrite Hu by lia. eauto.
    + replace (0x5ff0 + j) with (0x5000 + (0xff0 + j)) by lia. rewrite Hu by lia. eauto.
  - exists s', chunks. split; [exact E|]. rewrite Hc. reflexivity.
Defined.

End File.
