(* ===== verification/FileWrite.v ===== *)
(** * Writing through an open file

    [File::write] of [kernel/fs/file.cpp], end to end: the loop that cuts a write
    into operations of the log, each with [beginOp], [Inode::write] and the commit
    of [endOp]; what is on the disk when it returns, and after a crash at any of its
    disk writes. *)

From S2P Require Import Prelude CString HashMap Address Page PageTable Uvm Ring Uart Console SleepMutex Buffer FsState Log Txn Block Inode InodeWrite File.
Import CString HashMap Address Page PageTable Uvm Ring Uart Console Buffer FsState Log Txn Block Inode InodeWrite File.

Module FileWrite.

(** ** Definitions *)

Section definitions.
Context {S P : Type} `{BufferOps S P} (dev : Z) `{!BufferLaws S P dev}.
Implicit Types (s : FileState S) (v : view P) (x : File) (i : Inode).

(** The blocks as they are on the disk: what a reboot finds. *)
Definition on_disk v : view P := mkView (v_disk v) [] ∅.

(** The block of the inode [i]. *)
Definition inode_block s i : Z := iblock (inum i) (superBlock (base (ifs s))).

(** Between two operations: the file [x] is open on the inode [i], whose blocks
    are all different and not the inode's own, and the log has room for an
    operation. *)
Record writing (X : gset Z) s v (f : nat) x (ip : positive) i : Prop := {
  wg_quiet : quiet dev X (base (ifs s)) v;
  wg_open : open_inode dev X s v f x ip i;
  wg_store : storable dev X (superBlock (base (ifs s))) v i;
  wg_distinct : distinct (fields i);
  wg_block : ∀ j : nat, directBlocks (fields i) !! j ≠ Some (inode_block s i);
  wg_room : 6 <= size (log (base (ifs s))) <= 2 ^ 32;
}.

(** What a write of [bs] leaves: the inode [i'] with its new size, the bytes
    written over the old contents, in memory and on the disk, and every block
    outside the file and its inode as it was. *)
Record written s v i s' v' i' (off : Z) (bs : bytes) : Prop := {
  wn_inode : i' = set_fields (set_size (Z.max (isize (fields i)) (off + Z.of_nat (length bs))) (fields i)) i;
  wn_bytes : file_bytes v' (fields i') 0 (Z.to_nat (isize (fields i'))) =
    splice (Z.to_nat off) bs (file_bytes v (fields i) 0 (Z.to_nat (isize (fields i))));
  wn_stored : read_dinode (cur v' (inode_block s i)) (ioffset (inum i)) = fields i';
  wn_other : ∀ b, b ≠ inode_block s i → b ∉ directBlocks (fields i) →
    ¬ in_log (start (log (base (ifs s)))) b → cur v' b = cur v b;
  wn_super : superBlock (base (ifs s')) = superBlock (base (ifs s));
  wn_start : start (log (base (ifs s'))) = start (log (base (ifs s)));
  wn_kernel : kernel (ifs s') = kernel (ifs s);
}.

(** The disk [d] holds the file of [i] as it was in [v], with [bs] written at
    [off] and its inode with the size that goes with it, and every block outside
    the file, its inode and the log as it was. *)
Record disk_holds s v i (off : Z) (bs : bytes) (d : gmap Z bytes) : Prop := {
  dh_bytes : file_bytes (mkView (P := P) d [] ∅) (fields i) 0 (Z.to_nat (Z.max (isize (fields i)) (off + Z.of_nat (length bs)))) =
    splice (Z.to_nat off) bs (file_bytes v (fields i) 0 (Z.to_nat (isize (fields i))));
  dh_inode : read_dinode (dblock d (inode_block s i)) (ioffset (inum i)) =
    set_size (Z.max (isize (fields i)) (off + Z.of_nat (length bs))) (fields i);
  dh_other : ∀ b, b ≠ inode_block s i → b ∉ directBlocks (fields i) →
    ¬ in_log (start (log (base (ifs s)))) b → dblock d b = cur v b;
}.

(** The first [m] of [n] bytes are those of a number of whole operations. *)
Definition whole_ops (m n : nat) : Prop := (m = n ∨ ∃ r, m = 3072 * r)%nat ∧ (m <= n)%nat.

(** The log of the disk of [v] is empty and the disk has the inode of the file. *)
Definition settled s v i : Prop :=
  hdr_n (v_disk v) (start (log (base (ifs s)))) = 0 ∧
  read_dinode (cur v (inode_block s i)) (ioffset (inum i)) = fields i.

(** The disk writes [ws] that write [bs] at [off]: stopping after any number of
    them leaves a disk whose recovery holds the file with the first bytes of [bs]
    written, those of a number of whole operations. *)
Definition crash_prefix s v i (off : Z) (bs : bytes) (ws : list (Z * bytes)) : Prop :=
  ∀ ws1, ws1 `prefix_of` ws → let d := replay (v_disk v) ws1 in let st := start (log (base (ifs s))) in
    hdr_ok d st ∧ ∃ m, whole_ops m (length bs) ∧ disk_holds s v i off (take m bs) (recovered d st).
End definitions.

(** ** Lemmas *)

Lemma splice_splice k bs1 bs2 l : (k <= length l)%nat →
  splice (k + length bs1) bs2 (splice k bs1 l) = splice k (bs1 ++ bs2) l.
Proof.
  intros Hk. unfold splice.
  rewrite take_app_ge, length_take, Nat.min_l by (rewrite ?length_take; lia).
  replace (k + length bs1 - k)%nat with (length bs1) by lia. rewrite take_app_length.
  rewrite drop_app_ge by (rewrite length_take; lia). rewrite length_take, Nat.min_l by lia.
  rewrite drop_app_ge by lia. rewrite drop_drop, length_app, <- !app_assoc. do 4 f_equal. lia.
Qed.

Lemma length_splice k bs l : (k <= length l)%nat →
  length (splice k bs l) = Nat.max (length l) (k + length bs).
Proof. intros Hk. unfold splice. rewrite !length_app, length_take, length_drop. lia. Qed.

Lemma splice_nil k l : splice k [] l = l.
Proof. unfold splice. simpl. by rewrite Nat.add_0_r, take_drop. Qed.

Lemma whole_ops_small (m n : nat) : whole_ops m n → Z.of_nat n < 3072 → m = 0%nat ∨ m = n.
Proof. intros [[->|[r ->]] Hm] Hn; [by right|left]. destruct (decide (r = 0%nat)) as [->|]; lia. Qed.

Section lemmas.
Context {S P : Type} `{BufferOps S P} (dev : Z) `{!BufferLaws S P dev}.
Implicit Types (s : FileState S) (v : view P) (x : File) (i : Inode).

(** In a quiet state the disk has everything. *)
Lemma quiet_disk X (b : FS S) v : quiet dev X b v → ∀ n, cur v n = dblock (v_disk v) n.
Proof.
  intros [[_ Hok] Hh _ _ Hn] n. unfold cur. destruct (v_cache v !! n) as [cb|] eqn:E; [|done].
  destruct (ok_refs _ _ _ _ Hok _ _ E) as [Hr Hr1]. specialize (Hh n). unfold is_held in Hh. rewrite E in Hh.
  rewrite Hh in Hr. assert (txn (log b) = []) as Et by (unfold txn; by rewrite Hn).
  rewrite Et, decide_False in Hr by apply not_elem_of_nil. lia.
Qed.

Lemma file_bytes_disk X (b : FS S) v d off n : quiet dev X b v →
  file_bytes (on_disk v) d off n = file_bytes v d off n.
Proof.
  intros Hq. apply list_fmap_ext. intros j k _. unfold file_byte.
  rewrite (quiet_disk X b v Hq). unfold cur, on_disk. simpl. by rewrite lookup_empty.
Qed.

(** The bytes of mapped blocks, under a change that keeps blocks outside the log. *)
Lemma file_bytes_mapped X v v' d st (m : nat) :
  (∀ b, b ∈ X → ¬ in_log st b) → (∀ b, ¬ in_log st b → cur v' b = cur v b) →
  mapped X v d 0 (Z.of_nat m) → file_bytes v' d 0 m = file_bytes v d 0 m.
Proof.
  intros HX Hc Hm. apply file_bytes_ext; [done|]. intros k Hk. destruct (Hm k Hk) as (b & Eb & _ & Hb & _).
  unfold file_byte. rewrite Eb. simpl. rewrite Hc; [done|]. by apply HX.
Qed.
(** The blocks an operation of at most 3072 bytes takes. *)
Lemma blocks_of_max off n : 0 <= n <= 3072 → blocks_of off n <= 4.
Proof. intros Hn. unfold blocks_of. case_match; dlia. Qed.

Lemma mapped_union X v d off n m : 0 <= off <= n → mapped X v d 0 n → mapped X v d off m → mapped X v d 0 (Z.max n (off + m)).
Proof. intros Ho Hn Hm k Hk. destruct (decide (k < n)); [apply Hn; lia|apply Hm; lia]. Qed.

Lemma crash_atomic_from (v1 v v' : view P) st : v_disk v1 = v_disk v → v_writes v1 = v_writes v →
  crash_atomic st v1 v' → crash_atomic st v v'.
Proof. intros Ed Ew. unfold crash_atomic. by rewrite Ed, Ew. Qed.

(** The contents after the bytes are written ([v1]), the inode is stored ([v2]) and
    the operation has ended ([v3]). *)
Lemma written_views X v v1 v2 v3 d blk st ofs off bs (sz := Z.max (isize d) (off + Z.of_nat (length bs))) :
  dinode_ok (set_size sz d) → (∀ j : nat, directBlocks d !! j ≠ Some blk) → 0 <= off <= isize d →
  mapped X v d 0 sz → blk ∈ X → (∀ b, b ∈ X → ¬ in_log st b) → 0 <= ofs → ofs + 64 <= 1024 →
  wrote v v1 d off bs → is_block (cur v1 blk) → same_but blk v1 v2 → (∀ b, is_held v2 b = false) →
  cur v2 blk = write_dinode (cur v1 blk) ofs (set_size sz d) → (∀ b, ¬ in_log st b → cur v3 b = cur v2 b) →
  file_bytes v3 d 0 (Z.to_nat sz) = splice (Z.to_nat off) bs (file_bytes v d 0 (Z.to_nat (isize d))) ∧
  read_dinode (cur v3 blk) ofs = set_size sz d ∧
  ∀ b, b ≠ blk → b ∉ directBlocks d → ¬ in_log st b → cur v3 b = cur v b.
Proof.
  intros Hok Hnb Ho Hm HX Hl Hofs Hofs' W Hblk B Hh C Hcur. pose proof (proj1 (di_direct _ Hok)) as H12.
  pose proof (mapped_limit X v d 0 sz ltac:(lia) Hm) as Hlim. split_and!.
  - rewrite (file_bytes_mapped X v2 v3 _ st _ Hl Hcur).
    2: { rewrite Z2Nat.id by lia. eapply (mapped_held X v v2); [by intros b _| | |exact Hm]; lia. }
    rewrite (file_bytes_same_but v1 v2 _ blk); [|lia|lia|done|apply Hnb|done].
    rewrite <- (wrote_file_bytes v v1); [|lia|done]. f_equal. lia.
  - rewrite Hcur, C by (by apply Hl). by apply read_write_dinode.
  - intros b Hb Hnf Hlb. rewrite Hcur, (cur_same_but blk v1 v2), (wr_other _ _ _ _ _ W); try done.
    intros j Hj Hjb. apply Hnf. by eapply list_elem_of_lookup_2.
Qed.

(** The file stays open when its inode grows and its offset moves. *)
Lemma open_inode_grow X s v f x ip i s' v' sz o : open_inode dev X s v f x ip i →
  files s' = <[f := set_offset o x]> (files s) → cells (ifs s') !! ip = Some (set_fields (set_size sz (fields i)) i) →
  0 <= sz < 2 ^ 31 → 0 <= o <= sz → mapped X v (fields i) 0 sz → (∀ b, is_held v' b = false) →
  open_inode dev X s' v' f (set_offset o x) ip (set_fields (set_size sz (fields i)) i).
Proof.
  intros [Hf Hty Hip Hc Hdev Hr Hm Hv _ _ _] Ef Ec Hsz Ho Hmap Hh. split; try done.
  - rewrite Ef. apply list_lookup_insert_eq. by apply lookup_lt_Some in Hf.
  - apply (mapped_held X v v' (fields i) 0 sz); [by intros b _|lia|simpl; lia|exact Hmap].
Qed.

(** One round: an operation that writes [bs]. *)
Lemma runs_write_round pid pageTable (D : Source pageTable true) X s v f x ip i address k bs :
  writing dev X s v f x ip i → 0 < Z.of_nat (length bs) <= 3072 →
  mapped X v (fields i) (offset x) (Z.of_nat (length bs)) → offset x + Z.of_nat (length bs) <= 12288 →
  0 <= address + k → address + k + Z.of_nat (length bs) < 2 ^ 64 → s_has D (kernel (ifs s)) (address + k) bs →
  runs (write_round pid pageTable f ip address k (Z.of_nat (length bs))) s (λ res s', res = Z.of_nat (length bs) ∧
    ∃ v' i', writing dev X s' v' f (set_offset (offset x + Z.of_nat (length bs)) x) ip i' ∧
      written s v i s' v' i' (offset x) bs ∧ crash_atomic (start (log (base (ifs s)))) v v').
Proof.
  intros [Hq Hopen Hst Hd Hnb Hroom] Hlen Hmap1 Hmax Ha Han Hs.
  pose proof Hopen as [Hf Hty Hip Hc Hdev Hr Hm Hv Hsz Hoff Hmap].
  set (n := Z.of_nat (length bs)) in *. unfold write_round.
  runs_step. apply runs_on_ifs, runs_on_base, (runs_beginOp dev X _ v _ Hq).
  intros b1 Es1 _ Est1 Esz1 Eo1 Ec1 En1 T1.
  runs_step. apply runs_on_ifs. apply (runs_ilock_valid pid ip i); [done..|].
  runs_step. apply (runs_deref_file f _ x); [done|]. runs_step. apply runs_on_ifs.
  set (y := set_cells _ _). rewrite (wrap_small 64), (wrap_small 32) by lia.
  pose proof (blocks_of_max (offset x) n ltac:(lia)) as Hblk4.
  destruct Hst as (Hs1 & Hok & Hs3 & HX & Hs5).
  eapply runs_mono.
  { apply (runs_iwrite dev D X y v ip (locked_by pid i) (address + k) (offset x) bs); fold n; try done; try lia.
    - apply lookup_insert_eq.
    - cbn [base y set_cells set_base ifs set_ifs]. rewrite Es1. by split_and!.
    - intros j. cbn [base y set_cells set_base ifs set_ifs]. rewrite Es1. apply Hnb.
    - change (MAX_FILE * BLOCK_SIZE) with 274432. lia.
    - unfold room. cbn [base y set_cells set_base ifs set_ifs]. rewrite En1, Esz1, Eo1.
      unfold LOG_SIZE, MAX_OP_BLOCKS. lia. }
  fold n. cbn [fields inum locked_by set_imutex]. cbn [base y set_cells set_base ifs set_ifs].
  rewrite Es1. intros res y' (-> & b' & v1 & v' & Wf & St & W & Hblock & B & Hh & C).
  set (blk := iblock (inum i) (superBlock (base (ifs s)))) in *.
  set (d' := set_size (Z.max (isize (fields i)) (offset x + n)) (fields i)) in *.
  set (i' := set_fields d' i). destruct Wf as (Eb & Ein & Ek & Ec & Eo).
  runs_step. rewrite (proj2 (Z.ltb_lt 0 n)) by lia. eapply runs_change_file; [exact Hf|]. rewrite wrap_small by lia.
  runs_step. apply runs_on_ifs. apply (runs_iunlock pid ip i'); [exact Ec|done|done|].
  destruct St as (Es2 & _ & T' & Esz2 & Est2 & Eo2 & Ec2 & _).
  assert (superBlock b' = superBlock (base (ifs s))) as Esb by congruence.
  assert (∀ b, is_held v' b = false) as Hheld.
  { intros b. destruct (decide (b = blk)) as [->|Hne]; [done|].
    rewrite (is_held_same_but blk v1 v') by done. apply (wr_held _ _ _ _ _ W), Hq. }
  runs_step. apply runs_on_ifs, runs_on_base. cbn [base set_cells ifs set_ifs set_files]. rewrite Eb.
  apply (runs_endOp_last dev X b' v'); [done|done|congruence|congruence|].
  intros b'' v'' Hq'' Es3 Est3 Esz3 Hcur Hcrash. runs_step. split; [done|]. exists v'', i'.
  assert (mapped X v (fields i) 0 (isize d')) as Hmapd by (unfold d'; apply mapped_union; [lia|done..]).
  pose proof (mapped_limit X v (fields i) 0 (isize d') ltac:(lia) Hmapd) as Hlim.
  assert (start (log b') = start (log (base (ifs s)))) as Est by congruence. rewrite Est in Hcur, Hcrash.
  assert (∀ b, b ∈ X → ¬ in_log (start (log (base (ifs s)))) b) as HXl.
  { intros b Hb. rewrite <- Est. apply (ok_X _ _ _ _ (proj2 T') b Hb). }
  assert (dinode_ok d') as Hok'.
  { apply set_size_ok; [done|]. unfold u32_range. unfold d' in Hlim. cbn [isize set_size] in Hlim. lia. }
  pose proof (ioffset_range (inum i)) as [Hio Hio'].
  destruct (written_views X v v1 v' v'' (fields i) blk _ _ (offset x) bs Hok' Hnb Hoff
    Hmapd HX HXl Hio Hio' W Hblock B Hheld C (λ b Hb, proj1 (Hcur b Hb))) as (Hbytes & Hstored & Hother).
  cbn [base set_base ifs set_ifs set_files set_cells files kernel cells inodes].
  split; [split|split; [split|]].
  - exact Hq''.
  - eapply open_inode_grow; try done; cbn [cells set_base ifs set_ifs set_cells set_files]; try lia.
    + apply lookup_insert_eq.
    + apply Hq''.
  - cbn [base set_base ifs set_ifs set_files set_cells]. rewrite Es3, Esb. split_and!; [done|exact Hok'|done|done|apply Hq''].
  - done.
  - unfold inode_block. cbn [base set_base ifs set_ifs set_files set_cells]. rewrite Es3, Esb. apply Hnb.
  - cbn [base set_base ifs set_ifs set_files set_cells]. rewrite Esz3, Esz2, Esz1. exact Hroom.
  - done.
  - exact Hbytes.
  - exact Hstored.
  - exact Hother.
  - cbn [base set_base ifs set_ifs set_files set_cells]. congruence.
  - cbn [base set_base ifs set_ifs set_files set_cells]. congruence.
  - exact Ek.
  - destruct (wr_disk _ _ _ _ _ W) as [Ed Ew], B as (Ed' & Ew' & _).
    apply (crash_atomic_from v' v v''); [congruence|congruence|exact Hcrash].
Qed.

Lemma written_trans s v i s1 v1 i1 s2 v2 i2 off bs1 bs2 :
  0 <= off <= isize (fields i) → written s v i s1 v1 i1 off bs1 →
  written s1 v1 i1 s2 v2 i2 (off + Z.of_nat (length bs1)) bs2 → written s v i s2 v2 i2 off (bs1 ++ bs2).
Proof.
  intros Ho [I1 B1 D1 O1 S1 L1 K1] [I2 B2 D2 O2 S2 L2 K2].
  assert (inode_block s1 i1 = inode_block s i ∧ inum i1 = inum i ∧ directBlocks (fields i1) = directBlocks (fields i) ∧
    isize (fields i1) = Z.max (isize (fields i)) (off + Z.of_nat (length bs1))) as (E1 & E2 & E3 & E4).
  { unfold inode_block. rewrite S1, I1. by split_and!. }
  split.
  - rewrite I2, E4, I1, length_app, Nat2Z.inj_add. unfold set_fields, set_size.
    cbn [fields device inum Inode.refCount imutex ivalid Inode.type Inode.major minor numLinks isize directBlocks indirectBlock].
    do 2 f_equal. lia.
  - rewrite B2, B1. replace (Z.to_nat (off + Z.of_nat (length bs1))) with (Z.to_nat off + length bs1)%nat by lia.
    apply splice_splice. rewrite length_file_bytes. lia.
  - by rewrite <- E1, <- E2.
  - intros b Hb Hnf Hl. rewrite O2, O1; rewrite ?E1, ?E3, ?L1; done.
  - congruence.
  - congruence.
  - congruence.
Qed.

Lemma cur_disk_view (d : gmap Z bytes) b : cur (mkView (P := P) d [] ∅) b = dblock d b.
Proof. unfold cur. simpl. by rewrite lookup_empty. Qed.

(** A disk view and the view whose disk it is agree on bytes of blocks outside the log. *)
Lemma file_bytes_same_data X v d d' fl st (m : nat) :
  (∀ b, b ∈ X → ¬ in_log st b) → same_data st d d' → mapped X v fl 0 (Z.of_nat m) →
  file_bytes (mkView (P := P) d [] ∅) fl 0 m = file_bytes (mkView (P := P) d' [] ∅) fl 0 m.
Proof.
  intros HX E Hm. apply file_bytes_ext; [done|]. intros k Hk. destruct (Hm k Hk) as (b & Eb & _ & Hb & _).
  unfold file_byte. rewrite Eb. simpl. rewrite !cur_disk_view, E; [done|]. by apply HX.
Qed.

(** The same disk outside the log holds the same file. *)
Lemma disk_holds_same X s v i off bs d d' st : st = start (log (base (ifs s))) →
  (∀ b, b ∈ X → ¬ in_log st b) → inode_block s i ∈ X →
  mapped X v (fields i) 0 (Z.max (isize (fields i)) (off + Z.of_nat (length bs))) → 0 <= isize (fields i) →
  same_data st d d' → disk_holds s v i off bs d' → disk_holds s v i off bs d.
Proof.
  intros Est HX Hblk Hm H0 E [B D O]. split.
  - rewrite <- B. apply (file_bytes_same_data X v _ _ _ st _ HX E). by rewrite Z2Nat.id by lia.
  - rewrite E; [done|by apply HX].
  - intros b Hb Hnf Hl. rewrite E; [by apply O|by rewrite Est].
Qed.

(** Nothing written. *)
Lemma disk_holds_nil X s v i off : quiet dev X (base (ifs s)) v → settled s v i → 0 <= off <= isize (fields i) →
  disk_holds s v i off [] (v_disk v).
Proof.
  intros Hq [_ Hi] Ho. pose proof (quiet_disk X _ v Hq) as Hd. split.
  - rewrite splice_nil. simpl. rewrite Z.max_l by lia. apply (file_bytes_disk X _ v _ _ _ Hq).
  - rewrite <- Hd, Hi. simpl. rewrite Z.max_l by lia. by destruct (fields i).
  - intros b _ _ _. by rewrite Hd.
Qed.

(** Everything written. *)
Lemma disk_holds_written X s v i s' v' i' off bs : quiet dev X (base (ifs s')) v' →
  written s v i s' v' i' off bs → disk_holds s v i off bs (v_disk v').
Proof.
  intros Hq [I B D O _ _ _]. pose proof (quiet_disk X _ v' Hq) as Hd.
  assert (fields i' = set_size (Z.max (isize (fields i)) (off + Z.of_nat (length bs))) (fields i)) as Ef by (by rewrite I).
  split.
  - rewrite <- B, <- (file_bytes_disk X _ v' _ _ _ Hq), Ef. done.
  - rewrite <- Hd, D. exact Ef.
  - intros b Hb Hnf Hl. rewrite <- Hd. by apply O.
Qed.

(** One operation. *)
Lemma crash_prefix_op X s v f x ip i s' v' i' bs ws : writing dev X s v f x ip i → settled s v i →
  quiet dev X (base (ifs s')) v' → mapped X v (fields i) (offset x) (Z.of_nat (length bs)) →
  written s v i s' v' i' (offset x) bs →
  (∀ ws1, ws1 `prefix_of` ws → let st := start (log (base (ifs s))) in
     hdr_ok (replay (v_disk v) ws1) st ∧
     (same_data st (recovered (replay (v_disk v) ws1) st) (v_disk v) ∨
      same_data st (recovered (replay (v_disk v) ws1) st) (v_disk v'))) →
  crash_prefix s v i (offset x) bs ws.
Proof.
  intros [Hq Ho Hst _ _ _] Hset Hq' Hm W Hcr ws1 Hpre. cbv zeta. destruct (Hcr ws1 Hpre) as [Hok Hor].
  split; [exact Hok|]. pose proof (oi_offset _ _ _ _ _ _ _ _ Ho) as Hoff. pose proof (oi_mapped _ _ _ _ _ _ _ _ Ho) as Hm0.
  assert (∀ b, b ∈ X → ¬ in_log (start (log (base (ifs s)))) b) as HX.
  { intros b Hb. apply (ok_X _ _ _ _ (proj2 (qt_txn _ _ _ _ Hq)) b Hb). }
  destruct Hst as (_ & _ & _ & HbX & _).
  destruct Hor as [Hs|Hs]; [exists 0%nat|exists (length bs)].
  - split; [split; [right; by exists 0%nat|lia]|]. eapply (disk_holds_same X); [done|exact HX|exact HbX| |lia|exact Hs|].
    + simpl. rewrite Z.max_l by lia. exact Hm0.
    + by apply (disk_holds_nil X).
  - split; [split; [by left|lia]|]. rewrite firstn_all.
    eapply (disk_holds_same X); [done|exact HX|exact HbX|by apply mapped_union; [lia|..]|lia|exact Hs|].
    by apply (disk_holds_written X s v i s' v' i').
Qed.

Lemma disk_holds_trans s v i s1 v1 i1 off bs1 bs2 d : 0 <= off <= isize (fields i) →
  written s v i s1 v1 i1 off bs1 → disk_holds s1 v1 i1 (off + Z.of_nat (length bs1)) bs2 d →
  disk_holds s v i off (bs1 ++ bs2) d.
Proof.
  intros Ho [I1 B1 D1 O1 S1 L1 K1] [B2 D2 O2].
  assert (inode_block s1 i1 = inode_block s i ∧ inum i1 = inum i ∧ directBlocks (fields i1) = directBlocks (fields i) ∧
    isize (fields i1) = Z.max (isize (fields i)) (off + Z.of_nat (length bs1))) as (E1 & E2 & E3 & E4).
  { unfold inode_block. rewrite S1, I1. by split_and!. }
  assert (Z.max (isize (fields i1)) (off + Z.of_nat (length bs1) + Z.of_nat (length bs2)) =
    Z.max (isize (fields i)) (off + Z.of_nat (length (bs1 ++ bs2)))) as E5.
  { rewrite E4, length_app. lia. }
  rewrite E5 in B2, D2. rewrite E1, E2 in D2. split.
  - rewrite <- splice_splice by (rewrite length_file_bytes; lia). rewrite <- B1.
    replace (Z.to_nat off + length bs1)%nat with (Z.to_nat (off + Z.of_nat (length bs1))) by lia.
    rewrite <- B2, I1. done.
  - rewrite D2, I1. done.
  - intros b Hb Hnf Hl. rewrite O2, O1; rewrite ?E1, ?E3, ?L1; done.
Qed.

(** An operation of the full size, then the others. *)
Lemma crash_prefix_app s v i s1 v1 i1 off bs1 bs2 ws1 ws2 : 0 <= off <= isize (fields i) →
  length bs1 = 3072%nat → written s v i s1 v1 i1 off bs1 → v_disk v1 = replay (v_disk v) ws1 →
  crash_prefix s v i off bs1 ws1 → crash_prefix s1 v1 i1 (off + Z.of_nat (length bs1)) bs2 ws2 →
  crash_prefix s v i off (bs1 ++ bs2) (ws1 ++ ws2).
Proof.
  intros Ho Hlen W Ed C1 C2 ws Hpre. cbv zeta. apply prefix_app_cases in Hpre as [Hpre|(ws' & -> & Hpre)].
  - destruct (C1 ws Hpre) as [Hok (m & [[->|[r ->]] Hm] & Hd)]; (split; [exact Hok|]).
    + exists (length bs1). rewrite firstn_all in Hd. rewrite take_app_length. split; [|exact Hd].
      split; [right; by exists 1%nat|rewrite length_app; lia].
    + exists (3072 * r)%nat. rewrite take_app_le by lia. split; [|exact Hd].
      split; [right; by exists r|rewrite length_app; lia].
  - destruct (C2 ws' Hpre) as [Hok (m & [Hm Hmn] & Hd)]. rewrite Ed, <- replay_app, (wn_start _ _ _ _ _ _ _ _ W) in *.
    split; [exact Hok|]. exists (length bs1 + m)%nat. rewrite take_app_add. split.
    + split; [|rewrite length_app; lia]. destruct Hm as [->|[r ->]]; [left; by rewrite length_app|right]. exists (r + 1)%nat. lia.
    + by apply (disk_holds_trans s v i s1 v1 i1).
Qed.

Lemma file_write_loop_done pid pageTable fuel f ip address n s :
  file_write_loop (S := S) pid pageTable fuel f ip address n n s = Ok (n, s).
Proof. destruct fuel; cbn [file_write_loop]; by rewrite Z.ltb_irrefl. Qed.

Lemma runs_file_write_loop pid pageTable (D : Source pageTable true) X s v f x ip i fuel address k bs :
  writing dev X s v f x ip i → bs ≠ [] →
  mapped X v (fields i) (offset x) (Z.of_nat (length bs)) → offset x + Z.of_nat (length bs) <= 12288 →
  0 <= address → 0 <= k → address + k + Z.of_nat (length bs) < 2 ^ 64 → s_has D (kernel (ifs s)) (address + k) bs →
  Z.of_nat (length bs) <= 3072 * Z.of_nat fuel →
  runs (file_write_loop pid pageTable fuel f ip address (k + Z.of_nat (length bs)) k) s (λ r s',
    r = k + Z.of_nat (length bs) ∧
    ∃ v' i', writing dev X s' v' f (set_offset (offset x + Z.of_nat (length bs)) x) ip i' ∧
      written s v i s' v' i' (offset x) bs ∧
      ∃ ws, v_writes v' = v_writes v ++ ws ∧ v_disk v' = replay (v_disk v) ws ∧ Forall (λ w, is_block w.2) ws ∧
        (settled s v i → settled s' v' i' ∧ crash_prefix s v i (offset x) bs ws)).
Proof.
  revert s v x i k bs; induction fuel as [|fuel IH]; intros s v x i k bs Hw Hne Hmap Hmax Ha Hk Han Hs Hf;
    (assert (0 < length bs)%nat by (destruct bs; [done|simpl; lia])); [lia|].
  cbn [file_write_loop]. set (n := Z.of_nat (length bs)) in *. rewrite (proj2 (Z.ltb_lt k (k + n))) by lia.
  rewrite Z.add_simpl_l. change max_write with 3072.
  set (len := if 3072 <? n then 3072 else n).
  assert (0 < len <= 3072 ∧ len <= n) as [Hlen Hlen'] by (unfold len; destruct (Z.ltb_spec 3072 n); lia).
  set (bs1 := take (Z.to_nat len) bs). set (bs2 := drop (Z.to_nat len) bs).
  assert (Z.of_nat (length bs1) = len ∧ Z.of_nat (length bs2) = n - len) as [E1 E2].
  { unfold bs1, bs2, n in *. rewrite length_take, length_drop. lia. }
  assert (bs = bs1 ++ bs2) as Ebs by (symmetry; apply take_drop).
  rewrite Ebs in Hs. apply (s_split _ _ D) in Hs as [Hs1 Hs2]. rewrite E1 in Hs2.
  pose proof (wg_open _ _ _ _ _ _ _ _ Hw) as Hopen. pose proof (oi_offset _ _ _ _ _ _ _ _ Hopen) as Hoff.
  runs_step. rewrite <- E1. eapply runs_mono.
  { apply (runs_write_round pid pageTable D X s v f x ip i address k bs1 Hw); rewrite ?E1; try done; try lia.
    eapply (mapped_held X v v); [by intros| | |exact Hmap]; lia. }
  rewrite E1. intros res s1 (-> & v1 & i1 & Hw1 & W1 & ws & Ew1 & Ed1 & Hb1 & Hcr1).
  assert (settled s v i → settled s1 v1 i1 ∧ crash_prefix s v i (offset x) bs1 ws) as Hset1.
  { intros Hset. destruct (Hcr1 (proj1 Hset)) as [Hz Hp]. split.
    - split; [by rewrite (wn_start _ _ _ _ _ _ _ _ W1)|].
      transitivity (read_dinode (cur v1 (inode_block s i)) (ioffset (inum i))); [|apply W1].
      unfold inode_block. rewrite (wn_super _ _ _ _ _ _ _ _ W1).
      by replace (inum i1) with (inum i) by (by rewrite (wn_inode _ _ _ _ _ _ _ _ W1)).
    - eapply (crash_prefix_op X); [exact Hw|exact Hset|apply Hw1|rewrite E1|exact W1|exact Hp].
      eapply (mapped_held X v v); [by intros| | |exact Hmap]; lia. } rewrite Z.eqb_refl. cbn [negb].
  destruct (decide (n = len)) as [En|En].
  - assert (bs2 = []) as E0 by (destruct bs2; [done|simpl in E2; lia]).
    rewrite E0, app_nil_r in Ebs. rewrite En. eapply runs_ok; [apply file_write_loop_done|].
    split; [done|]. exists v1, i1. rewrite Ebs. split; [done|]. split; [done|]. by exists ws.
  - assert (len = 3072) as E3072 by (unfold len in *; destruct (Z.ltb_spec 3072 n); lia).
    replace (k + n) with (k + len + Z.of_nat (length bs2)) by lia.
    assert (fields i1 = set_size (isize (fields i1)) (fields i)) as Efi by (rewrite (wn_inode _ _ _ _ _ _ _ _ W1); done).
    eapply runs_mono; [apply (IH s1 v1 (set_offset (offset x + len) x) i1 (k + len) bs2 Hw1)|].
    + intros E0. rewrite E0 in E2. simpl in E2. lia.
    + change (offset (set_offset ?o x)) with o. rewrite Efi, E2.
      change (mapped X v1 (set_size ?o (fields i))) with (mapped X v1 (fields i)).
      eapply (mapped_held X v v1); [|  | |exact Hmap]; [|lia|lia]. intros b _. apply Hw1.
    + change (offset (set_offset ?o x)) with o. lia.
    + done.
    + lia.
    + lia.
    + rewrite (wn_kernel _ _ _ _ _ _ _ _ W1). replace (address + (k + len)) with (address + k + len) by lia. exact Hs2.
    + lia.
    + change (offset (set_offset ?o x)) with o. intros r s2 (-> & v2 & i2 & Hw2 & W2 & ws2 & Ew2 & Ed2 & Hb2 & Hset2). split; [lia|].
      exists v2, i2. rewrite E2 in *. split.
      * replace (offset x + n) with (offset x + len + (n - len)) by lia. exact Hw2.
      * rewrite Ebs. split; [apply (written_trans s v i s1 v1 i1); [done|done|]; by rewrite E1|].
        exists (ws ++ ws2). rewrite replay_app, <- Ed1, app_assoc, <- Ew1. split_and!; [done|done|by apply Forall_app|]. intros Hset.
        destruct (Hset1 Hset) as [Hs1' C1]. destruct (Hset2 Hs1') as [Hs2' C2]. split; [done|].
        apply (crash_prefix_app s v i s1 v1 i1); rewrite ?E1; try done. lia.
Qed.

(** [File::write] as a whole. *)
Lemma write_runs pid pageTable uart_device polls (D : Source pageTable true) X s v f x ip i address bs :
  writing dev X s v f x ip i → writable x = true → bs ≠ [] →
  mapped X v (fields i) (offset x) (Z.of_nat (length bs)) → 0 <= address →
  address + Z.of_nat (length bs) < 2 ^ 64 → s_has D (kernel (ifs s)) address bs →
  ∃ s' v' i', write pid pageTable uart_device polls f address (Z.of_nat (length bs)) s = Ok (Z.of_nat (length bs), s') ∧
    writing dev X s' v' f (set_offset (offset x + Z.of_nat (length bs)) x) ip i' ∧
    written s v i s' v' i' (offset x) bs ∧
    ∃ ws, v_writes v' = v_writes v ++ ws ∧ v_disk v' = replay (v_disk v) ws ∧ Forall (λ w, is_block w.2) ws ∧
      (settled s v i → settled s' v' i' ∧ crash_prefix s v i (offset x) bs ws).
Proof.
  intros Hw Hwr Hne Hmap Haddr Haddr64 Hhas. set (n := Z.of_nat (length bs)) in *.
  pose proof (wg_open _ _ _ _ _ _ _ _ Hw) as [Hf Hty Hip _ _ _ _ _ Hsz Hoff Hmap0].
  pose proof (mapped_limit _ _ _ 0 _ ltac:(lia) Hmap0) as Hlim.
  pose proof (mapped_limit _ _ _ (offset x) n ltac:(lia) Hmap) as Hlim'.
  pose proof (runs_file_write_loop pid pageTable D X s v f x ip i (Z.to_nat (n / max_write + 1)) address 0 bs
    Hw Hne Hmap Hlim' Haddr ltac:(lia)) as R. rewrite Z.add_0_r, Z.add_0_l in R. fold n in R.
  destruct (runs_inv _ _ _ (R Haddr64 Hhas ltac:(change max_write with 3072; dlia)))
    as (r & s' & E & -> & v' & i' & Hw' & W & ws & Ew & Ed & Hb & Hset). clear R.
  exists s', v', i'. split; [|split; [done|]; split; [done|]; by exists ws].
  unfold write. rewrite (bind_ok _ _ s x s) by (unfold deref_file; by rewrite Hf).
  rewrite Hwr, Hty. cbn [negb]. rewrite (bind_ok _ _ s ip s) by (unfold inode_of; by rewrite Hip).
  rewrite (bind_ok _ _ _ _ _ E). by rewrite Z.eqb_refl.
Qed.
End lemmas.

(** ** Properties *)

(** A write through a file is durable when it returns.  [write] of [n] bytes
    of user memory, however many operations it is cut into, returns [n]; what a
    reboot would then read from the disk is the old contents of the file with the
    bytes written over them at the file's offset, and the inode with the new
    size; no block outside the file, its inode and the log has changed; the
    offset ends behind the bytes, and the file can be written again. *)
Theorem write_durable {S P : Type} `{BufferOps S P} (dev : Z) `{!BufferLaws S P dev}
    (pid pageTable : Z) (uart_device : list access → Z → Z) (polls : nat)
    (D : Source pageTable true) (X : gset Z) (s : FileState S) (v : view P) (f : nat) (x : File)
    (ip : positive) (i : Inode) (address : Z) (bs : bytes)
    (Hw : writing dev X s v f x ip i) (Hwr : writable x = true) (Hne : bs ≠ [])
    (Hmap : mapped X v (fields i) (offset x) (Z.of_nat (length bs)))
    (Haddr : 0 <= address) (Haddr64 : address + Z.of_nat (length bs) < 2 ^ 64)
    (Hhas : s_has D (kernel (ifs s)) address bs) :
  let n := Z.of_nat (length bs) in
  ∃ s' v' i', write pid pageTable uart_device polls f address n s = Ok (n, s') ∧
    writing dev X s' v' f (set_offset (offset x + n) x) ip i' ∧
    fields i' = set_size (Z.max (isize (fields i)) (offset x + n)) (fields i) ∧
    file_bytes (on_disk v') (fields i') 0 (Z.to_nat (isize (fields i'))) =
      splice (Z.to_nat (offset x)) bs (file_bytes (on_disk v) (fields i) 0 (Z.to_nat (isize (fields i)))) ∧
    read_dinode (dblock (v_disk v') (inode_block s i)) (ioffset (inum i)) = fields i' ∧
    ∀ b, b ≠ inode_block s i → b ∉ directBlocks (fields i) → ¬ in_log (start (log (base (ifs s)))) b →
      dblock (v_disk v') b = dblock (v_disk v) b.
Proof.
  intros n. destruct (write_runs dev pid pageTable uart_device polls D X s v f x ip i address bs
    Hw Hwr Hne Hmap Haddr Haddr64 Hhas) as (s' & v' & i' & E & Hw' & W & _).
  pose proof (quiet_disk dev X _ _ (wg_quiet _ _ _ _ _ _ _ _ Hw)) as Hdisk.
  pose proof (quiet_disk dev X _ _ (wg_quiet _ _ _ _ _ _ _ _ Hw')) as Hdisk'.
  exists s', v', i'. split_and!.
  - exact E.
  - done.
  - by rewrite (wn_inode _ _ _ _ _ _ _ _ W).
  - rewrite (file_bytes_disk dev X _ v') by apply Hw'. rewrite (file_bytes_disk dev X _ v) by apply Hw. apply W.
  - rewrite <- Hdisk'. apply W.
  - intros b Hb Hnf Hl. rewrite <- Hdisk, <- Hdisk'. by apply (wn_other _ _ _ _ _ _ _ _ W).
Qed.

(** The file of [File.demo_open] between two operations, on a disk that has its
    inode. *)
Definition demo_disk : gmap Z bytes :=
  {[60 := demo_bitmap; 64 := write_dinode zero_block (ioffset 1) demo_fields]}.

Definition demo_quiet (m : KMem) : FileState BufferCache :=
  let sb := superBlock (base demo_ifs) in
  set_ifs (mkIFS (mkFS (initializeBufferCache demo_disk 1) sb
    (mkLog (start demo_log) (size demo_log) 0 false 1 (header demo_log)) [])
    (inodes demo_ifs) (cells demo_ifs) m) (demo_open m).

Definition demo_quiet_view : view positive := mkView demo_disk [] ∅.

Lemma demo_disk_blocks : map_Forall (λ _ bs, is_block bs) demo_disk.
Proof.
  apply map_Forall_insert_2; [apply is_block_demo_bitmap|].
  apply map_Forall_singleton, is_block_write_dinode, is_block_zero.
Qed.

Lemma demo_writing m : writing 1 {[60; 64]} (demo_quiet m) demo_quiet_view 0
  (mkFile TInode 1 true true (Some 1%positive) 2) 1 demo_inode.
Proof.
  split.
  - destruct (demo_txn_on demo_disk (superBlock (base demo_ifs)) demo_disk_blocks) as [R []].
    split; [split; [exact R|by split]|by intros b|reflexivity..].
  - by destruct (demo_open_inode m).
  - split_and!; [done|apply demo_fields_ok|simpl; lia| |by vm_compute].
    apply elem_of_union_r, elem_of_singleton. by vm_compute.
  - apply demo_distinct.
  - intros [|j] Hj; [by vm_compute in Hj|]. by apply lookup_replicate in Hj as [? _].
  - change (6 <= 40 <= 2 ^ 32). lia.
Qed.

(** Any bytes in the page of user memory at [0x5000], which is the physical page
    [0x80000]. *)
Lemma demo_user_bytes (bs : bytes) : Z.of_nat (length bs) <= 4096 → Forall (λ b, 0 <= b < 256) bs →
  ∃ m (D : Source 0x1000 true), s_has D m 0x5000 bs ∧
    ∀ j b, bs !! j = Some b → ld8 (kmem m) (0x80000 + Z.of_nat j) = b.
Proof.
  intros Hlen Hbs. destruct demo_user as (m0 & N & l & Hw & Hr & Hs & Hu).
  destruct (copyout_loop_spec 0x1000 (length bs) m0 N l 0x1000 0x5000 bs Hw Hs Hr) as (m & E & Hw' & [Hm Hi _]);
    [lia|lia|intros j Hj; rewrite Hu by lia; eauto|].
  assert (∀ j b, bs !! j = Some b → ld8 (kmem m) (0x80000 + Z.of_nat j) = b) as Hb.
  { intros j b Hj. pose proof (lookup_lt_Some _ _ _ Hj) as Hlt.
    rewrite (Hi (Z.of_nat j)) by (rewrite ?Hu by lia; done || lia). rewrite Nat2Z.id, Hj.
    apply Z.mod_small. rewrite Forall_lookup in Hbs. by apply (Hbs j). }
  exists m, (user_source 0x1000 N l 0x1000 Hr). split; [|exact Hb]. split_and!; [exact Hw'| |exact Hbs].
  apply user_read_bytes. intros j b Hj. pose proof (lookup_lt_Some _ _ _ Hj) as Hlt.
  exists (0x80000 + Z.of_nat j). rewrite (user_pa_ext _ _ _ _ Hm), Hu by lia. split; [done|]. by apply Hb.
Qed.

Lemma demo_mapped : mapped {[60; 64]} demo_quiet_view (fields demo_inode) 2 3.
Proof.
  intros k Hk. assert (k / BLOCK_SIZE = 0) as -> by (unfold BLOCK_SIZE; dlia).
  exists 60. split_and!; [done|done|set_solver|done|done].
Qed.

Lemma demo_settled m : settled (demo_quiet m) demo_quiet_view demo_inode.
Proof. split; vm_compute; reflexivity. Qed.

Lemma write_durable_witness : ∃ m s' (v' : view positive),
  write 1 0x1000 (λ _ _, 0) 0 0 0x5000 3 (demo_quiet m) = Ok (3, s') ∧
  file_bytes (on_disk v') demo_fields 0 6 = [255; 255; 1; 2; 3; 255].
Proof.
  destruct (demo_user_bytes [1; 2; 3]) as (m & D & Hh & _); [simpl; lia|repeat constructor; lia|]. exists m.
  destruct (write_durable 1 1 0x1000 (λ _ _, 0) 0 D {[60; 64]} (demo_quiet m)
    demo_quiet_view 0 _ 1 demo_inode 0x5000 [1; 2; 3] (demo_writing m)) as (s' & v' & i' & Ew & _ & Ei & Hf & _).
  - done.
  - done.
  - apply demo_mapped.
  - lia.
  - simpl. lia.
  - exact Hh.
  - exists s', v'. split; [exact Ew|]. rewrite Ei in Hf. exact Hf.
Defined.

(** A write through a file that is interrupted by a crash leaves a file written
    from the front.  [write] of [n] bytes makes the disk writes [ws] and returns
    [n] with all of them on the disk; if the machine stops after any number of them, [initializeLog] of the
    rebooted kernel returns, with an empty log, and the disk then holds the old
    file with the first [m] bytes written over it at the file's offset, its inode
    with the size that goes with them, and every block outside the file, its
    inode and the log unchanged, where the [m] bytes are those of a number of
    whole operations of 3072 bytes, or all of them. *)
Theorem write_crash_atomic {S P : Type} `{BufferOps S P} (dev : Z) `{!BufferLaws S P dev}
    (pid pageTable : Z) (uart_device : list access → Z → Z) (polls : nat)
    (D : Source pageTable true) (X : gset Z) (s : FileState S) (v : view P) (f : nat) (x : File)
    (ip : positive) (i : Inode) (address : Z) (bs : bytes)
    (Hw : writing dev X s v f x ip i) (Hset : settled s v i) (Hwr : writable x = true) (Hne : bs ≠ [])
    (Hmap : mapped X v (fields i) (offset x) (Z.of_nat (length bs)))
    (Haddr : 0 <= address) (Haddr64 : address + Z.of_nat (length bs) < 2 ^ 64)
    (Hhas : s_has D (kernel (ifs s)) address bs) :
  let n := Z.of_nat (length bs) in
  ∃ s' v' i' ws, write pid pageTable uart_device polls f address n s = Ok (n, s') ∧
    writing dev X s' v' f (set_offset (offset x + n) x) ip i' ∧ settled s' v' i' ∧ kernel (ifs s') = kernel (ifs s) ∧
    disk_holds s v i (offset x) bs (v_disk v') ∧
    v_writes v' = v_writes v ++ ws ∧ Forall (λ w, is_block w.2) ws ∧
    ∀ ws1, ws1 `prefix_of` ws → ∀ (b : FS S) sb, logStart sb = start (log (base (ifs s))) →
      frep dev b (mkView (replay (v_disk v) ws1) [] ∅) →
      Z.of_nat (length (hblock (header (log b)))) = LOG_SIZE →
      ∃ b' v1 m, initializeLog dev sb b = Ok (tt, b') ∧ frep dev b' v1 ∧ FsState.n (header (log b')) = 0 ∧
        whole_ops m (length bs) ∧ disk_holds s v i (offset x) (take m bs) (v_disk v1).
Proof.
  intros n. destruct (write_runs dev pid pageTable uart_device polls D X s v f x ip i address bs
    Hw Hwr Hne Hmap Haddr Haddr64 Hhas) as (s' & v' & i' & E & Hw' & W & ws & Ew & Ed & Hb & Hcr).
  destruct (Hcr Hset) as [Hset' Hp]. exists s', v', i', ws. do 3 (split; [done|]). split; [apply W|].
  split; [by apply (disk_holds_written dev X _ _ _ s' v' i'); [apply Hw'|]|]. do 2 (split; [done|]).
  intros ws1 Hpre b sb Esb R Hlen. destruct (Hp ws1 Hpre) as [Hok (m & Hm & Hd)].
  pose proof (proj2 (qt_txn _ _ _ _ (wg_quiet _ _ _ _ _ _ _ _ Hw))) as Hfs.
  destruct (reboot_recovers dev b _ sb R) as (b' & v1 & Eb & Rb & Hn & Hsame); [|exact Hlen|by rewrite Esb|].
  { rewrite Esb. apply (ok_start _ _ _ _ Hfs). }
  exists b', v1, m. split_and!; [exact Eb|exact Rb|exact Hn|exact Hm|]. rewrite Esb in Hsame.
  pose proof (wg_open _ _ _ _ _ _ _ _ Hw) as [_ _ _ _ _ _ _ _ Hsz Hoff Hmap0].
  eapply (disk_holds_same X _ _ _ _ _ _ _ (start (log (base (ifs s))))); [reflexivity| | | | |exact Hsame|exact Hd].
  - intros b0 Hb0. apply (ok_X _ _ _ _ Hfs b0 Hb0).
  - by destruct (wg_store _ _ _ _ _ _ _ _ Hw) as (_ & _ & _ & ? & _).
  - apply mapped_union; [lia|done|]. eapply (mapped_held X v v); [by intros| | |exact Hmap]; rewrite ?length_take; lia.
  - lia.
Qed.

Lemma write_crash_atomic_witness : ∃ m s' ws,
  write 1 0x1000 (λ _ _, 0) 0 0 0x5000 3 (demo_quiet m) = Ok (3, s') ∧
  ∀ ws1, ws1 `prefix_of` ws → ∃ (b' : FS BufferCache) (d : gmap Z bytes) k,
    initializeLog 1 (superBlock (base demo_ifs))
      (mkFS (initializeBufferCache (replay demo_disk ws1) 1) demo_super demo_log []) = Ok (tt, b') ∧
    (k = 0 ∨ k = 3)%nat ∧
    disk_holds (demo_quiet m) demo_quiet_view demo_inode 2 (take k [1; 2; 3]) d.
Proof.
  destruct (demo_user_bytes [1; 2; 3]) as (m & D & Hh & _); [simpl; lia|repeat constructor; lia|]. exists m.
  destruct (write_crash_atomic 1 1 0x1000 (λ _ _, 0) 0 D {[60; 64]} (demo_quiet m)
    demo_quiet_view 0 _ 1 demo_inode 0x5000 [1; 2; 3] (demo_writing m)) as (s' & v' & i' & ws & Ew & _ & _ & _ & _ & _ & Hbs & Hc).
  - apply demo_settled.
  - done.
  - done.
  - apply demo_mapped.
  - lia.
  - simpl. lia.
  - exact Hh.
  - exists s', ws. split; [exact Ew|]. intros ws1 Hpre.
    destruct (Hc ws1 Hpre (mkFS (initializeBufferCache (replay demo_disk ws1) 1) demo_super demo_log [])
      (superBlock (base demo_ifs))) as (b' & v1 & k & Eb & _ & _ & Hk & Hd); [done| |done|].
    + apply cache_rep_init; [lia|]. apply replay_blocks.
      * apply dblock_blocks, demo_disk_blocks.
      * destruct Hpre as [ws2 ->]. by apply Forall_app in Hbs as [? _].
    + exists b', (v_disk v1), k. split; [exact Eb|]. split; [|exact Hd]. apply (whole_ops_small k 3 Hk). lia.
Defined.

End FileWrite.
