(* ===== verification/Scheduler.v ===== *)
(** * The scheduler

    [kernel/process/scheduler.h], [scheduler.cpp], [sleep.cpp] and the part of
    [process.h] they use.  Every hart runs [Scheduler::run]; a context switch
    hands the hart over to a process and back.  The kernel stacks are not
    modelled: a [Context] names the place in the source where a process goes on,
    and a hart's [point] the place where it is now.  Spin locks are those of
    [SpinMutex], with the lock count and interrupt bit of each hart.

    The second half states the scheduler abstractly (the ready queue a list, the
    sleep table a finite map), proves that the operations refine it, and proves
    its invariant for one hart; the last section exhibits executions of two
    harts. *)

From S2P Require Import Prelude HashMap Queue SpinMutex.
Import HashMap Queue.

#[local] Open Scope Z_scope.

Module Scheduler.

(** ** Definitions *)

Inductive ProcessState := Used | Sleeping | Ready | Running | Zombie.

#[export] Instance process_state_eq_dec : EqDecision ProcessState.
Proof. solve_decision. Defined.

(** The places of a hart.  In [run]: the head of the outer and of the inner
    loop, after the front of the queue was taken, after its state was found to
    be [Ready], behind [switchContext], and before the last statement.  In the
    process: behind the switch, with no lock, in a critical section of a mutex
    of the kernel, in [sleep(chan)] with only its own mutex left, and before
    the last statement of [sleep]. *)
Inductive point :=
  | Outer
  | Inner
  | Picked (p : positive)
  | Checked (p : positive)
  | Switched (p : positive)
  | Requeue (p : positive)
  | Resuming
  | Free
  | Critical (m : Z)
  | Dropped (c m : Z)
  | Relocking (m : Z).

(** Where [switchContext] resumes a process: at [returnFork], or behind the
    call of [reschedule] in [sleep] (with the address of the caller's mutex), in
    [yield] (with the place its caller was at) or in [exit]; with the local
    [interruptEnabled] of [reschedule]. *)
Inductive Context :=
  | AtReturnFork
  | InSleep (m : Z) (ie : bool)
  | InYield (ie : bool) (k : point)
  | InExit.

(** The members of [struct Process] the scheduler uses; [memory] says whether
    the trap frame and the kernel stack are allocated. *)
Record Process := mkProcess {
  state : ProcessState;
  mutex : SpinMutex.SpinMutex;
  context : Context;
  chan : Z;
  memory : bool;
}.

(** [struct Cpu]: the lock count and interrupt state, the current process, the
    scheduler's local [proc], which the hart's [context] keeps while a process
    runs, and where the hart is. *)
Record Hart := mkHart {
  cpu : SpinMutex.Cpu;
  current : option positive;
  saved : option positive;
  at_point : point;
}.

(** The kernel: its harts, the members of the [Scheduler] object, the heap of
    the queue nodes, the processes, and the mutexes processes sleep with. *)
Record Kernel := mkKernel {
  harts : gmap Z Hart;
  smutex : SpinMutex.SpinMutex;
  heap : gmap positive (Queue.Node positive);
  readyQueue : QueueContainer;
  sleepTable : HashMap Z (list positive);
  procs : gmap positive Process;
  locks : gmap Z SpinMutex.SpinMutex;
}.

Definition set_harts x (s : Kernel) := mkKernel x (smutex s) (heap s) (readyQueue s) (sleepTable s) (procs s) (locks s).
Definition set_smutex x (s : Kernel) := mkKernel (harts s) x (heap s) (readyQueue s) (sleepTable s) (procs s) (locks s).
Definition set_queue h q (s : Kernel) := mkKernel (harts s) (smutex s) h q (sleepTable s) (procs s) (locks s).
Definition set_table x (s : Kernel) := mkKernel (harts s) (smutex s) (heap s) (readyQueue s) x (procs s) (locks s).
Definition set_procs x (s : Kernel) := mkKernel (harts s) (smutex s) (heap s) (readyQueue s) (sleepTable s) x (locks s).
Definition set_locks x (s : Kernel) := mkKernel (harts s) (smutex s) (heap s) (readyQueue s) (sleepTable s) (procs s) x.

Definition set_state x (p : Process) := mkProcess x (mutex p) (context p) (chan p) (memory p).
Definition set_mutex x (p : Process) := mkProcess (state p) x (context p) (chan p) (memory p).
Definition set_context x (p : Process) := mkProcess (state p) (mutex p) x (chan p) (memory p).
Definition set_chan x (p : Process) := mkProcess (state p) (mutex p) (context p) x (memory p).
Definition set_memory x (p : Process) := mkProcess (state p) (mutex p) (context p) (chan p) x.

Definition set_cpu x (t : Hart) := mkHart x (current t) (saved t) (at_point t).
Definition set_current x (t : Hart) := mkHart (cpu t) x (saved t) (at_point t).
Definition set_saved x (t : Hart) := mkHart (cpu t) (current t) x (at_point t).
Definition set_point x (t : Hart) := mkHart (cpu t) (current t) (saved t) x.

(** The spin locks the model knows: [Scheduler::mutex], [Process::mutex], and
    the mutexes of the kernel by address. *)
Inductive lock_id := SchedulerLock | ProcessLock (p : positive) | KernelLock (m : Z).

#[export] Instance lock_id_eq_dec : EqDecision lock_id.
Proof. solve_decision. Defined.

Definition get_lock (s : Kernel) (i : lock_id) : option SpinMutex.SpinMutex :=
  match i with
  | SchedulerLock => Some (smutex s)
  | ProcessLock p => mutex <$> procs s !! p
  | KernelLock m => Some (default SpinMutex.make (locks s !! m))
  end.

Definition set_lock (i : lock_id) (x : SpinMutex.SpinMutex) (s : Kernel) : Kernel :=
  match i with
  | SchedulerLock => set_smutex x s
  | ProcessLock p => set_procs (alter (set_mutex x) p (procs s)) s
  | KernelLock m => set_locks (<[m := x]> (locks s)) s
  end.

Section hart.
(** [arch::read_tp()]. *)
Variable tp : Z.
(** [std::hash<void*>]. *)
Variable makeHash : Z → Z.

Definition this_hart : M Kernel Hart := λ s,
  match harts s !! tp with Some t => Ok (t, s) | None => Err OutOfRange end.

Definition change_hart (f : Hart → Hart) : M Kernel unit :=
  modify (λ s, set_harts (alter f tp (harts s)) s).

Definition goto (x : point) : M Kernel unit := change_hart (set_point x).

Definition deref (p : positive) : M Kernel Process := λ s,
  match procs s !! p with Some x => Ok (x, s) | None => Err NullDeref end.

Definition change (p : positive) (f : Process → Process) : M Kernel unit :=
  x ← deref p; modify (λ s, set_procs (<[p := f x]> (procs s)) s).

(** [Cpu::current().process], for code that uses it without a test. *)
Definition current_process : M Kernel positive :=
  t ← this_hart;
  match current t with Some p => mret p | None => fail NullDeref end.

(** Run an operation of [SpinMutex] on the hart's counters and one mutex. *)
Definition on_lock (i : lock_id) (c : M (SpinMutex.Cpu * SpinMutex.SpinMutex) unit) : M Kernel unit := λ s,
  match harts s !! tp, get_lock s i with
  | Some t, Some x =>
      match c (cpu t, x) with
      | Ok (_, (c', x')) => Ok (tt, set_harts (<[tp := set_cpu c' t]> (harts s)) (set_lock i x' s))
      | Err f => Err f
      end
  | _, _ => Err NullDeref
  end.

Definition lock (i : lock_id) : M Kernel unit := on_lock i (SpinMutex.lock tp).

Definition unlock (i : lock_id) : M Kernel unit := on_lock i (SpinMutex.unlock tp).

(** A block with a [LockGuard]. *)
Definition guarded {A} (i : lock_id) (body : M Kernel A) : M Kernel A :=
  lock i ;; r ← body; unlock i ;; mret r.

(** [readyQueue.push(p)]. *)
Definition push_ready (p : positive) : M Kernel unit := λ s,
  match push_back (heap s) (readyQueue s) p with
  | Ok (h, q) => Ok (tt, set_queue h q s)
  | Err f => Err f
  end.

(** [readyQueue.front()], then [readyQueue.pop()]. *)
Definition pop_ready : M Kernel positive := λ s,
  match front (heap s) (readyQueue s), pop_front (heap s) (readyQueue s) with
  | Ok p, Ok (h, q) => Ok (p, set_queue h q s)
  | Err f, _ | _, Err f => Err f
  end.

(** [Scheduler::killZombie] with the destructor of [Process]; [operator delete]
    leaves the object where it is. *)
Definition killZombie (p : positive) : M Kernel unit :=
  x ← deref p;
  assert (bool_decide (state x = Zombie)) ;;
  change p (set_memory false).

(** [Scheduler::registerProcess]. *)
Definition registerProcess (p : positive) : M Kernel unit :=
  guarded SchedulerLock (
    x ← deref p;
    match state x with
    | Used | Running => mret tt
    | Ready => push_ready p
    | Sleeping =>
        modify (λ s, set_table
          (modify_ref makeHash (snd (operator_index makeHash [] (sleepTable s) (chan x))) (chan x)
             (λ l, l ++ [p])) s)
    | Zombie => mret tt
    end).

(** The loop of [unregisterProcess]: the local queue [que] at its end. *)
Fixpoint unregister_loop (fuel : nat) (p : positive) (que : QueueContainer) : M Kernel QueueContainer :=
  q ← gets readyQueue;
  if Queue.empty q then mret que
  else
    match fuel with
    | O => fail NoFuel
    | Datatypes.S f =>
        x ← pop_ready;
        if decide (x = p) then unregister_loop f p que
        else
          s ← get_state;
          match push_back (heap s) que x with
          | Err e => fail e
          | Ok (h, que) => put_state (set_queue h (readyQueue s) s) ;; unregister_loop f p que
          end
    end.

(** [Scheduler::unregisterProcess]: the assignment copies the two pointers of
    [que], whose destructor then deletes the nodes.  The heap has more nodes
    than the queue. *)
Definition unregisterProcess (p : positive) : M Kernel unit :=
  guarded SchedulerLock (
    fuel ← gets (λ s, base.size (heap s));
    que ← unregister_loop fuel p Queue.make;
    modify (λ s, set_queue (heap s) que s) ;;
    s ← get_state;
    match destroy (base.size (heap s)) (heap s) (head que) with
    | Err e => fail e
    | Ok (h, _) => put_state (set_queue h (readyQueue s) s)
    end).

(** [Scheduler::reschedule] up to the end of its [switchContext]: the process
    leaves the hart, to resume in [k]. *)
Definition reschedule (k : bool → Context) : M Kernel unit :=
  p ← current_process;
  x ← deref p;
  assert (SpinMutex.holding tp (mutex x)) ;;
  t ← this_hart;
  assert (SpinMutex.numLocks (cpu t) =? 1) ;;
  assert (negb (bool_decide (state x = Running))) ;;
  assert (negb (SpinMutex.sie (cpu t))) ;;
  registerProcess p ;;
  change p (set_context (k (SpinMutex.interruptEnabled (cpu t)))) ;;
  t ← this_hart;
  match saved t with Some q => goto (Switched q) | None => fail NullDeref end.

(** The loop of [Scheduler::wakeup]. *)
Fixpoint wakeup_loop (l : list positive) : M Kernel unit :=
  match l with
  | [] => mret tt
  | p :: l' =>
      guarded (ProcessLock p) (
        change p (set_state Ready) ;;
        unlock SchedulerLock ;;
        registerProcess p ;;
        lock SchedulerLock) ;;
      wakeup_loop l'
  end.

(** [Scheduler::wakeup], on a hart that no other hart runs into. *)
Definition wakeup (c : Z) : M Kernel unit :=
  guarded SchedulerLock (
    s ← get_state;
    let '(l, t) := operator_index makeHash [] (sleepTable s) c in
    put_state (set_table t s) ;;
    wakeup_loop l ;;
    modify (λ s, set_table (erase makeHash (sleepTable s) c) s)).

(** *** [Scheduler::run], from one point to the next *)

(** Lines 86-87: interrupts on. *)
Definition run_enable : M Kernel unit :=
  change_hart (λ t, set_cpu (SpinMutex.mkCpu (SpinMutex.numLocks (cpu t))
    (SpinMutex.interruptEnabled (cpu t)) (Z.lor (SpinMutex.sstatus (cpu t)) SpinMutex.SSTATUS_SIE)) t) ;;
  goto Inner.

(** Take the front of the queue; an empty queue ends the inner loop. *)
Definition run_pick : M Kernel unit :=
  r ← guarded SchedulerLock (
        q ← gets readyQueue;
        if Queue.empty q then mret None else p ← pop_ready; mret (Some p));
  match r with None => goto Outer | Some p => goto (Picked p) end.

(** A process that is not ready ends the inner loop. *)
Definition run_inspect (p : positive) : M Kernel unit :=
  x ← deref p;
  if bool_decide (state x = Ready) then goto (Checked p)
  else
    (if bool_decide (state x = Zombie) then killZombie p else registerProcess p) ;;
    goto Outer.

(** Run the process: up to the switch to its context. *)
Definition run_dispatch (p : positive) : M Kernel unit :=
  lock (ProcessLock p) ;;
  change p (set_state Running) ;;
  change_hart (set_current (Some p)) ;;
  change_hart (set_saved (Some p)) ;;
  goto Resuming.

(** Back on the scheduler's stack, whose guard releases the process. *)
Definition run_back (p : positive) : M Kernel unit :=
  change_hart (set_current None) ;;
  unlock (ProcessLock p) ;;
  goto (Requeue p).

(** The last statement of the inner loop. *)
Definition run_requeue (p : positive) : M Kernel unit :=
  registerProcess p ;; goto Inner.

(** *** The process side of the switch *)

(** What a process does when it is switched to: the end of [reschedule] and
    what follows it in its caller, or [returnFork]. *)
Definition resume : M Kernel unit :=
  p ← current_process;
  x ← deref p;
  match context x with
  | AtReturnFork => unlock (ProcessLock p) ;; goto Free
  | InSleep m ie =>
      change_hart (λ t, set_cpu (SpinMutex.mkCpu (SpinMutex.numLocks (cpu t)) ie (SpinMutex.sstatus (cpu t))) t) ;;
      change p (set_chan 0) ;;
      unlock (ProcessLock p) ;;
      goto (Relocking m)
  | InYield ie k =>
      change_hart (λ t, set_cpu (SpinMutex.mkCpu (SpinMutex.numLocks (cpu t)) ie (SpinMutex.sstatus (cpu t))) t) ;;
      unlock (ProcessLock p) ;;
      goto k
  | InExit => fail AssertFailed
  end.

(** [sleep(chan, mutex)], up to the release of [mutex]. *)
Definition sleep_release (c m : Z) : M Kernel unit :=
  p ← current_process;
  lock (ProcessLock p) ;;
  unlock (KernelLock m) ;;
  goto (Dropped c m).

(** The rest of [sleep] up to the switch. *)
Definition sleep_switch (c m : Z) : M Kernel unit :=
  p ← current_process;
  change p (set_chan c) ;;
  change p (set_state Sleeping) ;;
  reschedule (InSleep m).

(** The last statement of [sleep]. *)
Definition sleep_relock (m : Z) : M Kernel unit :=
  lock (KernelLock m) ;; goto (Critical m).

(** [yield], up to the switch. *)
Definition yield : M Kernel unit :=
  t ← this_hart;
  match current t with
  | None => mret tt
  | Some p =>
      lock (ProcessLock p) ;;
      unregisterProcess p ;;
      change p (set_state Ready) ;;
      reschedule (λ ie, InYield ie (at_point t))
  end.

(** What the constructor of [Process] sets up: a process not yet ready. *)
Definition new_process : Process := mkProcess Used SpinMutex.make AtReturnFork 0 true.

(** The end of [startUserInitProcess], for its new process. *)
Definition start_ready (p : positive) : M Kernel unit :=
  modify (λ s, set_procs (<[p := new_process]> (procs s)) s) ;;
  change p (set_state Ready) ;;
  registerProcess p.

(** The end of [Process::fork]: the new process becomes ready. *)
Definition fork_ready (p : positive) : M Kernel unit :=
  modify (λ s, set_procs (<[p := new_process]> (procs s)) s) ;;
  guarded (ProcessLock p) (change p (set_state Ready)) ;;
  registerProcess p.

(** The end of [Process::exit], from its [mutex.lock()] on, under the wait
    mutex [m]. *)
Definition exit_switch (m : Z) : M Kernel unit :=
  p ← current_process;
  lock (ProcessLock p) ;;
  change p (set_state Zombie) ;;
  unlock (KernelLock m) ;;
  reschedule (λ _, InExit).

(** *** One step of a hart

    [Advance] is the next step of the code a hart is in.  The others are what
    the code around the scheduler decides: a trap changes [sstatus], a wakeup
    (from an interrupt handler or from the process), the creation of a process,
    the mutexes a process takes and releases, and its calls of [sleep], [exit]
    and, from the timer interrupt, [yield]. *)
Inductive action :=
  | Advance
  | Status (x : Z)
  | Wakeup (c : Z)
  | Start (p : positive)
  | Fork (p : positive)
  | Lock (m : Z)
  | Unlock
  | Sleep (c : Z)
  | Yield
  | Exit.

Definition advance (x : point) : M Kernel unit :=
  match x with
  | Outer => run_enable
  | Inner => run_pick
  | Picked p => run_inspect p
  | Checked p => run_dispatch p
  | Switched p => run_back p
  | Requeue p => run_requeue p
  | Resuming => resume
  | Dropped c m => sleep_switch c m
  | Relocking m => sleep_relock m
  | Free | Critical _ => mret tt
  end.

Definition act (a : action) : M Kernel unit :=
  t ← this_hart;
  match a with
  | Advance => advance (at_point t)
  | Status x =>
      change_hart (λ t, set_cpu (SpinMutex.mkCpu (SpinMutex.numLocks (cpu t))
        (SpinMutex.interruptEnabled (cpu t)) x) t)
  | Wakeup c => wakeup c
  | Start p => start_ready p
  | Fork p => fork_ready p
  | Lock m => lock (KernelLock m) ;; goto (Critical m)
  | Unlock =>
      match at_point t with Critical m => unlock (KernelLock m) ;; goto Free | _ => mret tt end
  | Sleep c =>
      match at_point t with Critical m => sleep_release c m | _ => mret tt end
  | Yield => yield
  | Exit => match at_point t with Critical m => exit_switch m | _ => mret tt end
  end.
End hart.

(** A sequence of steps, each of one hart. *)
Fixpoint execute (makeHash : Z → Z) (l : list (Z * action)) : M Kernel unit :=
  match l with
  | [] => mret tt
  | (tp, a) :: l' => act tp makeHash a ;; execute makeHash l'
  end.

(** The kernel before [startUserInitProcess], with the harts [0 .. n-1]. *)
Definition boot (n : Z) : Kernel :=
  mkKernel (list_to_map ((λ h, (h, mkHart (SpinMutex.mkCpu 0 false 0) None None Outer)) <$> seqZ 0 n))
    SpinMutex.make ∅ Queue.make (HashMap.make 8) ∅ ∅.

(** ** The abstract scheduler

    The state of one hart and of the scheduler without locks and counters: the
    ready queue is a list, the sleep table a finite map. *)

Record Spec := mkSpec {
  aprocs : gmap positive Process;
  ready : list positive;
  asleep : gmap Z (list positive);
  acurrent : option positive;
  asaved : option positive;
  apoint : point;
}.

(** The abstract process: its mutex and the saved interrupt flags forgotten. *)
Definition erase_context (k : Context) : Context :=
  match k with InSleep m _ => InSleep m false | InYield _ x => InYield false x | k => k end.

Definition erase_process (x : Process) : Process :=
  set_mutex SpinMutex.make (set_context (erase_context (context x)) x).

Definition set_aprocs x v := mkSpec x (ready v) (asleep v) (acurrent v) (asaved v) (apoint v).
Definition set_ready x v := mkSpec (aprocs v) x (asleep v) (acurrent v) (asaved v) (apoint v).
Definition set_asleep x v := mkSpec (aprocs v) (ready v) x (acurrent v) (asaved v) (apoint v).
Definition set_acurrent x v := mkSpec (aprocs v) (ready v) (asleep v) x (asaved v) (apoint v).
Definition set_asaved x v := mkSpec (aprocs v) (ready v) (asleep v) (acurrent v) x (apoint v).
Definition set_apoint x v := mkSpec (aprocs v) (ready v) (asleep v) (acurrent v) (asaved v) x.

Definition aset (p : positive) (f : Process → Process) (v : Spec) : Spec :=
  set_aprocs (alter f p (aprocs v)) v.

Definition aregister (p : positive) (v : Spec) : Spec :=
  match aprocs v !! p with
  | Some x =>
      match state x with
      | Ready => set_ready (ready v ++ [p]) v
      | Sleeping => set_asleep (<[chan x := default [] (asleep v !! chan x) ++ [p]]> (asleep v)) v
      | _ => v
      end
  | None => v
  end.

Definition aunregister (p : positive) (v : Spec) : Spec :=
  set_ready (filter (λ x, x ≠ p) (ready v)) v.

Fixpoint awake (l : list positive) (v : Spec) : Spec :=
  match l with [] => v | p :: l' => awake l' (aregister p (aset p (set_state Ready) v)) end.

Definition awakeup (c : Z) (v : Spec) : Spec :=
  let v' := awake (default [] (asleep v !! c)) v in set_asleep (delete c (asleep v')) v'.

Definition areschedule (p : positive) (k : Context) (v : Spec) : Spec :=
  let v := aset p (set_context k) (aregister p v) in
  match asaved v with Some q => set_apoint (Switched q) v | None => v end.

Definition astart (p : positive) (v : Spec) : Spec :=
  aregister p (set_aprocs (<[p := set_state Ready new_process]> (aprocs v)) v).

Definition aresume (p : positive) (v : Spec) : Spec :=
  match context <$> aprocs v !! p with
  | Some AtReturnFork => set_apoint Free v
  | Some (InSleep m _) => set_apoint (Relocking m) (aset p (set_chan 0) v)
  | Some (InYield _ k) => set_apoint k v
  | _ => v
  end.

Definition ainspect (p : positive) (v : Spec) : Spec :=
  match state <$> aprocs v !! p with
  | Some Ready => set_apoint (Checked p) v
  | Some Zombie => set_apoint Outer (aset p (set_memory false) v)
  | _ => set_apoint Outer (aregister p v)
  end.

Definition aadvance (v : Spec) : Spec :=
  match apoint v, acurrent v with
  | Outer, _ => set_apoint Inner v
  | Inner, _ =>
      match ready v with
      | [] => set_apoint Outer v
      | p :: l => set_apoint (Picked p) (set_ready l v)
      end
  | Picked p, _ => ainspect p v
  | Checked p, _ =>
      set_apoint Resuming (set_asaved (Some p) (set_acurrent (Some p) (aset p (set_state Running) v)))
  | Switched p, _ => set_apoint (Requeue p) (set_acurrent None v)
  | Requeue p, _ => set_apoint Inner (aregister p v)
  | Resuming, Some p => aresume p v
  | Dropped c m, Some p =>
      areschedule p (InSleep m false) (aset p (set_state Sleeping) (aset p (set_chan c) v))
  | Relocking m, _ => set_apoint (Critical m) v
  | _, _ => v
  end.

Definition aact (a : action) (v : Spec) : Spec :=
  match a, apoint v, acurrent v with
  | Advance, _, _ => aadvance v
  | Status _, _, _ => v
  | Wakeup c, _, _ => awakeup c v
  | (Start p | Fork p), _, _ => astart p v
  | Lock m, _, _ => set_apoint (Critical m) v
  | Unlock, Critical _, _ => set_apoint Free v
  | Sleep c, Critical m, _ => set_apoint (Dropped c m) v
  | Yield, k, Some p =>
      areschedule p (InYield false k) (aset p (set_state Ready) (aunregister p v))
  | Exit, Critical _, Some p => areschedule p InExit (aset p (set_state Zombie) v)
  | _, _, _ => v
  end.

(** The locks the hart holds at a point. *)
Definition held (v : Spec) : list lock_id :=
  match apoint v, acurrent v with
  | (Resuming | Dropped _ _), Some p => [ProcessLock p]
  | Switched p, _ => [ProcessLock p]
  | Critical m, _ => [KernelLock m]
  | _, _ => []
  end.

(** Which action the code can make at a point; a trap needs interrupts on, and
    these are off while a lock is held. *)
Definition enabled (ks : gset Z) (a : action) (v : Spec) : Prop :=
  match a with
  | Advance => match apoint v with Free | Critical _ => False | _ => True end
  | Status _ => held v = []
  | Wakeup c => c ∈ ks ∧ match apoint v with Switched _ | Resuming | Dropped _ _ => False | _ => True end
  | Start p => apoint v = Outer ∧ aprocs v !! p = None
  | Fork p => apoint v = Free ∧ aprocs v !! p = None
  | Lock _ => apoint v = Free
  | Unlock | Exit => ∃ m, apoint v = Critical m
  | Sleep c => c ∈ ks ∧ ∃ m, apoint v = Critical m
  | Yield => held v = []
  end.

(** The code of [run] itself, as opposed to the code of a process. *)
Definition scheduler_point (x : point) : bool :=
  match x with Outer | Inner | Picked _ | Checked _ | Requeue _ => true | _ => false end.

(** The invariant of the abstract scheduler. *)
Record sane (ks : gset Z) (v : Spec) : Prop := {
  sane_current : match acurrent v with
    | None => scheduler_point (apoint v) = true
    | Some p => scheduler_point (apoint v) = false ∧ asaved v = Some p ∧
        ∃ x, aprocs v !! p = Some x ∧
          match apoint v with Switched q => q = p ∧ state x ≠ Running | _ => state x = Running end
    end;
  sane_point : match apoint v with
    | Picked p | Requeue p => is_Some (aprocs v !! p)
    | Checked p => state <$> aprocs v !! p = Some Ready
    | Dropped c _ => c ∈ ks
    | _ => True
    end;
  sane_running : ∀ p x, aprocs v !! p = Some x → state x = Running → acurrent v = Some p;
  sane_ready : ∀ p, p ∈ ready v → is_Some (aprocs v !! p);
  sane_asleep : ∀ c p, p ∈ default [] (asleep v !! c) →
    ∃ x, aprocs v !! p = Some x ∧ state x = Sleeping ∧ chan x = c;
  sane_keys : dom (asleep v) ⊆ ks;
  sane_wakeable : ∀ p x, aprocs v !! p = Some x → state x = Sleeping →
    p ∈ default [] (asleep v !! chan x);
  sane_runnable : ∀ p x, aprocs v !! p = Some x → state x = Ready →
    p ∈ ready v ∨ apoint v = Picked p ∨ apoint v = Checked p;
  sane_exit : ∀ p x, aprocs v !! p = Some x → context x = InExit → state x = Zombie;
  sane_yield : ∀ p x ie k, aprocs v !! p = Some x → context x = InYield ie k →
    k = Free ∨ ∃ m, k = Relocking m;
}.

(** ** Refinement *)

(** A mutex the hart [tp] holds, or that is free. *)
Definition held_mutex (tp : Z) (h : list lock_id) (i : lock_id) : SpinMutex.SpinMutex :=
  if decide (i ∈ h) then SpinMutex.mkSpinMutex true tp else SpinMutex.make.

Section refinement.
Variable tp : Z.
Variable makeHash : Z → Z.
Variable ks : gset Z.
Hypothesis makeHash_nonneg : ∀ k, 0 <= makeHash k.
Hypothesis two : at_most_two makeHash (2 ^ 8 - 1) ks.

(** The kernel [s], in which [tp] holds the locks [h] and no other hart holds
    one, represents [v]. *)
Record rep (v : Spec) (h : list lock_id) (s : Kernel) : Prop := {
  rep_hart : ∃ t, harts s !! tp = Some t ∧ current t = acurrent v ∧ saved t = asaved v ∧
    at_point t = apoint v ∧ SpinMutex.numLocks (cpu t) = Z.of_nat (length h) ∧
    (h ≠ [] → SpinMutex.sie (cpu t) = false);
  rep_locks : ∀ i x, get_lock s i = Some x → x = held_mutex tp h i;
  rep_procs : aprocs v = erase_process <$> procs s;
  rep_queue : ∃ ps, repr (heap s) (readyQueue s) ps (ready v);
  rep_inv : HashMap.inv makeHash (sleepTable s);
  rep_table : refines makeHash (sleepTable s) (asleep v);
  rep_mask : capacityMask (sleepTable s) = 2 ^ 8 - 1;
  rep_keys : dom (asleep v) ⊆ ks;
}.

Definition valid_lock (v : Spec) (i : lock_id) : Prop :=
  match i with ProcessLock p => is_Some (aprocs v !! p) | _ => True end.

Lemma get_set_lock s i j x :
  get_lock (set_lock i x s) j = if decide (i = j) then (λ _, x) <$> get_lock s i else get_lock s j.
Proof.
  destruct (decide (i = j)) as [<-|Hne].
  - destruct i as [|p|m]; simpl; [done| |by rewrite lookup_insert_eq].
    rewrite lookup_alter_eq. by destruct (procs s !! p).
  - destruct i as [|p|m], j as [|q|n]; simpl; try done.
    + by rewrite lookup_alter_ne by congruence.
    + by rewrite lookup_insert_ne by congruence.
Qed.

Lemma get_lock_harts s x i : get_lock (set_harts x s) i = get_lock s i.
Proof. by destruct i. Qed.

Lemma rep_valid v h s i : rep v h s → valid_lock v i → is_Some (get_lock s i).
Proof.
  intros R Hv. destruct i as [|p|m]; simpl in *; [eauto| |eauto].
  rewrite (rep_procs _ _ _ R), lookup_fmap in Hv. by destruct (procs s !! p); [eauto|destruct Hv].
Qed.

Lemma rep_perm v h h' s : h ≡ₚ h' → rep v h s → rep v h' s.
Proof.
  intros Hp [(t & Ht) L]. split; try done.
  - exists t. destruct Ht as (?&?&?&?&En&Hs). split_and!; try done.
    + by rewrite <- (Permutation_length Hp).
    + intros Hn. apply Hs. intros ->. by apply Permutation_nil_l in Hp.
  - intros i x Hx. rewrite (L i x Hx). unfold held_mutex. destruct (decide (i ∈ h)) as [Hi|Hi];
      rewrite Hp in Hi; by rewrite ?decide_True, ?decide_False by done.
Qed.

(** Erasing a process forgets its mutex. *)
Lemma procs_set_lock s i x : erase_process <$> procs (set_lock i x s) = erase_process <$> procs s.
Proof.
  destruct i as [|p|m]; try done. simpl. apply map_eq. intros q. rewrite !lookup_fmap.
  destruct (decide (q = p)) as [->|Hne]; [|by rewrite lookup_alter_ne].
  rewrite lookup_alter_eq. by destruct (procs s !! p).
Qed.

(** One operation on one lock, seen from the locks of the hart. *)
Lemma rep_on_lock v h h' s i c x' :
  rep v h s → valid_lock v i →
  (∀ t, harts s !! tp = Some t → SpinMutex.numLocks (cpu t) = Z.of_nat (length h) →
    (h ≠ [] → SpinMutex.sie (cpu t) = false) →
    ∃ k, c (cpu t, held_mutex tp h i) = Ok (tt, (k, x')) ∧
      SpinMutex.numLocks k = Z.of_nat (length h') ∧ (h' ≠ [] → SpinMutex.sie k = false)) →
  (∀ j, held_mutex tp h' j = if decide (i = j) then x' else held_mutex tp h j) →
  runs (on_lock tp i c) s (λ _, rep v h').
Proof.
  intros R Hv Hc Hh'. pose proof R as [(t & Et & Ec & Es & Ea & En & Hs) L Pr Q I T K D].
  destruct (rep_valid _ _ _ _ R Hv) as [m Em]. rewrite (L i m Em) in Em.
  destruct (Hc t Et En Hs) as (k & Ek & Enk & Hk).
  eapply runs_ok; [unfold on_lock; by rewrite Et, Em, Ek|].
  assert (∀ y z, procs (set_harts y z) = procs z) as Hph by done.
  split.
  - exists (set_cpu k t). simpl. rewrite lookup_insert_eq. by destruct t.
  - intros j y. rewrite get_lock_harts, get_set_lock, Hh'. case_decide as Hd.
    + rewrite Em. simpl. congruence.
    + intros Ey. by apply L.
  - by rewrite Hph, procs_set_lock.
  - destruct Q as [ps Q]. exists ps. by destruct i.
  - by destruct i.
  - by destruct i.
  - by destruct i.
  - done.
Qed.

Lemma rep_lock v h s i :
  rep v h s → valid_lock v i → i ∉ h → (length h <= 4)%nat → runs (lock tp i) s (λ _, rep v (i :: h)).
Proof.
  intros R Hv Hi Hl. apply (rep_on_lock v h (i :: h) s i _ (SpinMutex.mkSpinMutex true tp)); [done|done| |].
  - intros t _ En Hs. unfold held_mutex, SpinMutex.lock. rewrite decide_False by done.
    eexists. split; [done|]. split.
    + rewrite SpinMutex.numLocks_push, En by lia. simpl. lia.
    + intros _. apply SpinMutex.sie_push.
  - intros j. unfold held_mutex. destruct (decide (i = j)) as [->|Hne].
    + rewrite decide_True; [done|]. left.
    + destruct (decide (j ∈ h)) as [Hj|Hj].
      * rewrite decide_True; [done|by right].
      * rewrite decide_False; [done|]. rewrite elem_of_cons. naive_solver.
Qed.

Lemma rep_unlock v h s i :
  rep v (i :: h) s → valid_lock v i → i ∉ h → (length h <= 4)%nat → runs (unlock tp i) s (λ _, rep v h).
Proof.
  intros R Hv Hi Hl. apply (rep_on_lock v (i :: h) h s i _ SpinMutex.make); [done|done| |].
  - intros t _ En Hs. unfold held_mutex, SpinMutex.unlock, SpinMutex.holding.
    rewrite decide_True by left. simpl. rewrite Z.eqb_refl. simpl.
    destruct (SpinMutex.pop_spec (cpu t)) as (k & -> & Ek & _ & Hk); [by apply Hs|simpl in En; lia|].
    exists k. split; [done|]. rewrite En in Ek. simpl in Ek. split; [lia|].
    intros Hn. apply Hk. destruct h; [done|]. simpl in *. lia.
  - intros j. unfold held_mutex. destruct (decide (i = j)) as [->|Hne].
    + by rewrite decide_False.
    + destruct (decide (j ∈ h)) as [Hj|Hj].
      * rewrite decide_True; [done|by right].
      * rewrite decide_False; [done|]. rewrite elem_of_cons. naive_solver.
Qed.

(** A [LockGuard] around a body that keeps the locks it finds. *)
Lemma rep_guarded {A} v h s i (body : M Kernel A) (Q : A → Kernel → Prop) :
  rep v h s → valid_lock v i → i ∉ h → (length h <= 4)%nat →
  (∀ s', rep v (i :: h) s' → runs body s' (λ r s'', ∃ v', rep v' (i :: h) s'' ∧ valid_lock v' i ∧
    ∀ s, rep v' h s → Q r s)) →
  runs (guarded tp i body) s Q.
Proof.
  intros R Hv Hi Hl Hb. unfold guarded. runs_step.
  eapply runs_mono; [by apply (rep_lock v h)|]. intros [] s1 R1.
  runs_step. eapply runs_mono; [by apply Hb|]. intros r s2 (v' & R2 & Hv2 & HQ).
  runs_step. eapply runs_mono; [by apply (rep_unlock v' h)|]. intros [] s3 R3.
  apply runs_ret. by apply HQ.
Qed.

(** Reading and changing a process. *)
Lemma rep_deref v h s p y (Q : Process → Kernel → Prop) :
  rep v h s → aprocs v !! p = Some y →
  (∀ x, procs s !! p = Some x → erase_process x = y → mutex x = held_mutex tp h (ProcessLock p) → Q x s) →
  runs (deref p) s Q.
Proof.
  intros R Ey HQ. rewrite (rep_procs _ _ _ R), lookup_fmap in Ey.
  destruct (procs s !! p) as [x|] eqn:Ex; [|done]. injection Ey as Ey.
  eapply runs_ok; [unfold deref; by rewrite Ex|]. apply HQ; [done|done|].
  apply (rep_locks _ _ _ R). simpl. by rewrite Ex.
Qed.

Lemma rep_change v h s p f g :
  rep v h s → is_Some (aprocs v !! p) → (∀ x, mutex (f x) = mutex x) →
  (∀ x, erase_process (f x) = g (erase_process x)) →
  runs (change p f) s (λ _, rep (aset p g v) h).
Proof.
  intros R [y Ey] Hm Hg. unfold change. runs_step. eapply (rep_deref v h); [done|done|].
  intros x Ex Ee Em. runs_step. destruct R as [Ht L Pr Q I T K D]. split; try done.
  - intros i m. destruct i as [|q|n]; [apply (L SchedulerLock)| |apply (L (KernelLock n))].
    simpl. destruct (decide (q = p)) as [->|Hne].
    + rewrite lookup_insert_eq. simpl. intros [= <-]. by rewrite Hm.
    + rewrite lookup_insert_ne by done. apply (L (ProcessLock q)).
  - simpl. rewrite fmap_insert, Hg, Pr. apply map_eq. intros q.
    destruct (decide (q = p)) as [->|Hne].
    + by rewrite lookup_alter_eq, lookup_insert_eq, lookup_fmap, Ex.
    + by rewrite lookup_alter_ne, lookup_insert_ne.
Qed.

(** Changing what a hart knows, not its counters. *)
Lemma rep_change_hart v v' h s f :
  rep v h s →
  (∀ t, harts s !! tp = Some t → current t = acurrent v → saved t = asaved v → at_point t = apoint v →
    current (f t) = acurrent v' ∧ saved (f t) = asaved v' ∧ at_point (f t) = apoint v' ∧
    SpinMutex.numLocks (cpu (f t)) = SpinMutex.numLocks (cpu t) ∧
    (h ≠ [] → SpinMutex.sie (cpu (f t)) = SpinMutex.sie (cpu t))) →
  aprocs v' = aprocs v → ready v' = ready v → asleep v' = asleep v →
  runs (change_hart tp f) s (λ _, rep v' h).
Proof.
  intros [(t & Et & Ec & Es & Ea & En & Hs) L Pr Q I T K D] Hf Ep Er Ez.
  destruct (Hf t Et Ec Es Ea) as (?&?&?&E1&E2). unfold change_hart. runs_step.
  split; rewrite ?Ep, ?Er, ?Ez; try done.
  exists (f t). simpl. rewrite lookup_alter_eq, Et. split_and!; try done.
  - congruence.
  - intros Hn. rewrite E2 by done. by apply Hs.
Qed.

Lemma rep_goto v h s x : rep v h s → runs (goto tp x) s (λ _, rep (set_apoint x v) h).
Proof. intros R. by apply (rep_change_hart v). Qed.

(** [this_hart] and [Cpu::current().process]. *)
Lemma rep_this_hart v h s (Q : Hart → Kernel → Prop) :
  rep v h s →
  (∀ t, harts s !! tp = Some t → current t = acurrent v → saved t = asaved v → at_point t = apoint v →
    SpinMutex.numLocks (cpu t) = Z.of_nat (length h) → (h ≠ [] → SpinMutex.sie (cpu t) = false) → Q t s) →
  runs (this_hart tp) s Q.
Proof.
  intros [(t & Et & Ht) _ _ _ _ _ _ _] HQ. eapply runs_ok; [unfold this_hart; by rewrite Et|].
  apply HQ; tauto.
Qed.

Lemma rep_current v h s p (Q : positive → Kernel → Prop) :
  rep v h s → acurrent v = Some p → Q p s → runs (current_process tp) s Q.
Proof.
  intros R Hp HQ. unfold current_process. runs_step. apply (rep_this_hart v h); [done|].
  intros t _ Ec _ _ _ _. rewrite Ec, Hp. by apply runs_ret.
Qed.

(** The queue. *)
Lemma rep_queue_change v h s l hp q ps :
  rep v h s → repr hp q ps l → rep (set_ready l v) h (set_queue hp q s).
Proof. intros [Ht L Pr Q I T K D] Hr. split; try done. by exists ps. Qed.

Lemma rep_push v h s p : rep v h s → runs (push_ready p) s (λ _, rep (set_ready (ready v ++ [p]) v) h).
Proof.
  intros R. destruct (rep_queue _ _ _ R) as [ps Q].
  destruct (repr_push _ _ _ _ p Q) as (hp & q & x & E & _ & Q' & _).
  eapply runs_ok; [unfold push_ready; by rewrite E|]. by eapply rep_queue_change.
Qed.

Lemma rep_pop v h s p l : rep v h s → ready v = p :: l →
  runs pop_ready s (λ x s', x = p ∧ rep (set_ready l v) h s').
Proof.
  intros R El. destruct (rep_queue _ _ _ R) as [ps Q]. rewrite El in Q.
  destruct (repr_pop _ _ _ _ _ Q) as (q & x & ps' & -> & E & Q').
  eapply runs_ok; [unfold pop_ready; by rewrite (repr_front _ _ _ _ _ Q), E|].
  split; [done|]. by eapply rep_queue_change.
Qed.

(** The sleep table. *)
Lemma rep_operator_index v h s c :
  rep v h s → c ∈ ks →
  fst (operator_index makeHash [] (sleepTable s) c) = default [] (asleep v !! c) ∧
  rep (set_asleep (<[c := default [] (asleep v !! c)]> (asleep v)) v) h
    (set_table (snd (operator_index makeHash [] (sleepTable s) c)) s).
Proof.
  intros [Ht L Pr Q I T K D] Hc. split.
  - specialize (T c). unfold operator_index. destruct (asleep v !! c) as [l|] eqn:E.
    + pose proof (operator_index_present makeHash [] _ _ _ T) as Eo. unfold operator_index in Eo.
      by rewrite Eo.
    + unfold HashMap.lookup in T. by rewrite (walk_absent c [] _ T).
  - split; try done.
    + by apply inv_operator_index.
    + pose proof (refines_step makeHash [] makeHash_nonneg (sleepTable s) (asleep v) (OpIndex c) ks I T D Hc) as Hr.
      rewrite K in Hr. specialize (Hr two). intros k. etrans; [apply (Hr k)|]. simpl.
      destruct (asleep v !! c) as [l|] eqn:E; [|done]. simpl. by rewrite insert_id.
    + simpl. rewrite <- K. apply (capacityMask_step makeHash [] (sleepTable s) (OpIndex c)).
    + simpl. set_solver.
Qed.

Lemma rep_modify_ref v h s c f :
  rep v h s →
  rep (set_asleep (alter f c (asleep v)) v) h (set_table (modify_ref makeHash (sleepTable s) c f) s).
Proof.
  intros [Ht L Pr Q I T K D]. split; try done.
  - by apply inv_modify_ref.
  - intros k. simpl. rewrite lookup_modify_ref by done. case_decide as E.
    + subst. rewrite lookup_alter_eq. by rewrite (T c).
    + by rewrite lookup_alter_ne, (T k).
  - simpl. by rewrite dom_alter_L.
Qed.

Lemma rep_erase v h s c :
  rep v h s → rep (set_asleep (delete c (asleep v)) v) h (set_table (erase makeHash (sleepTable s) c) s).
Proof.
  intros [Ht L Pr Q I T K D]. split; try done.
  - by apply inv_erase.
  - intros k. simpl. rewrite lookup_erase by done. case_decide as E.
    + subst. by rewrite lookup_delete_eq.
    + by rewrite lookup_delete_ne, (T k).
  - simpl. set_solver.
Qed.

(** A state of the abstract scheduler up to the equality of its fields. *)
Lemma rep_eq v v' h s : v = v' → rep v h s → rep v' h s.
Proof. by intros ->. Qed.

Lemma aprocs_aregister p v : aprocs (aregister p v) = aprocs v.
Proof. unfold aregister. repeat case_match; done. Qed.

Lemma rep_registerProcess v h s p :
  rep v h s → SchedulerLock ∉ h → (length h <= 4)%nat → is_Some (aprocs v !! p) →
  (∀ x, aprocs v !! p = Some x → state x = Sleeping → chan x ∈ ks) →
  runs (registerProcess tp makeHash p) s (λ _, rep (aregister p v) h).
Proof.
  intros R Hn Hl [y Ey] Hc. unfold registerProcess.
  eapply (rep_guarded v h); [done|done|done|done|]. intros s1 R1.
  runs_step. apply (rep_deref v (SchedulerLock :: h) _ p y); [done|done|]. intros x Ex Ee _.
  assert (state y = state x ∧ chan y = chan x) as [Est Ech] by by rewrite <- Ee.
  unfold aregister. rewrite Ey. rewrite Est. destruct (state x) eqn:E;
    try (apply runs_ret; exists v; by split_and!).
  - specialize (Hc y Ey Est). rewrite Ech in Hc |- *.
    destruct (rep_operator_index v (SchedulerLock :: h) _ (chan x) R1 Hc) as [_ R2].
    pose proof (rep_modify_ref _ _ _ (chan x) (λ l, l ++ [p]) R2) as R3.
    apply runs_modify. eexists. split; [eapply rep_eq; [|exact R3]|split; [done|intros s' R'; exact R']].
    unfold set_asleep. simpl. by rewrite alter_insert_eq.
  - eapply runs_mono; [by apply rep_push|]. intros [] s2 R2. eexists. split; [exact R2|split; [done|]]. done.
Qed.

(** The loop that moves the queue to a local one. *)
Lemma runs_unregister_loop fuel s p que qs r ps l :
  repr (heap s) (readyQueue s) qs r → repr (heap s) que ps l → (∀ x, x ∈ qs → x ∉ ps) →
  (length r <= fuel)%nat →
  runs (unregister_loop fuel p que) s (λ que' s', ∃ hp q ps', s' = set_queue hp q s ∧
    repr hp que' ps' (l ++ filter (λ x, x ≠ p) r)).
Proof.
  revert s que qs r ps l; induction fuel as [|f IH]; intros s que qs r ps l Hr Hq Hd Hf; cbn [unregister_loop];
    runs_step; runs_step; rewrite (repr_empty _ _ _ _ Hr); destruct r as [|x r]; simpl in Hf; try lia.
  1, 2: apply runs_ret; exists (heap s), (readyQueue s), ps; rewrite app_nil_r; by destruct s.
  runs_step. destruct (repr_pop _ _ _ _ _ Hr) as (q' & n & qs' & -> & E & Hr').
  eapply runs_ok; [unfold pop_ready; by rewrite (repr_front _ _ _ _ _ Hr), E|].
  assert (∀ y, y ∈ qs' → y ∉ ps) as Hd' by (intros y Hy; apply Hd; by right).
  rewrite filter_cons. destruct (decide (x = p)) as [->|Hx].
  - rewrite decide_False by tauto.
    eapply runs_mono; [apply (IH (set_queue (heap s) q' s) que qs' r ps l); [done|done|done|lia]|].
    intros que' s' (hp & q & ps' & -> & Hp). by exists hp, q, ps'.
  - rewrite decide_True by done. runs_step. runs_step.
    destruct (repr_push _ _ _ _ x Hq) as (hp & q2 & m & E2 & Hm & Hq2 & _ & Hfr).
    simpl. rewrite E2. runs_step. runs_step. simpl.
    eapply runs_mono; [apply (IH (set_queue hp q' s) q2 qs' r (ps ++ [m]) (l ++ [x])); [|done| |lia]|].
    + apply (repr_frame (heap s)); [done|]. intros y Hy. apply Hfr; [|by apply Hd'].
      by apply (repr_dom _ _ _ _ _ Hr').
    + intros y Hy. rewrite elem_of_app, list_elem_of_singleton. intros [?| ->]; [by apply (Hd' y)|].
      by apply Hm, (repr_dom _ _ _ _ _ Hr').
    + intros que' s' (hp' & q & ps' & -> & Hp). exists hp', q, ps'. split; [done|].
      by rewrite <- app_assoc in Hp.
Qed.

(** A queue has no more nodes than its heap. *)
Lemma repr_size {V} (hp : gmap positive (Queue.Node V)) q ps l :
  repr hp q ps l → (length l <= base.size hp)%nat.
Proof.
  intros Hr. rewrite <- (repr_length _ _ _ _ Hr).
  rewrite <- (size_list_to_set (C := gset positive)) by apply (repr_nodup _ _ _ _ Hr).
  rewrite <- size_dom. apply subseteq_size. intros x. rewrite elem_of_list_to_set.
  by apply (repr_dom _ _ _ _ _ Hr).
Qed.

Lemma rep_unregisterProcess v h s p :
  rep v h s → SchedulerLock ∉ h → (length h <= 4)%nat →
  runs (unregisterProcess tp p) s (λ _, rep (aunregister p v) h).
Proof.
  intros R Hn Hl. unfold unregisterProcess. eapply (rep_guarded v h); [done|done|done|done|].
  intros s1 R1. destruct (rep_queue _ _ _ R1) as [qs Hr].
  runs_step. runs_step. runs_step. eapply runs_mono.
  { eapply (runs_unregister_loop _ s1 p Queue.make qs (ready v) []); [done|apply repr_make| |by eapply repr_size].
    intros x _. apply not_elem_of_nil. }
  intros que s2 (hp & q & ps & -> & Hp). runs_step. runs_step. runs_step. runs_step. simpl.
  rewrite (destroy_repr _ _ _ _ _ Hp) by by eapply repr_size.
  runs_step. exists (aunregister p v). split; [exact (rep_queue_change _ _ _ _ _ _ _ R1 Hp)|by split].
Qed.

(** [wakeup]. *)
Lemma aset_lookup p f v q : aprocs (aset p f v) !! q = if decide (q = p) then f <$> aprocs v !! q else aprocs v !! q.
Proof.
  simpl. destruct (decide (q = p)) as [->|Hne]; [by rewrite lookup_alter_eq|by rewrite lookup_alter_ne].
Qed.

Lemma rep_aset_state v h s p x :
  rep v h s → is_Some (aprocs v !! p) → runs (change p (set_state x)) s (λ _, rep (aset p (set_state x) v) h).
Proof. intros R Hp. by apply rep_change. Qed.

Lemma rep_wakeup_loop l v h s :
  rep v (SchedulerLock :: h) s → SchedulerLock ∉ h → (∀ p, p ∈ l → (ProcessLock p ∉ h) ∧ is_Some (aprocs v !! p)) →
  (length h <= 2)%nat →
  runs (wakeup_loop tp makeHash l) s (λ _, rep (awake l v) (SchedulerLock :: h)).
Proof.
  revert v s; induction l as [|p l IH]; intros v s R Hn Hl Hh; cbn [wakeup_loop awake]; [by apply runs_ret|].
  destruct (Hl p) as [Hp Hv]; [by left|]. runs_step. eapply runs_mono.
  { apply (rep_guarded v (SchedulerLock :: h) s (ProcessLock p) _
      (λ _, rep (aregister p (aset p (set_state Ready) v)) (SchedulerLock :: h))); [done|done| |simpl; lia|].
    { rewrite elem_of_cons. naive_solver. }
    intros s1 R1. runs_step. eapply runs_mono; [by apply rep_aset_state|]. intros [] s2 R2.
    set (v2 := aset p (set_state Ready) v) in *.
    assert (is_Some (aprocs v2 !! p)) as Hv2 by (unfold v2; rewrite aset_lookup, decide_True by done; by apply fmap_is_Some).
    runs_step. apply (rep_perm _ _ (SchedulerLock :: ProcessLock p :: h)) in R2; [|by constructor].
    eapply runs_mono; [apply (rep_unlock v2 (ProcessLock p :: h)); [done|done| |simpl; lia]|].
    { rewrite elem_of_cons. naive_solver. }
    intros [] s3 R3. runs_step. eapply runs_mono; [apply (rep_registerProcess v2 (ProcessLock p :: h)); try done|].
    { rewrite elem_of_cons. naive_solver. }
    { simpl. lia. }
    { unfold v2. intros y. rewrite aset_lookup, decide_True by done. destruct (aprocs v !! p); [|done].
      by intros [= <-]. }
    intros [] s4 R4. eapply runs_mono; [apply (rep_lock (aregister p v2) (ProcessLock p :: h)); [done|done| |simpl; lia]|].
    { rewrite elem_of_cons. naive_solver. }
    intros [] s5 R5. exists (aregister p v2). split; [|split].
    - eapply rep_perm; [|exact R5]. by constructor.
    - simpl. by rewrite aprocs_aregister.
    - done. }
  intros [] s1 R1. apply IH; [done|done| |done]. intros q Hq. rewrite aprocs_aregister, aset_lookup.
  destruct (Hl q) as [? ?]; [by right|]. case_decide; [by rewrite fmap_is_Some|done].
Qed.

Lemma asleep_awake_Ready l v : asleep (awake l v) = asleep v.
Proof.
  revert v; induction l as [|p l IH]; intros v; [done|]. cbn [awake]. rewrite IH. unfold aregister.
  rewrite aset_lookup, decide_True by done. by destruct (aprocs v !! p).
Qed.

(** [awake] does not look at the sleep table. *)
Lemma awake_set_asleep l t v : awake l (set_asleep t v) = set_asleep t (awake l v).
Proof.
  revert v; induction l as [|p l IH]; intros v; [done|]. cbn [awake]. rewrite <- IH. f_equal.
  unfold aregister. simpl. rewrite lookup_alter_eq. by destruct (aprocs v !! p).
Qed.

Lemma rep_wakeup v h s c :
  rep v h s → SchedulerLock ∉ h → c ∈ ks →
  (∀ p, p ∈ default [] (asleep v !! c) → (ProcessLock p ∉ h) ∧ is_Some (aprocs v !! p)) →
  (length h <= 2)%nat →
  runs (wakeup tp makeHash c) s (λ _, rep (awakeup c v) h).
Proof.
  intros R Hn Hc Hl Hh. unfold wakeup. eapply (rep_guarded v h); [done|done|done|lia|]. intros s1 R1.
  runs_step. runs_step. destruct (rep_operator_index v _ _ c R1 Hc) as [E1 R2].
  destruct (operator_index makeHash [] (sleepTable s1) c) as [l t]. simpl in E1, R2. subst l.
  runs_step. runs_step. runs_step. eapply runs_mono; [by apply rep_wakeup_loop|]. intros [] s2 R3.
  apply runs_modify. eexists. split; [by apply rep_erase|]. split; [done|]. intros s3 R4.
  eapply rep_eq; [|exact R4]. unfold awakeup. rewrite awake_set_asleep. unfold set_asleep. simpl.
  by rewrite delete_insert_eq, asleep_awake_Ready.
Qed.

Lemma rep_reschedule v s p q x (k : bool → Context) k' :
  rep v [ProcessLock p] s → acurrent v = Some p → asaved v = Some q → aprocs v !! p = Some x →
  state x ≠ Running → (state x = Sleeping → chan x ∈ ks) → (∀ ie, erase_context (k ie) = k') →
  runs (reschedule tp makeHash k) s (λ _, rep (areschedule p k' v) [ProcessLock p]).
Proof.
  intros R Hc Hq Hx Hs Hk Hke. unfold reschedule.
  runs_step. apply (rep_current v [ProcessLock p] s p); [done|done|].
  runs_step. apply (rep_deref v [ProcessLock p] s p x); [done|done|]. intros y Ey Exy Em.
  assert (state y = state x) as Es by by rewrite <- Exy.
  runs_step. apply runs_assert.
  { rewrite Em. unfold held_mutex. rewrite decide_True by left. unfold SpinMutex.holding. simpl. apply Z.eqb_refl. }
  runs_step. apply (rep_this_hart v [ProcessLock p] s); [done|]. intros t _ _ _ _ En Hsie.
  runs_step. apply runs_assert; [by rewrite En|].
  runs_step. apply runs_assert; [by rewrite Es, bool_decide_false|].
  runs_step. apply runs_assert; [by rewrite Hsie|].
  runs_step. eapply runs_mono; [apply (rep_registerProcess v [ProcessLock p]); try done|].
  { intros [?%symmetry|[]%not_elem_of_nil]%elem_of_cons. done. }
  { simpl. lia. }
  { intros z. rewrite Hx. by intros [= <-]. }
  intros [] s1 R1. runs_step. eapply runs_mono.
  { apply (rep_change _ _ _ p _ (set_context k') R1); [by rewrite aprocs_aregister|done|].
    intros z. unfold erase_process. destruct z. simpl. by rewrite Hke. }
  intros [] s2 R2. runs_step. eapply (rep_this_hart _ [ProcessLock p] s2 _ R2).
  intros t2 _ _ E2 _ _ _. rewrite E2. unfold areschedule.
  assert (asaved (aset p (set_context k') (aregister p v)) = Some q) as Esv.
  { simpl. unfold aregister. by repeat case_match. }
  rewrite Esv. by apply rep_goto.
Qed.

Lemma rep_new_process v h s p :
  rep v h s → aprocs v !! p = None → ProcessLock p ∉ h →
  rep (set_aprocs (<[p := new_process]> (aprocs v)) v) h (set_procs (<[p := new_process]> (procs s)) s).
Proof.
  intros [Ht L Pr Q I T K D] Hp Hh. split; try done.
  - intros i m. destruct i as [|q|n]; [apply (L SchedulerLock)| |apply (L (KernelLock n))].
    simpl. destruct (decide (q = p)) as [->|Hne].
    + rewrite lookup_insert_eq. simpl. intros [= <-]. unfold held_mutex. by rewrite decide_False.
    + rewrite lookup_insert_ne by done. apply (L (ProcessLock q)).
  - simpl. by rewrite fmap_insert, Pr.
Qed.

Lemma aset_new_process p v :
  aset p (set_state Ready) (set_aprocs (<[p := new_process]> (aprocs v)) v) =
  set_aprocs (<[p := set_state Ready new_process]> (aprocs v)) v.
Proof. unfold aset, set_aprocs. simpl. by rewrite alter_insert_eq. Qed.

Lemma rep_register_new v s p :
  rep (set_aprocs (<[p := set_state Ready new_process]> (aprocs v)) v) [] s →
  runs (registerProcess tp makeHash p) s (λ _, rep (astart p v) []).
Proof.
  intros R. apply rep_registerProcess; [done|apply not_elem_of_nil|simpl; lia| |]; simpl.
  - by rewrite lookup_insert_eq.
  - intros x. rewrite lookup_insert_eq. by intros [= <-].
Qed.

Lemma rep_start_ready v s p :
  rep v [] s → aprocs v !! p = None → runs (start_ready tp makeHash p) s (λ _, rep (astart p v) []).
Proof.
  intros R Hp. pose proof (rep_new_process v [] s p R Hp (not_elem_of_nil _)) as R1.
  unfold start_ready. runs_step. runs_step. runs_step.
  eapply runs_mono; [apply (rep_aset_state _ _ _ p Ready R1); simpl; by rewrite lookup_insert_eq|].
  intros [] s1 R2. rewrite aset_new_process in R2. by apply rep_register_new.
Qed.

Lemma rep_fork_ready v s p :
  rep v [] s → aprocs v !! p = None → runs (fork_ready tp makeHash p) s (λ _, rep (astart p v) []).
Proof.
  intros R Hp. pose proof (rep_new_process v [] s p R Hp (not_elem_of_nil _)) as R1.
  unfold fork_ready. runs_step. runs_step. runs_step.
  eapply (rep_guarded _ [] _ (ProcessLock p) _ _ R1); [simpl; by rewrite lookup_insert_eq|apply not_elem_of_nil|simpl; lia|].
  intros s1 R2. eapply runs_mono; [apply (rep_aset_state _ _ _ p Ready R2); simpl; by rewrite lookup_insert_eq|].
  intros [] s2 R3. rewrite aset_new_process in R3. eexists. split; [exact R3|].
  split; [simpl; by rewrite lookup_insert_eq|]. intros s3 R4. by apply rep_register_new.
Qed.

(** *** The steps of [run] *)

Lemma rep_mono v v' h h' s : v = v' → h = h' → rep v h s → rep v' h' s.
Proof. by intros -> ->. Qed.

Lemma rep_run_enable v s : rep v [] s → runs (run_enable tp) s (λ _, rep (set_apoint Inner v) []).
Proof.
  intros R. unfold run_enable. runs_step. eapply runs_mono; [apply (rep_change_hart v v [] s)|]; try done.
  intros [] s1 R1. by apply rep_goto.
Qed.

Lemma rep_run_pick v s :
  rep v [] s → apoint v = Inner → runs (run_pick tp) s (λ _, rep (aadvance v) []).
Proof.
  intros R Ea. unfold run_pick, aadvance. rewrite Ea. runs_step.
  eapply (rep_guarded v []); [done|done|apply not_elem_of_nil|simpl; lia|]. intros s1 R1.
  destruct (rep_queue _ _ _ R1) as [ps Q]. runs_step. runs_step. rewrite (repr_empty _ _ _ _ Q).
  destruct (ready v) as [|p l] eqn:Er.
  - runs_step. exists v. split; [done|]. split; [done|]. intros s2 R2. by apply rep_goto.
  - runs_step. eapply runs_mono; [by apply (rep_pop _ _ _ p l R1)|]. intros x s2 [-> R2].
    runs_step. eexists. split; [exact R2|]. split; [done|]. intros s3 R3. by apply rep_goto.
Qed.

(** A process read in the abstract state. *)
Lemma rep_register_sane v h s p :
  rep v h s → sane ks v → SchedulerLock ∉ h → (length h <= 4)%nat → is_Some (aprocs v !! p) →
  runs (registerProcess tp makeHash p) s (λ _, rep (aregister p v) h).
Proof.
  intros R Hi Hn Hl Hp. apply rep_registerProcess; [done|done|done|done|].
  intros x Hx Hs. pose proof (sane_wakeable _ _ Hi p x Hx Hs) as Hin.
  apply (sane_keys _ _ Hi), elem_of_dom. destruct (asleep v !! chan x); [done|].
  by apply not_elem_of_nil in Hin.
Qed.

Lemma rep_run_inspect v s p :
  rep v [] s → sane ks v → apoint v = Picked p → runs (run_inspect tp makeHash p) s (λ _, rep (aadvance v) []).
Proof.
  intros R Hi Ea. pose proof (sane_point _ _ Hi) as Hp. rewrite Ea in Hp. destruct Hp as [x Hx].
  unfold run_inspect, aadvance, ainspect. rewrite Ea, Hx. runs_step.
  apply (rep_deref v [] s p x _ R Hx). intros y Ey Exy _.
  assert (state y = state x) as Es by by rewrite <- Exy. rewrite Es. simpl.
  assert (runs (registerProcess tp makeHash p ;; goto tp Outer) s
    (λ _, rep (set_apoint Outer (aregister p v)) [])) as Hreg.
  { runs_step. eapply runs_mono.
    - apply (rep_register_sane v []); [done|done|apply not_elem_of_nil|simpl; lia|eauto].
    - intros [] s1 R1. by apply rep_goto. }
  destruct (state x) eqn:E; simpl; try exact Hreg.
  - by apply rep_goto.
  - runs_step. unfold killZombie. runs_step. apply (rep_deref v [] s p x _ R Hx). intros z Ez Exz _.
    assert (state z = Zombie) as -> by (rewrite <- E, <- Exz; done).
    runs_step. apply runs_assert; [done|].
    eapply runs_mono; [apply (rep_change v [] s p _ (set_memory false) R); [eauto|done|by intros []]|].
    intros [] s1 R1. by apply rep_goto.
Qed.

Lemma rep_run_dispatch v s p :
  rep v [] s → sane ks v → apoint v = Checked p → runs (run_dispatch tp p) s (λ _, rep (aadvance v) [ProcessLock p]).
Proof.
  intros R Hi Ea. pose proof (sane_point _ _ Hi) as Hp. rewrite Ea in Hp.
  assert (is_Some (aprocs v !! p)) as Hv by (destruct (aprocs v !! p); [eauto|done]).
  unfold run_dispatch, aadvance. rewrite Ea. runs_step.
  eapply runs_mono; [apply (rep_lock v [] s (ProcessLock p) R Hv (not_elem_of_nil _)); simpl; lia|].
  intros [] s1 R1. runs_step. eapply runs_mono; [by apply rep_aset_state|]. intros [] s2 R2.
  runs_step. eapply runs_mono; [by apply (rep_change_hart _ (set_acurrent (Some p) (aset p (set_state Running) v)) _ _ _ R2)|].
  intros [] s3 R3. runs_step.
  eapply runs_mono; [by apply (rep_change_hart _ (set_asaved (Some p) (set_acurrent (Some p) (aset p (set_state Running) v))) _ _ _ R3)|].
  intros [] s4 R4. by apply rep_goto.
Qed.

Lemma rep_run_back v s p :
  rep v [ProcessLock p] s → is_Some (aprocs v !! p) → apoint v = Switched p →
  runs (run_back tp p) s (λ _, rep (aadvance v) []).
Proof.
  intros R Hp Ea. unfold run_back, aadvance. rewrite Ea. runs_step.
  eapply runs_mono; [by apply (rep_change_hart v (set_acurrent None v) _ _ _ R)|].
  intros [] s1 R1. runs_step.
  eapply runs_mono; [apply (rep_unlock _ [] _ _ R1 Hp (not_elem_of_nil _)); simpl; lia|].
  intros [] s2 R2. by apply rep_goto.
Qed.

Lemma rep_run_requeue v s p :
  rep v [] s → sane ks v → apoint v = Requeue p → runs (run_requeue tp makeHash p) s (λ _, rep (aadvance v) []).
Proof.
  intros R Hi Ea. pose proof (sane_point _ _ Hi) as Hp. rewrite Ea in Hp.
  unfold run_requeue, aadvance. rewrite Ea. runs_step.
  eapply runs_mono; [apply (rep_register_sane v [] s p R Hi (not_elem_of_nil _)); [simpl; lia|done]|].
  intros [] s1 R1. by apply rep_goto.
Qed.

(** *** The steps of a process *)

Lemma rep_interrupt_flag v h s ie :
  rep v h s → runs (change_hart tp (λ t, set_cpu (SpinMutex.mkCpu (SpinMutex.numLocks (cpu t)) ie
    (SpinMutex.sstatus (cpu t))) t)) s (λ _, rep v h).
Proof. intros R. by apply (rep_change_hart v v h s). Qed.

Lemma rep_resume v s p x :
  rep v [ProcessLock p] s → acurrent v = Some p → aprocs v !! p = Some x → context x ≠ InExit →
  runs (resume tp) s (λ _, rep (aresume p v) []).
Proof.
  intros R Hc Hx Hk. unfold resume, aresume. rewrite Hx. simpl.
  runs_step. apply (rep_current v _ s p _ R Hc). runs_step. apply (rep_deref v _ s p x _ R Hx).
  intros y Ey Exy _. assert (context x = erase_context (context y)) as Ek by by rewrite <- Exy.
  assert (∀ v s, rep v [ProcessLock p] s → is_Some (aprocs v !! p) → runs (unlock tp (ProcessLock p)) s (λ _, rep v [])) as Hu.
  { intros v' s' R' Hv. apply (rep_unlock v' [] s' (ProcessLock p) R' Hv (not_elem_of_nil _)). simpl. lia. }
  destruct (context y) as [|m ie|ie k|]; simpl in Ek; rewrite Ek; simpl.
  - runs_step. eapply runs_mono; [apply Hu; eauto|]. intros [] s1 R1. by apply rep_goto.
  - runs_step. eapply runs_mono; [by apply rep_interrupt_flag|]. intros [] s1 R1.
    runs_step. eapply runs_mono; [apply (rep_change _ _ _ p _ (set_chan 0) R1); [eauto|done|by intros []]|].
    intros [] s2 R2. runs_step. eapply runs_mono; [apply Hu; [done|]|].
    { rewrite aset_lookup, Hx, decide_True by done. simpl. eauto. }
    intros [] s3 R3. by apply rep_goto.
  - runs_step. eapply runs_mono; [by apply rep_interrupt_flag|]. intros [] s1 R1.
    runs_step. eapply runs_mono; [apply Hu; eauto|]. intros [] s2 R2. by apply rep_goto.
  - done.
Qed.

Lemma rep_sleep_release v s p c m :
  rep v [KernelLock m] s → acurrent v = Some p → is_Some (aprocs v !! p) →
  runs (sleep_release tp c m) s (λ _, rep (set_apoint (Dropped c m) v) [ProcessLock p]).
Proof.
  intros R Hc Hp. unfold sleep_release. runs_step. apply (rep_current v _ s p _ R Hc).
  runs_step. eapply runs_mono; [apply (rep_lock v [KernelLock m] s (ProcessLock p) R Hp); [|simpl; lia]|].
  { by intros [?|[]%not_elem_of_nil]%elem_of_cons. }
  intros [] s1 R1. apply (rep_perm _ _ [KernelLock m; ProcessLock p]) in R1; [|by constructor].
  runs_step. eapply runs_mono; [apply (rep_unlock v [ProcessLock p] s1 (KernelLock m) R1); [done| |simpl; lia]|].
  { by intros [?|[]%not_elem_of_nil]%elem_of_cons. }
  intros [] s2 R2. by apply rep_goto.
Qed.

Lemma rep_sleep_switch v s p q c m :
  rep v [ProcessLock p] s → acurrent v = Some p → asaved v = Some q → is_Some (aprocs v !! p) → c ∈ ks →
  runs (sleep_switch tp makeHash c m) s (λ _, rep (areschedule p (InSleep m false)
    (aset p (set_state Sleeping) (aset p (set_chan c) v))) [ProcessLock p]).
Proof.
  intros R Hc Hq [x Hx] Hk. unfold sleep_switch. runs_step. apply (rep_current v _ s p _ R Hc).
  runs_step. eapply runs_mono; [apply (rep_change v _ s p _ (set_chan c) R); [eauto|done|by intros []]|].
  intros [] s1 R1. runs_step. eapply runs_mono; [apply (rep_aset_state _ _ _ p Sleeping R1)|].
  { rewrite aset_lookup, Hx, decide_True by done. simpl. eauto. }
  intros [] s2 R2. apply (rep_reschedule (aset p (set_state Sleeping) (aset p (set_chan c) v)) s2 p q (set_state Sleeping (set_chan c x))); try done.
  by rewrite !aset_lookup, Hx, !decide_True by done.
Qed.

Lemma rep_yield v s p q :
  rep v [] s → acurrent v = Some p → asaved v = Some q → is_Some (aprocs v !! p) →
  runs (yield tp makeHash) s (λ _, rep (aact Yield v) [ProcessLock p]).
Proof.
  intros R Hc Hq [x Hx]. unfold yield. runs_step. apply (rep_this_hart v _ s _ R).
  intros t _ Ec _ Ea _ _. rewrite Ec, Ea, Hc.
  runs_step. eapply runs_mono; [apply (rep_lock v [] s (ProcessLock p) R); [by exists x|apply not_elem_of_nil|simpl; lia]|].
  intros [] s1 R1. runs_step. eapply runs_mono; [apply (rep_unregisterProcess v _ s1 p R1); [|simpl; lia]|].
  { by intros [?|[]%not_elem_of_nil]%elem_of_cons. }
  intros [] s2 R2. runs_step. eapply runs_mono; [apply (rep_aset_state _ _ _ p Ready R2); eauto|].
  intros [] s3 R3. unfold aact. rewrite Hc.
  eapply runs_mono; [apply (rep_reschedule (aset p (set_state Ready) (aunregister p v)) s3 p q (set_state Ready x) _ (InYield false (apoint v))); try done|].
  - rewrite !aset_lookup, !decide_True by done. simpl. by rewrite Hx.
  - intros [] s4 R4. by destruct (apoint v).
Qed.

Lemma rep_exit_switch v s p q m :
  rep v [KernelLock m] s → acurrent v = Some p → asaved v = Some q → is_Some (aprocs v !! p) →
  runs (exit_switch tp makeHash m) s (λ _, rep (areschedule p InExit (aset p (set_state Zombie) v)) [ProcessLock p]).
Proof.
  intros R Hc Hq [x Hx]. unfold exit_switch. runs_step. apply (rep_current v _ s p _ R Hc).
  runs_step. eapply runs_mono; [apply (rep_lock v [KernelLock m] s (ProcessLock p) R); [by exists x| |simpl; lia]|].
  { by intros [?|[]%not_elem_of_nil]%elem_of_cons. }
  intros [] s1 R1. runs_step. eapply runs_mono; [apply (rep_aset_state _ _ _ p Zombie R1); eauto|].
  intros [] s2 R2. apply (rep_perm _ _ [KernelLock m; ProcessLock p]) in R2; [|by constructor].
  runs_step. eapply runs_mono; [apply (rep_unlock _ [ProcessLock p] s2 (KernelLock m) R2); [done| |simpl; lia]|].
  { by intros [?|[]%not_elem_of_nil]%elem_of_cons. }
  intros [] s3 R3. apply (rep_reschedule (aset p (set_state Zombie) v) s3 p q (set_state Zombie x)); try done.
  by rewrite aset_lookup, Hx, decide_True by done.
Qed.

(** What [sane] says of the current process. *)
Lemma sane_process v : sane ks v → scheduler_point (apoint v) = false →
  ∃ p x, acurrent v = Some p ∧ asaved v = Some p ∧ aprocs v !! p = Some x.
Proof.
  intros Hi Hs. pose proof (sane_current _ _ Hi) as Hc.
  destruct (acurrent v) as [p|]; [|congruence]. destruct Hc as (_ & Hq & x & Hx & _). eauto 10.
Qed.

Lemma rep_advance v s :
  rep v (held v) s → sane ks v → enabled ks Advance v →
  runs (advance tp makeHash (apoint v)) s (λ _, rep (aadvance v) (held (aadvance v))).
Proof.
  intros R Hi He. simpl in He. unfold held at 1 in R.
  destruct (apoint v) as [| |p|p|p|p| | |m|c m|m] eqn:Ea; try done; simpl in *.
  - unfold aadvance. rewrite Ea. by apply rep_run_enable.
  - eapply runs_mono; [by apply rep_run_pick|]. intros [] s1 R1.
    unfold aadvance in *. rewrite Ea in *. destruct (ready v); exact R1.
  - eapply runs_mono; [by apply rep_run_inspect|]. intros [] s1 R1.
    unfold aadvance, ainspect in *. rewrite Ea in *. by repeat case_match.
  - eapply runs_mono; [by apply rep_run_dispatch|]. intros [] s1 R1.
    unfold aadvance, held in *. by rewrite Ea in *.
  - destruct (sane_process v Hi) as (q & x & Hc & _ & Hx); [by rewrite Ea|].
    pose proof (sane_current _ _ Hi) as Hcur. rewrite Hc, Ea in Hcur. destruct Hcur as (_ & _ & _ & _ & -> & _).
    eapply runs_mono; [by apply rep_run_back|]. intros [] s1 R1.
    unfold aadvance, held in *. by rewrite Ea in *.
  - eapply runs_mono; [by apply rep_run_requeue|]. intros [] s1 R1.
    unfold aadvance, held in *. by rewrite Ea in *.
  - destruct (sane_process v Hi) as (p & x & Hc & Hq & Hx); [by rewrite Ea|]. rewrite Hc in R.
    pose proof (sane_current _ _ Hi) as Hcur. rewrite Hc, Hx, Ea in Hcur.
    destruct Hcur as (_ & _ & y & [= <-] & Hr).
    assert (context x ≠ InExit) as Hk.
    { intros Hk. pose proof (sane_exit _ _ Hi p x Hx Hk). congruence. }
    eapply runs_mono; [by apply (rep_resume v s p x)|]. intros [] s1 R1.
    unfold aadvance. rewrite Ea, Hc. unfold aresume in *. rewrite Hx in *. simpl in *.
    destruct (context x) as [| | ie k|] eqn:Ek; try exact R1; [|done].
    destruct (sane_yield _ _ Hi p x ie k Hx Ek) as [->|[m ->]]; exact R1.
  - destruct (sane_process v Hi) as (p & x & Hc & Hq & Hx); [by rewrite Ea|]. rewrite Hc in R.
    pose proof (sane_point _ _ Hi) as Hk. rewrite Ea in Hk.
    eapply runs_mono; [by apply (rep_sleep_switch v s p p c m); eauto|]. intros [] s1 R1.
    unfold aadvance. rewrite Ea, Hc. unfold areschedule, aregister in *.
    rewrite !aset_lookup, !decide_True in * by done. rewrite Hx in *. simpl in *. rewrite Hq in *. exact R1.
  - unfold sleep_relock. runs_step. eapply runs_mono; [apply (rep_lock v [] s (KernelLock m) R); [done|apply not_elem_of_nil|simpl; lia]|].
    intros [] s1 R1. unfold aadvance. rewrite Ea. by apply rep_goto.
Qed.

Lemma held_astart p v : apoint v = Outer ∨ apoint v = Free → held v = [] ∧ held (astart p v) = [].
Proof.
  unfold held, astart, aregister. simpl. rewrite lookup_insert_eq. simpl. by intros [-> | ->].
Qed.

Lemma aregister_control p v :
  acurrent (aregister p v) = acurrent v ∧ asaved (aregister p v) = asaved v ∧ apoint (aregister p v) = apoint v.
Proof. unfold aregister. by repeat case_match. Qed.

Lemma held_areschedule v p k : asaved v = Some p → held (areschedule p k v) = [ProcessLock p].
Proof.
  intros Hq. unfold areschedule. simpl. destruct (aregister_control p v) as (_ & -> & _). by rewrite Hq.
Qed.

Lemma awake_control l v : apoint (awake l v) = apoint v ∧ acurrent (awake l v) = acurrent v.
Proof.
  revert v; induction l as [|p l IH]; intros v; [done|]. cbn [awake].
  destruct (IH (aregister p (aset p (set_state Ready) v))) as [-> ->].
  by destruct (aregister_control p (aset p (set_state Ready) v)) as (-> & _ & ->).
Qed.

Lemma rep_act v s a :
  rep v (held v) s → sane ks v → enabled ks a v →
  runs (act tp makeHash a) s (λ _, rep (aact a v) (held (aact a v))).
Proof.
  intros R Hi He. unfold act. runs_step. apply (rep_this_hart v _ s _ R). intros t _ _ _ Ea _ _. rewrite Ea.
  destruct a as [|y|c|p|p|m| |c| |]; simpl in He.
  - by apply rep_advance.
  - rewrite He in *. unfold aact. rewrite He. apply (rep_change_hart v v [] s); try done.
  - destruct He as [Hc He]. assert (held (awakeup c v) = held v) as Eh.
    { unfold held, awakeup. simpl. by destruct (awake_control (default [] (asleep v !! c)) v) as [-> ->]. }
    unfold aact. rewrite Eh. assert (∀ p, (ProcessLock p ∉ held v) ∧ SchedulerLock ∉ held v) as Hh.
    { intros p. unfold held. destruct (apoint v); try done; rewrite ?elem_of_cons, ?elem_of_nil; naive_solver. }
    apply rep_wakeup; [done|by apply (Hh 1%positive)|done| |].
    + intros p Hp. split; [by apply Hh|]. destruct (sane_asleep _ _ Hi c p Hp) as (x & -> & _). eauto.
    + unfold held. repeat case_match; simpl; lia.
  - destruct He as [Ep Hp]. destruct (held_astart p v) as [E E']; [by left|].
    unfold aact. rewrite E', E in *. by apply rep_start_ready.
  - destruct He as [Ep Hp]. destruct (held_astart p v) as [E E']; [by right|].
    unfold aact. rewrite E', E in *. by apply rep_fork_ready.
  - assert (held v = []) as E by (unfold held; by rewrite He). rewrite E in R.
    unfold aact. runs_step.
    eapply runs_mono; [apply (rep_lock v [] s (KernelLock m) R); [done|apply not_elem_of_nil|simpl; lia]|].
    intros [] s1 R1. by apply rep_goto.
  - destruct He as [m He]. assert (held v = [KernelLock m]) as E by (unfold held; by rewrite He).
    unfold aact. rewrite He. rewrite E in R. runs_step.
    eapply runs_mono; [apply (rep_unlock v [] s (KernelLock m) R); [done|apply not_elem_of_nil|simpl; lia]|].
    intros [] s1 R1. by apply rep_goto.
  - destruct He as (Hc & m & He). assert (held v = [KernelLock m]) as E by (unfold held; by rewrite He).
    destruct (sane_process v Hi) as (p & x & Hp & _ & Hx); [by rewrite He|].
    unfold aact. rewrite He. rewrite E in R.
    eapply runs_mono; [apply (rep_sleep_release v s p c m R Hp); eauto|]. intros [] s1 R1.
    unfold held. simpl. by rewrite Hp.
  - rewrite He in R. destruct (scheduler_point (apoint v)) eqn:Esp.
    + pose proof (sane_current _ _ Hi) as Hcur. destruct (acurrent v) as [p|] eqn:Ec; [destruct Hcur; congruence|].
      unfold yield. runs_step. apply (rep_this_hart v _ s _ R). intros t' _ Ec' _ _ _ _. rewrite Ec', Ec.
      assert (aact Yield v = v) as -> by (unfold aact; rewrite Ec; by destruct (apoint v)).
      apply runs_ret. by rewrite He.
    + destruct (sane_process v Hi Esp) as (p & x & Hp & Hq & Hx).
      eapply runs_mono; [apply (rep_yield v s p p R Hp Hq); eauto|]. intros [] s1 R1.
      assert (held (aact Yield v) = [ProcessLock p]) as ->; [|done].
      assert (aact Yield v = areschedule p (InYield false (apoint v)) (aset p (set_state Ready) (aunregister p v))) as ->
        by (unfold aact; rewrite Hp; by destruct (apoint v)).
      by apply held_areschedule.
  - destruct He as [m He]. assert (held v = [KernelLock m]) as E by (unfold held; by rewrite He).
    destruct (sane_process v Hi) as (p & x & Hp & Hq & Hx); [by rewrite He|].
    unfold aact. rewrite He, Hp. rewrite E in R.
    rewrite (held_areschedule _ p InExit) by done. apply (rep_exit_switch v s p p m R Hp Hq). eauto.
Qed.

End refinement.

(** ** The invariant *)

Section invariant.
Variable ks : gset Z.
Implicit Types (v : Spec) (e : option positive).

(** The part of [sane] about the processes, in which [e] need not be in the
    ready queue and [e'] not in the sleep table. *)
Record core e e' v : Prop := {
  core_running : ∀ p x, aprocs v !! p = Some x → state x = Running → acurrent v = Some p;
  core_ready : ∀ p, p ∈ ready v → is_Some (aprocs v !! p);
  core_asleep : ∀ c p, p ∈ default [] (asleep v !! c) →
    ∃ x, aprocs v !! p = Some x ∧ state x = Sleeping ∧ chan x = c;
  core_keys : dom (asleep v) ⊆ ks;
  core_wakeable : ∀ p x, e' ≠ Some p → aprocs v !! p = Some x → state x = Sleeping →
    p ∈ default [] (asleep v !! chan x);
  core_runnable : ∀ p x, e ≠ Some p → aprocs v !! p = Some x → state x = Ready → p ∈ ready v;
  core_exit : ∀ p x, aprocs v !! p = Some x → context x = InExit → state x = Zombie;
  core_yield : ∀ p x ie k, aprocs v !! p = Some x → context x = InYield ie k →
    k = Free ∨ ∃ m, k = Relocking m;
}.

(** The process [run] has taken out of the queue. *)
Definition in_hand (x : point) : option positive :=
  match x with Picked p | Checked p => Some p | _ => None end.

Lemma sane_core v : sane ks v → core (in_hand (apoint v)) None v.
Proof.
  intros [Hc Hp H1 H2 H3 H4 H5 H6 H7 H8]. split; try done.
  - intros p x _. apply H5.
  - intros p x Hh Hx Hs. destruct (H6 p x Hx Hs) as [?|[E|E]]; [done| |]; by rewrite E in Hh.
Qed.

(** [sane] of the state after a step, from its core and what its point says. *)
Lemma core_sane v :
  core (in_hand (apoint v)) None v →
  match acurrent v with
  | None => scheduler_point (apoint v) = true
  | Some p => scheduler_point (apoint v) = false ∧ asaved v = Some p ∧
      ∃ x, aprocs v !! p = Some x ∧
        match apoint v with Switched q => q = p ∧ state x ≠ Running | _ => state x = Running end
  end →
  match apoint v with
  | Picked p | Requeue p => is_Some (aprocs v !! p)
  | Checked p => state <$> aprocs v !! p = Some Ready
  | Dropped c _ => c ∈ ks
  | _ => True
  end → sane ks v.
Proof.
  intros [H1 H2 H3 H4 H5 H6 H7 H8] Hc Hp. split; try done.
  - intros p x. by apply H5.
  - intros p x Hx Hs. destruct (decide (in_hand (apoint v) = Some p)) as [Eh|Hn].
    + right. destruct (apoint v); simplify_eq/=; auto.
    + left. by apply (H6 p x).
Qed.

(** The core does not depend on the rest of the state. *)
Lemma core_control e e' v cur sav pt : acurrent v = cur → core e e' v →
  core e e' (mkSpec (aprocs v) (ready v) (asleep v) cur sav pt).
Proof. intros <- []. by split. Qed.

Lemma core_weaken e e' v p : core None None v → (e = None ∨ e = Some p) → (e' = None ∨ e' = Some p) → core e e' v.
Proof. intros [] _ _. split; eauto. Qed.

(** A process that is neither ready nor asleep needs no exemption. *)
Lemma core_drop p x v : core (Some p) (Some p) v → aprocs v !! p = Some x →
  state x ≠ Ready → state x ≠ Sleeping → core None None v.
Proof.
  intros [H1 H2 H3 H4 H5 H6 H7 H8] Hx Hr Hs. split; try done.
  - intros q y _ Hy Es. apply H5; [|done|done]. intros [= <-]. congruence.
  - intros q y _ Hy Es. apply (H6 q y); [|done|done]. intros [= <-]. congruence.
Qed.

Lemma default_insert_app {B} (m : gmap Z (list B)) c c' l :
  default [] (<[c := default [] (m !! c) ++ l]> m !! c') =
  default [] (m !! c') ++ (if decide (c' = c) then l else []).
Proof.
  destruct (decide (c' = c)) as [->|]; [by rewrite lookup_insert_eq|by rewrite lookup_insert_ne, app_nil_r].
Qed.

(** Registering a process ends its exemption. *)
Lemma core_register e e' p x v :
  core e e' v → (e = None ∨ e = Some p) → (e' = None ∨ e' = Some p) → aprocs v !! p = Some x →
  (state x = Sleeping → chan x ∈ ks) → core None None (aregister p v).
Proof.
  intros [H1 H2 H3 H4 H5 H6 H7 H8] He He' Hx Hk. unfold aregister. rewrite Hx.
  assert (∀ q, q ≠ p → e ≠ Some q ∧ e' ≠ Some q) as Hq.
  { intros q Hne. destruct He as [->| ->], He' as [->| ->]; split; congruence. }
  destruct (state x) eqn:Es; split; simpl; try done.
  all: try (intros q y _ Hy Ey; destruct (decide (q = p)) as [->|Hne];
    [assert (y = x) as -> by congruence; congruence|destruct (Hq q Hne); eauto; fail]).
  - intros c q. rewrite default_insert_app, elem_of_app. intros [Hin|Hin]; [by apply H3|].
    case_decide; [|by apply not_elem_of_nil in Hin]. apply list_elem_of_singleton in Hin as ->. subst. eauto.
  - rewrite dom_insert. apply union_subseteq. split; [|done]. by apply singleton_subseteq_l, Hk.
  - intros q y _ Hy Ey. rewrite default_insert_app, elem_of_app. destruct (decide (q = p)) as [->|Hne].
    + assert (y = x) as -> by congruence. right. rewrite decide_True by done. left.
    + left. apply H5; [by apply Hq|done|done].
  - intros q. rewrite elem_of_app, list_elem_of_singleton. intros [Hin| ->]; [by apply H2|by rewrite Hx].
  - intros q y _ Hy Ey. rewrite elem_of_app, list_elem_of_singleton. destruct (decide (q = p)) as [->|Hne]; [by right|].
    left. apply (H6 q y); [by apply Hq|done|done].
Qed.

(** Changing a process that is not asleep. *)
Lemma core_aset e p x f v :
  core e None v → (e = None ∨ e = Some p) → aprocs v !! p = Some x → state x ≠ Sleeping →
  (state (f x) = Running → acurrent v = Some p) →
  (context (f x) = InExit → state (f x) = Zombie) →
  (∀ ie k, context (f x) = InYield ie k → k = Free ∨ ∃ m, k = Relocking m) →
  core (Some p) (Some p) (aset p f v).
Proof.
  intros [H1 H2 H3 H4 H5 H6 H7 H8] He Hx Hs Hr Hex Hy.
  assert (∀ q y, aprocs (aset p f v) !! q = Some y → (q = p ∧ y = f x) ∨ (q ≠ p ∧ aprocs v !! q = Some y)) as Hl.
  { intros q y. rewrite aset_lookup. case_decide as E; [|by right]. subst. rewrite Hx. intros [= <-]. by left. }
  split.
  - intros q y [[-> ->]|[Hne Hq]]%Hl; [done|]. by apply H1.
  - intros q Hq. rewrite aset_lookup. case_decide; [|by apply H2]. subst. rewrite Hx. simpl. eauto.
  - intros c q Hq. destruct (H3 c q Hq) as (y & Ey & Es & Ec). exists y. split_and!; [|done|done].
    rewrite aset_lookup, decide_False; [done|]. intros ->. congruence.
  - done.
  - intros q y Hn [[-> ->]|[Hne Hq]]%Hl; [done|]. by apply (H5 q).
  - intros q y Hn [[-> ->]|[Hne Hq]]%Hl; [done|]. apply (H6 q y); [|done]. destruct He as [->| ->]; congruence.
  - intros q y [[-> ->]|[Hne Hq]]%Hl; [done|]. by apply (H7 q).
  - intros q y ie k [[-> ->]|[Hne Hq]]%Hl; [by eapply Hy|]. by apply (H8 q y ie).
Qed.

(** Saving the context of a process. *)
Lemma core_set_context p x k v :
  core None None v → aprocs v !! p = Some x → (k = InExit → state x = Zombie) →
  (∀ ie y, k = InYield ie y → y = Free ∨ ∃ m, y = Relocking m) → core None None (aset p (set_context k) v).
Proof.
  intros [H1 H2 H3 H4 H5 H6 H7 H8] Hx Hk Hy.
  assert (∀ q y, aprocs (aset p (set_context k) v) !! q = Some y →
    ∃ y', aprocs v !! q = Some y' ∧ state y = state y' ∧ chan y = chan y' ∧
      ((q = p ∧ context y = k) ∨ context y = context y')) as Hl.
  { intros q y. rewrite aset_lookup. case_decide as E.
    - subst. rewrite Hx. intros [= <-]. exists x. split_and!; auto.
    - intros Ey. exists y. auto. }
  split.
  - intros q y (y' & E & Es & _)%Hl. rewrite Es. by apply H1.
  - intros q Hq. rewrite aset_lookup. case_decide; [|by apply H2]. subst. rewrite Hx. simpl. eauto.
  - intros c q Hq. destruct (H3 c q Hq) as (y & Ey & Es & Ec). rewrite aset_lookup. case_decide; [|eauto].
    rewrite Ey. simpl. eauto.
  - done.
  - intros q y _ (y' & E & Es & Ec & _)%Hl. rewrite Es, Ec. by apply H5.
  - intros q y _ (y' & E & Es & _)%Hl. rewrite Es. by apply (H6 q y').
  - intros q y (y' & E & Es & _ & [[-> Ek]|Ek])%Hl Hx'; rewrite Es.
    + assert (y' = x) as -> by congruence. apply Hk. congruence.
    + apply (H7 q y'); congruence.
  - intros q y ie z (y' & E & Es & _ & [[-> Ek]|Ek])%Hl Hx'.
    + apply (Hy ie). congruence.
    + apply (H8 q y' ie); congruence.
Qed.

(** [awake] makes the listed processes ready and queues them. *)
Lemma awake_spec l v : (∀ p, p ∈ l → is_Some (aprocs v !! p)) →
  ready (awake l v) = ready v ++ l ∧
  ∀ q, aprocs (awake l v) !! q = (if decide (q ∈ l) then set_state Ready <$> aprocs v !! q else aprocs v !! q).
Proof.
  revert v; induction l as [|p l IH]; intros v Hl; [by rewrite app_nil_r|]. cbn [awake].
  destruct (Hl p) as [x Hx]; [by left|].
  assert (aregister p (aset p (set_state Ready) v) = set_ready (ready v ++ [p]) (aset p (set_state Ready) v)) as ->.
  { unfold aregister. by rewrite aset_lookup, decide_True, Hx by done. }
  assert (∀ q, aprocs (set_ready (ready v ++ [p]) (aset p (set_state Ready) v)) !! q =
    if decide (q = p) then set_state Ready <$> aprocs v !! q else aprocs v !! q) as E by (intros q; apply aset_lookup).
  destruct (IH (set_ready (ready v ++ [p]) (aset p (set_state Ready) v))) as [E1 E2].
  { intros q Hq. rewrite E. case_decide; [rewrite fmap_is_Some|]; apply Hl; by right. }
  split.
  - rewrite E1. simpl. by rewrite <- app_assoc.
  - intros q. rewrite E2, E. destruct (decide (q = p)) as [->|Hne].
    + rewrite (decide_True (P := p ∈ p :: l)) by left. destruct (decide (p ∈ l)); [|done]. rewrite Hx. done.
    + destruct (decide (q ∈ l)); [rewrite decide_True by (by right)|rewrite decide_False by set_solver]; done.
Qed.

Lemma core_awakeup e c v : core e None v → core e None (awakeup c v).
Proof.
  intros [H1 H2 H3 H4 H5 H6 H7 H8]. set (l := default [] (asleep v !! c)).
  assert (∀ p, p ∈ l → ∃ x, aprocs v !! p = Some x ∧ state x = Sleeping ∧ chan x = c) as Hl by (intros p; apply H3).
  destruct (awake_spec l v) as [Er Ep]. { intros p (x & -> & _)%Hl. eauto. }
  assert (∀ q y, aprocs (awakeup c v) !! q = Some y →
    ∃ y', aprocs v !! q = Some y' ∧ context y = context y' ∧ chan y = chan y' ∧
      ((q ∈ l ∧ state y = Ready ∧ state y' = Sleeping) ∨ ((q ∉ l) ∧ state y = state y'))) as Hq.
  { intros q y. unfold awakeup. simpl. fold l. rewrite Ep. case_decide as Hin.
    - destruct (Hl q Hin) as (x & -> & Es & _). intros [= <-]. exists x. split_and!; [done..|]. by left.
    - intros Ey. exists y. split_and!; [done..|]. by right. }
  split.
  - intros q y (y' & E & _ & _ & [(_ & Es & _)|[_ Es]])%Hq Hr; [congruence|].
    unfold awakeup. simpl. fold l. destruct (awake_control l v) as [_ ->]. apply (H1 q y'); congruence.
  - unfold awakeup. simpl. fold l. rewrite Er. intros q. rewrite elem_of_app, Ep. intros Hin.
    assert (is_Some (aprocs v !! q)) as Hs. { destruct Hin as [Hin|Hin]; [by apply H2|]. destruct (Hl q Hin) as (x & -> & _). eauto. }
    case_decide; [by apply fmap_is_Some|done].
  - intros c' q. unfold awakeup. simpl. fold l. rewrite asleep_awake_Ready. destruct (decide (c' = c)) as [->|Hne].
    + rewrite lookup_delete_eq. by intros ?%not_elem_of_nil.
    + rewrite lookup_delete_ne by done. intros Hin. destruct (H3 c' q Hin) as (x & Ex & Es & Ec).
      exists x. split_and!; [|done|done]. rewrite Ep, decide_False; [done|]. intros (y & Ey & _ & Ec')%Hl. congruence.
  - unfold awakeup. simpl. fold l. rewrite asleep_awake_Ready, dom_delete_L. set_solver.
  - intros q y _ (y' & E & _ & Ec & [(_ & Es & _)|[Hn Es]])%Hq Hs; [congruence|].
    unfold awakeup. simpl. fold l. rewrite asleep_awake_Ready, Ec.
    assert (q ∈ default [] (asleep v !! chan y')) as Hin by (apply H5; congruence).
    rewrite lookup_delete_ne; [done|]. intros E'. apply Hn. unfold l. by rewrite E'.
  - intros q y He (y' & E & _ & _ & Hc)%Hq Hs. unfold awakeup. simpl. fold l. rewrite Er, elem_of_app.
    destruct Hc as [(Hin & _)|[_ Es]]; [by right|]. left. apply (H6 q y'); congruence.
  - intros q y (y' & E & Ek & _ & Hc)%Hq Hx. rewrite Ek in Hx. pose proof (H7 q y' E Hx) as Hz.
    destruct Hc as [(_ & _ & ?)|[_ ->]]; congruence.
  - intros q y ie k (y' & E & Ek & _ & _)%Hq Hx. rewrite Ek in Hx. by apply (H8 q y' ie).
Qed.

(** A process leaves the hart. *)
Lemma core_areschedule p x k v :
  core (Some p) (Some p) v → acurrent v = Some p → asaved v = Some p → aprocs v !! p = Some x →
  state x ≠ Running → (state x = Sleeping → chan x ∈ ks) → (k = InExit → state x = Zombie) →
  (∀ ie y, k = InYield ie y → y = Free ∨ ∃ m, y = Relocking m) →
  scheduler_point (apoint v) = false → sane ks (areschedule p k v).
Proof.
  intros Hv Hc Hq Hx Hr Hk Hex Hy Hsp. destruct (aregister_control p v) as (Ec & Eq & Ea).
  assert (core None None (aset p (set_context k) (aregister p v))) as Hcore.
  { apply (core_set_context p x); try done; [|by rewrite aprocs_aregister].
    apply (core_register (Some p) (Some p) p x); auto. }
  assert (areschedule p k v = set_apoint (Switched p) (aset p (set_context k) (aregister p v))) as ->.
  { unfold areschedule. simpl. by rewrite Eq, Hq. }
  apply core_sane; simpl; [by eapply core_control| |done].
  rewrite Ec, Hc, Eq. split_and!; [done|done|]. exists (set_context k x).
  rewrite lookup_alter_eq, aprocs_aregister, Hx. by split_and!.
Qed.

Lemma aset_aset p f g v : aset p f (aset p g v) = aset p (f ∘ g) v.
Proof. unfold aset, set_aprocs. simpl. f_equal. apply alter_alter_eq. Qed.

(** Taking the front of the queue, and dropping a process from it. *)
Lemma core_pop p l v : core None None v → ready v = p :: l → core (Some p) None (set_ready l v).
Proof.
  intros [H1 H2 H3 H4 H5 H6 H7 H8] E. split; try done.
  - intros q Hq. apply H2. rewrite E. by right.
  - intros q y Hn Hy Hs. pose proof (H6 q y ltac:(done) Hy Hs) as Hin. rewrite E in Hin.
    apply elem_of_cons in Hin as [-> |Hin]; [congruence|done].
Qed.

Lemma core_unregister p x v :
  core None None v → aprocs v !! p = Some x → state x ≠ Ready → core None None (aunregister p v).
Proof.
  intros [H1 H2 H3 H4 H5 H6 H7 H8] Hx Hr. split; try done.
  - intros q Hq. apply H2. apply list_elem_of_filter in Hq. tauto.
  - intros q y Hn Hy Hs. apply list_elem_of_filter. split; [|by apply (H6 q y)]. intros ->. simpl in Hy. congruence.
Qed.

(** A hart takes a process, or leaves one that does not run. *)
Lemma core_hire e e' c v : acurrent v = None → core e e' v → core e e' (set_acurrent c v).
Proof. intros Hc [H1 H2 H3 H4 H5 H6 H7 H8]. split; try done. intros p x Hx Hs. specialize (H1 p x Hx Hs). congruence. Qed.

Lemma core_fire e e' p x v :
  acurrent v = Some p → aprocs v !! p = Some x → state x ≠ Running → core e e' v → core e e' (set_acurrent None v).
Proof.
  intros Hc Hx Hr [H1 H2 H3 H4 H5 H6 H7 H8]. split; try done. intros q y Hy Hs.
  specialize (H1 q y Hy Hs). simpl in Hy; congruence.
Qed.

Lemma core_new p v : core None None v → aprocs v !! p = None →
  core (Some p) (Some p) (set_aprocs (<[p := set_state Ready new_process]> (aprocs v)) v).
Proof.
  intros [H1 H2 H3 H4 H5 H6 H7 H8] Hp.
  assert (∀ q y, <[p := set_state Ready new_process]> (aprocs v) !! q = Some y →
    (q = p ∧ y = set_state Ready new_process) ∨ (q ≠ p ∧ aprocs v !! q = Some y)) as Hl.
  { intros q y [[-> <-]|[? ?]]%lookup_insert_Some; auto. }
  split; simpl; try done.
  - intros q y [[-> ->]|[_ Hq]]%Hl; [done|]. by apply H1.
  - intros q Hq. apply lookup_insert_is_Some. destruct (decide (p = q)); auto.
  - intros c q Hq. destruct (H3 c q Hq) as (y & Ey & Es & Ec). exists y.
    rewrite lookup_insert_ne by congruence. done.
  - intros q y Hn [[-> ->]|[_ Hq]]%Hl; [done|]. by apply H5.
  - intros q y Hn [[-> ->]|[_ Hq]]%Hl; [done|]. by apply (H6 q y).
  - intros q y [[-> ->]|[_ Hq]]%Hl; [done|]. by apply (H7 q y).
  - intros q y ie k [[-> ->]|[_ Hq]]%Hl; [done|]. by apply (H8 q y ie).
Qed.

Lemma sane_scheduler v : sane ks v → scheduler_point (apoint v) = true → acurrent v = None.
Proof.
  intros Hi Hs. pose proof (sane_current _ _ Hi) as Hc. destruct (acurrent v); [|done]. destruct Hc. congruence.
Qed.

(** What [sane] says of a running process. *)
Lemma sane_running_process v : sane ks v → scheduler_point (apoint v) = false →
  (∀ q, apoint v ≠ Switched q) →
  ∃ p x, acurrent v = Some p ∧ asaved v = Some p ∧ aprocs v !! p = Some x ∧ state x = Running ∧ core None None v.
Proof.
  intros Hi Hs Hn. pose proof (sane_current _ _ Hi) as Hc. pose proof (sane_core _ Hi) as Hcore.
  destruct (acurrent v) as [p|]; [|congruence]. destruct Hc as (_ & Hq & x & Hx & Hr).
  exists p, x. split_and!; try done.
  - destruct (apoint v); try done. by destruct (Hn p0).
  - by destruct (apoint v).
Qed.

(** A step that only moves the hart. *)
Lemma sane_move v x :
  sane ks v → core None None v → scheduler_point x = scheduler_point (apoint v) →
  (∀ q, apoint v ≠ Switched q) →
  match x with
  | Picked _ | Requeue _ | Checked _ | Switched _ => False
  | Dropped c _ => c ∈ ks
  | _ => True
  end → sane ks (set_apoint x v).
Proof.
  intros Hi Hcore Hs Hn Hx. apply core_sane; simpl.
  - eapply core_control; [done|]. by destruct x.
  - pose proof (sane_current _ _ Hi) as Hc. destruct (acurrent v) as [p|]; [|congruence].
    destruct Hc as (Hsp & Hq & y & Hy & Hr). split_and!; [congruence|done|].
    + exists y. split; [done|]. destruct (apoint v); try done; try by destruct x. by destruct (Hn p0).
  - by destruct x.
Qed.

(** A step of [run] to a point with no process in hand. *)
Lemma sane_scheduler_step v x :
  core None None v → acurrent v = None →
  match x with Outer | Inner => True | Requeue p => is_Some (aprocs v !! p) | _ => False end →
  sane ks (set_apoint x v).
Proof.
  intros Hcore Hc Hx. apply core_sane; simpl; [|rewrite Hc; by destruct x|by destruct x].
  eapply core_control; [done|]. by destruct x.
Qed.

Lemma sleeping_key v p x : sane ks v → aprocs v !! p = Some x → state x = Sleeping → chan x ∈ ks.
Proof.
  intros Hi Hx Hs. pose proof (sane_wakeable _ _ Hi p x Hx Hs) as Hin.
  apply (sane_keys _ _ Hi), elem_of_dom. destruct (asleep v !! chan x); [done|]. by apply not_elem_of_nil in Hin.
Qed.

Lemma sane_ainspect v p : sane ks v → apoint v = Picked p → sane ks (ainspect p v).
Proof.
  intros Hi Ea. pose proof (sane_core _ Hi) as Hcore. pose proof (sane_point _ _ Hi) as Hp.
  pose proof (sane_scheduler v Hi) as Hc. rewrite Ea in Hcore, Hp, Hc. specialize (Hc eq_refl).
  destruct Hp as [x Hx]. unfold ainspect. rewrite Hx. simpl.
  assert (sane ks (set_apoint Outer (aregister p v))) as Hreg.
  { apply sane_scheduler_step; [|by rewrite (proj1 (aregister_control p v))|done].
    apply (core_register (Some p) None p x); auto. by apply (sleeping_key v p x). }
  destruct (state x) eqn:Es; try exact Hreg.
  - apply core_sane; simpl; [by eapply core_control|by rewrite Hc|]. by rewrite Hx, <- Es.
  - apply sane_scheduler_step; [|done|done].
    apply (core_drop p (set_memory false x)); [|by rewrite aset_lookup, decide_True, Hx by done|simpl; congruence..].
    apply (core_aset (Some p) p x); auto; simpl; try congruence.
    intros ie k Ek. by apply (sane_yield _ _ Hi p x ie k).
Qed.

Lemma sane_aresume v p x : sane ks v → apoint v = Resuming → acurrent v = Some p →
  aprocs v !! p = Some x → state x = Running → core None None v → sane ks (aresume p v).
Proof.
  intros Hi Ea Hc Hx Hr Hcore. unfold aresume. rewrite Hx. simpl.
  assert (∀ y, scheduler_point y = false → (match y with Free | Relocking _ => True | _ => False end) →
    sane ks (set_apoint y v)) as Hmove.
  { intros y Hy Hm. apply sane_move; [done|done|by rewrite Hy, Ea|by rewrite Ea|by destruct y]. }
  destruct (context x) as [|m ie|ie k|] eqn:Ek.
  - by apply Hmove.
  - assert (aprocs (aset p (set_chan 0) v) !! p = Some (set_chan 0 x)) as Hx' by by rewrite aset_lookup, decide_True, Hx by done.
    assert (core None None (aset p (set_chan 0) v)) as Hcore'.
    { apply (core_drop p (set_chan 0 x)); [|done|simpl; congruence..].
      apply (core_aset None p x); auto; simpl; try congruence. }
    pose proof (sane_current _ _ Hi) as Hcur. rewrite Hc in Hcur. destruct Hcur as (_ & Hq & _).
    apply core_sane; [by apply core_control| |done]. cbn [acurrent set_apoint aset set_aprocs asaved apoint scheduler_point].
    rewrite Hc. split_and!; [done|done|]. exists (set_chan 0 x). by split.
  - destruct (sane_yield _ _ Hi p x ie k Hx Ek) as [-> |[m ->]]; by apply Hmove.
  - pose proof (sane_exit _ _ Hi p x Hx Ek). congruence.
Qed.

Lemma sane_advance v : sane ks v → enabled ks Advance v → sane ks (aadvance v).
Proof.
  intros Hi He. simpl in He. pose proof (sane_core _ Hi) as Hcore. pose proof (sane_point _ _ Hi) as Hp.
  pose proof (sane_scheduler v Hi) as Hc. unfold aadvance.
  destruct (apoint v) as [| |p|p|p|p| | |m|c m|m] eqn:Ea; try done; simpl in Hcore, Hp, Hc; try specialize (Hc eq_refl).
  - by apply sane_scheduler_step.
  - destruct (ready v) as [|p l] eqn:Er; [by apply sane_scheduler_step|].
    assert (is_Some (aprocs v !! p)) as Hs by (apply (sane_ready _ _ Hi); rewrite Er; left).
    apply core_sane; simpl; [|by rewrite Hc|done]. by apply core_control, (core_pop p l).
  - by apply sane_ainspect.
  - destruct (aprocs v !! p) as [x|] eqn:Hx; [|done]. simpl in Hp. injection Hp as Hs.
    assert (aprocs (aset p (set_state Running) (set_acurrent (Some p) v)) !! p = Some (set_state Running x)) as Hx'
      by (rewrite aset_lookup, decide_True by done; simpl; by rewrite Hx).
    apply core_sane; simpl.
    + eapply (core_control _ _ (aset p (set_state Running) (set_acurrent (Some p) v))); [done|].
      apply (core_drop p (set_state Running x)); [|done|done|done].
      apply (core_aset (Some p) p x); auto; simpl; try congruence.
      * by apply core_hire.
      * intros Ek. pose proof (sane_exit _ _ Hi p x Hx Ek). congruence.
      * intros ie k Ek. by apply (sane_yield _ _ Hi p x ie k).
    + split_and!; [done|done|]. exists (set_state Running x). by split.
    + done.
  - pose proof (sane_current _ _ Hi) as Hcur. destruct (acurrent v) as [q|] eqn:Ec; [|by rewrite Ea in Hcur].
    rewrite Ea in Hcur. destruct Hcur as (_ & _ & x & Hx & -> & Hr).
    apply (sane_scheduler_step (set_acurrent None v)); [|done|simpl; eauto].
    by apply (core_fire None None q x).
  - destruct Hp as [x Hx].
    apply sane_scheduler_step; [|by rewrite (proj1 (aregister_control p v))|done].
    apply (core_register None None p x); auto. by apply (sleeping_key v p x).
  - destruct (sane_running_process v Hi) as (p & x & Ec & _ & Hx & Hr & Hcore'); [by rewrite Ea|by rewrite Ea|].
    rewrite Ec. by apply (sane_aresume v p x).
  - destruct (sane_running_process v Hi) as (p & x & Ec & Hq & Hx & Hr & Hcore'); [by rewrite Ea|by rewrite Ea|].
    rewrite Ec, aset_aset.
    assert (aprocs (aset p (set_state Sleeping ∘ set_chan c) v) !! p = Some (set_state Sleeping (set_chan c x))) as Hx'
      by by rewrite aset_lookup, decide_True, Hx by done.
    apply (core_areschedule p (set_state Sleeping (set_chan c x))); try done; [|by simpl; rewrite Ea].
    apply (core_aset None p x); auto; simpl; try congruence.
    + intros Ek. pose proof (sane_exit _ _ Hi p x Hx Ek). congruence.
    + intros ie k Ek. by apply (sane_yield _ _ Hi p x ie k).
  - apply sane_move; [done|done|by rewrite Ea|by rewrite Ea|done].
Qed.

Lemma sane_astart v p : sane ks v → apoint v = Outer ∨ apoint v = Free → aprocs v !! p = None → sane ks (astart p v).
Proof.
  intros Hi Ha Hp. unfold astart. set (v1 := set_aprocs _ v).
  destruct (aregister_control p v1) as (Ec & Eq & Ea).
  assert (core None None v) as Hcore by (apply sane_core in Hi; by destruct Ha as [E|E]; rewrite E in Hi).
  assert (aprocs v1 !! p = Some (set_state Ready new_process)) as Hp1 by (simpl; by rewrite lookup_insert_eq).
  apply core_sane; rewrite ?Ec, ?Eq, ?Ea, ?aprocs_aregister; simpl.
  - assert (in_hand (apoint v) = None) as -> by (by destruct Ha as [E|E]; rewrite E).
    apply (core_register (Some p) (Some p) p (set_state Ready new_process)); auto; [by apply core_new|done].
  - pose proof (sane_current _ _ Hi) as Hc. destruct (acurrent v) as [q|]; [|done].
    destruct Hc as (? & ? & x & Hx & Hr). split_and!; [done|done|]. exists x. split; [|done].
    rewrite lookup_insert_ne; [done|]. congruence.
  - destruct Ha as [E|E]; by rewrite E.
Qed.

Lemma awake_saved l v : asaved (awake l v) = asaved v.
Proof.
  revert v; induction l as [|p l IH]; intros v; [done|]. cbn [awake].
  rewrite IH. by destruct (aregister_control p (aset p (set_state Ready) v)) as (_ & -> & _).
Qed.

Lemma sane_awakeup v c : sane ks v →
  match apoint v with Switched _ | Resuming | Dropped _ _ => False | _ => True end → sane ks (awakeup c v).
Proof.
  intros Hi Ha. set (l := default [] (asleep v !! c)).
  assert (∀ p, p ∈ l → ∃ x, aprocs v !! p = Some x ∧ state x = Sleeping) as Hl.
  { intros p Hp. destruct (sane_asleep _ _ Hi c p Hp) as (x & ? & ? & _). eauto. }
  destruct (awake_spec l v) as [_ Ep]. { intros p (x & -> & _)%Hl. eauto. }
  destruct (awake_control l v) as [Ea Ec].
  pose proof (awake_saved l v) as Eq.
  assert (∀ q x, aprocs v !! q = Some x → state x ≠ Sleeping → aprocs (awake l v) !! q = Some x) as Hsame.
  { intros q x Hx Hs. rewrite Ep, decide_False; [done|]. intros (y & ? & ?)%Hl. congruence. }
  assert (∀ q, is_Some (aprocs v !! q) → is_Some (aprocs (awake l v) !! q)) as Hdom.
  { intros q Hq. rewrite Ep. case_decide; [by apply fmap_is_Some|done]. }
  apply core_sane; unfold awakeup; cbn [apoint acurrent asaved aprocs set_asleep]; fold l; rewrite ?Ea, ?Ec, ?Eq.
  - apply core_awakeup. by apply sane_core.
  - pose proof (sane_current _ _ Hi) as Hc. destruct (acurrent v) as [q|]; [|done].
    destruct Hc as (? & ? & x & Hx & Hr). split_and!; [done|done|]. exists x. split; [|done].
    apply Hsame; [done|]. destruct (apoint v); intuition congruence.
  - pose proof (sane_point _ _ Hi) as Hp. destruct (apoint v); try done; [by apply Hdom| |by apply Hdom].
    destruct (aprocs v !! p) as [x|] eqn:Hx; [|done]. rewrite (Hsame p x); [done|done|]. simpl in Hp. congruence.
Qed.

Lemma sane_yield_step v : sane ks v → held v = [] → sane ks (aact Yield v).
Proof.
  intros Hi He. destruct (scheduler_point (apoint v)) eqn:Esp.
  { pose proof (sane_scheduler v Hi Esp) as Ec. unfold aact. rewrite Ec. by destruct (apoint v). }
  assert (apoint v = Free ∨ ∃ m, apoint v = Relocking m) as Hp.
  { unfold held in He. pose proof (sane_current _ _ Hi) as Hc.
    destruct (apoint v), (acurrent v); try done; eauto; by destruct Hc. }
  assert (∀ q, apoint v ≠ Switched q) as Hn by (intros q Eq; rewrite Eq in Hp; by destruct Hp as [?|[? ?]]).
  destruct (sane_running_process v Hi Esp Hn) as (p & x & Ec & Hq & Hx & Hr & Hcore).
  assert (aact Yield v = areschedule p (InYield false (apoint v)) (aset p (set_state Ready) (aunregister p v))) as ->
    by (unfold aact; rewrite Ec; by destruct (apoint v)).
  assert (aprocs (aset p (set_state Ready) (aunregister p v)) !! p = Some (set_state Ready x)) as Hx'
    by by rewrite aset_lookup, decide_True by done; simpl; rewrite Hx.
  apply (core_areschedule p (set_state Ready x)); try done; [|intros ie y [= _ <-]; exact Hp].
  apply (core_aset None p x); auto; simpl; try congruence.
  - apply (core_unregister p x); congruence.
  - intros Ek. pose proof (sane_exit _ _ Hi p x Hx Ek). congruence.
  - intros ie k Ek. by apply (sane_yield _ _ Hi p x ie k).
Qed.

Lemma sane_act v a : sane ks v → enabled ks a v → sane ks (aact a v).
Proof.
  intros Hi He. destruct a as [|y|c|p|p|m| |c| |]; simpl in He; unfold aact.
  - by apply sane_advance.
  - done.
  - apply sane_awakeup; tauto.
  - apply sane_astart; tauto.
  - apply sane_astart; tauto.
  - apply sane_move; rewrite ?He; try done. apply sane_core in Hi. by rewrite He in Hi.
  - destruct He as [m He]. rewrite He. apply sane_move; rewrite ?He; try done.
    apply sane_core in Hi. by rewrite He in Hi.
  - destruct He as (Hc & m & He). rewrite He. apply sane_move; rewrite ?He; try done.
    apply sane_core in Hi. by rewrite He in Hi.
  - by apply sane_yield_step.
  - destruct He as [m He]. rewrite He.
    destruct (sane_running_process v Hi) as (p & x & Ec & Hq & Hx & Hr & Hcore); [by rewrite He|by rewrite He|].
    rewrite Ec. assert (aprocs (aset p (set_state Zombie) v) !! p = Some (set_state Zombie x)) as Hx'
      by by rewrite aset_lookup, decide_True, Hx by done.
    apply (core_areschedule p (set_state Zombie x)); try done; [|by simpl; rewrite He].
    apply (core_aset None p x); auto; simpl; try congruence.
    intros ie k Ek. by apply (sane_yield _ _ Hi p x ie k).
Qed.

End invariant.

(** The abstract scheduler before the first process is started, and the
    sequences of actions the code can make from a state. *)
Definition start : Spec := mkSpec ∅ [] ∅ None None Outer.

Fixpoint allowed (ks : gset Z) (l : list action) (v : Spec) : Prop :=
  match l with
  | [] => True
  | a :: l' => enabled ks a v ∧ allowed ks l' (aact a v)
  end.

Lemma sane_start ks : sane ks start.
Proof.
  split; simpl; try done; try (intros; by simplify_map_eq).
  - by intros p ?%not_elem_of_nil.
  - intros c p. rewrite lookup_empty. by intros ?%not_elem_of_nil.
Qed.

Lemma rep_boot tp makeHash ks n : 0 <= tp < n → rep tp makeHash ks start [] (boot n).
Proof.
  intros Hn. split; simpl.
  - exists (mkHart (SpinMutex.mkCpu 0 false 0) None None Outer). split; [|by split_and!]. apply elem_of_list_to_map.
    + rewrite <- list_fmap_compose, (list_fmap_ext _ id), list_fmap_id; [apply NoDup_seqZ|done].
    + apply list_elem_of_fmap. exists tp. split; [done|]. apply elem_of_seqZ. lia.
  - intros [|p|m] x; simpl; rewrite ?lookup_empty; simpl; intros [= <-]; done.
  - done.
  - exists []. apply repr_make.
  - by apply inv_make.
  - intros k. by rewrite lookup_make, lookup_empty.
  - done.
  - set_solver.
Qed.

Lemma allowed_runs tp makeHash ks (Hhash : ∀ k, 0 <= makeHash k) (Htwo : at_most_two makeHash (2 ^ 8 - 1) ks) l v s :
  rep tp makeHash ks v (held v) s → sane ks v → allowed ks l v →
  runs (execute makeHash ((λ a, (tp, a)) <$> l)) s (λ _ s', ∃ v',
    rep tp makeHash ks v' (held v') s' ∧ sane ks v').
Proof.
  revert v s; induction l as [|a l IH]; intros v s R Hi Hl; [apply runs_ret; by exists v|].
  destruct Hl as [He Hl]. simpl. runs_step. eapply runs_mono; [by apply rep_act|]. intros [] s1 R1.
  apply (IH (aact a v)); [done|by apply sane_act|done].
Qed.

(** ** Properties *)

(** C10: the code of the scheduler implements the abstract one.  On the only hart
    that makes steps, from a kernel that represents a state of the abstract
    scheduler, every step the code can make returns (no assertion fails, no
    lock is taken twice, no pointer dangles) in a kernel that represents the
    abstract step, and the invariant of the abstract scheduler holds again.
    The keys of the sleep table may put at most two channels in a bucket. *)
Theorem scheduler_refines (tp : Z) (makeHash : Z → Z) (ks : gset Z) (v : Spec) (s : Kernel) (a : action)
    (Hhash : ∀ k, 0 <= makeHash k) (Htwo : at_most_two makeHash (2 ^ 8 - 1) ks)
    (Hrep : rep tp makeHash ks v (held v) s) (Hsane : sane ks v) (Hen : enabled ks a v) :
  ∃ s', act tp makeHash a s = Ok (tt, s') ∧ rep tp makeHash ks (aact a v) (held (aact a v)) s' ∧
    sane ks (aact a v).
Proof.
  destruct (runs_inv _ _ _ (rep_act tp makeHash ks Hhash Htwo v s a Hrep Hsane Hen)) as ([] & s' & E & R).
  exists s'. split_and!; [done|done|by apply sane_act].
Qed.

Lemma scheduler_refines_witness : ∃ s',
  act 0 (λ k, Z.abs k) (Start 1) (boot 2) = Ok (tt, s') ∧
  rep 0 (λ k, Z.abs k) ∅ (aact (Start 1) start) [] s'.
Proof.
  destruct (scheduler_refines 0 (λ k, Z.abs k) ∅ start (boot 2) (Start 1)) as (s' & E & R & _).
  - apply Z.abs_nonneg.
  - intros k1 k2 k3 []%elem_of_empty.
  - apply rep_boot. lia.
  - apply sane_start.
  - done.
  - exists s'. split; [exact E|exact R].
Defined.

(** C11: no process is lost, when one hart makes all the steps and at most two of
    the channels that processes sleep on fall into one bucket of the sleep table
    (a third one in a bucket drops another with its processes, since the hash map
    loses entries).  Whatever the hart does from boot (creating
    processes, switching, sleeping, waking, yielding and exiting, in any order
    the code allows, with wakeups from interrupts whenever it holds no process
    lock), every step returns, and afterwards every ready process is in the
    ready queue or just taken out of it by the scheduler, every sleeping process
    is in the sleep table under its channel, and a running process is the
    hart's current one. *)
Theorem no_process_lost (tp n : Z) (makeHash : Z → Z) (ks : gset Z) (l : list action)
    (Hhash : ∀ k, 0 <= makeHash k) (Htwo : at_most_two makeHash (2 ^ 8 - 1) ks)
    (Htp : 0 <= tp < n) (Hl : allowed ks l start) :
  ∃ s t, execute makeHash ((λ a, (tp, a)) <$> l) (boot n) = Ok (tt, s) ∧ harts s !! tp = Some t ∧
    ∀ p x, procs s !! p = Some x →
      match state x with
      | Ready => (∃ ps r, repr (heap s) (readyQueue s) ps r ∧ p ∈ r) ∨
          at_point t = Picked p ∨ at_point t = Checked p
      | Sleeping => ∃ r, HashMap.lookup makeHash (sleepTable s) (chan x) = Some r ∧ p ∈ r
      | Running => current t = Some p
      | Used | Zombie => True
      end.
Proof.
  destruct (runs_inv _ _ _ (allowed_runs tp makeHash ks Hhash Htwo l start (boot n)
    (rep_boot tp makeHash ks n Htp) (sane_start ks) Hl)) as ([] & s & E & v & R & Hi).
  pose proof R as [(t & Et & Ec & _ & Ea & _) _ Pr [ps Q] _ T _ _].
  exists s, t. split_and!; [done|done|]. intros p x Hx.
  assert (aprocs v !! p = Some (erase_process x)) as Hv by by rewrite Pr, lookup_fmap, Hx.
  destruct (state x) eqn:Es; [done| | | |done].
  - pose proof (sane_wakeable _ _ Hi p _ Hv Es) as Hin. simpl in Hin. rewrite (T (chan x)).
    destruct (asleep v !! chan x) as [r|]; [by exists r|by apply not_elem_of_nil in Hin].
  - rewrite Ea. destruct (sane_runnable _ _ Hi p _ Hv Es) as [Hin|[?|?]]; eauto.
  - rewrite Ec. by apply (sane_running _ _ Hi p _ Hv).
Qed.

Lemma no_process_lost_witness : ∃ s t,
  execute (λ k, Z.abs k) ((λ a, (0, a)) <$> [Start 1; Advance; Advance; Advance; Advance; Advance;
    Lock 7; Sleep 256; Advance]) (boot 1) = Ok (tt, s) ∧ harts s !! 0 = Some t ∧
  ∃ r, HashMap.lookup (λ k, Z.abs k) (sleepTable s) 256 = Some r ∧ 1%positive ∈ r.
Proof.
  destruct (no_process_lost 0 1 (λ k, Z.abs k) {[256]} [Start 1; Advance; Advance; Advance; Advance; Advance;
    Lock 7; Sleep 256; Advance]) as (s & t & E & Et & Hp).
  - apply Z.abs_nonneg.
  - intros k1 k2 k3 H1%elem_of_singleton H2%elem_of_singleton. naive_solver.
  - lia.
  - repeat split; eauto; try done.
  - exists s, t. split; [exact E|]. split; [exact Et|].
    assert (∃ x, procs s !! 1%positive = Some x ∧ state x = Sleeping ∧ chan x = 256) as (x & Ex & Es & Ec).
    { revert E. vm_compute. intros [= <-]. eexists. split; [reflexivity|by split]. }
    specialize (Hp 1%positive x Ex). rewrite Es, Ec in Hp. exact Hp.
Defined.

(** ** Two harts

    With a second hart two things the scheduler does not exclude happen.  A
    process is registered when it leaves the hart and once more at the end of
    [run]'s loop: after a wakeup it is in the ready queue twice, and two harts
    that take the two entries both find it ready. *)

Definition steps (tp : Z) (n : nat) : list (Z * action) := replicate n (tp, Advance).

(** Process 1 runs, sleeps on channel 256 with mutex 7, is requeued and woken. *)
Definition sleep_and_wake : list (Z * action) :=
  [(0, Start 1)] ++ steps 0 5 ++ [(0, Lock 7); (0, Sleep 256)] ++ steps 0 3 ++ [(0, Wakeup 256)].

(** One process runs on two harts at once.  After one sleep and one wakeup
    the process is twice in the ready queue; when each of two harts takes an
    entry and finds the process ready before the other one dispatches it, both
    resume it on its one kernel stack: both have it as the current process and
    run code that needs no lock any more. *)
Theorem process_on_two_harts :
  match execute Z.abs (sleep_and_wake ++ steps 0 2 ++ steps 1 3 ++ steps 0 3 ++ [(0, Unlock)] ++ steps 1 3 ++ [(1, Unlock)])
    (boot 2) with
  | Ok (_, s) => ∀ h, h = 0 ∨ h = 1 → ∃ t, harts s !! h = Some t ∧ current t = Some 1%positive ∧ at_point t = Free
  | Err _ => False
  end.
Proof. vm_compute. intros h [-> | ->]; eexists; by split_and!. Qed.

(** A wakeup can be lost: [sleep] releases the caller's mutex before the
    process is in the sleep table, so a wakeup on another hart in between finds
    no sleeper, and the process sleeps on. *)
Theorem wakeup_lost :
  match execute Z.abs ([(0, Start 1)] ++ steps 0 5 ++ [(0, Lock 7); (0, Sleep 256); (1, Wakeup 256)] ++ steps 0 3) (boot 2) with
  | Ok (_, s) => (state <$> procs s !! 1%positive) = Some Sleeping ∧ readyQueue s = mkQueue None None
  | Err _ => False
  end.
Proof. vm_compute. by split. Qed.

End Scheduler.
