(* ===== verification/Fairness.v ===== *)
(** * Fairness of the ready queue

    The ready queue of [kernel/process/scheduler.h] is served in order: over the
    abstract scheduler of [Scheduler], a ready process is overtaken by the
    processes in front of it only, and the refinement carries the dispatch over
    to the code. *)

From S2P Require Import Prelude HashMap Queue SpinMutex Scheduler.
Import Scheduler.

Module Fairness.

(** ** Definitions *)

(** The abstract state after a sequence of actions. *)
Definition arun (l : list action) (v : Spec) : Spec := fold_left (λ v a, aact a v) l v.

(** [run] takes a process from the queue in this step. *)
Definition is_pick (a : action) (v : Spec) : bool :=
  match a, apoint v, ready v with Advance, Inner, _ :: _ => true | _, _, _ => false end.

(** How often it does in a sequence of steps. *)
Fixpoint picks (l : list action) (v : Spec) : nat :=
  match l with
  | [] => 0
  | a :: l' => (if is_pick a v then 1 else 0) + picks l' (aact a v)
  end.

(** [p] is ready and has at most [k] entries of the queue in front of it. *)
Definition waits (p : positive) (k : nat) (v : Spec) : Prop :=
  (∃ i, (i <= k)%nat ∧ ready v !! i = Some p) ∧ state <$> aprocs v !! p = Some Ready.

(** [run] has [p] in its hands, and [p] is ready. *)
Definition chosen (p : positive) (v : Spec) : Prop :=
  (apoint v = Picked p ∨ apoint v = Checked p) ∧ state <$> aprocs v !! p = Some Ready.

#[export] Instance point_eq_dec : EqDecision point.
Proof. solve_decision. Defined.

#[export] Instance chosen_dec p v : Decision (chosen p v).
Proof. unfold chosen. apply _. Defined.

(** ** Lemmas *)

Lemma arun_app l1 l2 v : arun (l1 ++ l2) v = arun l2 (arun l1 v).
Proof. apply fold_left_app. Qed.

Lemma allowed_app ks l1 l2 v : allowed ks (l1 ++ l2) v ↔ allowed ks l1 v ∧ allowed ks l2 (arun l1 v).
Proof.
  revert v; induction l1 as [|a l1 IH]; intros v; simpl; [tauto|]. rewrite IH. tauto.
Qed.

Lemma execute_app makeHash l1 l2 s s1 : execute makeHash l1 s = Ok (tt, s1) →
  execute makeHash (l1 ++ l2) s = execute makeHash l2 s1.
Proof.
  revert s; induction l1 as [|[h a] l1 IH]; intros s E; [by injection E as ->|].
  cbn [execute app] in *. apply bind_inv in E as ([] & s2 & E1 & E2).
  erewrite bind_ok by exact E1. by apply IH.
Qed.

(** The steps of the abstract scheduler from represented states, with the state
    they end in. *)
Lemma allowed_arun tp makeHash ks (Hhash : ∀ k, 0 <= makeHash k)
    (Htwo : HashMap.at_most_two makeHash (2 ^ 8 - 1) ks) l v s :
  rep tp makeHash ks v (held v) s → sane ks v → allowed ks l v →
  runs (execute makeHash ((λ a, (tp, a)) <$> l)) s (λ _ s',
    rep tp makeHash ks (arun l v) (held (arun l v)) s' ∧ sane ks (arun l v)).
Proof.
  revert v s; induction l as [|a l IH]; intros v s R Hi Hl; [by apply runs_ret|].
  destruct Hl as [He Hl]. simpl. runs_step. eapply runs_mono; [by apply rep_act|]. intros [] s1 R1.
  apply (IH (aact a v)); [done|by apply sane_act|done].
Qed.

Section waiting.
Context (p : positive).

Lemma waits_control k v v' : ready v' = ready v → aprocs v' = aprocs v → waits p k v → waits p k v'.
Proof. intros Hr Ha [Hi Hs]. unfold waits. by rewrite Hr, Ha. Qed.

Lemma waits_append k v r : waits p k v → waits p k (set_ready (ready v ++ r) v).
Proof.
  intros [(i & Hi & E) Hs]. split; [|done]. exists i. split; [done|]. simpl. by apply lookup_app_l_Some.
Qed.

Lemma waits_aregister k v q : waits p k v → waits p k (aregister q v).
Proof.
  intros H. unfold aregister. destruct (aprocs v !! q) as [x|]; [|done].
  by destruct (state x); [|apply (waits_control k v)|apply waits_append| |].
Qed.

Lemma waits_aset k v q f : waits p k v → (q = p → ∀ x, state x = Ready → state (f x) = Ready) →
  waits p k (aset q f v).
Proof.
  intros [Hi Hs] Hf. split; [done|]. rewrite aset_lookup. case_decide as Hq; [|done]. subst q.
  destruct (aprocs v !! p) as [x|]; [|done]. simpl in *. injection Hs as Hs. by rewrite Hf.
Qed.

(** Taking other processes out of the queue only moves [p] to the front. *)
Lemma waits_aunregister k v q : q ≠ p → waits p k v → waits p k (aunregister q v).
Proof.
  intros Hq [(i & Hi & E) Hs]. split; [|done]. simpl.
  exists (length (filter (λ x, x ≠ q) (take i (ready v)))). split.
  - pose proof (length_filter (λ x, x ≠ q) (take i (ready v))) as Hlen. rewrite length_take in Hlen. lia.
  - rewrite <- (take_drop_middle (ready v) i p E) at 2. rewrite filter_app, filter_cons_True by congruence.
    by rewrite list_lookup_middle.
Qed.

Lemma waits_awake l : ∀ k v, waits p k v → waits p k (awake l v).
Proof.
  induction l as [|q l IH]; intros k v H; [done|]. cbn [awake]. by apply IH, waits_aregister, waits_aset.
Qed.

Lemma waits_areschedule k v q c : waits p k v → waits p k (areschedule q c v).
Proof.
  intros H. unfold areschedule. assert (waits p k (aset q (set_context c) (aregister q v))) as H1
    by by apply waits_aset, id; [apply waits_aregister|].
  destruct (asaved _); [by apply (waits_control k _ _ eq_refl eq_refl)|done].
Qed.

(** A running process is not a waiting one. *)
Lemma waits_current ks k v q : sane ks v → waits p k v → acurrent v = Some q → (∀ r, apoint v ≠ Switched r) → q ≠ p.
Proof.
  intros Hi [_ Hs] Hc Hn ->. pose proof (sane_current _ _ Hi) as H. rewrite Hc in H.
  destruct H as (_ & _ & x & Hx & Hr). rewrite Hx in Hs. simpl in Hs. injection Hs as Hs.
  destruct (apoint v); try congruence. by destruct (Hn p0).
Qed.

(** A step that is not a pick leaves [p] where it waits, or moves it forward. *)
Lemma waits_step ks k v a : sane ks v → enabled ks a v → ¬ chosen p v → is_pick a v = false →
  waits p k v → waits p k (aact a v).
Proof.
  intros Hi He Hn Hp H. pose proof H as [_ Hs].
  assert (∀ q, acurrent v = Some q → (∀ r, apoint v ≠ Switched r) → q ≠ p) as Hcur
    by (intros q; by apply (waits_current ks k v)).
  assert (∀ x, waits p k (set_apoint x v)) as Hmove by (intros x; by apply (waits_control k v)).
  destruct a as [|y|c|q|q|m| |c| |]; unfold aact; simpl in He.
  - unfold aadvance. simpl in Hp. destruct (apoint v) as [| |q|q|q|q| | |m|c m|m] eqn:Ea; try done.
    + destruct (ready v); [by apply Hmove|done].
    + unfold ainspect. destruct (state <$> aprocs v !! q) as [[]|]; try by apply Hmove.
      all: try by apply (waits_control k (aregister q v)); [..|apply waits_aregister].
      apply (waits_control k (aset q (set_memory false) v)); [done|done|by apply waits_aset].
    + assert (q ≠ p) as Hq by (intros ->; apply Hn; split; [by right|done]).
      by apply (waits_control k (aset q (set_state Running) v)); [..|apply waits_aset].
    + by apply (waits_control k (aregister q v)); [..|apply waits_aregister].
    + destruct (acurrent v) as [q|] eqn:Ec; [|done]. unfold aresume.
      destruct (context <$> aprocs v !! q) as [[]|]; try by apply Hmove.
      all: try done.
      by apply (waits_control k (aset q (set_chan 0) v)); [..|apply waits_aset].
    + destruct (acurrent v) as [q|] eqn:Ec; [|done]. assert (q ≠ p) by (apply Hcur; congruence).
      apply waits_areschedule. by apply waits_aset; [apply waits_aset|].
  - done.
  - unfold awakeup. apply (waits_control k (awake (default [] (asleep v !! c)) v)); [done|done|by apply waits_awake].
  - unfold astart. apply waits_aregister. destruct H as [H _]. split; [done|]. simpl.
    rewrite lookup_insert_ne; [done|]. intros ->. destruct He as [_ He]. by rewrite He in Hs.
  - unfold astart. apply waits_aregister. destruct H as [H _]. split; [done|]. simpl.
    rewrite lookup_insert_ne; [done|]. intros ->. destruct He as [_ He]. by rewrite He in Hs.
  - by apply Hmove.
  - destruct He as [m ->]. by apply Hmove.
  - destruct He as (_ & m & ->). by apply Hmove.
  - destruct (acurrent v) as [q|] eqn:Ec; [|by destruct (apoint v)].
    assert (q ≠ p) as Hq.
    { apply Hcur; [done|]. intros r Er. unfold held in He. by rewrite Er in He. }
    apply waits_areschedule, waits_aset; [by apply waits_aunregister|done].
  - destruct He as [m Em]. rewrite Em. destruct (acurrent v) as [q|] eqn:Ec; [|done].
    assert (q ≠ p) by (apply Hcur; congruence). by apply waits_areschedule, waits_aset.
Qed.

(** A pick takes [p], or one of the entries in front of it. *)
Lemma waits_pick k v a : is_pick a v = true → waits p k v →
  chosen p (aact a v) ∨ ∃ k', k = Datatypes.S k' ∧ waits p k' (aact a v).
Proof.
  intros Hp [(i & Hi & E) Hs]. unfold is_pick in Hp.
  destruct a; try done. destruct (apoint v) eqn:Ea; try done. destruct (ready v) as [|q l] eqn:Er; [done|].
  unfold aact, aadvance. rewrite Ea, Er. destruct i as [|i]; simpl in E.
  - injection E as ->. left. split; [by left|done].
  - right. destruct k as [|k']; [lia|]. exists k'. split; [done|]. split; [|done]. exists i. split; [lia|done].
Qed.

(** After more picks than there are entries in front of [p], [p] was chosen. *)
Lemma picks_chosen ks l : ∀ k v, sane ks v → allowed ks l v → waits p k v → (k < picks l v)%nat →
  ∃ l1 l2, l = l1 ++ l2 ∧ chosen p (arun l1 v).
Proof.
  induction l as [|a l IH]; intros k v Hi Hl Hw Hk; [simpl in Hk; lia|].
  destruct Hl as [He Hl]. pose proof (sane_act ks v a Hi He) as Hi'. cbn [picks] in Hk.
  destruct (is_pick a v) eqn:Ep.
  - destruct (waits_pick k v a Ep Hw) as [Hc|(k' & -> & Hw')].
    + by exists [a], l.
    + destruct (IH k' (aact a v) Hi' Hl Hw') as (l1 & l2 & -> & Hc); [lia|]. by exists (a :: l1), l2.
  - destruct (decide (chosen p v)) as [Hc|Hn].
    + by exists [], (a :: l).
    + destruct (IH k (aact a v) Hi' Hl) as (l1 & l2 & -> & Hc); [by eapply waits_step|simpl in Hk; lia|].
      by exists (a :: l1), l2.
Qed.

(** A chosen process is current after at most two steps of [run]. *)
Lemma chosen_dispatched ks v : sane ks v → chosen p v →
  ∃ n, (n <= 2)%nat ∧ allowed ks (replicate n Advance) v ∧
  acurrent (arun (replicate n Advance) v) = Some p ∧ apoint (arun (replicate n Advance) v) = Resuming.
Proof.
  intros Hi [[Ea|Ea] Hs].
  - assert (aadvance v = set_apoint (Checked p) v) as E by (unfold aadvance, ainspect; by rewrite Ea, Hs).
    exists 2%nat. split; [lia|]. unfold arun. cbn [replicate allowed fold_left aact enabled]. rewrite Ea, E.
    unfold aadvance. cbn. done.
  - exists 1%nat. split; [lia|]. cbn. unfold aadvance. rewrite Ea. done.
Qed.
End waiting.

(** ** Properties *)

(** C12: no ready process starves.  Take a hart in any state it can reach, and a
    ready process with [k] entries of the ready queue in front of it.  In every
    sequence of steps the code can make in which the scheduler takes more than
    [k] entries from the queue, there is a point from which the hart switches to
    the process within two steps of the scheduler: processes that are started,
    woken or requeued later do not overtake it. *)
Theorem ready_process_runs (tp : Z) (makeHash : Z → Z) (ks : gset Z) (v : Spec) (s : Kernel) (l : list action)
    (p : positive) (k : nat)
    (Hhash : ∀ k, 0 <= makeHash k) (Htwo : HashMap.at_most_two makeHash (2 ^ 8 - 1) ks)
    (Hrep : rep tp makeHash ks v (held v) s) (Hsane : sane ks v) (Hl : allowed ks l v)
    (Hready : state <$> aprocs v !! p = Some Ready) (Hpos : ready v !! k = Some p) (Hpicks : (k < picks l v)%nat) :
  ∃ l1 l2 n s' t, l = l1 ++ l2 ∧ (n <= 2)%nat ∧
  execute makeHash ((λ a, (tp, a)) <$> l1 ++ replicate n Advance) s = Ok (tt, s') ∧
  harts s' !! tp = Some t ∧ current t = Some p ∧ at_point t = Resuming.
Proof.
  destruct (picks_chosen p ks l k v) as (l1 & l2 & -> & Hc); [done|done|split; [by exists k|done]|done|].
  apply allowed_app in Hl as [Hl1 _].
  assert (sane ks (arun l1 v)) as Hs1.
  { destruct (runs_inv _ _ _ (allowed_arun tp makeHash ks Hhash Htwo l1 v s Hrep Hsane Hl1)) as (? & ? & ? & ? & ?). done. }
  destruct (chosen_dispatched p ks (arun l1 v) Hs1 Hc) as (n & Hn & Hln & Ec & Ea).
  assert (allowed ks (l1 ++ replicate n Advance) v) as Hall by by apply allowed_app.
  destruct (runs_inv _ _ _ (allowed_arun tp makeHash ks Hhash Htwo _ v s Hrep Hsane Hall)) as ([] & s' & E & R & _).
  rewrite arun_app in R. pose proof (rep_hart _ _ _ _ _ _ R) as (t & Et & Hcur & _ & Hpt & _).
  exists l1, l2, n, s', t. split_and!; [done|done|done|done|congruence|congruence].
Qed.

(** Two processes are started; the second has one entry in front of it, and runs
    after the scheduler took two. *)
Lemma ready_process_runs_witness : ∃ l1 s' t,
  execute Z.abs ((λ a, (0, a)) <$> [Start 1; Start 2] ++ l1) (boot 1) = Ok (tt, s') ∧
  harts s' !! 0 = Some t ∧ current t = Some 2%positive ∧ at_point t = Resuming.
Proof.
  set (v := arun [Start 1; Start 2] start).
  assert (∃ s, execute Z.abs ((λ a, (0, a)) <$> [Start 1; Start 2]) (boot 1) = Ok (tt, s) ∧
    rep 0 Z.abs ∅ v (held v) s ∧ sane ∅ v) as (s & E & R & Hi).
  { destruct (runs_inv _ _ _ (allowed_arun 0 Z.abs ∅ Z.abs_nonneg ltac:(by intros ??? []%elem_of_empty)
      [Start 1; Start 2] start (boot 1) (rep_boot 0 Z.abs ∅ 1 ltac:(lia)) (sane_start ∅) ltac:(by repeat split)))
      as ([] & s & E & R). by exists s. }
  destruct (ready_process_runs 0 Z.abs ∅ v s
    [Advance; Advance; Advance; Advance; Advance; Yield; Advance; Advance; Advance] 2 1)
    as (l1 & l2 & n & s' & t & _ & _ & E' & Ht & Hc & Hp).
  - apply Z.abs_nonneg.
  - intros k1 k2 k3 []%elem_of_empty.
  - exact R.
  - exact Hi.
  - vm_compute. by repeat split.
  - by vm_compute.
  - by vm_compute.
  - vm_compute. lia.
  - exists (l1 ++ replicate n Advance), s', t. split_and!; [|exact Ht|exact Hc|exact Hp].
    rewrite fmap_app. by rewrite (execute_app _ _ _ _ _ E).
Defined.
End Fairness.
