(* ===== verification/Process.v ===== *)
(** * Processes

    [kernel/process/process.h], [process.cpp] and [user_init_proc.cpp]: the members
    of [Process] beside those of the scheduler, its construction, the table of
    open files of a process, [fork], [exit], [wait] and [growMemory].  The
    operations run as the current process [this] between two of its scheduling
    points; its scheduling state, its locks and the ready queue are those of
    [Scheduler], its files those of [File], and its memory the pages of the
    kernel.  A [Process*] is a key of the tables of processes; the objects
    themselves are not placed in memory. *)

From stdpp Require Import gmultiset.
From S2P Require Import Prelude CString HashMap Queue Address Page PageTable Uvm Ring Uart Console SpinMutex SleepMutex Buffer FsState Log Txn Block Inode InodeWrite File Scheduler.
Import CString Address Page PageTable Uvm Ring Uart Console Buffer FsState Log Inode File.

#[local] Open Scope Z_scope.

Module Process.

#[local] Existing Instance Scheduler.process_state_eq_dec.

(** ** Definitions *)

Definition O_RDONLY : Z := 0x000.
Definition O_WRONLY : Z := 0x001.
Definition O_RDWR : Z := 0x002.
Definition O_CREATE : Z := 0x200.
Definition O_TRUNC : Z := 0x400.

(** [sizeof(TrapFrame)], and the offsets of the members the code uses. *)
Definition TRAP_FRAME_SIZE : Z := 288.
Definition tf_epc : Z := 24.
Definition tf_sp : Z := 48.
(** [a0] to [a7] follow each other. *)
Definition tf_a (n : Z) : Z := 112 + 8 * n.

(** The members of [struct Process] that [Scheduler.Process] does not have. *)
Record Proc := mkProc {
  ppid : Z;
  parent : option positive;
  children : list positive;
  trapFrame : Z;
  ppageTable : Z;
  kernelStackPage : Z;
  kernelStack : Z;
  memorySize : Z;
  cwd : option positive;
  openFiles : list (option nat);
  pname : bytes;
  exitStatus : Z;
}.

Definition set_parent x p := mkProc (ppid p) x (children p) (trapFrame p) (ppageTable p) (kernelStackPage p) (kernelStack p) (memorySize p) (cwd p) (openFiles p) (pname p) (exitStatus p).
Definition set_children x p := mkProc (ppid p) (parent p) x (trapFrame p) (ppageTable p) (kernelStackPage p) (kernelStack p) (memorySize p) (cwd p) (openFiles p) (pname p) (exitStatus p).
Definition set_trapFrame x p := mkProc (ppid p) (parent p) (children p) x (ppageTable p) (kernelStackPage p) (kernelStack p) (memorySize p) (cwd p) (openFiles p) (pname p) (exitStatus p).
Definition set_kernelStackPage x p := mkProc (ppid p) (parent p) (children p) (trapFrame p) (ppageTable p) x (kernelStack p) (memorySize p) (cwd p) (openFiles p) (pname p) (exitStatus p).
Definition set_pageTable x p := mkProc (ppid p) (parent p) (children p) (trapFrame p) x (kernelStackPage p) (kernelStack p) (memorySize p) (cwd p) (openFiles p) (pname p) (exitStatus p).
Definition set_memorySize x p := mkProc (ppid p) (parent p) (children p) (trapFrame p) (ppageTable p) (kernelStackPage p) (kernelStack p) x (cwd p) (openFiles p) (pname p) (exitStatus p).
Definition set_cwd x p := mkProc (ppid p) (parent p) (children p) (trapFrame p) (ppageTable p) (kernelStackPage p) (kernelStack p) (memorySize p) x (openFiles p) (pname p) (exitStatus p).
Definition set_openFiles x p := mkProc (ppid p) (parent p) (children p) (trapFrame p) (ppageTable p) (kernelStackPage p) (kernelStack p) (memorySize p) (cwd p) x (pname p) (exitStatus p).
Definition set_pname x p := mkProc (ppid p) (parent p) (children p) (trapFrame p) (ppageTable p) (kernelStackPage p) (kernelStack p) (memorySize p) (cwd p) (openFiles p) x (exitStatus p).
Definition set_exitStatus x p := mkProc (ppid p) (parent p) (children p) (trapFrame p) (ppageTable p) (kernelStackPage p) (kernelStack p) (memorySize p) (cwd p) (openFiles p) (pname p) x.

(** The kernel: files, console and memory, the scheduler, the processes, and the
    variables [nextPid] and [initProc]. *)
Record Machine {S : Type} := mkMachine {
  fstate : FileState S;
  sched : Scheduler.Kernel;
  data : gmap positive Proc;
  nextPid : Z;
  initProc : option positive;
}.
Arguments Machine : clear implicits.
Arguments mkMachine {S} _ _ _ _ _.

Section state.
Context {S : Type}.

Definition set_fstate x (s : Machine S) : Machine S := mkMachine x (sched s) (data s) (nextPid s) (initProc s).
Definition set_sched x (s : Machine S) : Machine S := mkMachine (fstate s) x (data s) (nextPid s) (initProc s).
Definition set_data x (s : Machine S) : Machine S := mkMachine (fstate s) (sched s) x (nextPid s) (initProc s).
Definition set_nextPid x (s : Machine S) : Machine S := mkMachine (fstate s) (sched s) (data s) x (initProc s).
Definition set_initProc x (s : Machine S) : Machine S := mkMachine (fstate s) (sched s) (data s) (nextPid s) x.

(** Operations of the parts. *)
Definition on_files {A} (c : M (FileState S) A) : M (Machine S) A := λ s,
  match c (fstate s) with Ok (a, x) => Ok (a, set_fstate x s) | Err f => Err f end.

Definition on_sched {A} (c : M Scheduler.Kernel A) : M (Machine S) A := λ s,
  match c (sched s) with Ok (a, x) => Ok (a, set_sched x s) | Err f => Err f end.

Definition on_fs {A} (c : M (FS S) A) : M (Machine S) A := on_files (on_ifs (on_base c)).
Definition on_inode {A} (c : M (IFS S) A) : M (Machine S) A := on_files (on_ifs c).
Definition on_mem {A} (c : M KMem A) : M (Machine S) A := on_files (on_ifs (on_kernel c)).

Definition get_proc (p : positive) : M (Machine S) Proc := λ s,
  match data s !! p with Some x => Ok (x, s) | None => Err NullDeref end.

Definition change_proc (p : positive) (f : Proc → Proc) : M (Machine S) unit :=
  x ← get_proc p; modify (λ s, set_data (<[p := f x]> (data s)) s).

(** A member of a trap frame. *)
Definition get_tf (tf off : Z) : M (Machine S) Z := on_mem (gets (λ m, ld64 (kmem m) (tf + off))).
Definition set_tf (tf off x : Z) : M (Machine S) unit :=
  on_mem (modify (λ m, set_kmem (st64 (kmem m) (tf + off) x) m)).

(** [process::initialize] *)
Definition initialize : M (Machine S) unit := modify (set_nextPid 1).
End state.

Section operations.
Context {S P : Type} `{BufferOps S P}.
(** The hart, the hash of the sleep table, the address of a process as a channel,
    and the addresses of [waitMutex] and of the trap vector code. *)
Variable tp : Z.
Variable makeHash : Z → Z.
Variable address_of : positive → Z.
Variable waitMutex : Z.
Variable trampoline : Z.
(** The end of the kernel image and the kernel's page table. *)
Variable kernelPages : Z.
Variable kernelPageTable : Z.
(** The initial contents of a local array of 14 characters, and the address of
    the local [entry] of the directory operations. *)
Variable name0 : bytes.
Variable entry_addr : Z.
(** The current process. *)
Variable this : positive.

(** [Process::makePageTable] *)
Definition makePageTable (trapFrame : Z) : M (Machine S) Z :=
  pt ← on_mem new_table;
  on_mem (PageTable.map pt TRAMPOLINE PAGE_SIZE trampoline (Z.lor PTE_R PTE_X)) ;;
  on_mem (PageTable.map pt TRAPFRAME PAGE_SIZE trapFrame (Z.lor PTE_R PTE_W)) ;;
  mret pt.

(** [Process::Process]; the members it does not set are zero. *)
Definition construct : M (Machine S) positive :=
  pid ← gets nextPid;
  modify (set_nextPid (u64 (pid + 1))) ;;
  tf ← on_mem (operator_new TRAP_FRAME_SIZE);
  on_mem (modify (λ m, set_kmem (put_bytes (kmem m) tf (replicate (Z.to_nat TRAP_FRAME_SIZE) 0)) m)) ;;
  page ← on_mem (operator_new (PAGE_SIZE * 2));
  let stack := u64 (TRAMPOLINE - u64 (u64 (pid * 2) * PAGE_SIZE)) in
  pt ← makePageTable tf;
  on_mem (PageTable.map kernelPageTable stack PAGE_SIZE page (Z.lor PTE_R PTE_W)) ;;
  p ← gets (λ s, fresh (dom (data s) ∪ dom (Scheduler.procs (sched s))));
  modify (λ s, set_data (<[p := mkProc pid None [] tf pt page stack 0 None [] (replicate 16 0) 0]> (data s)) s) ;;
  mret p.

(** [Process::~Process]; [operator delete] does nothing. *)
Definition destroy (p : positive) : M (Machine S) unit :=
  x ← get_proc p;
  (if trapFrame x =? 0 then mret tt else change_proc p (set_trapFrame 0)) ;;
  (if kernelStackPage x =? 0 then mret tt else change_proc p (set_kernelStackPage 0)).

(** The pid, the page table and the working directory of the current process, as
    the file system uses them; a null directory is a key of no inode. *)
Definition with_process {A} (c : Z → Z → positive → M (IFS S) A) : M (Machine S) A :=
  x ← get_proc this;
  dir ← gets (λ s, default (fresh (dom (cells (ifs (fstate s))))) (cwd x));
  on_inode (c (ppid x) (ppageTable x) dir).

Definition plock (ip : positive) : M (Machine S) unit := with_process (λ pid _ _, ilock pid ip).
Definition punlock (ip : positive) : M (Machine S) unit := with_process (λ pid _ _, iunlock pid ip).
Definition pput (ip : positive) : M (Machine S) unit := with_process (λ pid _ _, iput pid ip).

(** The first part of [Process::open]: the inode, or the return of [-1]. *)
Definition open_inode (path : bytes) (mode : Z) : M (Machine S) (option positive) :=
  if negb (Z.land mode O_CREATE =? 0) then
    ip ← with_process (λ pid pt dir, icreate pid dir pt entry_addr path T_FILE 0 0 name0);
    match ip with
    | None => on_fs endOp ;; mret None
    | Some ip => mret (Some ip)
    end
  else
    r ← with_process (λ pid pt dir, iopen pid dir pt entry_addr path false name0);
    match fst r with
    | None => on_fs endOp ;; mret None
    | Some ip =>
        plock ip ;;
        i ← on_inode (Inode.deref ip);
        if (type (fields i) =? T_DIR) && negb (mode =? O_RDONLY) then
          punlock ip ;; pput ip ;; on_fs endOp ;; mret None
        else mret (Some ip)
    end.

(** What [Process::open] stores in the file. *)
Definition opened (ip : positive) (i : Inode) (mode : Z) (f : File) : File :=
  let r := Z.land mode O_WRONLY =? 0 in
  let w := (Z.land mode O_WRONLY =? 0) || negb (Z.land mode O_RDWR =? 0) in
  if type (fields i) =? T_DEVICE then
    mkFile TDevice (frefCount f) r w (Some ip)
      (Z.lor (Z.land (fword f) 0xffff0000) (u16 (major (fields i))))
  else mkFile TInode (frefCount f) r w (Some ip) 0.

(** [Process::open] *)
Definition open (path : bytes) (mode : Z) : M (Machine S) Z :=
  on_fs beginOp ;;
  r ← open_inode path mode;
  match r with
  | None => mret (-1)
  | Some ip =>
      i ← on_inode (Inode.deref ip);
      if (type (fields i) =? T_DEVICE) && ((major (fields i) <? 0) || (NUM_DEVICES <=? major (fields i))) then
        punlock ip ;; pput ip ;; mret (-1)
      else
        file ← on_files File.allocate;
        match file with
        | None => punlock ip ;; pput ip ;; on_fs endOp ;; mret (-1)
        | Some f =>
            x ← get_proc this;
            change_proc this (λ x, set_openFiles (openFiles x ++ [Some f]) x) ;;
            on_files (change_file f (opened ip i mode)) ;;
            (if negb (Z.land mode O_TRUNC =? 0) && (type (fields i) =? T_FILE)
             then with_process (λ _ _ _, itruncate ip) else mret tt) ;;
            punlock ip ;;
            on_fs endOp ;;
            mret (s32 (Z.of_nat (length (openFiles x))))
        end
  end.

(** [Process::close] *)
Definition close (fd : Z) : M (Machine S) Z :=
  x ← get_proc this;
  if (fd <? 0) || (Z.of_nat (length (openFiles x)) <=? fd) then mret (-1)
  else
    match openFiles x !! Z.to_nat fd with
    | Some (Some f) =>
        on_files (File.close (ppid x) f) ;;
        change_proc this (λ x, set_openFiles (<[Z.to_nat fd := None]> (openFiles x)) x) ;;
        mret 0
    | _ => fail NullDeref
    end.

(** The loop of [fork] over the open files. *)
Fixpoint dup_files (l : list (option nat)) (p : positive) : M (Machine S) unit :=
  match l with
  | [] => mret tt
  | Some f :: l' =>
      f ← on_files (File.dup f);
      change_proc p (λ x, set_openFiles (openFiles x ++ [Some f]) x) ;;
      dup_files l' p
  | None :: l' =>
      change_proc p (λ x, set_openFiles (openFiles x ++ [None]) x) ;;
      dup_files l' p
  end.

(** [Process::fork] *)
Definition fork : M (Machine S) positive :=
  p ← construct;
  x ← get_proc this;
  y ← get_proc p;
  on_mem (copyUserVirtualMemory (ppageTable x) (ppageTable y) (memorySize x)) ;;
  change_proc p (set_memorySize (memorySize x)) ;;
  on_mem (modify (λ m, set_kmem (put_bytes (kmem m) (trapFrame y)
    (get_bytes (Z.to_nat TRAP_FRAME_SIZE) (kmem m) (trapFrame x))) m)) ;;
  set_tf (trapFrame y) (tf_a 0) 0 ;;
  dup_files (openFiles x) p ;;
  dir ← with_process (λ _ _ dir, idup dir);
  change_proc p (set_cwd (Some dir)) ;;
  change_proc p (λ y, set_pname (strncpy (pname y) 0 (pname x) 0 16) y) ;;
  on_sched (Scheduler.lock tp (Scheduler.KernelLock waitMutex)) ;;
  change_proc p (set_parent (Some this)) ;;
  change_proc this (λ x, set_children (children x ++ [p]) x) ;;
  on_sched (Scheduler.unlock tp (Scheduler.KernelLock waitMutex)) ;;
  on_sched (Scheduler.fork_ready tp makeHash p) ;;
  mret p.

(** The loop of [exit] over the open files. *)
Fixpoint close_files (fuel : nat) (pid : Z) (i : nat) : M (Machine S) unit :=
  x ← get_proc this;
  match openFiles x !! i with
  | None => mret tt
  | Some r =>
      match fuel with
      | O => fail NoFuel
      | Datatypes.S fuel' =>
          match r with
          | Some f =>
              on_files (File.close pid f) ;;
              change_proc this (λ x, set_openFiles (<[i := None]> (openFiles x)) x)
          | None => mret tt
          end ;;
          close_files fuel' pid (i + 1)%nat
      end
  end.

(** [Process::reparent] *)
Fixpoint reparent (l : list positive) : M (Machine S) unit :=
  match l with
  | [] => mret tt
  | c :: l' =>
      on_sched (Scheduler.lock tp (Scheduler.ProcessLock c)) ;;
      ip ← gets initProc;
      change_proc c (set_parent ip) ;;
      on_sched (Scheduler.wakeup tp makeHash (from_option address_of 0 ip)) ;;
      on_sched (Scheduler.unlock tp (Scheduler.ProcessLock c)) ;;
      reparent l'
  end.

(** [Process::exit], up to the switch to the scheduler. *)
Definition exit (status : Z) : M (Machine S) unit :=
  x ← get_proc this;
  close_files (length (openFiles x)) (ppid x) 0 ;;
  change_proc this (set_openFiles []) ;;
  on_fs beginOp ;;
  match cwd x with
  | Some dir => pput dir
  | None => fail NullDeref
  end ;;
  on_fs endOp ;;
  change_proc this (set_cwd None) ;;
  on_sched (Scheduler.lock tp (Scheduler.KernelLock waitMutex)) ;;
  x ← get_proc this;
  reparent (children x) ;;
  on_sched (Scheduler.wakeup tp makeHash (from_option address_of 0 (parent x))) ;;
  change_proc this (set_exitStatus status) ;;
  on_sched (Scheduler.exit_switch tp makeHash waitMutex).

(** [Process::growMemory] *)
Definition growMemory (size : Z) : M (Machine S) unit :=
  x ← get_proc this;
  (if memorySize x <? size then
     on_mem (allocateUserVirtualMemory kernelPages (ppageTable x) (memorySize x) size PTE_W) ;; mret tt
   else if size <? memorySize x then
     on_mem (deallocateUserVirtualMemory (ppageTable x) size (memorySize x)) ;; mret tt
   else mret tt) ;;
  change_proc this (set_memorySize size).

(** The loop of [wait] over the children: the value of [wait], or [None] when no
    child is a zombie.  Both [-1] and a pid are converted to [bool].  After the
    erasure the reference [child] is the next element, or, behind the last one,
    what the vector had there. *)
Fixpoint wait_loop (fuel : nat) (i : nat) (address : Z) : M (Machine S) (option bool) :=
  x ← get_proc this;
  match children x !! i with
  | None => mret None
  | Some c =>
      match fuel with
      | O => fail NoFuel
      | Datatypes.S fuel' =>
          on_sched (Scheduler.lock tp (Scheduler.ProcessLock c)) ;;
          k ← on_sched (Scheduler.deref c);
          if bool_decide (Scheduler.state k = Scheduler.Zombie) then
            y ← get_proc c;
            ok ← (if address =? 0 then mret true
                  else on_mem (copyout (ppageTable x) address
                         (stN 4 (replicate 4 0) 0 (u32 (exitStatus y)))));
            if negb ok then
              on_sched (Scheduler.unlock tp (Scheduler.ProcessLock c)) ;; mret (Some true)
            else
              let rest := delete i (children x) in
              change_proc this (set_children rest) ;;
              z ← get_proc (default c (rest !! i));
              on_sched (Scheduler.unlock tp (Scheduler.ProcessLock c)) ;;
              mret (Some (negb (ppid z =? 0)))
          else
            on_sched (Scheduler.unlock tp (Scheduler.ProcessLock c)) ;;
            wait_loop fuel' (i + 1)%nat address
      end
  end.

(** [Process::wait], to its return or to its sleep. *)
Definition wait (address : Z) : M (Machine S) bool :=
  on_sched (Scheduler.lock tp (Scheduler.KernelLock waitMutex)) ;;
  x ← get_proc this;
  match children x with
  | [] => on_sched (Scheduler.unlock tp (Scheduler.KernelLock waitMutex)) ;; mret true
  | _ =>
      r ← wait_loop (length (children x)) 0 address;
      match r with
      | Some b => on_sched (Scheduler.unlock tp (Scheduler.KernelLock waitMutex)) ;; mret b
      | None =>
          on_sched (Scheduler.sleep_release tp (address_of this) waitMutex) ;;
          fail WouldSleep
      end
  end.
End operations.

(** ["User init process initialised.\n"] and ["initcode"] with its NUL. *)
Definition init_message : bytes :=
  [85; 115; 101; 114; 32; 105; 110; 105; 116; 32; 112; 114; 111; 99; 101; 115; 115; 32; 105; 110; 105; 116; 105;
   97; 108; 105; 115; 101; 100; 46; 10].
Definition init_name : bytes := [105; 110; 105; 116; 99; 111; 100; 101; 0].

(** [process::startUserInitProcess]; [code] is the bytes from [beginUserInitCode]
    to [endUserInitCode].  There is no current process: of the file system it
    only uses the root, which is not locked. *)
Definition startUserInitProcess {S P : Type} `{BufferOps S P} (uart_device : list access → Z → Z) (polls : nat)
    (tp : Z) (makeHash : Z → Z) (trampoline kernelPageTable : Z) (name0 : bytes) (entry_addr : Z)
    (code : bytes) : M (Machine S) unit :=
  p ← construct trampoline kernelPageTable;
  x ← get_proc p;
  mem ← on_mem (operator_new PAGE_SIZE);
  on_mem (modify (λ m, set_kmem (memset (kmem m) mem 0 PAGE_SIZE) m)) ;;
  on_mem (PageTable.map (ppageTable x) 0 PAGE_SIZE mem (Z.lor (Z.lor (Z.lor PTE_W PTE_R) PTE_X) PTE_U)) ;;
  on_mem (modify (λ m, set_kmem (put_bytes (kmem m) mem code) m)) ;;
  change_proc p (set_memorySize PAGE_SIZE) ;;
  set_tf (trapFrame x) tf_epc 0 ;;
  set_tf (trapFrame x) tf_sp PAGE_SIZE ;;
  change_proc p (λ x, set_pname (strncpy (pname x) 0 init_name 0 9) x) ;;
  dir ← gets (λ s, fresh (dom (cells (ifs (fstate s)))));
  r ← on_inode (iopen 0 dir 0 entry_addr [47] false name0);
  change_proc p (set_cwd (fst r)) ;;
  modify (set_initProc (Some p)) ;;
  on_files (on_console (printf uart_device polls init_message [])) ;;
  on_sched (Scheduler.start_ready tp makeHash p).

(** ** Descriptors and references

    The references to open files are the descriptors of the processes. *)

(** The files of a table of descriptors, and of the tables of all processes. *)
Definition own (l : list (option nat)) : gmultiset nat := list_to_set_disj (omap id l).

Definition references (D : gmap positive (list (option nat))) : gmultiset nat :=
  map_fold (λ _ l L, own l ⊎ L) ∅ D.

Lemma own_nil : own [] = ∅.
Proof. done. Qed.

Lemma own_app l l' : own (l ++ l') = own l ⊎ own l'.
Proof. unfold own. by rewrite omap_app, list_to_set_disj_app. Qed.

Lemma own_some f : own [Some f] = {[+ f +]}.
Proof. unfold own. simpl. multiset_solver. Qed.

Lemma own_none : own [None] = ∅.
Proof. done. Qed.

(** A descriptor is set to null. *)
Lemma own_insert l i f : l !! i = Some (Some f) → own l = {[+ f +]} ⊎ own (<[i := None]> l).
Proof.
  revert i; induction l as [|r l IH]; intros [|i] E; try done.
  - injection E as ->. unfold own. simpl. multiset_solver.
  - apply IH in E. change (own (r :: l)) with (own ([r] ++ l)).
    change (<[S i:=None]> (r :: l)) with ([r] ++ <[i:=None]> l). rewrite !own_app, E. multiset_solver.
Qed.

Lemma references_empty : references ∅ = ∅.
Proof. apply map_fold_empty. Qed.

Lemma references_new D p l : D !! p = None → references (<[p := l]> D) = own l ⊎ references D.
Proof.
  intros Hp. unfold references. rewrite map_fold_insert_L; [done| |done].
  intros p1 p2 l1 l2 L _ _ _. multiset_solver.
Qed.

Lemma references_split D p l : D !! p = Some l → references D = own l ⊎ references (delete p D).
Proof.
  intros Hp. rewrite <- (insert_delete_id D p l Hp) at 1. apply references_new, lookup_delete_eq.
Qed.

Lemma multiplicity_size (f : nat) (L : gmultiset nat) : (multiplicity f L ≤ stdpp.base.size L)%nat.
Proof.
  rewrite <- (Nat.mul_1_r (multiplicity f L)), <- (gmultiset_size_singleton f), <- gmultiset_size_scalar_mul.
  apply gmultiset_subseteq_size. intros g. rewrite multiplicity_scalar_mul, multiplicity_singleton.
  case_decide; subst; lia.
Qed.

Lemma references_change D p l l' : D !! p = Some l →
  references (<[p := l']> D) = own l' ⊎ references (delete p D).
Proof. intros Hp. rewrite <- insert_delete_eq. apply references_new, lookup_delete_eq. Qed.

Section descriptors.
Context {S : Type}.
Implicit Types (s : Machine S).

Definition tables s : gmap positive (list (option nat)) := openFiles <$> data s.

(** The counts and the descriptors of a state. *)
Definition descriptors s : list Z * gmap positive (list (option nat)) :=
  (refs (files (fstate s)), tables s).

(** Every open file counts the descriptors of the processes. *)
Definition counted s : Prop := counts (files (fstate s)) (references (tables s)).

Lemma counted_eq s s' : descriptors s' = descriptors s → counted s → counted s'.
Proof. intros [= E1 E2] Hc. unfold counted. rewrite E2. by eapply counts_refs. Qed.

Lemma keeps_on_files {A} (c : M (FileState S) A) : keeps file_refs c → keeps descriptors (on_files c).
Proof.
  intros Hc s a s'. unfold on_files. destruct (c (fstate s)) as [[b x]|] eqn:E; [|done].
  intros [= _ <-]. unfold descriptors, tables. f_equal. exact (Hc _ _ _ E).
Qed.

Lemma keeps_on_sched {A} (c : M Scheduler.Kernel A) : keeps descriptors (on_sched (S := S) c).
Proof. intros s a s'. unfold on_sched. destruct (c (sched s)) as [[b x]|]; [by intros [= _ <-]|done]. Qed.

Lemma keeps_on_fs {A} (c : M (FS S) A) : keeps descriptors (on_fs c).
Proof. apply keeps_on_files, keeps_on_ifs. Qed.

Lemma keeps_on_inode {A} (c : M (IFS S) A) : keeps descriptors (on_inode c).
Proof. apply keeps_on_files, keeps_on_ifs. Qed.

Lemma keeps_on_mem {A} (c : M KMem A) : keeps descriptors (on_mem (S := S) c).
Proof. apply keeps_on_files, keeps_on_ifs. Qed.

Lemma keeps_get_proc p : keeps (descriptors) (get_proc p).
Proof. intros s a s'. unfold get_proc. destruct (data s !! p); [by intros [= _ <-]|done]. Qed.

Lemma change_proc_inv p g s u s' : change_proc p g s = Ok (u, s') →
  ∃ x, data s !! p = Some x ∧ s' = set_data (<[p := g x]> (data s)) s.
Proof.
  unfold change_proc, mbind, M_bind, get_proc, modify. destruct (data s !! p) as [x|]; [|done].
  intros [= _ <-]. by exists x.
Qed.

Lemma keeps_change_proc p g : (∀ x, openFiles (g x) = openFiles x) → keeps descriptors (change_proc p g).
Proof.
  intros Hg s a s' (x & Ex & ->)%change_proc_inv. unfold descriptors, tables. simpl. f_equal.
  rewrite fmap_insert, Hg. apply insert_id. by rewrite lookup_fmap, Ex.
Qed.

Lemma tables_change s p g x : data s !! p = Some x →
  tables (set_data (<[p := g x]> (data s)) s) = <[p := openFiles (g x)]> (tables s).
Proof. intros _. unfold tables. simpl. by rewrite fmap_insert. Qed.

Lemma tables_lookup s p x : data s !! p = Some x → tables s !! p = Some (openFiles x).
Proof. intros E. unfold tables. by rewrite lookup_fmap, E. Qed.

Lemma get_proc_inv p s x s' : get_proc p s = Ok (x, s') → data s !! p = Some x ∧ s' = s.
Proof. unfold get_proc. destruct (data s !! p); [by intros [= <- <-]|done]. Qed.

Lemma on_files_inv {A} (c : M (FileState S) A) s a s' : on_files c s = Ok (a, s') →
  ∃ y, c (fstate s) = Ok (a, y) ∧ s' = set_fstate y s.
Proof. unfold on_files. destruct (c (fstate s)) as [[b y]|]; [|done]. intros [= -> <-]. by exists y. Qed.

(** Operations that preserve the correspondence of counts and descriptors. *)
Definition preserves {A} (c : M (Machine S) A) : Prop := ∀ s a s', c s = Ok (a, s') → counted s → counted s'.

Lemma preserves_keeps {A} (c : M (Machine S) A) : keeps descriptors c → preserves c.
Proof. intros Hk s a s' E. apply counted_eq, (Hk _ _ _ E). Qed.

Lemma preserves_bind {A B} (c : M (Machine S) A) (k : A → M (Machine S) B) :
  preserves c → (∀ a, preserves (k a)) → preserves (c ≫= k).
Proof. intros Hc Hk s b s' (a & s1 & E1 & E2)%bind_inv Hs. by eapply Hk, Hc. Qed.

Lemma own_some_in D p l i f : D !! p = Some l → l !! i = Some (Some f) → f ∈ references D.
Proof. intros Hp Hi. rewrite (references_split D p l Hp), (own_insert l i f Hi). multiset_solver. Qed.
End descriptors.

#[export] Hint Resolve keeps_on_sched keeps_on_fs keeps_on_inode keeps_on_mem keeps_get_proc keeps_change_proc : keeps.

Section process_steps.
Context {S P : Type} `{BufferOps S P}.
Variable tp : Z.
Variable makeHash : Z → Z.
Variable address_of : positive → Z.
Variable waitMutex trampoline kernelPages kernelPageTable : Z.
Variable name0 : bytes.
Variable entry_addr : Z.
Variable this : positive.
Implicit Types (s : Machine S).

Lemma keeps_with_process {A} (c : Z → Z → positive → M (IFS S) A) : keeps descriptors (with_process this c).
Proof. unfold with_process. keeps_steps. Qed.

Lemma keeps_open_inode path mode : keeps descriptors (open_inode name0 entry_addr this path mode).
Proof. unfold open_inode, plock, punlock, pput. keeps_steps; apply keeps_with_process. Qed.

(** A reference becomes the last descriptor of a process. *)
Definition pushed (p : positive) (r : option nat) (y : FileState S) (x : Proc) s : Machine S :=
  set_data (<[p := set_openFiles (openFiles x ++ [r]) x]> (data s)) (set_fstate y s).

Lemma tables_pushed p r y x s : data s !! p = Some x →
  tables (pushed p r y x s) = <[p := openFiles x ++ [r]]> (tables s).
Proof. intros _. unfold tables, pushed. simpl. by rewrite fmap_insert. Qed.

Lemma references_pushed p r y x s : data s !! p = Some x →
  references (tables (pushed p r y x s)) = own [r] ⊎ references (tables s).
Proof.
  intros Hx. rewrite (tables_pushed _ _ _ _ _ Hx), (references_change _ _ _ _ (tables_lookup _ _ _ Hx)).
  rewrite (references_split _ _ _ (tables_lookup _ _ _ Hx)), own_app.
  by rewrite (comm disj_union (own (openFiles x))), (assoc disj_union).
Qed.

Lemma push_descriptor p f s y x : counts (files y) ({[+ f +]} ⊎ references (tables s)) →
  data s !! p = Some x → counted (pushed p (Some f) y x s).
Proof. intros Hc Hx. unfold counted. by rewrite references_pushed, own_some. Qed.

Lemma preserves_open path mode : preserves (open name0 entry_addr this path mode).
Proof.
  unfold open. apply preserves_bind; [apply preserves_keeps, keeps_on_fs|]. intros _.
  apply preserves_bind; [apply preserves_keeps, keeps_open_inode|]. intros [ip|]; [|apply preserves_keeps; keeps_steps].
  apply preserves_bind; [apply preserves_keeps, keeps_on_inode|]. intros i.
  destruct (_ && _); [apply preserves_keeps; unfold punlock, pput; keeps_steps; apply keeps_with_process|].
  intros s a s' (r & s1 & (y & E1 & ->)%on_files_inv & E2)%bind_inv Hc.
  pose proof (runs_allocate (fstate s) _ Hc) as R. unfold runs in R. rewrite E1 in R.
  destruct r as [f|].
  - destruct R as (_ & _ & R). apply bind_inv in E2 as (x & s2 & [Ex ->]%get_proc_inv & E2).
    apply bind_inv in E2 as (u & s3 & (x' & Ex' & ->)%change_proc_inv & E2).
    assert (x' = x) as -> by (simpl in *; congruence).
    eapply (preserves_keeps _); [|exact E2|exact (push_descriptor this f s y x R Ex)].
    unfold punlock. keeps_steps; try apply keeps_with_process.
    apply keeps_on_files, keeps_change. intros z. unfold opened. by destruct (type (fields i) =? T_DEVICE).
  - destruct R as (-> & _). eapply (preserves_keeps _); [|exact E2|exact Hc].
    unfold punlock, pput. keeps_steps; apply keeps_with_process.
Qed.

(** A descriptor is closed. *)
Lemma close_descriptor pid s x i f u y : counted s → data s !! this = Some x →
  openFiles x !! i = Some (Some f) → File.close pid f (fstate s) = Ok (u, y) →
  counted (set_data (<[this := set_openFiles (<[i := None]> (openFiles x)) x]> (data s)) (set_fstate y s)).
Proof.
  intros Hc Hx Hi E. destruct u. pose proof (tables_lookup _ _ _ Hx) as Ht.
  assert (f ∈ references (tables s)) as Hf by (by eapply own_some_in).
  pose proof (counts_step pid 0 (λ _ _, 0) 0 _ _ _ _ (step_close pid 0 (λ _ _, 0) 0 _ _ _ f Hf E) Hc) as Hc'.
  unfold counted. change (data s) with (data (set_fstate y s)).
  rewrite (tables_change (set_fstate y s) this (λ x, set_openFiles (<[i := None]> (openFiles x)) x) x Hx).
  change (tables (set_fstate y s)) with (tables s). change (files _) with (files y).
  rewrite (references_change _ _ _ _ Ht). rewrite (references_split _ _ _ Ht), (own_insert _ _ _ Hi) in Hc'.
  cbn [openFiles set_openFiles].
  by assert (∀ A B : gmultiset nat, A ⊎ B = ({[+ f +]} ⊎ A ⊎ B) ∖ {[+ f +]}) as -> by (intros; multiset_solver).
Qed.

Lemma preserves_close fd : preserves (close this fd).
Proof.
  unfold close. intros s a s' (x & s1 & [Ex ->]%get_proc_inv & E)%bind_inv Hc.
  destruct (_ || _); [by injection E as _ <-|].
  destruct (openFiles x !! Z.to_nat fd) as [[f|]|] eqn:Ef; [|done..].
  apply bind_inv in E as (u & s1 & (y & E1 & ->)%on_files_inv & E).
  apply bind_inv in E as (u' & s2 & (x' & Ex' & ->)%change_proc_inv & E). injection E as _ <-.
  assert (x' = x) as -> by (simpl in *; congruence). by apply (close_descriptor (ppid x) s x (Z.to_nat fd) f u y).
Qed.

Lemma preserves_close_files fuel pid i s u s' : close_files this fuel pid i s = Ok (u, s') → counted s →
  (∀ x, data s !! this = Some x → own (take i (openFiles x)) = ∅) →
  counted s' ∧ ∃ x, data s' !! this = Some x ∧ own (openFiles x) = ∅.
Proof.
  revert i s; induction fuel as [|fuel IH]; intros i s E Hc Hi; cbn [close_files] in E;
    apply bind_inv in E as (x & s1 & [Ex ->]%get_proc_inv & E); specialize (Hi _ Ex);
    destruct (openFiles x !! i) as [r|] eqn:Er.
  1: done.
  1,3: injection E as _ <-; split; [done|]; exists x; split; [done|];
    apply lookup_ge_None in Er; by rewrite take_ge in Hi.
  destruct r as [f|].
  - apply bind_inv in E as (u1 & s1 & E1 & E). apply bind_inv in E1 as (u2 & s2 & (y & E2 & ->)%on_files_inv & E1).
    apply change_proc_inv in E1 as (x' & Ex' & ->). assert (x' = x) as -> by (simpl in *; congruence).
    eapply IH; [exact E|by apply (close_descriptor pid s x i f u2 y)|].
    intros x2. simpl. rewrite lookup_insert_eq. intros [= <-]. cbn [openFiles set_openFiles].
    assert (take (i + 1) (<[i:=None]> (openFiles x)) = take i (openFiles x) ++ [None]) as ->; [|by rewrite own_app, Hi].
    rewrite Nat.add_1_r, (take_S_r _ i None) by (apply list_lookup_insert_eq; by apply lookup_lt_Some in Er).
    by rewrite take_insert_ge.
  - apply bind_inv in E as (u1 & s1 & [= _ <-] & E). eapply IH; [exact E|done|].
    intros x2 Ex2. assert (x2 = x) as -> by (simpl in *; congruence). rewrite Nat.add_1_r, (take_S_r _ i None) by done.
    by rewrite own_app, Hi.
Qed.

Lemma keeps_reparent l : keeps (descriptors (S := S)) (reparent tp makeHash address_of l).
Proof. induction l; cbn [reparent]; keeps_steps. Qed.

Lemma preserves_exit status : preserves (exit tp makeHash address_of waitMutex this status).
Proof.
  unfold exit. intros s a s' (x & s1 & [Ex ->]%get_proc_inv & E)%bind_inv Hc.
  apply bind_inv in E as (u & s1 & E1 & E).
  destruct (preserves_close_files _ _ _ _ _ _ E1 Hc) as (Hc1 & x1 & Ex1 & Hown); [by intros|].
  apply bind_inv in E as (u' & s2 & (x' & Ex' & ->)%change_proc_inv & E).
  assert (x' = x1) as -> by (simpl in *; congruence).
  eapply (preserves_keeps _); [|exact E|].
  - unfold pput. keeps_steps; try apply keeps_with_process; apply keeps_reparent.
  - unfold counted in *. rewrite (tables_change s1 this (set_openFiles []) x1 Ex1).
    rewrite (references_change _ _ _ _ (tables_lookup _ _ _ Ex1)).
    rewrite (references_split _ _ _ (tables_lookup _ _ _ Ex1)) in Hc1.
    cbn [openFiles set_openFiles]. by rewrite Hown in Hc1.
Qed.

Lemma keeps_wait_loop fuel i address : keeps (descriptors (S := S)) (wait_loop tp this fuel i address).
Proof. revert i; induction fuel; intros i; cbn [wait_loop]; keeps_steps. Qed.

Lemma keeps_wait address : keeps (descriptors (S := S)) (wait tp address_of waitMutex this address).
Proof. unfold wait. keeps_steps; apply keeps_wait_loop. Qed.

Lemma keeps_growMemory size : keeps (descriptors (S := S)) (growMemory kernelPages this size).
Proof. unfold growMemory. keeps_steps. Qed.

End process_steps.

Section fork_steps.
Context {S : Type}.
Variable tp : Z.
Variable makeHash : Z → Z.
Variable waitMutex trampoline kernelPageTable : Z.
Variable this : positive.
Implicit Types (s : Machine S).

Lemma keeps_inv {A B} (c : M (Machine S) A) (k : A → M (Machine S) B) s r :
  (c ≫= k) s = Ok r → keeps descriptors c → ∃ a s', descriptors s' = descriptors s ∧ k a s' = Ok r.
Proof. intros (a & s' & E1 & E2)%bind_inv Hk. exists a, s'. split; [exact (Hk _ _ _ E1)|done]. Qed.

(** [construct] adds a process without descriptors. *)
Lemma construct_inv s p s' : construct trampoline kernelPageTable s = Ok (p, s') →
  ∃ s1 x, descriptors s1 = descriptors s ∧ data s1 !! p = None ∧ openFiles x = [] ∧
    s' = set_data (<[p := x]> (data s1)) s1.
Proof.
  intros E. unfold construct, makePageTable in E.
  repeat (lazymatch type of E with
    | mbind _ (@gets _ positive _) _ = _ => fail
    | _ => apply keeps_inv in E as (? & ? & ? & E); [|solve [keeps_steps | by apply keeps_modify]]
    end).
  apply bind_inv in E as (q & s1 & [= <- <-] & E). injection E as <- <-.
  match goal with |- context [set_data _ ?s1] => exists s1 end. eexists. split; [congruence|].
  split; [|by split; [|reflexivity]]. apply not_elem_of_dom.
  match goal with |- context [fresh ?A] => pose proof (is_fresh A); set_solver end.
Qed.

Lemma construct_counted s p s' : construct trampoline kernelPageTable s = Ok (p, s') → counted s →
  counted s' ∧ tables s !! p = None ∧ tables s' = <[p := []]> (tables s).
Proof.
  intros (s0 & z & D & Hp & Hz & ->)%construct_inv Hc.
  pose proof (f_equal snd D) as Ht. change (tables s0 = tables s) in Ht.
  assert (tables (set_data (<[p := z]> (data s0)) s0) = <[p := []]> (tables s)) as Ht1.
  { unfold tables. simpl. rewrite fmap_insert, Hz. change (openFiles <$> data s0) with (tables s0). by rewrite Ht. }
  assert (tables s !! p = None) as Hpn by (rewrite <- Ht; unfold tables; by rewrite lookup_fmap, Hp).
  split_and!; [|done|done]. unfold counted. rewrite Ht1, references_new by done.
  rewrite own_nil, (left_id ∅ disj_union), <- Ht. assert (counted s0) as Hc0 by (by eapply counted_eq). exact Hc0.
Qed.

(** The loop of [fork]: the descriptors are copied, each file counts one more. *)
Lemma dup_files_spec l p s u s' lt lp : dup_files l p s = Ok (u, s') → counted s →
  tables s !! this = Some lt → tables s !! p = Some lp → this ≠ p → own l ⊆ own lt →
  Z.of_nat (stdpp.base.size (references (tables s)) + stdpp.base.size (own l)) < 2 ^ 32 →
  counted s' ∧ tables s' = <[p := lp ++ l]> (tables s).
Proof.
  revert s lp. induction l as [|r l IH]; intros s lp E Hc Ht Hp Hne Hsub Hsz; cbn [dup_files] in E.
  { injection E as _ <-. split; [done|]. by rewrite app_nil_r, insert_id. }
  change (r :: l) with ([r] ++ l) in *. rewrite own_app in Hsub, Hsz. destruct r as [f|].
  - rewrite own_some in Hsub, Hsz. apply bind_inv in E as (f' & s1 & (y & E1 & ->)%on_files_inv & E).
    apply bind_inv in E as (u1 & s2 & (x & Ex & ->)%change_proc_inv & E). simpl in Ex.
    assert (openFiles x = lp) as Hx by (apply tables_lookup in Ex; simpl in Ex; congruence).
    rewrite gmultiset_size_disj_union, gmultiset_size_singleton in Hsz.
    assert (f ∈ references (tables s)) as Hf.
    { rewrite (references_split _ _ _ Ht). apply gmultiset_elem_of_disj_union. left.
      eapply gmultiset_elem_of_subseteq; [|exact Hsub]. apply gmultiset_elem_of_disj_union. left.
      by apply gmultiset_elem_of_singleton. }
    pose proof (multiplicity_size f (references (tables s))) as Hmult.
    pose proof (runs_dup (fstate s) _ f Hc Hf) as R. unfold runs in R. rewrite E1 in R.
    destruct R as (-> & Hc'); [lia|]. subst lp.
    change (dup_files l p (pushed p (Some f) y x s) = Ok (u, s')) in E.
    apply (IH _ (openFiles x ++ [Some f])) in E.
    + destruct E as (Hc2 & ->). split; [done|].
      rewrite tables_pushed by done. by rewrite insert_insert_eq, <- app_assoc.
    + by apply push_descriptor.
    + rewrite tables_pushed by done. by rewrite lookup_insert_ne.
    + rewrite tables_pushed by done. by rewrite lookup_insert_eq.
    + done.
    + etrans; [apply gmultiset_disj_union_subseteq_r|exact Hsub].
    + rewrite references_pushed, own_some by done. rewrite gmultiset_size_disj_union, gmultiset_size_singleton. lia.
  - rewrite own_none in Hsub, Hsz. rewrite (left_id ∅ disj_union) in Hsub, Hsz.
    apply bind_inv in E as (u1 & s2 & (x & Ex & ->)%change_proc_inv & E).
    assert (openFiles x = lp) as <- by (apply tables_lookup in Ex; congruence).
    change (dup_files l p (pushed p None (fstate s) x s) = Ok (u, s')) in E.
    assert (references (tables (pushed p None (fstate s) x s)) = references (tables s)) as Er
      by (rewrite references_pushed by done; apply (left_id ∅ disj_union)).
    apply (IH _ (openFiles x ++ [None])) in E.
    + destruct E as (Hc2 & ->). split; [done|].
      rewrite tables_pushed by done. by rewrite insert_insert_eq, <- app_assoc.
    + unfold counted. by rewrite Er.
    + rewrite tables_pushed by done. by rewrite lookup_insert_ne.
    + rewrite tables_pushed by done. by rewrite lookup_insert_eq.
    + done.
    + done.
    + by rewrite Er.
Qed.

(** [fork]: the child has the descriptors of its parent. *)
Lemma fork_spec s p s' :
  fork tp makeHash waitMutex trampoline kernelPageTable this s = Ok (p, s') → is_Some (data s !! this) → counted s →
  2 * Z.of_nat (stdpp.base.size (references (tables s))) < 2 ^ 32 →
  counted s' ∧ ∃ l, tables s !! this = Some l ∧ tables s !! p = None ∧ tables s' = <[p := l]> (tables s).
Proof.
  unfold fork. intros (p' & s1 & E1 & E)%bind_inv [x0 Hx0%tables_lookup] Hc Hsz.
  destruct (construct_counted s p' s1 E1 Hc) as (Hc1 & Hpn & Ht1).
  apply bind_inv in E as (x & s2 & [Ex ->]%get_proc_inv & E).
  apply bind_inv in E as (y & s2 & [Ey ->]%get_proc_inv & E).
  apply tables_lookup in Ex as Ext. rewrite Ht1 in Ext.
  assert (this ≠ p') as Hne by congruence. rewrite lookup_insert_ne in Ext by done.
  do 4 (apply keeps_inv in E as (? & ? & ? & E); [|solve [unfold set_tf; keeps_steps]]).
  apply bind_inv in E as (u & s2 & E2 & E).
  match type of E2 with dup_files _ _ ?y = _ => assert (descriptors y = descriptors s1) as Dy by congruence; set (s3 := y) in * end.
  pose proof (f_equal snd Dy) as Hty. change (tables s3 = tables s1) in Hty. rewrite Ht1 in Hty.
  apply (dup_files_spec _ _ _ _ _ (openFiles x) []) in E2; try done.
  - destruct E2 as (Hc2 & Ht2). rewrite Hty, insert_insert_eq in Ht2.
    repeat (apply keeps_inv in E as (? & ? & ? & E); [|solve [keeps_steps | apply keeps_with_process]]).
    injection E as <- <-.
    match goal with |- counted ?y ∧ _ => assert (descriptors y = descriptors s2) as D2 by congruence end.
    split; [by eapply counted_eq|]. exists (openFiles x). split_and!; [done|done|].
    pose proof (f_equal snd D2) as Ht3. etrans; [exact Ht3|exact Ht2].
  - by eapply counted_eq.
  - rewrite Hty. by rewrite lookup_insert_ne.
  - rewrite Hty. by rewrite lookup_insert_eq.
  - rewrite Hty, references_new, own_nil, (left_id ∅ disj_union) by done.
    assert (stdpp.base.size (own (openFiles x)) ≤ stdpp.base.size (references (tables s)))%nat; [|lia].
    apply gmultiset_subseteq_size. rewrite (references_split _ _ _ Ext). apply gmultiset_disj_union_subseteq_l.
Qed.

(** The first process has no descriptors. *)
Lemma preserves_start `{BufferOps S P} (uart_device : list access → Z → Z) polls name0 entry_addr code :
  preserves (startUserInitProcess uart_device polls tp makeHash trampoline kernelPageTable name0 entry_addr code).
Proof.
  unfold startUserInitProcess. intros s a s' (p & s1 & E1 & E)%bind_inv Hc.
  apply construct_counted in E1 as (Hc1 & _); [|done]. eapply (preserves_keeps _); [|exact E|exact Hc1].
  unfold set_tf. keeps_steps; [apply keeps_modify; done|apply keeps_on_files, keeps_on_console].
Qed.
End fork_steps.

(** *** A concrete machine, for the witnesses

    One process, whose working directory is an inode with an ELF header without
    program headers in its first block, and 64 pages of memory. *)

Definition demo_elf : bytes :=
  put_bytes (replicate 1024 0) 0 ([0x7f; 69; 76; 70] ++ replicate 20 0 ++ [0x40; 1] ++ replicate 38 0).

Definition demo_memory : KMem := foldr push_free (mkKMem ∅ 0 0x41000) (pages_from 64 0x1000).

Definition demo_program : Inode :=
  mkInode 1 1 1 SleepMutex.unlocked true (mkDiskInode T_FILE 0 0 1 64 (60 :: replicate 11 0) 0).

Definition demo_disk : IFS BufferCache :=
  mkIFS (mkFS (initializeBufferCache {[60 := demo_elf]} 1) demo_super
      (mkLog 2 40 0 false 1 (mkLogHeader 0 (replicate 30 0))) [])
    (HashMap.make 8) {[1%positive := demo_program]} demo_memory.

Definition demo_proc : Proc :=
  mkProc 1 None [] 0x100000 0x101000 0x102000 0x200000 0 (Some 1%positive) [] (replicate 16 0) 0.

Definition demo_machine : Machine BufferCache :=
  mkMachine (demo_files demo_disk)
    (Scheduler.set_procs {[1%positive := Scheduler.new_process]} (Scheduler.boot 1))
    {[1%positive := demo_proc]} 2 (Some 1%positive).

Lemma demo_machine_counted : counted demo_machine.
Proof. exact counts_initial. Qed.

(** [demo_machine] behind the opening of the working directory. *)
Definition demo_opened : Machine BufferCache :=
  match open (replicate 14 0) 0x400000 1 [] O_RDONLY demo_machine with
  | Ok (_, s) => s
  | Err _ => demo_machine
  end.

Lemma demo_opened_counted : counted demo_opened.
Proof.
  assert (fst <$> result_value (open (replicate 14 0) 0x400000 1 [] O_RDONLY demo_machine) = Some 0) as E
    by by vm_compute.
  revert E. destruct (open (replicate 14 0) 0x400000 1 [] O_RDONLY demo_machine) as [[r s]|] eqn:Eo; intros E; [|discriminate E].
  assert (demo_opened = s) as -> by (unfold demo_opened; by rewrite Eo).
  by eapply preserves_open, demo_machine_counted.
Qed.

(** ** Properties *)

(** [fork] duplicates the descriptors.  When [fork] returns, the child is a
    process that did not exist before, its descriptors are those of the parent in
    the same places (the closed ones included), the descriptors of the other
    processes are unchanged, and every open file again counts the descriptors of
    all processes that name it. *)
Theorem fork_duplicates_descriptors {S : Type} (tp : Z) (makeHash : Z → Z)
    (waitMutex trampoline kernelPageTable : Z) (this p : positive) (s s' : Machine S)
    (Hthis : is_Some (data s !! this)) (Hcounted : counted s)
    (Hsize : 2 * Z.of_nat (stdpp.base.size (references (tables s))) < 2 ^ 32)
    (Hfork : fork tp makeHash waitMutex trampoline kernelPageTable this s = Ok (p, s')) :
  data s !! p = None ∧ counted s' ∧
  ∀ q, tables s' !! q = if decide (q = p) then tables s !! this else tables s !! q.
Proof.
  destruct (fork_spec tp makeHash waitMutex trampoline kernelPageTable this s p s' Hfork Hthis Hcounted Hsize)
    as (Hc & l & Hl & Hp & Ht).
  split_and!; [|done|].
  - unfold tables in Hp. rewrite lookup_fmap in Hp. by destruct (data s !! p).
  - intros q. rewrite Ht. destruct (decide (q = p)) as [->|]; [by rewrite lookup_insert_eq|by rewrite lookup_insert_ne].
Qed.

(** The process opens its working directory and forks. *)
Lemma fork_duplicates_descriptors_witness : ∃ s',
  fork 0 Z.abs 0x500000 0x300000 0x103000 1 demo_opened = Ok (2%positive, s') ∧
  tables s' !! 2%positive = Some [Some 0%nat].
Proof.
  assert (is_Some (data demo_opened !! 1%positive)) as Hthis by (eexists; by vm_compute).
  assert (2 * Z.of_nat (stdpp.base.size (references (tables demo_opened))) < 2 ^ 32) as Hsize by by vm_compute.
  assert (tables demo_opened !! 1%positive = Some [Some 0%nat]) as Ht1 by by vm_compute.
  assert (fst <$> result_value (fork 0 Z.abs 0x500000 0x300000 0x103000 1 demo_opened) = Some 2%positive) as Ep
    by by vm_compute.
  revert Ep. destruct (fork 0 Z.abs 0x500000 0x300000 0x103000 1 demo_opened) as [[p s']|] eqn:Ef; [|done].
  intros [= ->]. exists s'. split; [reflexivity|].
  destruct (fork_duplicates_descriptors 0 Z.abs 0x500000 0x300000 0x103000 1 2 demo_opened s'
    Hthis demo_opened_counted Hsize Ef) as (_ & _ & Ht).
  by rewrite Ht, decide_True.
Defined.

End Process.
