(* ===== verification/Exec.v ===== *)
(** * Program loading

    [kernel/elf/elf.h], [exec.h] and [exec.cpp]: the ELF headers, the loading of
    the segments of a program into a new page table, the stack with the arguments,
    and the replacement of the memory of the current process.  [argv] is the array
    of the pointers to the arguments in the kernel's memory; the path is the bytes
    before its NUL.  The locals [elfHeader] and [progHeader] are on the kernel's
    stack, at addresses that are parameters. *)

From S2P Require Import Prelude CString HashMap Address Page PageTable Uvm Console Buffer FsState Log Inode File Scheduler Process.
Import CString Address Page PageTable Uvm Buffer FsState Log Inode File Process.

#[local] Open Scope Z_scope.

Module Exec.

(** ** Definitions *)

Definition ELF_MAGIC : Z := 0x464C457F.
Definition ELF_PROG_LOAD : Z := 1.
Definition MAX_ARGS : Z := 32.

(** [sizeof(ElfHeader)] and the offsets of the members the code uses. *)
Definition ELF_HEADER_SIZE : Z := 64.
Definition eh_magic : Z := 0.
Definition eh_entry : Z := 24.
Definition eh_phoff : Z := 32.
Definition eh_phnum : Z := 56.

(** [sizeof(ProgramHeader)], likewise. *)
Definition PROGRAM_HEADER_SIZE : Z := 56.
Definition ph_type : Z := 0.
Definition ph_flags : Z := 4.
Definition ph_off : Z := 8.
Definition ph_vaddr : Z := 16.
Definition ph_filesz : Z := 32.
Definition ph_memsz : Z := 40.

Definition flagsToPerm (flags : Z) : Z :=
  let perm := if negb (Z.land flags 0x1 =? 0) then PTE_X else 0 in
  if negb (Z.land flags 0x2 =? 0) then Z.lor perm PTE_W else perm.

(** The bytes of an array of 64-bit words. *)
Definition array64 (l : list Z) : bytes := concat ((λ x, stN 8 (replicate 8 0) 0 x) <$> l).

(** The characters of a path behind its last slash. *)
Fixpoint last_element (last s : bytes) : bytes :=
  match s with
  | [] => last
  | c :: s' => last_element (if c =? 47 then s' else last) s'
  end.

Section operations.
Context {S P : Type} `{BufferOps S P}.
Variable trampoline kernelPages : Z.
Variable name0 : bytes.
(** The stack addresses of the local [entry] of the directory operations, and of
    the locals [elfHeader] and [progHeader]. *)
Variable entry_addr elf_addr prog_addr : Z.
Variable this : positive.

(** A member of one of the local structures. *)
Definition get64 (a : Z) : M (Machine S) Z := on_mem (gets (λ m, ld64 (kmem m) a)).
Definition get32 (a : Z) : M (Machine S) Z := on_mem (gets (λ m, ld32 (kmem m) a)).
Definition get16 (a : Z) : M (Machine S) Z := on_mem (gets (λ m, ld16 (kmem m) a)).

(** [ip->read(false, dst, offset, n)]; the offset and the count are converted to
    [uint32_t], and the result is compared as a [size_t]. *)
Definition read_kernel (ip : positive) (dst offset n : Z) : M (Machine S) Z :=
  len ← with_process this (λ _ pt _, iread pt ip false dst (u32 offset) (u32 n));
  mret (u64 len).

(** The loop of [loadSegment] from [i] on. *)
Fixpoint load_loop (fuel : nat) (pageTable va : Z) (ip : positive) (offset size i : Z) : M (Machine S) bool :=
  if i <? size then
    match fuel with
    | O => fail NoFuel
    | Datatypes.S fuel' =>
        pa ← on_mem (walkAddress pageTable (u64 (va + i)));
        assert (negb (pa =? 0)) ;;
        let n := if size - i <? PAGE_SIZE then size - i else PAGE_SIZE in
        len ← read_kernel ip pa (u64 (offset + i)) n;
        if negb (len =? n) then mret false
        else load_loop fuel' pageTable va ip offset size (u64 (i + PAGE_SIZE))
    end
  else mret true.

Definition loadSegment (pageTable va : Z) (ip : positive) (offset size : Z) : M (Machine S) bool :=
  load_loop (Z.to_nat (size / PAGE_SIZE + 1)) pageTable va ip offset size 0.

(** One program header, in [progHeader]: the new size, or [None] for [bad]. *)
Definition load_header (pageTable : Z) (ip : positive) (size : Z) : M (Machine S) (option Z) :=
  ty ← get32 (prog_addr + ph_type);
  if negb (ty =? ELF_PROG_LOAD) then mret (Some size)
  else
    memsz ← get64 (prog_addr + ph_memsz);
    filesz ← get64 (prog_addr + ph_filesz);
    vaddr ← get64 (prog_addr + ph_vaddr);
    if memsz <? filesz then mret None
    else if u64 (vaddr + memsz) <? vaddr then mret None
    else if negb (vaddr mod PAGE_SIZE =? 0) then mret None
    else
      fl ← get32 (prog_addr + ph_flags);
      size ← on_mem (allocateUserVirtualMemory kernelPages pageTable size (u64 (vaddr + memsz)) (flagsToPerm fl));
      if size =? 0 then mret None
      else
        off ← get64 (prog_addr + ph_off);
        res ← loadSegment pageTable vaddr ip off filesz;
        mret (if res : bool then Some size else None).

(** The loop over the program headers; [phnum] is a 16-bit member. *)
Fixpoint headers_loop (fuel : nat) (pageTable : Z) (ip : positive) (i offset size : Z) : M (Machine S) (option Z) :=
  phnum ← get16 (elf_addr + eh_phnum);
  if i <? phnum then
    match fuel with
    | O => fail NoFuel
    | Datatypes.S fuel' =>
        len ← read_kernel ip prog_addr offset PROGRAM_HEADER_SIZE;
        if negb (len =? PROGRAM_HEADER_SIZE) then mret None
        else
          r ← load_header pageTable ip size;
          match r with
          | None => mret None
          | Some size => headers_loop fuel' pageTable ip (i + 1) (u64 (offset + PROGRAM_HEADER_SIZE)) size
          end
    end
  else mret (Some size).

(** [exec] from the ELF header to the last segment. *)
Definition load_program (pageTable : Z) (ip : positive) : M (Machine S) (option Z) :=
  len ← read_kernel ip elf_addr 0 ELF_HEADER_SIZE;
  if negb (len =? ELF_HEADER_SIZE) then mret None
  else
    magic ← get32 (elf_addr + eh_magic);
    if negb (magic =? ELF_MAGIC) then mret None
    else
      phoff ← get64 (elf_addr + eh_phoff);
      headers_loop (Z.to_nat (2 ^ 16)) pageTable ip 0 phoff 0.

(** The string at a kernel address, with its NUL; [strlen] takes at most a page. *)
Definition kernel_string (a : Z) : M (Machine S) bytes :=
  len ← on_mem (gets (λ m, strlen (Z.to_nat PAGE_SIZE) (kmem m) a));
  match len with
  | None => fail NoFuel
  | Some len => on_mem (gets (λ m, get_bytes (Z.to_nat (len + 1)) (kmem m) a))
  end.

(** The loop over [argv]: the stack pointer and [ustack], or [None] for [bad]. *)
Fixpoint push_args (pageTable stackBase : Z) (argv : list Z) (sp : Z) (ustack : list Z) :
    M (Machine S) (option (Z * list Z)) :=
  match argv with
  | [] => fail OutOfRange
  | a :: argv' =>
      if a =? 0 then mret (Some (sp, ustack))
      else if MAX_ARGS <=? Z.of_nat (length ustack) then mret None
      else
        arg ← kernel_string a;
        let sp := u64 (sp - Z.of_nat (length arg)) in
        let sp := u64 (sp - sp mod 16) in
        if sp <? stackBase then mret None
        else
          ok ← on_mem (copyout pageTable sp arg);
          if negb ok then mret None else push_args pageTable stackBase argv' sp (ustack ++ [sp])
  end.

(** [exec] from the initialisation of [sp] to the copy of [ustack]: the stack
    pointer and [argc]. *)
Definition argument_stack (pageTable size : Z) (argv : list Z) : M (Machine S) (option (Z * Z)) :=
  let stackBase := u64 (size - PAGE_SIZE) in
  r ← push_args pageTable stackBase argv size [];
  match r with
  | None => mret None
  | Some (sp, ustack) =>
      let argc := Z.of_nat (length ustack) in
      if MAX_ARGS <=? argc then fail OutOfRange
      else
        let sp := u64 (sp - (argc + 1) * 8) in
        let sp := u64 (sp - sp mod 16) in
        if sp <? stackBase then mret None
        else
          ok ← on_mem (copyout pageTable sp (array64 (ustack ++ [0])));
          mret (if ok : bool then Some (sp, argc) else None)
  end.

(** The allocation of the stack, two pages of which the lower one is a guard,
    and the arguments: the size, the stack pointer and [argc]. *)
Definition make_stack (pageTable size : Z) (argv : list Z) : M (Machine S) (option (Z * Z * Z)) :=
  let size := roundUp size in
  allocSize ← on_mem (allocateUserVirtualMemory kernelPages pageTable size (u64 (size + PAGE_SIZE * 2)) PTE_W);
  if allocSize =? 0 then mret None
  else
    let size := allocSize in
    on_mem (clearUserVirtualMemory pageTable (u64 (size - PAGE_SIZE * 2))) ;;
    r ← argument_stack pageTable size argv;
    mret (match r with Some (sp, argc) => Some (size, sp, argc) | None => None end).

(** [exec] from the store to [a1] on: the process gets the new program. *)
Definition replace_program (path : bytes) (tf pageTable size sp : Z) : M (Machine S) unit :=
  set_tf tf (tf_a 1) sp ;;
  change_proc this (λ x, set_pname (strncpy (pname x) 0 (last_element path path) 0 16) x) ;;
  change_proc this (set_pageTable pageTable) ;;
  change_proc this (set_memorySize size) ;;
  entry ← get64 (elf_addr + eh_entry);
  set_tf tf tf_epc entry ;;
  set_tf tf tf_sp sp.

(** [exec]; deleting a page table does nothing. *)
Definition exec (path : bytes) (argv : list Z) : M (Machine S) Z :=
  on_fs beginOp ;;
  r ← with_process this (λ pid pt dir, iopen pid dir pt entry_addr path false name0);
  match fst r with
  | None => on_fs endOp ;; mret (-1)
  | Some ip =>
      plock this ip ;;
      x ← get_proc this;
      pageTable ← makePageTable trampoline (trapFrame x);
      size ← load_program pageTable ip;
      punlock this ip ;; pput this ip ;; on_fs endOp ;;
      match size with
      | None => mret (-1)
      | Some size =>
          r ← make_stack pageTable size argv;
          match r with
          | None => mret (-1)
          | Some (size, sp, argc) =>
              replace_program path (trapFrame x) pageTable size sp ;;
              mret argc
          end
      end
  end.
End operations.

(** ** The arguments on the stack

    Where the arguments go: below each other, with their NULs, each at a multiple
    of 16; [None] when one would start below [base]. *)

Definition place (base sp n : Z) : option Z :=
  let sp := sp - n - (sp - n) mod 16 in if sp <? base then None else Some sp.

Fixpoint places (base sp : Z) (args : list bytes) : option (list Z) :=
  match args with
  | [] => Some []
  | arg :: args' =>
      p ← place base sp (Z.of_nat (length arg) + 1);
      ps ← places base p args';
      Some (p :: ps)
  end.

(** The places of the arguments and of [ustack]. *)
Definition stack_layout (base size : Z) (args : list bytes) : option (list Z * Z) :=
  ps ← places base size args;
  sp ← place base (default size (last ps)) ((Z.of_nat (length args) + 1) * 8);
  Some (ps, sp).

Lemma array64_cons x l : array64 (x :: l) = stN 8 (replicate 8 0) 0 x ++ array64 l.
Proof. done. Qed.

Lemma length_array64 l : length (array64 l) = (8 * length l)%nat.
Proof. induction l as [|x l IH]; [done|]. rewrite array64_cons, length_app, IH. simpl. lia. Qed.

Lemma array64_bytes l : Forall (λ x, 0 <= x < 256) (array64 l).
Proof.
  induction l as [|x l IH]; [constructor|]. rewrite array64_cons. apply Forall_app. split; [|done].
  cbn. repeat constructor; apply Z.mod_pos_bound; lia.
Qed.

Lemma place_range base sp n p : place base sp n = Some p → 0 < n → base <= p ∧ p + n <= sp ∧ p mod 16 = 0.
Proof.
  unfold place. destruct (Z.ltb_spec (sp - n - (sp - n) mod 16) base) as [|Hb]; [done|]. intros [= <-] Hn.
  split_and!; [done|dlia|dlia].
Qed.

(** The machine's arithmetic, on a stack at least a page above zero. *)
Lemma place_machine base sp n : 4096 <= base → sp < 2 ^ 64 → base <= sp → 0 < n <= 4096 →
  let p := u64 (u64 (sp - n) - u64 (sp - n) mod 16) in
  place base sp n = if p <? base then None else Some p.
Proof.
  intros Hb Hs Hbs Hn. unfold place. rewrite (wrap_small 64 (sp - n)) by lia.
  rewrite wrap_small by dlia. done.
Qed.

Lemma cstr_bytes {T} `{ByteStore T} (t : T) a arg : cstr t a arg →
  get_bytes (length arg + 1) t a = arg ++ [0].
Proof.
  intros [Hin Hz]. apply list_eq. intros i. destruct (decide (i < length arg + 1)%nat) as [Hi|Hi].
  - rewrite lookup_get_bytes by done. destruct (decide (i = length arg)) as [->|Hne].
    + by rewrite lookup_app_r, Nat.sub_diag, Hz by lia.
    + destruct (lookup_lt_is_Some_2 arg i) as [c Hc]; [lia|]. rewrite lookup_app_l, Hc by lia.
      by destruct (Hin i c Hc) as [-> _].
  - rewrite !lookup_ge_None_2; [done|rewrite length_app; simpl; lia|rewrite length_get_bytes; lia].
Qed.

Section memory.
Context {S : Type}.
Implicit Types (s : Machine S).

Definition kern s : KMem := kernel (ifs (fstate s)).

Definition set_kern (m : KMem) s : Machine S :=
  let y := ifs (fstate s) in set_fstate (set_ifs (mkIFS (base y) (inodes y) (cells y) m) (fstate s)) s.

Lemma set_kern_id s : set_kern (kern s) s = s.
Proof. by destruct s as [[[] ? ? ?] ? ? ? ?]. Qed.

Lemma runs_on_mem {A} (c : M KMem A) s (Q : A → Machine S → Prop) :
  runs c (kern s) (λ a m, Q a (set_kern m s)) → runs (on_mem c) s Q.
Proof.
  unfold runs, on_mem, on_files, on_ifs, on_kernel, kern. by destruct (c _) as [[a m]|].
Qed.

Lemma runs_on_mem_gets {A} (f : KMem → A) s (Q : A → Machine S → Prop) :
  Q (f (kern s)) s → runs (on_mem (gets f)) s Q.
Proof. intros HQ. apply runs_on_mem. runs_step. by rewrite set_kern_id. Qed.

(** A string of the kernel, of less than a page. *)
Lemma runs_kernel_string a arg s (Q : bytes → Machine S → Prop) :
  cstr (kmem (kern s)) a arg → (length arg < 4096)%nat → Q (arg ++ [0]) s → runs (kernel_string a) s Q.
Proof.
  intros Hc Hl HQ. unfold kernel_string. runs_step. apply runs_on_mem_gets.
  unfold strlen. rewrite (strlen_loop_cstr _ _ _ arg) by (done || (unfold PAGE_SIZE; lia)). simpl.
  replace (a + Z.of_nat (length arg) - a) with (Z.of_nat (length arg)) by lia.
  apply runs_on_mem_gets.
  replace (Z.to_nat (Z.of_nat (length arg) + 1)) with (length arg + 1)%nat by lia.
  by rewrite (cstr_bytes _ _ _ Hc).
Qed.
End memory.

Section stack.
Variable kernelPages : Z.
Context (N : gmap (list Z) Z) (l : list Z) (root : Z).
Hypothesis Hroot : N !! [] = Some root.
Implicit Types (m : KMem) (args : list bytes).

(** The memory of a stack: [base] to [size] are mapped user pages. *)
Record stack_mem m (base size : Z) : Prop := {
  sm_wf : PageTable.wf kernelPages m N l;
  sm_sep : separated m N l;
  sm_mapped : ∀ va, base <= va < size → is_Some (user_pa (kmem m) N va);
  sm_range : 4096 <= base ∧ size <= base + 4096 ∧ size < 2 ^ 64;
}.

(** A string of the kernel's, which no user address denotes. *)
Record kernel_arg m (a : Z) (arg : bytes) : Prop := {
  ka_ptr : a ≠ 0;
  ka_string : cstr (kmem m) a arg;
  ka_length : (length arg < 4096)%nat;
  ka_private : ∀ i va, 0 <= i <= Z.of_nat (length arg) → user_pa (kmem m) N va ≠ Some (a + i);
}.

(** [m'] differs from [m] in the user addresses from [base] to [sp]. *)
Record written m m' (base sp : Z) : Prop := {
  wr_wf : PageTable.wf kernelPages m' N l;
  wr_mapping : ∀ va, mapping (kmem m') N va = mapping (kmem m) N va;
  wr_out : ∀ a, (∀ va, base <= va < sp → user_pa (kmem m) N va ≠ Some a) → ld8 (kmem m') a = ld8 (kmem m) a;
}.

Lemma written_refl m base sp : PageTable.wf kernelPages m N l → written m m base sp.
Proof. by split. Qed.

Lemma stack_written_trans m m1 m2 base sp1 sp : sp1 <= sp →
  written m m1 base sp → written m1 m2 base sp1 → written m m2 base sp.
Proof.
  intros Hle [W1 M1 O1] [W2 M2 O2]. split; [done|by intros; rewrite M2|].
  intros a Ha. rewrite O2, O1; [done|done|]. intros va Hva. rewrite (user_pa_ext _ _ _ _ M1). apply Ha. lia.
Qed.

Lemma stack_mem_written m m' base sp size : written m m' base sp → stack_mem m base size → stack_mem m' base size.
Proof.
  intros [W M O] [Hw Hs Hm Hr]. split; [done|by apply (separated_ext m)| |done].
  intros va Hva. rewrite (user_pa_ext _ _ _ _ M). by apply Hm.
Qed.

Lemma kernel_arg_written m m' base sp a arg : written m m' base sp → kernel_arg m a arg → kernel_arg m' a arg.
Proof.
  intros [W M O] [Hp Hs Hl Hpr]. split; [done| |done|].
  - destruct Hs as [Hin Hz]. split.
    + intros i c Hc. rewrite O; [by apply Hin|]. intros va _. apply Hpr. apply lookup_lt_Some in Hc. lia.
    + rewrite O; [done|]. intros va _. apply Hpr. lia.
  - intros i va Hi. rewrite (user_pa_ext _ _ _ _ M). by apply Hpr.
Qed.

(** What is above the written part stays. *)
Lemma user_read_written m m' base sp size va n bs : written m m' base sp → stack_mem m base size →
  sp <= va → user_read n (kmem m) N va = Some bs → user_read n (kmem m') N va = Some bs.
Proof.
  intros [W M O] Hs Hva. revert va bs Hva. induction n as [|n IH]; intros va bs Hva; cbn [user_read]; [done|].
  rewrite (user_pa_ext _ _ _ _ M). destruct (user_pa (kmem m) N va) as [pa|] eqn:E; [|done]. simpl.
  destruct (user_read n (kmem m) N (va + 1)) as [bs'|] eqn:E'; [|done]. simpl.
  rewrite (IH (va + 1) bs') by (done || lia). simpl. rewrite O; [done|].
  intros va' Hva' E2. pose proof (sep_inj _ _ _ (sm_sep _ _ _ Hs) _ _ _ E E2). lia.
Qed.

(** [copyout] into the stack. *)
Lemma copyout_stack m base size sp bs : stack_mem m base size → base <= sp →
  sp + Z.of_nat (length bs) <= size → Forall (λ x, 0 <= x < 256) bs →
  runs (copyout root sp bs) m (λ ok m', ok = true ∧ written m m' base (sp + Z.of_nat (length bs)) ∧
    user_read (length bs) (kmem m') N sp = Some bs).
Proof.
  intros [Hw Hs Hm Hr] Hb Hsz Hbytes.
  destruct (copyout_loop_spec kernelPages (length bs) m N l root sp bs) as (m' & E & Hw' & [Mm Hin Hout]);
    [done|done|done|lia|done|intros i Hi; apply Hm; lia|].
  unfold runs, copyout. rewrite E. split_and!; [done|split; [done|done|]|].
  - intros a Ha. apply Hout. intros i Hi. apply Ha. lia.
  - apply user_read_bytes. intros i x Hx. pose proof (lookup_lt_Some _ _ _ Hx) as Hi.
    destruct (Hm (sp + Z.of_nat i)) as [pa Hpa]; [lia|].
    exists pa. rewrite (user_pa_ext _ _ _ _ Mm). split; [done|].
    rewrite (Hin (Z.of_nat i) pa) by (done || lia). rewrite Nat2Z.id, Hx. simpl.
    rewrite Forall_lookup in Hbytes. apply Z.mod_small. by apply (Hbytes i).
Qed.

(** The arguments are on the stack, each with its NUL. *)
Definition on_stack m (ps : list Z) args : Prop :=
  Forall2 (λ p arg, user_read (length arg + 1) (kmem m) N p = Some (arg ++ [0])) ps args.

Lemma on_stack_written m m' base sp size ps args : written m m' base sp → stack_mem m base size →
  Forall (λ p, sp <= p) ps → on_stack m ps args → on_stack m' ps args.
Proof.
  intros W Hs Hps Hon. induction Hon as [|p arg ps args R _ IH]; [constructor|].
  apply Forall_cons in Hps as [Hp Hps]. constructor; [by eapply user_read_written|by apply IH].
Qed.

Lemma arg_bytes m a arg : kernel_arg m a arg → Forall (λ x, 0 <= x < 256) (arg ++ [0]).
Proof.
  intros [_ [Hin _] _ _]. apply Forall_app. split; [|by repeat constructor].
  apply Forall_lookup. intros i c Hc. destruct (Hin i c Hc) as [<- _]. apply ld8_byte.
Qed.

Section machine.
Context {S : Type}.
Implicit Types (s : Machine S).

Lemma runs_push_args base size args argv rest sp ustack s :
  stack_mem (kern s) base size → base <= sp <= size → Forall2 (kernel_arg (kern s)) argv args →
  Z.of_nat (length ustack + length args) <= MAX_ARGS →
  runs (push_args root base (argv ++ 0 :: rest) sp ustack) s (λ r s', ∃ m', s' = set_kern m' s ∧
    written (kern s) m' base sp ∧
    match places base sp args with
    | None => r = None
    | Some ps => r = Some (default sp (last ps), ustack ++ ps) ∧ on_stack m' ps args
    end).
Proof.
  intros Hs Hsp Hargs. revert s sp ustack Hs Hsp Hargs.
  induction args as [|arg args IH] in argv |- *; intros s sp ustack Hs Hsp Hargs Hlen.
  { apply Forall2_nil_inv_r in Hargs as ->. cbn [app push_args Z.eqb]. runs_step.
    exists (kern s). rewrite set_kern_id. split_and!; [done|by apply written_refl, (sm_wf _ _ _ Hs)|].
    simpl. rewrite app_nil_r. split; [done|constructor]. }
  apply Forall2_cons_inv_r in Hargs as (a & argv' & Ha & Hargs & ->). simpl in Hlen.
  cbn [app push_args]. rewrite (proj2 (Z.eqb_neq a 0)) by apply Ha.
  rewrite (proj2 (Z.leb_gt MAX_ARGS _)) by lia.
  runs_step. eapply runs_kernel_string; [apply Ha|apply Ha|]. rewrite length_app. cbn [length].
  pose proof (ka_length _ _ _ Ha) as Hl. pose proof (sm_range _ _ _ Hs) as Hr.
  pose proof (place_machine base sp (Z.of_nat (length arg) + 1)) as Hp.
  rewrite Nat2Z.inj_add. change (Z.of_nat 1) with 1.
  cbn [places]. set (p := u64 (u64 (sp - _) - _)) in *.
  rewrite Hp by lia. destruct (Z.ltb_spec p base) as [Hb|Hb].
  { runs_step. exists (kern s). rewrite set_kern_id. split_and!; [done|by apply written_refl, (sm_wf _ _ _ Hs)|done]. }
  destruct (place_range base sp (Z.of_nat (length arg) + 1) p) as (_ & Hle & _); [by rewrite Hp, (proj2 (Z.ltb_ge p base)) by lia|lia|].
  runs_step. apply runs_on_mem. eapply runs_mono.
  { apply (copyout_stack _ base size p (arg ++ [0]) Hs); [done|rewrite length_app; simpl; lia|by eapply arg_bytes]. }
  intros ok m1 (-> & W1 & R1). rewrite length_app in W1, R1. cbn [length] in W1, R1. cbn [negb].
  eapply runs_mono.
  { apply (IH argv' (set_kern m1 s) p (ustack ++ [p])).
    - by eapply stack_mem_written.
    - lia.
    - eapply Forall2_impl; [exact Hargs|]. intros. by eapply kernel_arg_written.
    - rewrite length_app. simpl. lia. }
  intros r s' (m' & -> & W & Hres). change (kern (set_kern m1 s)) with m1 in W.
  assert (stack_mem m1 base size) as Hs1 by (by eapply stack_mem_written).
  exists m'. split_and!; [by destruct s as [[[] ? ? ?] ? ? ? ?]| |].
  - eapply (stack_written_trans _ m1 _ _ p); [lia| |exact W]. destruct W1 as [? ? O]. split; [done|done|].
    intros b Hb'. apply O. intros va Hva. apply Hb'. lia.
  - cbn [mbind option_bind]. destruct (places base p args) as [ps|]; [|done]. cbn [mbind option_bind].
    destruct Hres as [-> Hon]. split.
    + rewrite <- app_assoc. do 2 f_equal. by destruct ps as [|q ps] using rev_ind; [|rewrite app_comm_cons, !last_snoc].
    + constructor; [|done]. by eapply user_read_written.
Qed.

Lemma last_place base sp args ps : places base sp args = Some ps → base <= sp →
  base <= default sp (last ps) <= sp ∧ Forall (λ p, default sp (last ps) <= p) ps.
Proof.
  revert sp ps; induction args as [|arg args IH]; intros sp ps E Hsp; cbn [places] in E.
  { injection E as <-. split; [simpl; lia|constructor]. }
  destruct (place base sp _) as [p|] eqn:Ep; [|done]. cbn [mbind option_bind] in E.
  destruct (places base p args) as [ps'|] eqn:Eps; [|done]. injection E as <-.
  apply place_range in Ep as (? & ? & _); [|lia]. destruct (IH p ps' Eps ltac:(lia)) as [IH1 IH2].
  assert (default sp (last (p :: ps')) = default p (last ps')) as ->
    by (destruct ps' as [|q ps'] using rev_ind; [done|by rewrite app_comm_cons, !last_snoc]).
  split; [lia|]. constructor; [lia|done].
Qed.

Lemma runs_argument_stack size args argv rest s :
  let base := size - PAGE_SIZE in
  stack_mem (kern s) base size → Forall2 (kernel_arg (kern s)) argv args →
  Z.of_nat (length args) < MAX_ARGS →
  runs (argument_stack root size (argv ++ 0 :: rest)) s (λ r s', ∃ m', s' = set_kern m' s ∧
    written (kern s) m' base size ∧
    match stack_layout base size args with
    | None => r = None
    | Some (ps, sp) => r = Some (sp, Z.of_nat (length args)) ∧ on_stack m' ps args ∧
        user_read (8 * (length args + 1)) (kmem m') N sp = Some (array64 (ps ++ [0]))
    end).
Proof.
  intros base Hs Hargs Hlen. pose proof (sm_range _ _ _ Hs) as Hr. unfold argument_stack.
  rewrite (wrap_small 64 (size - PAGE_SIZE)) by (unfold base, PAGE_SIZE in *; lia). fold base.
  runs_step. eapply runs_mono; [apply (runs_push_args base size args argv rest size []); simpl; try done; unfold base, PAGE_SIZE; lia|].
  intros r s1 (m1 & -> & W1 & Hres). unfold stack_layout.
  destruct (places base size args) as [ps|] eqn:Eps; cbn [mbind option_bind].
  2:{ subst r. runs_step. by exists m1. }
  destruct Hres as [-> Hon]. rewrite app_nil_l.
  pose proof (Forall2_length _ _ _ Hon) as El. rewrite El.
  rewrite (proj2 (Z.leb_gt MAX_ARGS _)) by done.
  destruct (last_place base size args ps Eps) as [Hlast Hps]; [unfold base, PAGE_SIZE; lia|].
  set (last := default size (last ps)) in *. set (n := (Z.of_nat (length args) + 1) * 8).
  assert (0 < n <= 4096) as Hn by (unfold n, MAX_ARGS in *; lia).
  pose proof (place_machine base last n) as Hpl. set (sp := u64 (u64 (last - n) - _)) in *. rewrite Hpl by lia.
  destruct (Z.ltb_spec sp base) as [Hb|Hb].
  { runs_step. by exists m1. }
  destruct (place_range base last n sp) as (_ & Hle & _).
  { by rewrite Hpl, (proj2 (Z.ltb_ge sp base)) by lia. }
  { lia. }
  runs_step. apply runs_on_mem. change (kern (set_kern m1 s)) with m1.
  assert (length (array64 (ps ++ [0])) = (8 * (length args + 1))%nat) as Ela by (by rewrite length_array64, length_app, El).
  assert (stack_mem m1 base size) as Hs1 by (by eapply stack_mem_written).
  eapply runs_mono.
  { apply (copyout_stack _ base size sp (array64 (ps ++ [0])) Hs1); [done| |apply array64_bytes].
    rewrite Ela. unfold n in *. lia. }
  rewrite Ela. intros ok m2 (-> & W2 & R2). runs_step. exists m2.
  split_and!; [by destruct s as [[[] ? ? ?] ? ? ? ?]| |split_and!; [done| |exact R2]].
  - eapply (stack_written_trans _ m1 _ _ size); [lia|done|]. destruct W2 as [? ? O]. split; [done|done|].
    intros b Hb'. apply O. intros va Hva. apply Hb'. unfold n in *. lia.
  - eapply (on_stack_written _ _ _ _ size); [exact W2|exact Hs1| |exact Hon].
    eapply Forall_impl; [exact Hps|]. simpl. unfold n in *. lia.
Qed.
End machine.
End stack.

(** ** What [exec] does to the process *)

Section exec_effect.
Context {S P : Type} `{BufferOps S P}.
Variable trampoline kernelPages : Z.
Variable name0 : bytes.
Variable entry_addr elf_addr prog_addr : Z.
Variable this : positive.
Implicit Types (s : Machine S).

(** The part of the state that loading a program leaves alone. *)
Definition kept s : gmap positive Proc * list Z := (data s, file_refs (fstate s)).

Lemma kept_on_files {A} (c : M (FileState S) A) : keeps file_refs c → keeps kept (on_files c).
Proof.
  intros Hc s a s' (y & E & ->)%on_files_inv. unfold kept. simpl. by rewrite (Hc _ _ _ E).
Qed.

Lemma kept_on_mem {A} (c : M KMem A) : keeps kept (on_mem (S := S) c).
Proof. apply kept_on_files, keeps_on_ifs. Qed.

Lemma kept_on_fs {A} (c : M (FS S) A) : keeps kept (on_fs c).
Proof. apply kept_on_files, keeps_on_ifs. Qed.

Lemma kept_get_proc p : keeps kept (get_proc (S := S) p).
Proof. by intros s x s' [_ ->]%get_proc_inv. Qed.

Lemma kept_with_process {A} (c : Z → Z → positive → M (IFS S) A) : keeps kept (with_process this c).
Proof.
  unfold with_process. apply keeps_bind; [apply kept_get_proc|]. intros x.
  apply keeps_bind; [apply keeps_gets|]. intros dir. apply kept_on_files, keeps_on_ifs.
Qed.
End exec_effect.

#[export] Hint Resolve kept_on_mem kept_on_fs kept_get_proc kept_with_process : keeps.

Section exec_effect_rules.
Context {S P : Type} `{BufferOps S P}.
Variable trampoline kernelPages : Z.
Variable name0 : bytes.
Variable entry_addr elf_addr prog_addr : Z.
Variable this : positive.
Implicit Types (s : Machine S).

Lemma kept_read_kernel ip dst offset n : keeps kept (read_kernel this ip dst offset n).
Proof. unfold read_kernel. keeps_steps. Qed.

Lemma kept_loadSegment pt va ip offset size : keeps kept (loadSegment this pt va ip offset size).
Proof.
  unfold loadSegment. match goal with |- keeps _ (load_loop _ ?k _ _ _ _ _ ?i) => generalize i; induction k end;
    intros i; cbn [load_loop]; keeps_steps; apply kept_read_kernel.
Qed.

Lemma kept_load_header pt ip size : keeps kept (load_header kernelPages prog_addr this pt ip size).
Proof. unfold load_header, get32, get64. keeps_steps. apply kept_loadSegment. Qed.

Lemma kept_headers_loop fuel pt ip i offset size :
  keeps kept (headers_loop kernelPages elf_addr prog_addr this fuel pt ip i offset size).
Proof.
  revert i offset size; induction fuel; intros; cbn [headers_loop]; unfold get16; keeps_steps;
    apply kept_read_kernel || apply kept_load_header.
Qed.

Lemma kept_load_program pt ip : keeps kept (load_program kernelPages elf_addr prog_addr this pt ip).
Proof.
  unfold load_program, get32, get64. keeps_steps; [apply kept_read_kernel|apply kept_headers_loop].
Qed.

Lemma kept_push_args pt base argv sp ustack : keeps (kept (S := S)) (push_args pt base argv sp ustack).
Proof.
  revert sp ustack; induction argv; intros; cbn [push_args]; unfold kernel_string; keeps_steps.
Qed.

Lemma kept_make_stack pt size argv : keeps (kept (S := S)) (make_stack kernelPages pt size argv).
Proof. unfold make_stack, argument_stack. keeps_steps; apply kept_push_args. Qed.

Lemma kept_makePageTable tf : keeps (kept (S := S)) (makePageTable trampoline tf).
Proof. unfold makePageTable. keeps_steps. Qed.
End exec_effect_rules.

#[export] Hint Resolve kept_load_program kept_make_stack kept_makePageTable : keeps.

Section exec_commit.
Context {S P : Type} `{BufferOps S P}.
Variable trampoline kernelPages : Z.
Variable name0 : bytes.
Variable entry_addr elf_addr prog_addr : Z.
Variable this : positive.
Implicit Types (s : Machine S).

Lemma kept_inv {A B} (c : M (Machine S) A) (k : A → M (Machine S) B) s r :
  (c ≫= k) s = Ok r → keeps kept c → ∃ a s', kept s' = kept s ∧ k a s' = Ok r.
Proof. intros (a & s' & E1 & E2)%bind_inv Hk. exists a, s'. split; [exact (Hk _ _ _ E1)|done]. Qed.

Lemma runs_set_tf tf off x s (Q : unit → Machine S → Prop) :
  Q tt (set_kern (set_kmem (st64 (kmem (kern s)) (tf + off) x) (kern s)) s) → runs (set_tf tf off x) s Q.
Proof. intros HQ. unfold set_tf. apply runs_on_mem. by runs_step. Qed.

Lemma runs_change_proc p g x s (Q : unit → Machine S → Prop) :
  data s !! p = Some x → Q tt (set_data (<[p := g x]> (data s)) s) → runs (change_proc p g) s Q.
Proof.
  intros E HQ. unfold runs, change_proc, get_proc, mbind, M_bind. by rewrite E.
Qed.

(** What [exec] makes of a process. *)
Definition loaded (path : bytes) (pt size : Z) (x : Proc) : Proc :=
  set_memorySize size (set_pageTable pt (set_pname (strncpy (pname x) 0 (last_element path path) 0 16) x)).

(** The header of the program is not in the trap frame. *)
Definition apart (tf : Z) : Prop := elf_addr + ELF_HEADER_SIZE <= tf ∨ tf + TRAP_FRAME_SIZE <= elf_addr.

Lemma runs_replace_program path x pt size sp s :
  data s !! this = Some x → 0 <= sp < 2 ^ 64 → apart (trapFrame x) →
  runs (replace_program elf_addr this path (trapFrame x) pt size sp) s (λ _ s',
    data s' = <[this := loaded path pt size x]> (data s) ∧ file_refs (fstate s') = file_refs (fstate s) ∧
    let m := kmem (kern s') in
    ld64 m (trapFrame x + tf_sp) = sp ∧ ld64 m (trapFrame x + tf_a 1) = sp ∧
    ld64 m (trapFrame x + tf_epc) = ld64 m (elf_addr + eh_entry)).
Proof.
  intros Hx Hsp Hap. unfold replace_program. runs_step. apply runs_set_tf.
  runs_step. eapply runs_change_proc; [done|]. runs_step.
  eapply runs_change_proc; [by apply lookup_insert_eq|]. runs_step.
  eapply runs_change_proc; [by apply lookup_insert_eq|]. runs_step. apply runs_on_mem_gets.
  runs_step. apply runs_set_tf. apply runs_set_tf.
  cbn [data set_kern set_data set_fstate]. rewrite !insert_insert_eq.
  split; [done|]. split; [done|]. set (m0 := kmem (kern s)). set (tf := trapFrame x) in *.
  set (e := ld64 (st64 m0 (tf + tf_a 1) sp) (elf_addr + eh_entry)).
  lazymatch goal with |- ldN 8 ?m _ = _ ∧ _ => change m with (st64 (st64 (st64 m0 (tf + tf_a 1) sp) (tf + tf_epc) e) (tf + tf_sp) sp) end.
  assert (0 <= e < 2 ^ 64) as He by apply (ldN_range 8).
  unfold apart, ELF_HEADER_SIZE, TRAP_FRAME_SIZE in Hap. unfold tf_sp, tf_epc, tf_a, eh_entry in *.
  repeat first [rewrite ldN_stN_eq by done | rewrite ldN_stN_ne by lia].
  change (2 ^ (8 * Z.of_nat 8)) with (2 ^ 64). rewrite !(Z.mod_small _ (2 ^ 64)) by lia.
  split_and!; [done|done|]. unfold e. by rewrite ldN_stN_ne by lia.
Qed.

(** The stack pointer and the count of [argument_stack]. *)
Lemma argument_stack_result pt size argv s sp argc s' :
  argument_stack pt size argv s = Ok (Some (sp, argc), s') →
  0 <= sp < 2 ^ 64 ∧ sp mod 16 = 0 ∧ 0 <= argc < MAX_ARGS.
Proof.
  unfold argument_stack. intros (r & s1 & _ & E)%bind_inv. destruct r as [[sp0 ustack]|]; [|done].
  destruct (Z.leb_spec MAX_ARGS (Z.of_nat (length ustack))) as [|Hn]; [done|].
  set (a := u64 (sp0 - _)) in E. destruct (u64 (a - a mod 16) <? _); [done|].
  apply bind_inv in E as ([] & s2 & _ & E); [|done]. injection E as <- <- <-.
  assert (0 <= a < 2 ^ 64) as Ha by (apply wrap_range; lia).
  rewrite wrap_small by dlia. split_and!; [dlia|dlia|dlia|lia|done].
Qed.

Lemma make_stack_result pt size argv s size' sp argc s' :
  make_stack kernelPages pt size argv s = Ok (Some (size', sp, argc), s') →
  0 <= sp < 2 ^ 64 ∧ sp mod 16 = 0 ∧ 0 <= argc < MAX_ARGS.
Proof.
  unfold make_stack. intros (n & s1 & _ & E)%bind_inv. destruct (n =? 0); [done|].
  apply bind_inv in E as (u & s2 & _ & E). apply bind_inv in E as ([[sp0 argc0]|] & s3 & Ea & E); [|done].
  injection E as <- <- <- <-. by eapply argument_stack_result.
Qed.

(** [exec] either leaves the process as it is or replaces its program. *)
Lemma exec_cases path argv s r s' :
  exec trampoline kernelPages name0 entry_addr elf_addr prog_addr this path argv s = Ok (r, s') →
  (∀ x, data s !! this = Some x → apart (trapFrame x)) →
  file_refs (fstate s') = file_refs (fstate s) ∧
  ((r = -1 ∧ data s' = data s) ∨
   ∃ x pt size sp, data s !! this = Some x ∧ 0 <= r < MAX_ARGS ∧ sp mod 16 = 0 ∧
     data s' = <[this := loaded path pt size x]> (data s) ∧
     let m := kmem (kern s') in
     ld64 m (trapFrame x + tf_sp) = sp ∧ ld64 m (trapFrame x + tf_a 1) = sp ∧
     ld64 m (trapFrame x + tf_epc) = ld64 m (elf_addr + eh_entry)).
Proof.
  intros E Hap. unfold exec in E.
  apply kept_inv in E as (u0 & s1 & K1 & E); [|auto with keeps].
  apply kept_inv in E as ([[ip|] nm] & s2 & K2 & E); [| |auto with keeps]; cbn [fst] in E.
  2:{ apply kept_inv in E as (u3 & s3 & K3 & E); [|auto with keeps]. injection E as <- <-.
      assert (kept s3 = kept s) as K by congruence. injection K as K4 K5. split; [done|by left]. }
  apply kept_inv in E as (u3 & s3 & K3 & E); [|unfold plock; auto with keeps].
  apply bind_inv in E as (x & s4 & [Ex ->]%get_proc_inv & E).
  do 5 (apply kept_inv in E as (? & ? & ? & E); [|unfold punlock, pput; auto with keeps]).
  destruct x2 as [size0|].
  2:{ injection E as <- <-. assert (kept x9 = kept s) as K by congruence. injection K as K4 K5. split; [done|by left]. }
  apply bind_inv in E as (r1 & s5 & E5 & E). pose proof (kept_make_stack _ _ _ _ _ _ _ E5) as K5.
  assert (kept s5 = kept s) as K by congruence. injection K as Kd Kf.
  destruct r1 as [[[size sp] argc]|]; [|injection E as <- <-; split; [done|by left]].
  destruct (make_stack_result _ _ _ _ _ _ _ _ E5) as (Hsp & Hal & Hargc).
  assert (data s !! this = Some x) as Hx.
  { assert (kept s3 = kept s) as K by congruence. injection K as <- _. done. }
  apply bind_inv in E as (u & s6 & E6 & E). injection E as <- <-.
  assert (data s5 !! this = Some x) as Hx5 by by rewrite Kd.
  pose proof (runs_replace_program path x x0 size sp s5 Hx5 Hsp (Hap x Hx)) as R. unfold runs in R. rewrite E6 in R.
  destruct R as (Rd & Rf & Rm). split; [congruence|]. right. exists x, x0, size, sp.
  rewrite <- Kd. rewrite Kd at 1. split_and!; [done|lia|lia|done|done|apply Rm..].
Qed.
End exec_commit.

(** *** A concrete stack, for the witnesses: the page at [0x5000] of
    [PageTable.demo_user_space], and the string "ls" at [0x90000]. *)
Lemma demo_stack : ∃ m N l, N !! [] = Some 0x1000 ∧ stack_mem 0x1000 N l m 0x5000 0x6000 ∧
  kernel_arg N m 0x90000 [108; 115].
Proof.
  destruct demo_user_space as (s & N & l & Hw & Hr & Hs & Hlast & Hu & Hm).
  set (m := put_bytes (kmem s) 0x90000 [108; 115; 0]).
  assert (∀ a p, is_page 0x1000 s p → in_page p a → ld8 m a = ld8 (kmem s) a) as Hout.
  { intros a p [_ Hp] Ha. apply ld8_put_bytes_ne. unfold in_page, PAGE_SIZE in Ha. lia. }
  assert (∀ i, 0 <= i < 3 → ld8 m (0x90000 + i) = default 0 ([108; 115; 0] !! Z.to_nat i) mod 256) as Hld
    by (intros i Hi; by apply ld8_put_bytes_eq).
  destruct (wf_data_write 0x1000 s N l m Hw) as [Hw' Hmap].
  - intros a π p Hp. apply Hout. apply (wf_node _ _ _ _ Hw _ _ Hp).
  - intros a p Hp. apply Hout. by apply (inv_page _ _ _ _ (wf_free _ _ _ _ Hw)).
  - assert (∀ va, user_pa m N va = user_pa (kmem s) N va) as E by (intros va; by apply user_pa_ext).
    exists (set_kmem m s), N, l. split_and!; [done|split|split]; cbn [kmem set_kmem].
    + done.
    + by apply (separated_ext s).
    + intros va Hva. rewrite E. replace va with (0x5000 + (va - 0x5000)) by lia. rewrite Hm by lia. eauto.
    + lia.
    + done.
    + split; [|by apply (Hld 2)].
      intros [|[|i]] c Hc; simpl in Hc; [injection Hc as <-..|done].
      * split; [apply (Hld 0); lia|lia].
      * split; [apply (Hld 1); lia|lia].
    + simpl; lia.
    + intros i va Hi. rewrite E. intros [? ?]%Hu. simpl in Hi. lia.
Qed.

(** ** Properties *)

(** C21: the argument vector of a new program.  On a mapped stack page below
    [size], for fewer than [MAX_ARGS] arguments, each a string of less than a
    page in the kernel's own memory: [exec] succeeds exactly when the arguments
    and the array of their pointers fit on the page.  Then each argument is in
    user memory with its NUL, at the address the array holds for it, the array
    is at the returned stack pointer and ends with a null pointer, the count is
    the number of arguments, and only bytes of the stack page were written. *)
Theorem exec_argument_vector {S : Type} (kernelPages : Z) (N : gmap (list Z) Z) (l : list Z) (root size : Z)
    (args : list bytes) (argv rest : list Z) (s : Machine S)
    (Hroot : N !! [] = Some root) (Hstack : stack_mem kernelPages N l (kern s) (size - PAGE_SIZE) size)
    (Hargs : Forall2 (kernel_arg N (kern s)) argv args) (Hcount : Z.of_nat (length args) < MAX_ARGS) :
  ∃ r m', argument_stack root size (argv ++ 0 :: rest) s = Ok (r, set_kern m' s) ∧
    written kernelPages N l (kern s) m' (size - PAGE_SIZE) size ∧
    match stack_layout (size - PAGE_SIZE) size args with
    | None => r = None
    | Some (ps, sp) => r = Some (sp, Z.of_nat (length args)) ∧
        Forall2 (λ p arg, user_read (length arg + 1) (kmem m') N p = Some (arg ++ [0])) ps args ∧
        user_read (8 * (length args + 1)) (kmem m') N sp = Some (array64 (ps ++ [0]))
    end.
Proof.
  destruct (runs_inv _ _ _ (runs_argument_stack kernelPages N l root Hroot size args argv rest s Hstack Hargs Hcount))
    as (r & s' & E & m' & -> & HH). by exists r, m'.
Qed.

Lemma exec_argument_vector_witness : ∃ (m m' : KMem) N,
  argument_stack 0x1000 0x6000 [0x90000; 0] (set_kern m demo_machine) =
    Ok (Some (0x5fe0, 1), set_kern m' demo_machine) ∧
  user_read 3 (kmem m') N 0x5ff0 = Some [108; 115; 0] ∧
  user_read 16 (kmem m') N 0x5fe0 = Some (array64 [0x5ff0; 0]).
Proof.
  destruct demo_stack as (m & N & l & Hr & Hs & Ha).
  destruct (exec_argument_vector 0x1000 N l 0x1000 0x6000 [[108; 115]] [0x90000] [] (set_kern m demo_machine))
    as (r & m' & E & _ & -> & Hon & Hv); [done|exact Hs|constructor; [exact Ha|constructor]|done|].
  exists m, m', N. split; [exact E|]. split; [|exact Hv]. by inversion Hon.
Defined.

(** C22: [exec] is all or nothing for the process.  When it returns, no
    reference count of an open file has changed; and either the result is [-1]
    and no member of any process has changed, or the result is the number of
    arguments, only the name, the page table and the memory size of the current
    process have changed, its saved stack pointer and second argument register
    are the same multiple of 16, and its saved program counter is the entry
    point of the header that was read. *)
Theorem exec_replaces_or_keeps {S P : Type} `{BufferOps S P} (trampoline kernelPages : Z) (name0 : bytes)
    (entry_addr elf_addr prog_addr : Z) (this : positive) (path : bytes) (argv : list Z) (s s' : Machine S) (r : Z)
    (Hlocal : ∀ x, data s !! this = Some x → apart elf_addr (trapFrame x))
    (Hexec : exec trampoline kernelPages name0 entry_addr elf_addr prog_addr this path argv s = Ok (r, s')) :
  file_refs (fstate s') = file_refs (fstate s) ∧
  ((r = -1 ∧ data s' = data s) ∨
   ∃ x pt size sp, data s !! this = Some x ∧ 0 <= r < MAX_ARGS ∧ sp mod 16 = 0 ∧
     data s' = <[this := loaded path pt size x]> (data s) ∧
     let m := kmem (kern s') in
     ld64 m (trapFrame x + tf_sp) = sp ∧ ld64 m (trapFrame x + tf_a 1) = sp ∧
     ld64 m (trapFrame x + tf_epc) = ld64 m (elf_addr + eh_entry)).
Proof. by eapply exec_cases. Qed.

(** The program of the working directory, with one empty argument. *)
Lemma exec_replaces_or_keeps_witness : ∃ s',
  exec 0x300000 0x1000 (replicate 14 0) 0x400000 0x400100 0x400200 1 [] [0x600000; 0] demo_machine = Ok (1, s') ∧
  ∃ pt size, data s' = <[1%positive := loaded [] pt size demo_proc]> (data demo_machine).
Proof.
  assert (fst <$> result_value (exec 0x300000 0x1000 (replicate 14 0) 0x400000 0x400100 0x400200 1 [] [0x600000; 0] demo_machine) = Some 1) as Er
    by by vm_compute.
  revert Er. destruct (exec _ _ _ _ _ _ _ _ _ demo_machine) as [[r s']|] eqn:E; [|done].
  intros [= ->]. exists s'. split; [reflexivity|].
  destruct (exec_replaces_or_keeps 0x300000 0x1000 (replicate 14 0) 0x400000 0x400100 0x400200 1 [] [0x600000; 0] demo_machine s' 1)
    as (_ & [[Hm _]|(x & pt & size & sp & Hx & _ & _ & Hd & _)]).
  - intros x [= <-]. right. by vm_compute.
  - exact E.
  - discriminate Hm.
  - injection Hx as <-. by exists pt, size.
Defined.

End Exec.
