(* ===== verification/Syscall.v ===== *)
(** * System calls

    [kernel/syscall]: fetching the arguments from the trap frame and from user
    memory ([args.cpp]), the nine system calls, and their dispatch through the
    table of [syscall.cpp].  A pointer to a function of the table is its name; a
    call runs as the current process [this] and returns a [uint64_t], or [None]
    when it leaves for another process and does not come back. *)

From stdpp Require Import gmultiset.
From S2P Require Import Prelude CString HashMap Address Page PageTable Uvm Ring Uart Console Buffer FsState Log Inode File Scheduler Process Exec.
Import CString Address Page PageTable Uvm Uart Console Buffer FsState Log Inode File Process Exec.

#[local] Open Scope Z_scope.

Module Syscall.

(** ** Definitions *)

Definition FORK : Z := 1.
Definition EXIT : Z := 2.
Definition WAIT : Z := 3.
Definition READ : Z := 5.
Definition EXEC : Z := 7.
Definition OPEN : Z := 15.
Definition WRITE : Z := 16.
Definition MKNOD : Z := 17.
Definition CLOSE : Z := 21.

Definition MAX_PATH_LENGTH : Z := 128.

(** The functions of the table. *)
Inductive SyscallFunc := Fork | Exit | Wait | Read | Exec | Open | Write | Mknod | Close.

(** [syscall::initialize]: the table; [SyscallFunc{}] is the null pointer. *)
Definition initialize : HashMap.HashMap Z (option SyscallFunc) :=
  foldl (λ t e, HashMap.assign makeHash None t e.1 (Some e.2)) (HashMap.make 8)
    [(FORK, Fork); (EXIT, Exit); (WAIT, Wait); (READ, Read); (EXEC, Exec); (OPEN, Open);
     (WRITE, Write); (MKNOD, Mknod); (CLOSE, Close)].

(** The kernel and [syscallMap]. *)
Record System {S : Type} := mkSystem {
  machine : Machine S;
  syscallMap : HashMap.HashMap Z (option SyscallFunc);
}.
Arguments System : clear implicits.
Arguments mkSystem {S} _ _.

Definition on_machine {S A} (c : M (Machine S) A) : M (System S) A := λ s,
  match c (machine s) with
  | Ok (a, x) => Ok (a, mkSystem x (syscallMap s))
  | Err f => Err f
  end.

(** The value [-1] of a [uint64_t]. *)
Definition minus_one : Z := u64 (-1).

(** ["pid=%d %s: Unknown system call %d\n"] *)
Definition unknown_format : bytes :=
  [112; 105; 100; 61; 37; 100; 32; 37; 115; 58; 32; 85; 110; 107; 110; 111; 119; 110; 32; 115; 121; 115;
   116; 101; 109; 32; 99; 97; 108; 108; 32; 37; 100; 10].

Section operations.
Context {S P : Type} `{BufferOps S P}.
Variable tp : Z.
Variable hash : Z → Z.
Variable address_of : positive → Z.
Variable waitMutex trampoline kernelPages kernelPageTable : Z.
Variable name0 : bytes.
Variable entry_addr elf_addr prog_addr : Z.
Variable uart_device : list access → Z → Z.
Variable polls : nat.
Variable this : positive.

(** *** [args.cpp] *)

Definition getArg (n : Z) : M (Machine S) Z :=
  x ← get_proc this;
  assert ((0 <=? n) && (n <=? 5)) ;;
  get_tf (trapFrame x) (tf_a n).

(** [fetchAddress]: the word, or [None] for [false]. *)
Definition fetchAddress (address : Z) : M (Machine S) (option Z) :=
  x ← get_proc this;
  if memorySize x <=? address then mret None
  else if memorySize x <? u64 (address + 8) then mret None
  else
    r ← on_mem (copyin (ppageTable x) address 8);
    mret (if fst r : bool then Some (ld64 (snd r) 0) else None).

(** [fetchString]: its result, and the bytes stored in the buffer. *)
Definition fetchString (address length : Z) : M (Machine S) (Z * bytes) :=
  x ← get_proc this;
  r ← on_mem (copyinString (ppageTable x) address length);
  if negb (fst r) then mret (-1, snd r)
  else
    match strlen (Datatypes.length (snd r)) (snd r) 0 with
    | None => fail OutOfRange
    | Some len => mret (s32 len, snd r)
    end.

Definition getArgInt (n : Z) : M (Machine S) Z := a ← getArg n; mret (s32 a).
Definition getArgAddress (n : Z) : M (Machine S) Z := getArg n.

Definition getArgString (n length : Z) : M (Machine S) (Z * bytes) :=
  address ← getArgAddress n; fetchString address length.

(** [getArgFd]: the descriptor and its file, or [None] for [false]. *)
Definition getArgFd (n : Z) : M (Machine S) (option (Z * nat)) :=
  x ← get_proc this;
  fd ← getArgInt n;
  if fd <? 0 then mret None
  else if Z.of_nat (length (openFiles x)) <=? fd then mret None
  else
    match openFiles x !! Z.to_nat fd with
    | Some (Some f) => mret (Some (fd, f))
    | Some None => mret None
    | None => fail OutOfRange
    end.

(** *** The system calls *)

Definition sys_close : M (Machine S) Z :=
  r ← getArgFd 0;
  match r with
  | None => mret minus_one
  | Some (fd, _) => r ← close this fd; mret (u64 r)
  end.

Definition sys_read : M (Machine S) Z :=
  r ← getArgFd 0;
  match r with
  | None => mret minus_one
  | Some (_, f) =>
      buf ← getArgAddress 1;
      n ← getArgInt 2;
      x ← get_proc this;
      r ← on_files (read (ppid x) (ppageTable x) uart_device polls f buf n);
      mret (u64 r)
  end.

Definition sys_write : M (Machine S) Z :=
  address ← getArgAddress 1;
  len ← getArgInt 2;
  r ← getArgFd 0;
  match r with
  | None => mret minus_one
  | Some (_, f) =>
      x ← get_proc this;
      r ← on_files (write (ppid x) (ppageTable x) uart_device polls f address len);
      mret (u64 r)
  end.

Definition sys_open : M (Machine S) Z :=
  openMode ← getArgInt 1;
  r ← getArgString 0 MAX_PATH_LENGTH;
  if fst r <? 0 then mret minus_one
  else r ← open name0 entry_addr this (text (snd r)) openMode; mret (u64 r).

(** The parameters of [Inode::create] are 16-bit. *)
Definition sys_mknod : M (Machine S) Z :=
  on_fs beginOp ;;
  major ← getArgInt 1;
  minor ← getArgInt 2;
  r ← getArgString 0 MAX_PATH_LENGTH;
  if fst r <? 0 then on_fs endOp ;; mret minus_one
  else
    ip ← with_process this (λ pid pt dir,
      icreate pid dir pt entry_addr (text (snd r)) T_DEVICE (s16 major) (s16 minor) name0);
    match ip with
    | None => on_fs endOp ;; mret minus_one
    | Some ip => punlock this ip ;; pput this ip ;; on_fs endOp ;; mret 0
    end.

Definition sys_fork : M (Machine S) Z :=
  p ← fork tp hash waitMutex trampoline kernelPageTable this;
  x ← get_proc p;
  mret (ppid x).

Definition sys_wait : M (Machine S) Z :=
  ptr ← getArgAddress 0;
  b ← wait tp address_of waitMutex this ptr;
  mret (if b : bool then 0 else minus_one).

(** The loop of [exec] over the argument pointers: [argv] up to its null pointer,
    or [None] for the return of [-1]; freeing the strings does nothing. *)
Fixpoint args_loop (fuel : nat) (uargv i : Z) (argv : list Z) : M (Machine S) (option (list Z)) :=
  if MAX_ARGS <=? i then mret None
  else
    match fuel with
    | O => fail NoFuel
    | Datatypes.S fuel' =>
        uarg ← fetchAddress (u64 (uargv + 8 * i));
        match uarg with
        | None => mret None
        | Some uarg =>
            if uarg =? 0 then mret (Some (argv ++ [0]))
            else
              a ← on_mem (operator_new PAGE_SIZE);
              if a =? 0 then mret None
              else
                r ← fetchString uarg PAGE_SIZE;
                on_mem (modify (λ m, set_kmem (put_bytes (kmem m) a (snd r)) m)) ;;
                if fst r <? 0 then mret None
                else args_loop fuel' uargv (i + 1) (argv ++ [a])
        end
    end.

Definition sys_exec : M (Machine S) Z :=
  uargv ← getArgAddress 1;
  r ← getArgString 0 MAX_PATH_LENGTH;
  if fst r <? 0 then mret minus_one
  else
    argv ← args_loop (Z.to_nat MAX_ARGS) uargv 0 [];
    match argv with
    | None => mret minus_one
    | Some argv =>
        result ← exec trampoline kernelPages name0 entry_addr elf_addr prog_addr this (text (snd r)) argv;
        mret (u64 result)
    end.

Definition sys_exit : M (Machine S) unit :=
  status ← getArgInt 0;
  exit tp hash address_of waitMutex this status.

Definition returns (c : M (Machine S) Z) : M (Machine S) (option Z) := r ← c; mret (Some r).

Definition call (f : SyscallFunc) : M (Machine S) (option Z) :=
  match f with
  | Fork => returns sys_fork
  | Exit => sys_exit ;; mret None
  | Wait => returns sys_wait
  | Read => returns sys_read
  | Exec => returns sys_exec
  | Open => returns sys_open
  | Write => returns sys_write
  | Mknod => returns sys_mknod
  | Close => returns sys_close
  end.

(** [syscall::syscall], of a hart with a process: whether it returns. *)
Definition syscall : M (System S) bool :=
  x ← on_machine (get_proc this);
  code ← on_machine (get_tf (trapFrame x) (tf_a 7));
  t ← gets syscallMap;
  if HashMap.contains makeHash t code then
    let '(fn, t) := HashMap.operator_index makeHash None t code in
    modify (λ s, mkSystem (machine s) t) ;;
    match fn with
    | None => fail NullDeref
    | Some fn =>
        r ← on_machine (call fn);
        match r with
        | None => mret false
        | Some r => on_machine (set_tf (trapFrame x) (tf_a 0) r) ;; mret true
        end
    end
  else
    on_machine (on_files (on_console (printf uart_device polls unknown_format
      [ArgInt (ppid x); ArgStr (Some (text (pname x))); ArgInt code]))) ;;
    on_machine (set_tf (trapFrame x) (tf_a 0) minus_one) ;;
    mret true.
End operations.

(** ** References of system calls *)

Lemma keeps_kept {S A} (c : M (Machine S) A) : keeps kept c → keeps descriptors c.
Proof.
  intros Hk s a s' E. specialize (Hk _ _ _ E). injection Hk as E1 E2.
  unfold descriptors, tables. f_equal; [exact E2|by rewrite E1].
Qed.

Section references.
Context {S P : Type} `{BufferOps S P}.
Variable tp : Z.
Variable hash : Z → Z.
Variable address_of : positive → Z.
Variable waitMutex trampoline kernelPages kernelPageTable : Z.
Variable name0 : bytes.
Variable entry_addr elf_addr prog_addr : Z.
Variable uart_device : list access → Z → Z.
Variable polls : nat.
Variable this : positive.
Implicit Types (s : Machine S).

Lemma keeps_getArg n : keeps (descriptors (S := S)) (getArg this n).
Proof. unfold getArg, get_tf. keeps_steps. Qed.

Lemma keeps_getArgInt n : keeps (descriptors (S := S)) (getArgInt this n).
Proof. unfold getArgInt. keeps_steps. apply keeps_getArg. Qed.

Lemma keeps_getArgString n length : keeps (descriptors (S := S)) (getArgString this n length).
Proof. unfold getArgString, getArgAddress, fetchString. keeps_steps. apply keeps_getArg. Qed.

Lemma keeps_getArgFd n : keeps (descriptors (S := S)) (getArgFd this n).
Proof. unfold getArgFd. keeps_steps. apply keeps_getArgInt. Qed.

Lemma keeps_exec path argv :
  keeps descriptors (exec trampoline kernelPages name0 entry_addr elf_addr prog_addr this path argv).
Proof.
  unfold exec, plock, punlock, pput, replace_program, set_tf, get64.
  keeps_steps; first [apply keeps_with_process | apply keeps_kept; auto with keeps].
Qed.

Lemma keeps_args_loop fuel uargv i argv : keeps (descriptors (S := S)) (args_loop this fuel uargv i argv).
Proof. revert i argv; induction fuel; intros; cbn [args_loop]; unfold fetchAddress, fetchString; keeps_steps. Qed.
End references.

#[export] Hint Resolve keeps_getArg keeps_getArgInt keeps_getArgString keeps_getArgFd keeps_exec keeps_args_loop : keeps.

Section calls.
Context {S P : Type} `{BufferOps S P}.
Variable tp : Z.
Variable hash : Z → Z.
Variable address_of : positive → Z.
Variable waitMutex trampoline kernelPages kernelPageTable : Z.
Variable name0 : bytes.
Variable entry_addr elf_addr prog_addr : Z.
Variable uart_device : list access → Z → Z.
Variable polls : nat.
Variable this : positive.
Implicit Types (s : Machine S).

#[local] Abbreviation call := (call tp hash address_of waitMutex trampoline kernelPages kernelPageTable name0
  entry_addr elf_addr prog_addr uart_device polls this).

Lemma preserves_call f s r s' : call f s = Ok (r, s') → is_Some (data s !! this) → counted s →
  2 * Z.of_nat (stdpp.base.size (references (tables s))) < 2 ^ 32 → counted s'.
Proof.
  intros E Hthis Hc Hsz. destruct f; cbn [Syscall.call] in E; unfold returns in E.
  - apply bind_inv in E as (r1 & s1 & E1 & E). injection E as _ <-.
    apply bind_inv in E1 as (p & s2 & E2 & E1). apply fork_spec in E2 as (Hc2 & _); [|done..].
    apply bind_inv in E1 as (x & s3 & [_ ->]%get_proc_inv & E1). by injection E1 as _ <-.
  - apply bind_inv in E as (u & s1 & E1 & E). injection E as _ <-.
    apply bind_inv in E1 as (status & s2 & E2 & E1). eapply preserves_exit; [exact E1|].
    eapply counted_eq; [|exact Hc]. by eapply keeps_getArgInt.
  - eapply (preserves_keeps _); [|exact E|done]. unfold sys_wait, getArgAddress. keeps_steps. apply keeps_wait.
  - eapply (preserves_keeps _); [|exact E|done]. unfold sys_read, getArgAddress. keeps_steps.
    apply keeps_on_files, keeps_read.
  - eapply (preserves_keeps _); [|exact E|done]. unfold sys_exec, getArgAddress. keeps_steps.
  - apply bind_inv in E as (r1 & s1 & E1 & E). injection E as _ <-.
    apply bind_inv in E1 as (mode & s2 & E2 & E1). apply bind_inv in E1 as (path & s3 & E3 & E1).
    assert (counted s3) as Hc3.
    { eapply counted_eq; [|exact Hc]. by rewrite (keeps_getArgString _ _ _ _ _ _ E3), (keeps_getArgInt _ _ _ _ _ E2). }
    destruct (fst path <? 0); [by injection E1 as _ <-|].
    apply bind_inv in E1 as (r2 & s4 & E4 & E1). injection E1 as _ <-. by eapply preserves_open.
  - eapply (preserves_keeps _); [|exact E|done]. unfold sys_write, getArgAddress. keeps_steps.
    apply keeps_on_files, keeps_write.
  - eapply (preserves_keeps _); [|exact E|done]. unfold sys_mknod, punlock, pput. keeps_steps; apply keeps_with_process.
  - apply bind_inv in E as (r1 & s1 & E1 & E). injection E as _ <-.
    apply bind_inv in E1 as (fd & s2 & E2 & E1).
    assert (counted s2) as Hc2 by (eapply counted_eq; [|exact Hc]; by eapply keeps_getArgFd).
    destruct fd as [[fd f]|]; [|by injection E1 as _ <-].
    apply bind_inv in E1 as (r2 & s4 & E4 & E1). injection E1 as _ <-. by eapply preserves_close.
Qed.

#[local] Abbreviation syscall := (syscall tp hash address_of waitMutex trampoline kernelPages kernelPageTable name0
  entry_addr elf_addr prog_addr uart_device polls this).

Lemma on_machine_inv {A} (c : M (Machine S) A) (y : System S) a y' : on_machine c y = Ok (a, y') →
  ∃ s, c (machine y) = Ok (a, s) ∧ y' = mkSystem s (syscallMap y).
Proof. unfold on_machine. destruct (c (machine y)) as [[b s]|]; [|done]. intros [= -> <-]. by exists s. Qed.

(** A system call of a process, whatever the table says. *)
Lemma preserves_syscall (y y' : System S) b : syscall y = Ok (b, y') → counted (machine y) →
  2 * Z.of_nat (stdpp.base.size (references (tables (machine y)))) < 2 ^ 32 → counted (machine y').
Proof.
  unfold Syscall.syscall. intros (x & y1 & (s1 & [Ex ->]%get_proc_inv & ->)%on_machine_inv & E)%bind_inv Hc Hsz.
  apply bind_inv in E as (code & y1 & (s1 & E1 & ->)%on_machine_inv & E).
  assert (data s1 = data (machine y)) as Hd.
  { assert (keeps kept (get_tf (S := S) (trapFrame x) (tf_a 7))) as K by (unfold get_tf; auto with keeps).
    specialize (K _ _ _ E1). by injection K. }
  assert (descriptors s1 = descriptors (machine y)) as Hdesc
    by (eapply (keeps_on_mem _); exact E1).
  assert (counted s1) as Hc1 by (by eapply counted_eq).
  assert (tables s1 = tables (machine y)) as Ht by (unfold tables; by rewrite Hd).
  apply bind_inv in E as (t & y1 & E2 & E). injection E2 as <- <-. cbn [syscallMap machine] in E.
  destruct (HashMap.contains _ _ _).
  - destruct (HashMap.operator_index _ _ _ _) as [[fn|] t']; apply bind_inv in E as (u & y1 & E2 & E);
      injection E2 as _ <-; [|done].
    apply bind_inv in E as (r & y1 & (s2 & E2 & ->)%on_machine_inv & E). cbn [machine syscallMap] in E2, E.
    assert (counted s2) as Hc2 by (eapply preserves_call; [exact E2|by rewrite Hd|done|by rewrite Ht]).
    destruct r as [r|]; [|by injection E as _ <-].
    apply bind_inv in E as (u2 & y1 & (s3 & E3 & ->)%on_machine_inv & E). injection E as _ <-.
    eapply counted_eq; [|exact Hc2]. by eapply (keeps_on_mem _).
  - apply bind_inv in E as (u1 & y1 & (s2 & E2 & ->)%on_machine_inv & E). cbn [machine syscallMap] in E.
    apply bind_inv in E as (u2 & y1 & (s3 & E3 & ->)%on_machine_inv & E). injection E as _ <-.
    eapply counted_eq; [|exact Hc1]. etrans; [by eapply (keeps_on_mem _)|].
    eapply keeps_on_files; [|exact E2]. apply keeps_on_console.
Qed.
End calls.

(** ** The table *)

Definition table : gmap Z SyscallFunc :=
  list_to_map [(FORK, Fork); (EXIT, Exit); (WAIT, Wait); (READ, Read); (EXEC, Exec); (OPEN, Open);
    (WRITE, Write); (MKNOD, Mknod); (CLOSE, Close)].

(** The codes are in buckets of their own. *)
Lemma codes_apart : HashMap.at_most_two makeHash (2 ^ 8 - 1) (dom table).
Proof.
  intros k1 k2 k3 H1 H2 _ E _. left.
  assert (Forall (λ k1, Forall (λ k2, Z.land (makeHash k1) (2 ^ 8 - 1) = Z.land (makeHash k2) (2 ^ 8 - 1) → k1 = k2)
    (elements (dom table))) (elements (dom table))) as Hall by (apply (bool_decide_unpack _); by vm_compute).
  rewrite Forall_forall in Hall. specialize (Hall k1). rewrite elem_of_elements, Forall_forall in Hall.
  apply (Hall H1 k2); [by apply elem_of_elements|done].
Qed.

Lemma initialize_lookup code : HashMap.lookup makeHash initialize code = Some <$> table !! code.
Proof.
  set (os := (λ e : Z * SyscallFunc, HashMap.OpAssign e.1 (Some e.2)) <$>
    [(FORK, Fork); (EXIT, Exit); (WAIT, Wait); (READ, Read); (EXEC, Exec); (OPEN, Open);
     (WRITE, Write); (MKNOD, Mknod); (CLOSE, Close)]).
  change initialize with (HashMap.run makeHash None (HashMap.make 8) os).
  assert (∀ k, 0 <= makeHash k) as Hhash by (intros k; pose proof (wrap_range 64 k); unfold makeHash; lia).
  rewrite (HashMap.refines_run makeHash None Hhash os _ ∅ (dom table)).
  - rewrite <- lookup_fmap. f_equal.
  - apply HashMap.inv_make. lia.
  - intros k. by rewrite HashMap.lookup_make, lookup_empty.
  - set_solver.
  - apply (bool_decide_unpack _). by vm_compute.
  - rewrite (HashMap.inv_mask makeHash _ (HashMap.inv_make makeHash 8 ltac:(lia))). apply codes_apart.
Qed.

(** *** The calls on a descriptor that is not open *)

Section descriptors_checked.
Context {S P : Type} `{BufferOps S P}.
Variable uart_device : list access → Z → Z.
Variable polls : nat.
Variable this : positive.
Implicit Types (s : Machine S).

(** Argument [n] of the system call the process [x] makes. *)
Definition argument s (x : Proc) (n : Z) : Z := ld64 (kmem (kern s)) (trapFrame x + tf_a n).

(** The descriptor names no open file. *)
Definition not_open (x : Proc) (fd : Z) : Prop :=
  fd < 0 ∨ Z.of_nat (length (openFiles x)) <= fd ∨ openFiles x !! Z.to_nat fd = Some None.

Lemma runs_get_proc p x s (Q : Proc → Machine S → Prop) :
  data s !! p = Some x → Q x s → runs (get_proc p) s Q.
Proof. intros E HQ. unfold runs, get_proc. by rewrite E. Qed.

Lemma runs_getArg x n s (Q : Z → Machine S → Prop) :
  data s !! this = Some x → 0 <= n <= 5 → Q (argument s x n) s → runs (getArg this n) s Q.
Proof.
  intros Hx Hn HQ. unfold getArg. runs_step. apply (runs_get_proc this x); [done|]. runs_step.
  apply runs_assert; [lia|]. by apply runs_on_mem_gets.
Qed.

Lemma runs_getArgInt x n s (Q : Z → Machine S → Prop) :
  data s !! this = Some x → 0 <= n <= 5 → Q (s32 (argument s x n)) s → runs (getArgInt this n) s Q.
Proof. intros Hx Hn HQ. unfold getArgInt. runs_step. apply (runs_getArg x); [done..|]. by runs_step. Qed.

Lemma runs_getArgFd_closed x n s (Q : option (Z * nat) → Machine S → Prop) :
  data s !! this = Some x → 0 <= n <= 5 → not_open x (s32 (argument s x n)) → Q None s → runs (getArgFd this n) s Q.
Proof.
  intros Hx Hn Ho HQ. unfold getArgFd. runs_step. apply (runs_get_proc this x); [done|]. runs_step.
  apply (runs_getArgInt x); [done..|]. set (fd := s32 _) in *.
  destruct (Z.ltb_spec fd 0); [by runs_step|].
  destruct (Z.leb_spec (Z.of_nat (length (openFiles x))) fd); [by runs_step|].
  destruct Ho as [?|[?|Ho]]; [lia|lia|]. rewrite Ho. by runs_step.
Qed.
End descriptors_checked.

(** What [syscall] does for a code of the table, and for any other. *)
Definition dispatch {S P} `{BufferOps S P} (calls : SyscallFunc → M (Machine S) (option Z))
    (uart_device : list access → Z → Z) (polls : nat) (x : Proc) (code : Z) : M (Machine S) bool :=
  match table !! code with
  | Some f =>
      r ← calls f;
      match r with
      | Some r => set_tf (trapFrame x) (tf_a 0) r ;; mret true
      | None => mret false
      end
  | None =>
      on_files (on_console (printf uart_device polls unknown_format
        [ArgInt (ppid x); ArgStr (Some (text (pname x))); ArgInt code])) ;;
      set_tf (trapFrame x) (tf_a 0) minus_one ;;
      mret true
  end.

(** The table of [initialize] dispatches by [table]. *)
Lemma syscall_table {S P : Type} `{BufferOps S P} (tp : Z) (hash : Z → Z) (address_of : positive → Z)
    (waitMutex trampoline kernelPages kernelPageTable : Z) (name0 : bytes) (entry_addr elf_addr prog_addr : Z)
    (uart_device : list access → Z → Z) (polls : nat) (this : positive) (s : Machine S) (x : Proc)
    (Hthis : data s !! this = Some x) :
  syscall tp hash address_of waitMutex trampoline kernelPages kernelPageTable name0 entry_addr elf_addr prog_addr
    uart_device polls this (mkSystem s initialize) =
  on_machine (dispatch (call tp hash address_of waitMutex trampoline kernelPages kernelPageTable name0
    entry_addr elf_addr prog_addr uart_device polls this) uart_device polls x (argument s x 7)) (mkSystem s initialize).
Proof.
  assert (∀ off, get_tf (trapFrame x) off s = Ok (ld64 (kmem (kern s)) (trapFrame x + off), s)) as Htf.
  { intros off. destruct (runs_inv (get_tf (trapFrame x) off) s
      (λ a s', a = ld64 (kmem (kern s)) (trapFrame x + off) ∧ s' = s)) as (a & s' & E & -> & ->); [|done].
    by apply runs_on_mem_gets. }
  generalize (initialize_lookup (argument s x 7)). generalize initialize. intros t Hl.
  unfold syscall, on_machine, mbind, M_bind. cbn [machine syscallMap].
  unfold get_proc at 1. rewrite Hthis. cbn [machine syscallMap]. rewrite Htf. fold (argument s x 7).
  unfold gets at 1. cbn [machine syscallMap]. rewrite HashMap.contains_lookup, Hl. unfold dispatch.
  destruct (table !! argument s x 7) as [f|]; cbn [fmap option_fmap option_map] in *.
  - rewrite bool_decide_true by eauto.
    rewrite (HashMap.operator_index_present makeHash None t _ _ Hl).
    unfold modify, mbind, M_bind. cbn [machine syscallMap].
    destruct (call _ _ _ _ _ _ _ _ _ _ _ _ _ _ f s) as [[[r|] s']|]; [|done..].
    cbn [machine syscallMap]. by destruct (set_tf (trapFrame x) (tf_a 0) r s') as [[]|].
  - rewrite bool_decide_false by (by intros []). unfold mbind, M_bind.
    cbn [machine syscallMap]. destruct (on_files _ s) as [[u s']|]; [|done]. cbn [machine syscallMap].
    by destruct (set_tf (trapFrame x) (tf_a 0) minus_one s') as [[]|].
Qed.

(** The calls on a descriptor that is not open. *)
Lemma call_not_open {S P : Type} `{BufferOps S P} (tp : Z) (hash : Z → Z) (address_of : positive → Z)
    (waitMutex trampoline kernelPages kernelPageTable : Z) (name0 : bytes) (entry_addr elf_addr prog_addr : Z)
    (uart_device : list access → Z → Z) (polls : nat) (this : positive) (s : Machine S) (x : Proc) (f : SyscallFunc)
    (Hthis : data s !! this = Some x) (Hclosed : not_open x (s32 (argument s x 0)))
    (Hf : f = Read ∨ f = Write ∨ f = Close) :
  call tp hash address_of waitMutex trampoline kernelPages kernelPageTable name0 entry_addr elf_addr prog_addr
    uart_device polls this f s = Ok (Some minus_one, s).
Proof.
  destruct (runs_inv (call tp hash address_of waitMutex trampoline kernelPages kernelPageTable name0 entry_addr
    elf_addr prog_addr uart_device polls this f) s (λ r s', r = Some minus_one ∧ s' = s)) as (r & s' & E & -> & ->); [|done].
  destruct Hf as [->|[->| ->]]; unfold call, returns, sys_read, sys_write, sys_close, getArgAddress; runs_step.
  - runs_step. apply (runs_getArgFd_closed this x); [done..|]. by repeat runs_step.
  - runs_step. apply (runs_getArg this x); [done..|]. runs_step. apply (runs_getArgInt this x); [done..|].
    runs_step. apply (runs_getArgFd_closed this x); [done..|]. by repeat runs_step.
  - runs_step. apply (runs_getArgFd_closed this x); [done..|]. by repeat runs_step.
Qed.

(** ** Properties *)

(** C24: system calls are dispatched by their codes.  With the table that
    [initialize] builds, [syscall] calls the function of the code in register
    [a7] and stores its result in [a0] of the trap frame, for each of the nine
    codes; for every other code it prints a message and stores [-1]; and the
    table stays as it is. *)
Theorem syscall_dispatch {S P : Type} `{BufferOps S P} (tp : Z) (hash : Z → Z) (address_of : positive → Z)
    (waitMutex trampoline kernelPages kernelPageTable : Z) (name0 : bytes) (entry_addr elf_addr prog_addr : Z)
    (uart_device : list access → Z → Z) (polls : nat) (this : positive) (s : Machine S) (x : Proc)
    (Hthis : data s !! this = Some x) :
  syscall tp hash address_of waitMutex trampoline kernelPages kernelPageTable name0 entry_addr elf_addr prog_addr
    uart_device polls this (mkSystem s initialize) =
  on_machine (dispatch (call tp hash address_of waitMutex trampoline kernelPages kernelPageTable name0
    entry_addr elf_addr prog_addr uart_device polls this) uart_device polls x (argument s x 7)) (mkSystem s initialize).
Proof. by apply syscall_table. Qed.

(** The concrete machine of [Process], with a code in register [a7]. *)
Definition demo_call (code : Z) : System BufferCache :=
  let m := kern demo_machine in
  mkSystem (set_kern (set_kmem (st64 (kmem m) (0x100000 + tf_a 7) code) m) demo_machine) initialize.

Abbreviation demo_sys := (syscall 0 Z.abs (λ _, 0) 0x500000 0x300000 0x1000 0x103000 (replicate 14 0)
  0x400000 0x400100 0x400200 (λ _ _, 0x20) 10).
Abbreviation demo_syscall := (demo_sys 1%positive).
Abbreviation demo_start := (startUserInitProcess (λ _ _, 0x20) 10 0 Z.abs 0x300000 0x103000 (replicate 14 0) 0x400000 []).

(** [close] of a descriptor that is not open returns [-1]. *)
Lemma syscall_dispatch_witness :
  (argument (machine (demo_call CLOSE)) demo_proc 7 = CLOSE) ∧
  match demo_syscall (demo_call CLOSE) with
  | Ok (b, s) => b = true ∧ argument (machine s) demo_proc 0 = minus_one
  | Err _ => False
  end.
Proof.
  split; [by vm_compute|]. unfold demo_call. cbv zeta.
  rewrite (syscall_dispatch 0 Z.abs (λ _, 0) 0x500000 0x300000 0x1000 0x103000 (replicate 14 0)
    0x400000 0x400100 0x400200 (λ _ _, 0x20) 10 1%positive _ demo_proc); [|reflexivity].
  vm_compute. by split.
Defined.

(** Steps of the whole machine: a system call of some process, the start of the
    first process, or anything that leaves the counts and the descriptors alone
    (user programs, interrupts, the scheduler).  A process forks when there are fewer than [2 ^ 31] descriptors. *)
Inductive sys_step {S} (sys : positive → M (System S) bool) (start : M (Machine S) unit) :
    System S → System S → Prop :=
  | step_syscall this b s s' :
      2 * Z.of_nat (stdpp.base.size (references (tables (machine s)))) < 2 ^ 32 →
      sys this s = Ok (b, s') → sys_step sys start s s'
  | step_start s s' : on_machine start s = Ok (tt, s') → sys_step sys start s s'
  | step_other s s' : descriptors (machine s') = descriptors (machine s) → sys_step sys start s s'.

(** C8: descriptors and reference counts agree.  From a state without
    descriptors and with the initial table of files, after [startUserInitProcess]
    and any sequence of system calls of any processes ([open], [close], [fork], [exit], [exec], [read],
    [write], [mknod], [wait], successful or not) and of steps that touch neither,
    the count of every file is the number of descriptors of all processes that
    name it, so every descriptor names a file that is in use. *)
Theorem syscalls_count_references {S P : Type} `{BufferOps S P} (tp : Z) (hash : Z → Z) (address_of : positive → Z)
    (waitMutex trampoline kernelPages kernelPageTable : Z) (name0 : bytes) (entry_addr elf_addr prog_addr : Z)
    (uart_device : list access → Z → Z) (polls : nat) (code : bytes) (s s' : System S)
    (Hfiles : files (fstate (machine s)) = initial_files) (Hopen : references (tables (machine s)) = ∅)
    (Hsteps : rtc (sys_step (syscall tp hash address_of waitMutex trampoline kernelPages kernelPageTable name0
       entry_addr elf_addr prog_addr uart_device polls)
       (startUserInitProcess uart_device polls tp hash trampoline kernelPageTable name0 entry_addr code)) s s') :
  (∀ f, (f < NUM_FILES)%nat → ∃ x, files (fstate (machine s')) !! f = Some x ∧
     frefCount x = Z.of_nat (multiplicity f (references (tables (machine s'))))) ∧
  ∀ p l i f, tables (machine s') !! p = Some l → l !! i = Some (Some f) →
    ∃ x, files (fstate (machine s')) !! f = Some x ∧ 1 <= frefCount x.
Proof.
  assert (counted (machine s')) as Hc.
  { assert (counted (machine s)) as Hc by (unfold counted; rewrite Hfiles, Hopen; apply counts_initial).
    clear Hfiles Hopen. induction Hsteps as [|s1 s2 s3 Hs _ IH]; [done|]. apply IH.
    destruct Hs as [this b s1 s2 Hsz E|s1 s2 (y & E & ->)%on_machine_inv|s1 s2 E];
      [by eapply preserves_syscall|by eapply preserves_start|by eapply counted_eq]. }
  split.
  - intros f Hf. by apply (counts_lookup _ _ f Hc).
  - intros p l i f Hl Hi. assert (f ∈ references (tables (machine s'))) as Hin by (by eapply own_some_in).
    destruct (proj2 Hc f Hin) as [Hf _]. destruct (counts_lookup _ _ f Hc Hf) as (x & Ex & Hx).
    exists x. split; [done|]. rewrite elem_of_multiplicity in Hin. lia.
Qed.

Lemma syscalls_count_references_witness : ∃ s',
  fst <$> result_value (demo_syscall (demo_call FORK)) = Some true ∧
  rtc (sys_step demo_sys demo_start) (demo_call FORK) s' ∧
  (∀ f, (f < NUM_FILES)%nat → ∃ x, files (fstate (machine s')) !! f = Some x ∧
     frefCount x = Z.of_nat (multiplicity f (references (tables (machine s'))))).
Proof.
  assert (fst <$> result_value (demo_syscall (demo_call FORK)) = Some true) as Er by by vm_compute.
  destruct (demo_syscall (demo_call FORK)) as [[b s']|] eqn:E; [|done]. exists s'.
  assert (rtc (sys_step demo_sys demo_start) (demo_call FORK) s') as Hs.
  { eapply rtc_l; [|apply rtc_refl]. eapply step_syscall; [by vm_compute|exact E]. }
  split; [exact Er|]. split; [exact Hs|].
  eapply (syscalls_count_references 0 Z.abs (λ _, 0) 0x500000 0x300000 0x1000 0x103000 (replicate 14 0)
    0x400000 0x400100 0x400200 (λ _ _, 0x20) 10 [] (demo_call FORK) s'); [by vm_compute..|exact Hs].
Defined.

(** C31: a descriptor is checked before it is used.  When the descriptor in [a0]
    is negative, beyond the table of the process, or closed, [read], [write] and
    [close] return [-1], and the state of the whole machine is unchanged. *)
Theorem closed_descriptor_rejected {S P : Type} `{BufferOps S P} (tp : Z) (hash : Z → Z) (address_of : positive → Z)
    (waitMutex trampoline kernelPages kernelPageTable : Z) (name0 : bytes) (entry_addr elf_addr prog_addr : Z)
    (uart_device : list access → Z → Z) (polls : nat) (this : positive) (s : Machine S) (x : Proc) (f : SyscallFunc)
    (Hthis : data s !! this = Some x) (Hclosed : not_open x (s32 (argument s x 0)))
    (Hf : f = Read ∨ f = Write ∨ f = Close) :
  call tp hash address_of waitMutex trampoline kernelPages kernelPageTable name0 entry_addr elf_addr prog_addr
    uart_device polls this f s = Ok (Some minus_one, s).
Proof. by apply (call_not_open _ _ _ _ _ _ _ _ _ _ _ _ _ _ _ x). Qed.

Lemma closed_descriptor_rejected_witness :
  call 0 Z.abs (λ _, 0) 0x500000 0x300000 0x1000 0x103000 (replicate 14 0) 0x400000 0x400100 0x400200
    (λ _ _, 0x20) 10 1 Write demo_machine = Ok (Some minus_one, demo_machine).
Proof.
  apply (closed_descriptor_rejected 0 Z.abs (λ _, 0) 0x500000 0x300000 0x1000 0x103000 (replicate 14 0)
    0x400000 0x400100 0x400200 (λ _ _, 0x20) 10 1 demo_machine demo_proc Write).
  - reflexivity.
  - right. left. by vm_compute.
  - right. by left.
Defined.

End Syscall.
