(* ===== verification/WriteCall.v ===== *)
(** * The write system call, from the registers of a program to the disk

    [sys_write] of [kernel/syscall] on an open file: the arguments of the trap
    frame, the table of descriptors, the bytes of user memory, [File::write] and
    its operations of the log together. *)

From S2P Require Import Prelude HashMap Address Page PageTable Uvm Uart Console Buffer FsState Log Txn Block Inode InodeWrite File FileWrite Scheduler Process Exec Syscall.
Import Page PageTable Uvm Uart Console Buffer FsState Log Txn Block Inode InodeWrite File FileWrite Process Syscall.

#[local] Open Scope Z_scope.

Module WriteCall.

(** ** Definitions *)

Section definitions.
Context {S P : Type} `{BufferOps S P} (dev : Z) `{!BufferLaws S P dev}.

(** The process [this] calls [write] with the bytes [bs] of its memory and a
    descriptor of the open file [f], which is [y]; the file is between two
    operations and open for writing.  The write stays in direct blocks that the
    file has already (the first 12 KiB; no block is allocated), and these blocks
    and the block of the inode lie outside the log's part of the disk. *)
Record write_request (X : gset Z) (this : positive) (s : Machine S) (v : view P) (x : Proc)
    (D : Source (ppageTable x) true) (f : nat) (y : File) (ip : positive) (i : Inode) (bs : bytes) : Prop := {
  wq_proc : data s !! this = Some x;
  wq_descriptor : 0 <= s32 (argument s x 0);
  wq_open : openFiles x !! Z.to_nat (s32 (argument s x 0)) = Some (Some f);
  wq_length : s32 (argument s x 2) = Z.of_nat (length bs);
  wq_bytes : s_has D (kernel (ifs (fstate s))) (argument s x 1) bs;
  wq_range : argument s x 1 + Z.of_nat (length bs) < 2 ^ 64;
  wq_some : bs ≠ [];
  wq_writable : writable y = true;
  wq_file : writing dev X (fstate s) v f y ip i;
  wq_mapped : mapped X v (fields i) (offset y) (Z.of_nat (length bs));
  wq_settled : settled (fstate s) v i;
}.
End definitions.

(** ** Lemmas *)

Section lemmas.
Context {S P : Type} `{BufferOps S P} (dev : Z) `{!BufferLaws S P dev}.
Variable uart_device : list access → Z → Z.
Variable polls : nat.
Variable this : positive.
Implicit Types (s : Machine S).

Lemma runs_getArgFd_open x n f s (Q : option (Z * nat) → Machine S → Prop) :
  data s !! this = Some x → 0 <= n <= 5 → 0 <= s32 (argument s x n) →
  openFiles x !! Z.to_nat (s32 (argument s x n)) = Some (Some f) →
  Q (Some (s32 (argument s x n), f)) s → runs (getArgFd this n) s Q.
Proof.
  intros Hx Hn H0 Ho HQ. unfold getArgFd. runs_step. apply (runs_get_proc this x); [done|]. runs_step.
  apply (runs_getArgInt this x); [done..|]. set (fd := s32 _) in *. pose proof (lookup_lt_Some _ _ _ Ho).
  rewrite (proj2 (Z.ltb_ge fd 0)), (proj2 (Z.leb_gt _ fd)), Ho by lia. by runs_step.
Qed.

Lemma on_files_ok {A} (c : M (FileState S) A) s a x : c (fstate s) = Ok (a, x) → on_files c s = Ok (a, set_fstate x s).
Proof. unfold on_files. by intros ->. Qed.

(** The call is [File::write] of the bytes. *)
Lemma sys_write_request X s (v : view P) x D f y ip i bs n x' :
  write_request dev X this s v x D f y ip i bs →
  write (ppid x) (ppageTable x) uart_device polls f (argument s x 1) (Z.of_nat (length bs)) (fstate s) = Ok (n, x') →
  sys_write uart_device polls this s = Ok (u64 n, set_fstate x' s).
Proof.
  intros [Hx Hfd Hf Hlen _ _ _ _ _ _ _] E.
  destruct (runs_inv (sys_write uart_device polls this) s (λ r s', r = u64 n ∧ s' = set_fstate x' s)) as (r & s' & Er & -> & ->); [|done].
  unfold sys_write, getArgAddress. runs_step. apply (runs_getArg this x); [done..|].
  runs_step. apply (runs_getArgInt this x); [done..|]. rewrite Hlen.
  runs_step. apply (runs_getArgFd_open x 0 f); [done..|].
  runs_step. apply (runs_get_proc this x); [done|].
  runs_step. eapply runs_ok; [by apply on_files_ok|]. by runs_step.
Qed.
End lemmas.

(** The call, and the memory of the kernel behind it. *)
Lemma write_call_runs {S P : Type} `{BufferOps S P} (dev : Z) `{!BufferLaws S P dev}
    (tp : Z) (hash : Z → Z) (address_of : positive → Z)
    (waitMutex trampoline kernelPages kernelPageTable : Z) (name0 : bytes) (entry_addr elf_addr prog_addr : Z)
    (uart_device : list access → Z → Z) (polls : nat) (X : gset Z) (this : positive) (s : Machine S) (v : view P)
    (x : Proc) (D : Source (ppageTable x) true) (f : nat) (y : File) (ip : positive) (i : Inode) (bs : bytes)
    (Hq : write_request dev X this s v x D f y ip i bs) :
  let n := Z.of_nat (length bs) in
  ∃ s' v' i' ws, call tp hash address_of waitMutex trampoline kernelPages kernelPageTable name0 entry_addr elf_addr
      prog_addr uart_device polls this Write s = Ok (Some n, set_fstate s' s) ∧
    writing dev X s' v' f (set_offset (offset y + n) y) ip i' ∧ settled s' v' i' ∧
    kernel (ifs s') = kernel (ifs (fstate s)) ∧
    disk_holds (fstate s) v i (offset y) bs (v_disk v') ∧
    v_writes v' = v_writes v ++ ws ∧ Forall (λ w, is_block w.2) ws ∧
    ∀ ws1, ws1 `prefix_of` ws → ∀ (b : FS S) sb, logStart sb = start (log (base (ifs (fstate s)))) →
      frep dev b (mkView (replay (v_disk v) ws1) [] ∅) →
      Z.of_nat (length (hblock (header (log b)))) = LOG_SIZE →
      ∃ b' v1 m, initializeLog dev sb b = Ok (tt, b') ∧ frep dev b' v1 ∧ FsState.n (header (log b')) = 0 ∧
        whole_ops m (length bs) ∧ disk_holds (fstate s) v i (offset y) (take m bs) (v_disk v1).
Proof.
  intros n. pose proof Hq as [_ _ _ _ Hb Hr Hne Hwr Hw Hm Hset].
  pose proof (ldN_range 8 (kmem (Exec.kern s)) (trapFrame x + tf_a 1)) as [Ha _]. fold (argument s x 1) in Ha.
  destruct (write_crash_atomic dev (ppid x) (ppageTable x) uart_device polls D X (fstate s) v f y ip i
    (argument s x 1) bs Hw Hset Hwr Hne Hm Ha Hr Hb) as (s' & v' & i' & ws & E & Hrest).
  exists s', v', i', ws. split; [|exact Hrest]. unfold call, returns.
  rewrite (bind_ok _ _ _ _ _ (sys_write_request dev uart_device polls this X s v x D f y ip i bs n s' Hq E)).
  rewrite wrap_small by lia. done.
Qed.

(** ** Properties *)


(** *** A concrete call *)

(** The page [0x80000] is mapped at [0x5000] and holds the trap frame as well: its
    first bytes are written, and the arguments are 0, [0x5000] and 3. *)
Definition demo_frame : bytes :=
  [1; 2; 3] ++ replicate 109 0 ++ replicate 8 0 ++ [0; 0x50; 0; 0; 0; 0; 0; 0] ++ [3; 0; 0; 0; 0; 0; 0; 0].

Definition demo_writer : Proc :=
  mkProc 1 None [] 0x80000 0x1000 0x102000 0x200000 0x6000 (Some 1%positive) [Some 0%nat] (replicate 16 0) 0.

Definition demo_state (m : KMem) : Machine BufferCache :=
  mkMachine (demo_quiet m) (Scheduler.set_procs {[1%positive := Scheduler.new_process]} (Scheduler.boot 1))
    {[1%positive := demo_writer]} 2 (Some 1%positive).

Lemma demo_argument m n : (∀ j b, demo_frame !! j = Some b → ld8 (kmem m) (0x80000 + Z.of_nat j) = b) →
  0 <= n <= 2 → argument (demo_state m) demo_writer n = ld64 demo_frame (tf_a n).
Proof.
  intros Hf Hn. unfold argument. apply ldN_ext. intros i Hi. simpl in Hi.
  change (trapFrame demo_writer) with 0x80000. unfold tf_a. rewrite <- Z.add_assoc.
  set (k := 112 + 8 * n + i). rewrite <- (Z2Nat.id k) by lia.
  assert (Z.to_nat k < length demo_frame)%nat as [b Eb]%lookup_lt_is_Some by (simpl; lia).
  change (Exec.kern (demo_state m)) with m. rewrite (Hf _ _ Eb). unfold ld8, bytes_store.
  rewrite (proj2 (Z.leb_le 0 _)), Nat2Z.id, Eb by lia. simpl. symmetry. apply Z.mod_small.
  revert Eb. apply (proj1 (Forall_lookup (λ b, 0 <= b < 256) demo_frame)). repeat constructor; lia.
Qed.

Lemma demo_request m (D : Source 0x1000 true) : s_has D m 0x5000 demo_frame →
  (∀ j b, demo_frame !! j = Some b → ld8 (kmem m) (0x80000 + Z.of_nat j) = b) →
  write_request 1 {[60; 64]} 1 (demo_state m) demo_quiet_view demo_writer D 0
    (mkFile TInode 1 true true (Some 1%positive) 2) 1 demo_inode [1; 2; 3].
Proof.
  intros Hs Hf. pose proof (λ n, demo_argument m n Hf) as Ha. split.
  - done.
  - rewrite Ha by lia. by vm_compute.
  - rewrite Ha by lia. by vm_compute.
  - rewrite Ha by lia. by vm_compute.
  - rewrite Ha by lia. change (ld64 demo_frame (tf_a 1)) with 0x5000. by apply (s_split _ _ D) in Hs as [Hs _].
  - rewrite Ha by lia. by vm_compute.
  - done.
  - done.
  - apply demo_writing.
  - apply demo_mapped.
  - apply demo_settled.
Qed.


End WriteCall.
