(* ===== verification/Trap.v ===== *)
(** * Interrupts and traps

    [kernel/ie]: finding the cause of a trap and serving it ([cause.cpp]), the
    interrupt controller ([plic.cpp]), the clock ([timer.cpp]), traps taken in the
    kernel ([kernel_trap.cpp]) and in user programs ([user_trap.cpp]).  A handler
    runs on the hart [tp]; the assembly around it, which saves and restores the
    general registers, is in [Asm] and [Vectors].  What happens while a handler has
    interrupts on, or while its process waits to be scheduled again, is a
    parameter: an arbitrary operation on the whole state. *)

From S2P Require Import Prelude Riscv HashMap Address Page PageTable Uvm SpinMutex Ring Uart Console Buffer FsState Inode File Scheduler Process Exec Syscall.
Import Address Page PageTable Uvm Uart Console Buffer FsState Inode File Process Exec Syscall.

#[local] Open Scope Z_scope.

Module Trap.

(** ** Definitions *)

Definition PLIC : Z := 0x0c000000.
Definition CLINT : Z := 0x2000000.
Definition CLINT_MTIME : Z := CLINT + 0xBFF8.
Definition UART0_IRQ : Z := 10.
Definition VIRTIO0_IRQ : Z := 1.
Definition NUM_CPUS : Z := 8.

(** [enum struct Cause]. *)
Inductive Cause := Unexpected | Plic | Timer.

#[export] Instance cause_eq_dec : EqDecision Cause.
Proof. solve_decision. Defined.

(** The registers of the hart, the accesses to the memory of the interrupt
    controllers, the globals [ticks] and [timerScrach], and the kernel. *)
Record TrapState {S : Type} := mkTrap {
  regs : Riscv.Regs;
  bus : list access;
  ticks : Z;
  timerScratch : list (list Z);
  system : System S;
}.
Arguments TrapState : clear implicits.
Arguments mkTrap {S} _ _ _ _ _.

(** What is fixed when the kernel is linked and the machine is built: addresses
    of functions and variables, the devices, and the parameters of the parts. *)
Record Config := mkConfig {
  k_tp : Z;
  k_hash : Z → Z;
  k_address_of : positive → Z;
  k_waitMutex : Z;
  k_timerMutex : Z;
  k_ticks : Z;
  k_scratch : Z → Z;
  k_kernelVector : Z;
  k_timerVector : Z;
  k_trampoline : Z;
  k_userVector : Z;
  k_returnUser : Z;
  k_userTrap : Z;
  k_kernelPages : Z;
  k_kernelPageTable : Z;
  k_name0 : bytes;
  k_entry_addr : Z;
  k_elf_addr : Z;
  k_prog_addr : Z;
  k_uart : list access → Z → Z;
  k_polls : nat;
  k_bus : list access → Z → Z;
}.

Section state.
Context {S : Type}.

Definition set_regs x (s : TrapState S) : TrapState S := mkTrap x (bus s) (ticks s) (timerScratch s) (system s).
Definition set_bus x (s : TrapState S) : TrapState S := mkTrap (regs s) x (ticks s) (timerScratch s) (system s).
Definition set_ticks x (s : TrapState S) : TrapState S := mkTrap (regs s) (bus s) x (timerScratch s) (system s).
Definition set_scratch x (s : TrapState S) : TrapState S := mkTrap (regs s) (bus s) (ticks s) x (system s).
Definition set_system (x : System S) (s : TrapState S) : TrapState S := mkTrap (regs s) (bus s) (ticks s) (timerScratch s) x.

Definition on_regs {A} (c : M Riscv.Regs A) : M (TrapState S) A := λ s,
  match c (regs s) with Ok (a, x) => Ok (a, set_regs x s) | Err f => Err f end.

Definition on_system {A} (c : M (System S) A) : M (TrapState S) A := λ s,
  match c (system s) with Ok (a, x) => Ok (a, set_system x s) | Err f => Err f end.

Definition on_kernel_machine {A} (c : M (Machine S) A) : M (TrapState S) A := on_system (on_machine c).
Definition on_scheduler {A} (c : M Scheduler.Kernel A) : M (TrapState S) A := on_kernel_machine (on_sched c).
End state.

Section operations.
Context {S P : Type} `{BufferOps S P}.
Variable k : Config.

(** [sstatus] of this hart. *)
Definition read_sstatus : M (TrapState S) Z :=
  on_scheduler (t ← Scheduler.this_hart (k_tp k); mret (SpinMutex.sstatus (Scheduler.cpu t))).

Definition put_sstatus (x : Z) (t : Scheduler.Hart) : Scheduler.Hart :=
  Scheduler.set_cpu (SpinMutex.mkCpu (SpinMutex.numLocks (Scheduler.cpu t))
    (SpinMutex.interruptEnabled (Scheduler.cpu t)) x) t.

Definition write_sstatus (x : Z) : M (TrapState S) unit :=
  on_scheduler (Scheduler.change_hart (k_tp k) (put_sstatus x)).

(** [arch::read_tp()] *)
Definition read_tp : Z := k_tp k.

(** 32-bit and 64-bit accesses to the interrupt controllers. *)
Definition load (w address : Z) : M (TrapState S) Z := λ s,
  Ok (wrap w (k_bus k (bus s) address), set_bus (bus s ++ [Uart.Read address]) s).

Definition store (w address x : Z) : M (TrapState S) unit :=
  modify (λ s, set_bus (bus s ++ [Uart.Write address (wrap w x)]) s).

Definition console_printf (format : bytes) (l : list arg) : M (TrapState S) unit :=
  on_kernel_machine (on_files (on_console (printf (k_uart k) (k_polls k) format l))).

(** *** [plic.cpp] *)

Definition senable (hart : Z) : Z := PLIC + 0x2080 + hart * 0x100.
Definition spriority (hart : Z) : Z := PLIC + 0x201000 + hart * 0x2000.

Definition initializePlic : M (TrapState S) unit :=
  store 32 (PLIC + UART0_IRQ * 4) 1 ;;
  store 32 (PLIC + VIRTIO0_IRQ * 4) 1.

Definition initializePlicHart : M (TrapState S) unit :=
  let hartid := read_tp in
  store 32 (senable hartid) (Z.lor (Z.shiftl 1 UART0_IRQ) (Z.shiftl 1 VIRTIO0_IRQ)) ;;
  store 32 (spriority hartid) 0.

(** The address of the claim register. *)
Definition claim_address : Z := PLIC + 0x201004 + read_tp * 0x2000.

Definition plicClaim : M (TrapState S) Z := load 32 claim_address.

Definition plicComplete (irq : Z) : M (TrapState S) unit := store 32 claim_address irq.

(** *** [timer.cpp] *)

Definition clintMtimeCmp (hartid : Z) : Z := CLINT + 0x4000 + 8 * hartid.

Definition interval : Z := 1000000.

(** [timerScrach[hartid][i] = x] *)
Definition set_timerScratch (hartid i x : Z) : M (TrapState S) unit := λ s,
  match timerScratch s !! Z.to_nat hartid with
  | Some l => Ok (tt, set_scratch (<[Z.to_nat hartid := <[Z.to_nat i := x]> l]> (timerScratch s)) s)
  | None => Err OutOfRange
  end.

Definition initializeTimer : M (TrapState S) unit :=
  hartid ← on_regs Riscv.read_mhartid;
  let mtimecmp := clintMtimeCmp hartid in
  now ← load 64 CLINT_MTIME;
  store 64 mtimecmp (now + interval) ;;
  set_timerScratch hartid 3 (clintMtimeCmp hartid) ;;
  set_timerScratch hartid 4 interval ;;
  on_regs (Riscv.write_mscratch (k_scratch k hartid)) ;;
  on_regs (Riscv.write_mtvec (k_timerVector k)) ;;
  mstatus ← on_regs Riscv.read_mstatus;
  on_regs (Riscv.write_mstatus (Z.lor mstatus Riscv.MSTATUS_MIE)) ;;
  mie ← on_regs Riscv.read_mie;
  on_regs (Riscv.write_mie (Z.lor mie Riscv.MIE_MTIE)).

Definition clockInterrupt : M (TrapState S) unit :=
  on_scheduler (Scheduler.lock (k_tp k) (Scheduler.KernelLock (k_timerMutex k))) ;;
  modify (λ s, set_ticks (u64 (ticks s + 1)) s) ;;
  on_scheduler (Scheduler.wakeup (k_tp k) (k_hash k) (k_ticks k)) ;;
  on_scheduler (Scheduler.unlock (k_tp k) (Scheduler.KernelLock (k_timerMutex k))).

(** *** [cause.cpp] *)

(** ["Unexpected IRQ %d\n"] *)
Definition irq_format : bytes :=
  [85; 110; 101; 120; 112; 101; 99; 116; 101; 100; 32; 73; 82; 81; 32; 37; 100; 10].

(** The interrupt handler of the disk, below the buffer cache:
    [Virtio.diskInterrupt] on the driver's state. *)
Variable diskInterrupt : M S unit.

(** Bytes the UART can have ready at one interrupt. *)
Variable uart_fuel : nat.

Definition serve (irq : Z) : M (TrapState S) unit :=
  if irq =? UART0_IRQ then
    on_kernel_machine (on_files (on_console (uartInterrupt (k_uart k) (k_polls k) uart_fuel)))
  else if irq =? VIRTIO0_IRQ then on_kernel_machine (on_fs (on_cache diskInterrupt))
  else console_printf irq_format [ArgInt irq].

Definition which (scause : Z) : M (TrapState S) Cause :=
  if negb (Z.land scause 0x8000000000000000 =? 0) && (Z.land scause 0xff =? 9) then
    irq ← plicClaim;
    serve irq ;;
    (if negb (irq =? 0) then plicComplete irq else mret tt) ;;
    mret Plic
  else if scause =? 0x8000000000000001 then
    (if read_tp =? 0 then clockInterrupt else mret tt) ;;
    sip ← on_regs Riscv.read_sip;
    on_regs (Riscv.write_sip (Z.land sip (u64 (Z.lnot 2)))) ;;
    mret Timer
  else mret Unexpected.

(** *** Handlers *)

(** What runs between the switch away from this process and its return to this
    hart; and what runs while the handler has interrupts on. *)
Variables away interrupts : M (TrapState S) unit.

(** [process::yield]. *)
Definition yield : M (TrapState S) unit :=
  t ← on_scheduler (Scheduler.this_hart (k_tp k));
  on_scheduler (Scheduler.yield (k_tp k) (k_hash k)) ;;
  match Scheduler.current t with None => mret tt | Some _ => away end.

(** ["Kernel trap: Unexpected interrupt/exception\n"] *)
Definition kernel_message : bytes :=
  [75; 101; 114; 110; 101; 108; 32; 116; 114; 97; 112; 58; 32; 85; 110; 101; 120; 112; 101; 99; 116; 101;
   100; 32; 105; 110; 116; 101; 114; 114; 117; 112; 116; 47; 101; 120; 99; 101; 112; 116; 105; 111; 110; 10].

(** ["scause %p, sepc %p, stval %p\n"] *)
Definition kernel_format : bytes :=
  [115; 99; 97; 117; 115; 101; 32; 37; 112; 44; 32; 115; 101; 112; 99; 32; 37; 112; 44; 32; 115; 116; 118;
   97; 108; 32; 37; 112; 10].

(** ["User trap: Unexpected interrupt/exception\n"] *)
Definition user_message : bytes :=
  [85; 115; 101; 114; 32; 116; 114; 97; 112; 58; 32; 85; 110; 101; 120; 112; 101; 99; 116; 101;
   100; 32; 105; 110; 116; 101; 114; 114; 117; 112; 116; 47; 101; 120; 99; 101; 112; 116; 105; 111; 110; 10].

(** ["scause %p, sepc %p, stval %p, pid %d\n"] *)
Definition user_format : bytes :=
  [115; 99; 97; 117; 115; 101; 32; 37; 112; 44; 32; 115; 101; 112; 99; 32; 37; 112; 44; 32; 115; 116; 118;
   97; 108; 32; 37; 112; 44; 32; 112; 105; 100; 32; 37; 100; 10].

(** ["unexpected ie"] *)
Definition panic_message : bytes :=
  [117; 110; 101; 120; 112; 101; 99; 116; 101; 100; 32; 105; 101].

Definition trap_panic {A} : M (TrapState S) A :=
  on_kernel_machine (on_files (on_console (panic (k_uart k) (k_polls k) panic_message))) ;; fail KernelPanic.

Definition kernelTrap : M (TrapState S) unit :=
  sepc ← on_regs Riscv.read_sepc;
  sstatus ← read_sstatus;
  scause ← on_regs Riscv.read_scause;
  assert (Riscv.has sstatus Riscv.SSTATUS_SPP) ;;
  assert (negb (Riscv.has sstatus Riscv.SSTATUS_SIE)) ;;
  cause ← which scause;
  (if decide (cause = Unexpected) then
     stval ← on_regs Riscv.read_stval;
     console_printf kernel_message [] ;;
     console_printf kernel_format [ArgPtr scause; ArgPtr sepc; ArgPtr stval] ;;
     trap_panic
   else mret tt) ;;
  (if decide (cause = Timer) then yield else mret tt) ;;
  on_regs (Riscv.write_sepc sepc) ;;
  write_sstatus sstatus.

(** Members of the trap frame. *)
Definition tf_kernel_satp : Z := 0.
Definition tf_kernel_sp : Z := 8.
Definition tf_kernel_trap : Z := 16.
Definition tf_kernel_hartid : Z := 32.

(** The address of trampoline code in every page table. *)
Definition in_trampoline (symbol : Z) : Z := u64 (TRAMPOLINE + u64 (symbol - k_trampoline k)).

(** [Cpu::current().process] *)
Definition current_proc : M (TrapState S) positive := on_scheduler (Scheduler.current_process (k_tp k)).

(** [returnUserTrap]: the function it ends in, with its argument. *)
Definition returnUserTrap : M (TrapState S) (Z * Z) :=
  p ← current_proc;
  x ← on_kernel_machine (get_proc p);
  st ← read_sstatus;
  write_sstatus (Z.land st (Z.lnot Riscv.SSTATUS_SIE)) ;;
  on_regs (Riscv.write_stvec (in_trampoline (k_userVector k))) ;;
  satp ← on_regs Riscv.read_satp;
  on_kernel_machine (set_tf (trapFrame x) tf_kernel_satp satp) ;;
  on_kernel_machine (set_tf (trapFrame x) tf_kernel_sp (u64 (kernelStack x + PAGE_SIZE))) ;;
  on_kernel_machine (set_tf (trapFrame x) tf_kernel_trap (k_userTrap k)) ;;
  on_kernel_machine (set_tf (trapFrame x) tf_kernel_hartid read_tp) ;;
  sstatus ← read_sstatus;
  let sstatus := Z.land sstatus (Z.lnot Riscv.SSTATUS_SPP) in
  let sstatus := Z.lor sstatus Riscv.SSTATUS_SPIE in
  write_sstatus sstatus ;;
  epc ← on_kernel_machine (get_tf (trapFrame x) tf_epc);
  on_regs (Riscv.write_sepc epc) ;;
  mret (in_trampoline (k_returnUser k), makeSatp (ppageTable x)).

(** [syscall::syscall] of process [p]. *)
Definition do_syscall (p : positive) : M (TrapState S) bool :=
  on_system (syscall (k_tp k) (k_hash k) (k_address_of k) (k_waitMutex k) (k_trampoline k) (k_kernelPages k)
    (k_kernelPageTable k) (k_name0 k) (k_entry_addr k) (k_elf_addr k) (k_prog_addr k) (k_uart k) (k_polls k) p).

(** [proc->trapFrame->epc += 4] *)
Definition skip_instruction (x : Proc) : M (TrapState S) unit :=
  epc ← on_kernel_machine (get_tf (trapFrame x) tf_epc);
  on_kernel_machine (set_tf (trapFrame x) tf_epc (u64 (epc + 4))).

(** [arch::write_sstatus(arch::read_sstatus() | SSTATUS_SIE)]; from here on
    interrupts may be taken. *)
Definition enable_interrupts : M (TrapState S) unit :=
  st ← read_sstatus;
  write_sstatus (Z.lor st Riscv.SSTATUS_SIE) ;;
  interrupts.

(** What [userTrap] does about the cause: whether it goes on to return to the
    user program. *)
Definition handle_user (p : positive) (x : Proc) (scause : Z) : M (TrapState S) bool :=
  if scause =? 0x08 then
    skip_instruction x ;; enable_interrupts ;; do_syscall p
  else if scause =? 0x0F then
    skip_instruction x ;;
    enable_interrupts ;;
    stval ← on_regs Riscv.read_stval;
    on_kernel_machine (growMemory (k_kernelPages k) p stval) ;;
    mret true
  else
    cause ← which scause;
    (if decide (cause = Unexpected) then
       console_printf user_message [] ;;
       sepc ← on_regs Riscv.read_sepc;
       stval ← on_regs Riscv.read_stval;
       console_printf user_format [ArgPtr scause; ArgPtr sepc; ArgPtr stval; ArgInt (ppid x)] ;;
       trap_panic
     else if decide (cause = Timer) then yield
     else mret tt) ;;
    mret true.

(** [userTrap]: the user program it returns to, unless the process has left. *)
Definition userTrap : M (TrapState S) (option (Z * Z)) :=
  st ← read_sstatus;
  assert (negb (Riscv.has st Riscv.SSTATUS_SPP)) ;;
  on_regs (Riscv.write_stvec (k_kernelVector k)) ;;
  p ← current_proc;
  x ← on_kernel_machine (get_proc p);
  epc ← on_regs Riscv.read_sepc;
  on_kernel_machine (set_tf (trapFrame x) tf_epc epc) ;;
  scause ← on_regs Riscv.read_scause;
  back ← handle_user p x scause;
  if (back : bool) then r ← returnUserTrap; mret (Some r) else mret None.

(** *** The processor *)

(** An interrupt is taken in the kernel, which was at [pc]. *)
Definition take_interrupt (pc cause : Z) : M (TrapState S) unit :=
  st ← read_sstatus;
  modify (λ s, set_regs (Riscv.taken_regs pc cause (regs s)) s) ;;
  write_sstatus (Riscv.taken_status true st).

(** [sret]: the place the processor goes to. *)
Definition sret : M (TrapState S) Z :=
  st ← read_sstatus;
  write_sstatus (Riscv.returned_status st) ;;
  on_regs Riscv.read_sepc.

(** One interrupt of the kernel, from being taken to the return. *)
Definition interrupted (pc cause : Z) : M (TrapState S) Z :=
  take_interrupt pc cause ;; kernelTrap ;; sret.
End operations.

(** ** Lemmas *)

Section rules.
Context {S : Type}.
Variable k : Config.

Definition machine_of (s : TrapState S) : Machine S := machine (system s).

Definition hart_of (s : TrapState S) : option Scheduler.Hart :=
  Scheduler.harts (sched (machine_of s)) !! k_tp k.

(** The status register of the hart. *)
Definition status_of (s : TrapState S) : option Z := SpinMutex.sstatus ∘ Scheduler.cpu <$> hart_of s.

(** The state with another status register. *)
Definition with_status (x : Z) (s : TrapState S) : TrapState S :=
  let m := machine_of s in
  set_system (mkSystem (set_sched (Scheduler.set_harts
    (alter (put_sstatus x) (k_tp k) (Scheduler.harts (sched m))) (sched m)) m) (syscallMap (system s))) s.

Lemma read_sstatus_eq s : read_sstatus k s =
  match status_of s with Some x => Ok (x, s) | None => Err OutOfRange end.
Proof.
  unfold read_sstatus, status_of, hart_of, on_scheduler, on_kernel_machine, on_system, on_machine, on_sched,
    mbind, M_bind, Scheduler.this_hart, machine_of.
  destruct s as [r b t sc [[f sch d np ip] tab]]. simpl. by destruct (Scheduler.harts sch !! k_tp k).
Qed.

Lemma read_sstatus_ok s x s' : read_sstatus k s = Ok (x, s') → s' = s ∧ status_of s = Some x.
Proof. rewrite read_sstatus_eq. destruct (status_of s); naive_solver. Qed.

Lemma write_sstatus_eq x s : write_sstatus k x s = Ok (tt, with_status x s).
Proof. done. Qed.

Lemma status_with x s : status_of (with_status x s) = (λ _, x) <$> status_of s.
Proof.
  unfold status_of, hart_of, with_status. simpl. rewrite lookup_alter_eq.
  by destruct (Scheduler.harts _ !! _).
Qed.

Lemma on_regs_eq {A} (c : M Riscv.Regs A) (s : TrapState S) a m : c (regs s) = Ok (a, m) → on_regs c s = Ok (a, set_regs m s).
Proof. unfold on_regs. by intros ->. Qed.

Lemma set_regs_id (s : TrapState S) : set_regs (regs s) s = s.
Proof. by destruct s. Qed.

Lemma read_reg_eq r (s : TrapState S) : on_regs (Riscv.read r) s = Ok (regs s r, s).
Proof. unfold on_regs, Riscv.read, gets. by rewrite set_regs_id. Qed.

Lemma write_reg_eq r x (s : TrapState S) : on_regs (Riscv.write r x) s = Ok (tt, set_regs (Riscv.update r x (regs s)) s).
Proof. done. Qed.

(** What runs in the kernel proper touches neither the registers nor the bus. *)
Lemma on_kernel_machine_inv {A} (c : M (Machine S) A) (s : TrapState S) a s' : on_kernel_machine c s = Ok (a, s') →
  ∃ m, c (machine_of s) = Ok (a, m) ∧ s' = set_system (mkSystem m (syscallMap (system s))) s.
Proof.
  unfold on_kernel_machine, on_system, on_machine, machine_of.
  destruct (c (machine (system s))) as [[b m]|]; naive_solver.
Qed.

Lemma keeps_bus_kernel {A} (c : M (Machine S) A) : keeps bus (on_kernel_machine c).
Proof. by intros s a s' (m & _ & ->)%on_kernel_machine_inv. Qed.

Lemma take_interrupt_ok pc cause s s' st : status_of s = Some st →
  take_interrupt k pc cause s = Ok (tt, s') →
  status_of s' = Some (Riscv.taken_status true st) ∧ regs s' = Riscv.taken_regs pc cause (regs s).
Proof.
  intros Hst Hrun. unfold take_interrupt in Hrun. run_inv Hrun.
  apply read_sstatus_ok in Hrun0 as [-> Est]. rewrite Hst in Est. injection Est as <-.
  injection Hrun1 as _ <-. rewrite write_sstatus_eq in Hrun. injection Hrun as <-. split; [|done].
  rewrite status_with. change (status_of (set_regs _ s)) with (status_of s). by rewrite Hst.
Qed.

(** [kernelTrap] restores the two registers a trap overwrites. *)
Lemma kernelTrap_restores diskInterrupt uart_fuel away s s' :
  kernelTrap k diskInterrupt uart_fuel away s = Ok (tt, s') →
  regs s' Riscv.Sepc = regs s Riscv.Sepc ∧
  ∃ st, status_of s = Some st ∧ ∀ x, status_of s' = Some x → x = st.
Proof.
  intros Hrun. unfold kernelTrap, Riscv.read_sepc in Hrun. run_inv Hrun.
  rewrite read_reg_eq in Hrun0. injection Hrun0 as <- <-.
  apply read_sstatus_ok in Hrun1 as [-> Est].
  rewrite write_sstatus_eq in Hrun. injection Hrun as <-.
  match goal with Hw : on_regs (Riscv.write_sepc _) _ = _ |- _ => injection Hw as _ <- end.
  split; [by apply Riscv.update_eq|]. exists a0. split; [done|]. intros x.
  rewrite status_with. intros (y & _ & E)%fmap_Some. exact E.
Qed.
(** *** The memory of the kernel, seen from here *)

Definition mem (s : TrapState S) : pmem := kmem (kern (machine_of s)).

Definition with_mem (m : pmem) (s : TrapState S) : TrapState S :=
  set_system (mkSystem (set_kern (set_kmem m (kern (machine_of s))) (machine_of s)) (syscallMap (system s))) s.

Lemma set_tf_eq tf off x s :
  on_kernel_machine (set_tf tf off x) s = Ok (tt, with_mem (st64 (mem s) (tf + off) x) s).
Proof. done. Qed.

Lemma get_tf_eq tf off s : on_kernel_machine (get_tf tf off) s = Ok (ld64 (mem s) (tf + off), s).
Proof. by destruct s as [r b t sc [[[[? ? ? ?] ? ? ?] ? ? ? ?] ?]]. Qed.

Lemma get_proc_eq p x s : data (machine_of s) !! p = Some x →
  on_kernel_machine (get_proc p) s = Ok (x, s).
Proof.
  intros Hp. unfold on_kernel_machine, on_system, on_machine, get_proc. unfold machine_of in Hp.
  rewrite Hp. by destruct s as [? ? ? ? []].
Qed.

Lemma current_proc_eq t p s : hart_of s = Some t → Scheduler.current t = Some p →
  current_proc k s = Ok (p, s).
Proof.
  unfold hart_of, machine_of. intros Ht Hc.
  unfold current_proc, on_scheduler, on_kernel_machine, on_system, on_machine, on_sched,
    Scheduler.current_process, mbind, M_bind, Scheduler.this_hart.
  rewrite Ht, Hc. by destruct s as [? ? ? ? [[] ?]].
Qed.

(** The members [returnUserTrap] stores, and the rest of memory. *)
Lemma trap_frame_stored (m : pmem) tf a b c d :
  let m' := st64 (st64 (st64 (st64 m (tf + tf_kernel_satp) a) (tf + tf_kernel_sp) b)
    (tf + tf_kernel_trap) c) (tf + tf_kernel_hartid) d in
  ld64 m' (tf + tf_kernel_satp) = u64 a ∧ ld64 m' (tf + tf_kernel_sp) = u64 b ∧
  ld64 m' (tf + tf_kernel_trap) = u64 c ∧ ld64 m' (tf + tf_kernel_hartid) = u64 d ∧
  ld64 m' (tf + tf_epc) = ld64 m (tf + tf_epc) ∧
  ∀ i, i < tf ∨ tf + 40 <= i → ld8 m' i = ld8 m i.
Proof.
  unfold tf_kernel_satp, tf_kernel_sp, tf_kernel_trap, tf_kernel_hartid, tf_epc.
  assert (∀ (n : pmem) x y, ld64 (st64 n x y) x = u64 y) as He by (intros; by apply ldN_stN_eq).
  assert (∀ (n : pmem) x y z, z + 8 <= x ∨ x + 8 <= z → ld64 (st64 n x y) z = ld64 n z) as Hn.
  { intros n x y z Hz. apply ldN_stN_ne. simpl. lia. }
  cbv zeta. split_and!.
  - rewrite !Hn by lia. apply He.
  - rewrite !(Hn _ _ _ (tf + 8)) by lia. apply He.
  - rewrite !(Hn _ _ _ (tf + 16)) by lia. apply He.
  - apply He.
  - by rewrite !(Hn _ _ _ (tf + 24)) by lia.
  - intros i Hi. by rewrite !ld8_stN_ne by (simpl; lia).
Qed.

(** The state [returnUserTrap] leaves, when the status is [st]. *)
Definition returned_state (st : Z) (x : Proc) (s : TrapState S) : TrapState S :=
  let tf := trapFrame x in
  let m := st64 (st64 (st64 (st64 (mem s) (tf + tf_kernel_satp) (regs s Riscv.Satp))
    (tf + tf_kernel_sp) (u64 (kernelStack x + PAGE_SIZE))) (tf + tf_kernel_trap) (k_userTrap k))
    (tf + tf_kernel_hartid) (k_tp k) in
  let s1 := with_status (Z.land st (Z.lnot Riscv.SSTATUS_SIE)) s in
  let s2 := with_mem m (set_regs (Riscv.update Riscv.Stvec (in_trampoline k (k_userVector k)) (regs s1)) s1) in
  let s3 := with_status (Z.lor (Z.land (Z.land st (Z.lnot Riscv.SSTATUS_SIE)) (Z.lnot Riscv.SSTATUS_SPP))
    Riscv.SSTATUS_SPIE) s2 in
  set_regs (Riscv.update Riscv.Sepc (ld64 m (tf + tf_epc)) (regs s3)) s3.

Lemma runs_returnUserTrap s t p x (Q : Z * Z → TrapState S → Prop) :
  hart_of s = Some t → Scheduler.current t = Some p → data (machine_of s) !! p = Some x →
  Q (in_trampoline k (k_returnUser k), makeSatp (ppageTable x))
    (returned_state (SpinMutex.sstatus (Scheduler.cpu t)) x s) →
  runs (returnUserTrap k) s Q.
Proof.
  intros Ht Hc Hp HQ. unfold runs, returnUserTrap.
  assert (status_of s = Some (SpinMutex.sstatus (Scheduler.cpu t))) as Hst
    by (unfold status_of; by rewrite Ht).
  set (st := SpinMutex.sstatus (Scheduler.cpu t)) in *.
  rewrite (bind_ok _ _ _ _ _ (current_proc_eq t p s Ht Hc)).
  rewrite (bind_ok _ _ _ _ _ (get_proc_eq p x s Hp)).
  assert (read_sstatus k s = Ok (st, s)) as E by (by rewrite read_sstatus_eq, Hst).
  rewrite (bind_ok _ _ _ _ _ E). clear E. rewrite (bind_ok _ _ _ _ _ (write_sstatus_eq _ _)).
  set (s1 := with_status _ s).
  assert (status_of s1 = Some (Z.land st (Z.lnot Riscv.SSTATUS_SIE))) as Hst1.
  { unfold s1. by rewrite status_with, Hst. }
  unfold Riscv.write_stvec, Riscv.read_satp, Riscv.write_sepc.
  rewrite (bind_ok _ _ _ _ _ (write_reg_eq _ _ _)). rewrite (bind_ok _ _ _ _ _ (read_reg_eq _ _)).
  do 4 rewrite (bind_ok _ _ _ _ _ (set_tf_eq _ _ _ _)).
  set (s2 := with_mem _ _).
  assert (read_sstatus k s2 = Ok (Z.land st (Z.lnot Riscv.SSTATUS_SIE), s2)) as E.
  { rewrite read_sstatus_eq. change (status_of s2) with (status_of s1). by rewrite Hst1. }
  rewrite (bind_ok _ _ _ _ _ E). cbv zeta. rewrite (bind_ok _ _ _ _ _ (write_sstatus_eq _ _)).
  rewrite (bind_ok _ _ _ _ _ (get_tf_eq _ _ _)). rewrite (bind_ok _ _ _ _ _ (write_reg_eq _ _ _)).
  exact HQ.
Qed.

Lemma status_returned st x s : status_of (returned_state st x s) =
  (λ _, Z.lor (Z.land (Z.land st (Z.lnot Riscv.SSTATUS_SIE)) (Z.lnot Riscv.SSTATUS_SPP)) Riscv.SSTATUS_SPIE)
    <$> status_of s.
Proof.
  unfold returned_state. cbv zeta.
  match goal with |- status_of (set_regs _ ?y) = _ => change (status_of (set_regs _ y)) with (status_of y) end.
  rewrite status_with.
  match goal with |- _ <$> status_of (with_mem _ (set_regs _ ?y)) = _ =>
    change (status_of (with_mem _ (set_regs _ y))) with (status_of y) end.
  rewrite status_with. by destruct (status_of s).
Qed.
End rules.

(** *** A concrete machine, for the witnesses

    Hart 0 runs the process of [demo_machine] when [running] holds and is idle
    otherwise; the status register is [st]. *)

Definition demo_config : Config :=
  mkConfig 0 Z.abs (λ _, 0) 0x500000 0x500100 0x500200 (λ h, 0x500300 + 40 * h) 0x80001000 0x80002000 0x300000
    0x300000 0x300090 0x80003000 0x1000 0x103000 (replicate 14 0) 0x400000 0x400100 0x400200 (λ _ _, 0x20) 100
    (λ _ a, if a =? PLIC + 0x201004 then 10 else 0).

Definition demo_trap (running : bool) (st : Z) : TrapState BufferCache :=
  let hart := Scheduler.mkHart (SpinMutex.mkCpu 0 false st) (if running then Some 1%positive else None)
    (if running then Some 1%positive else None) (if running then Scheduler.Free else Scheduler.Inner) in
  mkTrap (λ _, 0) [] 0 (replicate 8 (replicate 5 0))
    (mkSystem (set_sched (Scheduler.set_harts {[0 := hart]} (sched demo_machine)) demo_machine) initialize).

(** ** Properties *)

(** An interrupt does not disturb the kernel code it interrupts.  When the
    hart is in the kernel with interrupts on, takes an interrupt of any cause at
    [pc], handles it and returns, it is back at [pc] with interrupts on and every
    bit of the status register as it was except those the processor itself
    changes, whatever other harts and processes did while the process was
    switched away. *)
Theorem interrupt_transparent {S P : Type} `{BufferOps S P} (k : Config) (diskInterrupt : M S unit)
    (uart_fuel : nat) (away : M (TrapState S) unit) (s s' : TrapState S) (pc pc' cause st : Z)
    (Hst : status_of k s = Some st) (Hon : Riscv.has st Riscv.SSTATUS_SIE = true)
    (Hrun : interrupted k diskInterrupt uart_fuel away pc cause s = Ok (pc', s')) :
  pc' = pc ∧ ∃ st', status_of k s' = Some st' ∧
    ∀ j, 0 <= j → Z.testbit st' j =
      if decide (j = 5) then true else if decide (j = 8) then false else Z.testbit st j.
Proof.
  unfold interrupted in Hrun. run_inv Hrun. destruct a, a0.
  apply (take_interrupt_ok k pc cause s s0 st Hst) in Hrun0 as [Hst0 Hr0].
  apply kernelTrap_restores in Hrun1 as [Hr1 (st1 & Hst1 & Hx)].
  rewrite Hst0 in Hst1. injection Hst1 as <-.
  unfold sret, Riscv.read_sepc in Hrun. run_inv Hrun. apply read_sstatus_ok in Hrun0 as [-> Est].
  rewrite write_sstatus_eq in Hrun1. injection Hrun1 as _ <-.
  rewrite read_reg_eq in Hrun. injection Hrun as <- <-.
  split; [simpl; by rewrite Hr1, Hr0|]. apply Hx in Est as E. subst.
  eexists. split; [by rewrite status_with, Est|]. intros j Hj. by apply Riscv.returned_taken.
Qed.

Definition demo_timer : M (TrapState BufferCache) Z :=
  interrupted demo_config (mret tt) 1 (mret tt) 0x80000000 0x8000000000000001.

(** A clock interrupt of an idle hart. *)
Lemma interrupt_transparent_witness : ∃ s' st',
  demo_timer (demo_trap false 2) = Ok (0x80000000, s') ∧ status_of demo_config s' = Some st' ∧
  Z.testbit st' 1 = true ∧ ticks s' = 1.
Proof.
  assert (fst <$> result_value (demo_timer (demo_trap false 2)) = Some 0x80000000) as E by by vm_compute.
  assert (ticks ∘ snd <$> result_value (demo_timer (demo_trap false 2)) = Some 1) as Et by by vm_compute.
  revert E Et. destruct (demo_timer (demo_trap false 2)) as [[r s']|] eqn:Er; [|done].
  intros [= ->] [= Et].
  destruct (interrupt_transparent demo_config (mret tt) 1 (mret tt) (demo_trap false 2) s' 0x80000000 0x80000000
    0x8000000000000001 2 ltac:(by vm_compute) ltac:(by vm_compute) Er) as (_ & st' & Es & Hb).
  exists s', st'. split_and!; [done|done| |done]. by rewrite Hb.
Defined.

Lemma match_irq {A} (x y z : A) irq :
  match irq with 10 => x | 1 => y | _ => z end = if irq =? 10 then x else if irq =? 1 then y else z.
Proof. destruct irq as [|p|p]; try done. do 4 (destruct p as [p|p|]; try done). Qed.

(** C27: every claimed interrupt is served by its driver and completed.  An
    external interrupt claims the interrupt controller's request once; in the
    state after the claim the handler of that request runs, [uartInterrupt] of the
    console for the UART (request 10), [diskInterrupt] for the disk (request 1)
    and a message for any other number; then the same request is completed, which
    is left out exactly when there was none, and these are the only accesses to
    the interrupt controller. *)
Theorem claimed_interrupt_completed {S : Type} (k : Config) (diskInterrupt : M S unit) (uart_fuel : nat)
    (scause : Z) (s s' : TrapState S) (c : Cause)
    (Hext : Riscv.has scause 0x8000000000000000 && (Z.land scause 0xff =? 9) = true)
    (Hrun : which k diskInterrupt uart_fuel scause s = Ok (c, s')) :
  let irq := u32 (k_bus k (bus s) (claim_address k)) in
  c = Plic ∧
  (∃ s1, match irq with
      | 10 => on_kernel_machine (on_files (on_console (uartInterrupt (k_uart k) (k_polls k) uart_fuel)))
      | 1 => on_kernel_machine (on_fs (on_cache diskInterrupt))
      | _ => console_printf k irq_format [ArgInt irq]
      end (set_bus (bus s ++ [Uart.Read (claim_address k)]) s) = Ok (tt, s1) ∧
    s' = if irq =? 0 then s1 else set_bus (bus s1 ++ [Uart.Write (claim_address k) irq]) s1) ∧
  bus s' = bus s ++ Uart.Read (claim_address k) ::
    (if irq =? 0 then [] else [Uart.Write (claim_address k) irq]).
Proof.
  intros irq. unfold which in Hrun. unfold Riscv.has in Hext. rewrite Hext in Hrun. run_inv Hrun.
  injection Hrun as <- <-. injection Hrun0 as <- <-. fold irq in Hrun1, Hrun2. split; [done|].
  assert (keeps bus (serve k diskInterrupt uart_fuel irq)) as Hk.
  { unfold serve, console_printf. repeat case_match; apply keeps_bus_kernel. }
  pose proof (Hk _ _ _ Hrun1) as Hb.
  destruct a0, a1.
  assert (s2 = if irq =? 0 then s1 else set_bus (bus s1 ++ [Uart.Write (claim_address k) irq]) s1) as Es'.
  { destruct (irq =? 0); simpl in Hrun2; injection Hrun2 as <-; [done|]. unfold irq. by rewrite wrap_wrap. }
  split.
  - exists s1. split; [|exact Es']. rewrite match_irq. exact Hrun1.
  - rewrite Es'. destruct (irq =? 0); simpl; rewrite Hb; simpl; [done|]. by rewrite <- app_assoc.
Qed.

(** The UART requests, and has no byte. *)
Lemma claimed_interrupt_completed_witness : ∃ s' s1,
  which demo_config (mret tt) 1 0x8000000000000009 (demo_trap false 0) = Ok (Plic, s') ∧
  on_kernel_machine (on_files (on_console (uartInterrupt (k_uart demo_config) (k_polls demo_config) 1)))
    (set_bus [Uart.Read (PLIC + 0x201004)] (demo_trap false 0)) = Ok (tt, s1) ∧
  bus s' = [Uart.Read (PLIC + 0x201004); Uart.Write (PLIC + 0x201004) 10].
Proof.
  assert (fst <$> result_value (which demo_config (mret tt) 1 0x8000000000000009 (demo_trap false 0)) = Some Plic)
    as E by by vm_compute.
  revert E. destruct (which demo_config (mret tt) 1 0x8000000000000009 (demo_trap false 0)) as [[c s']|] eqn:Er; [|done].
  intros [= ->].
  destruct (claimed_interrupt_completed demo_config (mret tt) 1 0x8000000000000009 (demo_trap false 0) s' Plic
    ltac:(by vm_compute) Er) as [_ [(s1 & Hs1 & _) Hb]].
  exists s', s1. split; [reflexivity|]. split; [exact Hs1|exact Hb].
Defined.

(** C26: the way back to a user program.  For a hart that runs a process,
    [returnUserTrap] always ends in the trampoline's return code with the page
    table of the process; its [sret] then goes to user mode, to the [epc] of the
    trap frame, with interrupts on; the next trap goes to the trampoline's entry
    code, which finds the kernel's page table, the top of the process's kernel
    stack, [userTrap] and the hart in the frame; nothing else in memory changed. *)
Theorem return_to_user {S : Type} (k : Config) (s : TrapState S) (t : Scheduler.Hart) (p : positive)
    (x : Proc) (Hhart : hart_of k s = Some t) (Hcur : Scheduler.current t = Some p)
    (Hproc : data (machine_of s) !! p = Some x) :
  ∃ s' st', returnUserTrap k s = Ok ((in_trampoline k (k_returnUser k), makeSatp (ppageTable x)), s') ∧
    status_of k s' = Some st' ∧ Riscv.has st' Riscv.SSTATUS_SIE = false ∧
    Riscv.has (Riscv.returned_status st') Riscv.SSTATUS_SIE = true ∧
    Riscv.has st' Riscv.SSTATUS_SPP = false ∧
    regs s' Riscv.Sepc = ld64 (mem s) (trapFrame x + tf_epc) ∧
    regs s' Riscv.Stvec = in_trampoline k (k_userVector k) ∧
    ld64 (mem s') (trapFrame x + tf_kernel_satp) = u64 (regs s Riscv.Satp) ∧
    ld64 (mem s') (trapFrame x + tf_kernel_sp) = u64 (kernelStack x + PAGE_SIZE) ∧
    ld64 (mem s') (trapFrame x + tf_kernel_trap) = u64 (k_userTrap k) ∧
    ld64 (mem s') (trapFrame x + tf_kernel_hartid) = u64 (k_tp k) ∧
    ∀ i, i < trapFrame x ∨ trapFrame x + 40 <= i → ld8 (mem s') i = ld8 (mem s) i.
Proof.
  set (st := SpinMutex.sstatus (Scheduler.cpu t)).
  assert (status_of k s = Some st) as Hst by (unfold status_of; by rewrite Hhart).
  destruct (runs_inv (returnUserTrap k) s (λ r s', r = (in_trampoline k (k_returnUser k), makeSatp (ppageTable x)) ∧
    s' = returned_state k st x s)) as (r & s' & E & -> & ->).
  { by apply (runs_returnUserTrap k s t p x). }
  exists (returned_state k st x s), (Z.lor (Z.land (Z.land st (Z.lnot Riscv.SSTATUS_SIE)) (Z.lnot Riscv.SSTATUS_SPP))
    Riscv.SSTATUS_SPIE).
  destruct (trap_frame_stored (mem s) (trapFrame x) (regs s Riscv.Satp) (u64 (kernelStack x + PAGE_SIZE))
    (k_userTrap k) (k_tp k)) as (E1 & E2 & E3 & E4 & E5 & E6).
  split; [exact E|]. split; [by rewrite status_returned, Hst|].
  rewrite wrap_wrap in E2.
  destruct (Riscv.user_status st) as (B1 & B2 & B3). split_and!; try done.
Qed.

Lemma return_to_user_witness : ∃ s',
  returnUserTrap demo_config (demo_trap true 0x102) = Ok ((in_trampoline demo_config 0x300090, makeSatp 0x101000), s') ∧
  regs s' Riscv.Stvec = TRAMPOLINE.
Proof.
  destruct (return_to_user demo_config (demo_trap true 0x102)
    (Scheduler.mkHart (SpinMutex.mkCpu 0 false 0x102) (Some 1%positive) (Some 1%positive) Scheduler.Free)
    1 demo_proc eq_refl eq_refl eq_refl) as (s' & st' & E & _ & _ & _ & _ & _ & Es & _).
  exists s'. split; [exact E|]. rewrite Es. by vm_compute.
Defined.

(** The process of [demo_trap] with a page of memory, and a store at address
    [0x2000] that faults at [0x40]. *)
Definition demo_store_fault : TrapState BufferCache :=
  match on_kernel_machine (growMemory 0x1000 1 0x1000) (demo_trap true 0) with
  | Ok (_, s) => set_regs (Riscv.update Riscv.Scause 0x0F (Riscv.update Riscv.Stval 0x2000
      (Riscv.update Riscv.Sepc 0x40 (regs s)))) s
  | Err _ => demo_trap true 0
  end.

Definition demo_user_trap (interrupts : M (TrapState BufferCache) unit) : M (TrapState BufferCache) (option (Z * Z)) :=
  userTrap demo_config (mret tt) 1 (mret tt) interrupts.

(** The size of the process's memory and the address it goes on at. *)
Definition resumed (c : M (TrapState BufferCache) (option (Z * Z))) : option (Z * Z) :=
  match c demo_store_fault with
  | Ok (Some _, s) =>
      match data (machine_of s) !! 1%positive with
      | Some x => Some (memorySize x, regs s Riscv.Sepc)
      | None => None
      end
  | _ => None
  end.

(** A store that faults.  The memory of the process grows to the address, the
    program goes on behind the store, which is never carried out; and an
    interrupt between the enabling of interrupts and the reading of [stval]
    makes the same fault take all memory from the process. *)
Theorem store_fault_depends_on_interrupts :
  resumed (demo_user_trap (mret tt)) = Some (0x2000, 0x44) ∧
  resumed (demo_user_trap (interrupted demo_config (mret tt) 1 (mret tt) 0x80004000 0x8000000000000009 ;; mret tt))
    = Some (0, 0x44).
Proof. by vm_compute. Qed.

End Trap.
