(* ===== verification/ForkChild.v ===== *)
(** * How a forked process starts

    [returnFork] of [kernel/process/process.cpp], where the first switch to a
    process goes, and what the child of [fork] finds there: it goes on in user
    mode behind the system call of its parent, with the result 0. *)

From S2P Require Import Prelude Riscv HashMap Address Page PageTable Uvm SpinMutex Ring Uart Console Buffer FsState Log Block Inode File Scheduler Process Exec Syscall Trap.
Import Address Page PageTable Uvm Uart Console Buffer FsState Block Inode File Process Exec Syscall Trap.

#[local] Open Scope Z_scope.

Module ForkChild.

(** ** Definitions *)

Section operations.
Context {S P : Type} `{BufferOps S P}.
Variable k : Config.

(** [returnFork]: the flag [first] afterwards, and where [returnUserTrap] goes. *)
Definition returnFork (first : bool) : M (TrapState S) (bool * (Z * Z)) :=
  p ← current_proc k;
  on_scheduler (Scheduler.unlock (k_tp k) (Scheduler.ProcessLock p)) ;;
  (if first then on_kernel_machine (on_fs (initializeFs ROOT_DEVICE)) else mret tt) ;;
  r ← returnUserTrap k;
  mret (false, r).
End operations.

(** ** Lemmas *)

Section frame.
Context {S : Type}.
Implicit Types s : Machine S.

Definition umem s : pmem := kmem (kern s).

(** The memory, and the trap frames of all processes. *)
Definition frames s : pmem * gmap positive Z := (umem s, trapFrame <$> data s).

Lemma keeps_frames_sched {A} (c : M Scheduler.Kernel A) : keeps frames (on_sched (S := S) c).
Proof. intros s a s' E. unfold on_sched in E. destruct (c (sched s)) as [[]|]; [|done]. by injection E as _ <-. Qed.

Lemma keeps_frames_proc q : keeps frames (get_proc (S := S) q).
Proof. intros s a s' E. unfold get_proc in E. destruct (data s !! q); [|done]. by injection E as _ <-. Qed.

Lemma keeps_frames_change q g : (∀ x, trapFrame (g x) = trapFrame x) → keeps frames (change_proc (S := S) q g).
Proof.
  intros Hg s a s' (x & Ex & ->)%change_proc_inv. unfold frames. f_equal. simpl.
  rewrite fmap_insert, Hg. apply insert_id. by rewrite lookup_fmap, Ex.
Qed.

Lemma keeps_frames_files {A} (c : M (FileState S) A) : keeps (kernel ∘ ifs) c → keeps frames (on_files c).
Proof.
  intros Hc s a s' (y & E & ->)%on_files_inv. apply Hc in E. simpl in E.
  unfold frames, umem, kern. simpl. by rewrite E.
Qed.

Lemma keeps_deref_file f : keeps (kernel ∘ ifs) (deref_file (S := S) f).
Proof. intros s a s' E. unfold deref_file in E. destruct (files s !! f); [|done]. by injection E as _ <-. Qed.

Lemma keeps_change_file f g : keeps (kernel ∘ ifs) (change_file (S := S) f g).
Proof. apply keeps_bind; [apply keeps_deref_file|]. intros x. by apply keeps_modify. Qed.

Lemma keeps_frames_dup f : keeps frames (on_files (S := S) (File.dup f)).
Proof.
  apply keeps_frames_files. apply keeps_bind; [apply keeps_deref_file|]. intros x.
  apply keeps_bind; [apply keeps_assert|]. intros _.
  apply keeps_bind; [apply keeps_change_file|]. intros _. apply keeps_ret.
Qed.

Lemma keeps_frames_dup_files l p : keeps frames (dup_files (S := S) l p).
Proof.
  induction l as [|[f|] l IH]; cbn [dup_files]; [apply keeps_ret| |].
  - apply keeps_bind; [apply keeps_frames_dup|]. intros f'. apply keeps_bind; [by apply keeps_frames_change|]. by intros _.
  - apply keeps_bind; [by apply keeps_frames_change|]. by intros _.
Qed.

Lemma keeps_frames_idup this : keeps frames (with_process (S := S) this (λ _ _ dir, idup dir)).
Proof.
  unfold with_process. apply keeps_bind; [apply keeps_frames_proc|]. intros x.
  apply keeps_bind; [apply keeps_gets|]. intros dir. apply keeps_frames_files.
  intros s a s' E. unfold on_ifs in E.
  destruct (idup dir (ifs s)) as [[b i]|] eqn:Ei; [|done]. injection E as _ <-. simpl.
  assert (keeps kernel (idup (S := S) dir)) as Hk; [|by apply Hk in Ei].
  apply keeps_bind; [|intros _; apply keeps_ret].
  apply keeps_bind; [|intros y; by apply keeps_modify].
  intros z c z' E. unfold Inode.deref in E. destruct (cells z !! dir); [|done]. by injection E as _ <-.
Qed.

Lemma frames_inv {A B} (c : M (Machine S) A) (k : A → M (Machine S) B) s r :
  (c ≫= k) s = Ok r → keeps frames c → ∃ a s', frames s' = frames s ∧ k a s' = Ok r.
Proof. intros (a & s' & E1 & E2)%bind_inv Hk. exists a, s'. split; [exact (Hk _ _ _ E1)|done]. Qed.

(** Every member of the frame but [a0] is copied. *)
Lemma copied_frame (m : pmem) tx ty off :
  ty + TRAP_FRAME_SIZE <= tx ∨ tx + TRAP_FRAME_SIZE <= ty →
  0 <= off → off + 8 <= TRAP_FRAME_SIZE → off + 8 <= tf_a 0 ∨ tf_a 0 + 8 <= off →
  let m' := st64 (put_bytes m ty (get_bytes (Z.to_nat TRAP_FRAME_SIZE) m tx)) (ty + tf_a 0) 0 in
  ld64 m' (ty + off) = ld64 m' (tx + off).
Proof.
  intros Hd H0 Hs Ha m'. subst m'.
  assert (TRAP_FRAME_SIZE = 288 ∧ tf_a 0 = 112) as [E1 E2] by done. rewrite E1, E2 in *.
  rewrite !ldN_stN_ne by (simpl; lia). apply ldN_ext. intros i Hi. simpl in Hi.
  rewrite <- !Z.add_assoc.
  rewrite ld8_put_bytes_eq by (rewrite ?length_get_bytes; done || lia).
  rewrite ld8_put_bytes_ne by (rewrite length_get_bytes; lia).
  rewrite lookup_get_bytes by lia. simpl. rewrite Z2Nat.id by lia. apply Z.mod_small, ld8_byte.
Qed.

Lemma on_mem_data {A} (c : M KMem A) s a s' : on_mem c s = Ok (a, s') → data s' = data s.
Proof. unfold on_mem. by intros (y & _ & ->)%on_files_inv. Qed.

Section fork.
Variables (tp : Z) (makeHash : Z → Z) (waitMutex trampoline kernelPageTable : Z) (this : positive).

(** The frames of parent and child after [fork]. *)
Lemma fork_frames p s s' : fork tp makeHash waitMutex trampoline kernelPageTable this s = Ok (p, s') →
  ∃ x y m, data s' !! this = Some x ∧ data s' !! p = Some y ∧
  umem s' = st64 (put_bytes m (trapFrame y) (get_bytes (Z.to_nat TRAP_FRAME_SIZE) m (trapFrame x)))
    (trapFrame y + tf_a 0) 0.
Proof.
  unfold fork. intros E. apply bind_inv in E as (p' & s1 & _ & E).
  apply bind_inv in E as (x & s2 & [Ex ->]%get_proc_inv & E).
  apply bind_inv in E as (y & s2 & [Ey ->]%get_proc_inv & E).
  apply bind_inv in E as (u1 & s2 & E1 & E).
  apply bind_inv in E as (u2 & s3 & E2 & E).
  apply bind_inv in E as (u3 & s4 & E3 & E).
  apply bind_inv in E as (u4 & s5 & E4 & E).
  assert (frames s' = frames s5 ∧ p' = p) as [Hf ->].
  { repeat (apply frames_inv in E as (? & ? & ? & E); [|solve [apply keeps_frames_dup_files|apply keeps_frames_idup
      |apply keeps_frames_sched|by apply keeps_frames_change]]). injection E as <- <-. split; [congruence|done]. }
  assert (frames s3 = frames s2) as Hf3 by by apply (keeps_frames_change p (set_memorySize (memorySize x))) in E2.
  pose proof (on_mem_data _ _ _ _ E1) as Hd2.
  injection E3 as _ <-. injection E4 as _ <-.
  assert (frames s' = (st64 (put_bytes (umem s3) (trapFrame y) (get_bytes (Z.to_nat TRAP_FRAME_SIZE) (umem s3) (trapFrame x)))
    (trapFrame y + tf_a 0) 0, trapFrame <$> data s1)) as Hfin.
  { rewrite Hf. unfold frames. f_equal. rewrite <- Hd2. exact (f_equal snd Hf3). }
  assert (∀ q z, data s1 !! q = Some z → ∃ z', data s' !! q = Some z' ∧ trapFrame z' = trapFrame z) as Hq.
  { intros q z Hz. pose proof (f_equal (λ m : gmap positive Z, m !! q) (f_equal snd Hfin)) as H. cbn in H.
    rewrite !lookup_fmap, Hz in H. apply fmap_Some in H as (z' & -> & ?). eauto. }
  destruct (Hq this x Ex) as (x' & Hx' & Etx). destruct (Hq p y Ey) as (y' & Hy' & Ety).
  exists x', y', (umem s3). split_and!; [done|done|]. rewrite Etx, Ety. exact (f_equal fst Hfin).
Qed.
End fork.
End frame.

Section switch.
Context {S : Type}.
Implicit Types t : TrapState S.

(** What the scheduler does leaves memory, processes and registers alone. *)
Lemma on_scheduler_kept {A} (c : M Scheduler.Kernel A) t a t' : on_scheduler c t = Ok (a, t') →
  mem t' = mem t ∧ data (machine_of t') = data (machine_of t) ∧ regs t' = regs t ∧
  c (sched (machine_of t)) = Ok (a, sched (machine_of t')).
Proof.
  intros E. unfold on_scheduler, on_kernel_machine, on_system, on_machine, on_sched in E. unfold machine_of.
  destruct (c (sched (machine (system t)))) as [[b z]|]; [|done]. by injection E as <- <-.
Qed.

(** Releasing a lock does not change the process of the hart. *)
Lemma unlock_current tp i (z z' : Scheduler.Kernel) h : Scheduler.unlock tp i z = Ok (tt, z') →
  Scheduler.harts z !! tp = Some h →
  ∃ h', Scheduler.harts z' !! tp = Some h' ∧ Scheduler.current h' = Scheduler.current h.
Proof.
  intros E Hh. unfold Scheduler.unlock, Scheduler.on_lock in E. rewrite Hh in E.
  destruct (Scheduler.get_lock z i) as [x|]; [|done].
  destruct (SpinMutex.unlock tp (Scheduler.cpu h, x)) as [[u [c' x']]|]; [|done]. injection E as <-.
  simpl. rewrite lookup_insert_eq. eauto.
Qed.
End switch.

(** ** Properties *)

(** C23: the child of [fork] returns 0.  When a process that was forked is switched
    to, and nobody has changed its trap frame since, [returnFork] goes to the
    trampoline with the page table of the child, with SPP clear, so that [sret]
    enters user mode, SIE clear until [sret] sets it, and [stvec] at the user
    vector for the next trap; the program goes on at the place of its parent,
    with the registers the parent had, except that [a0] is 0. *)
Theorem forked_child_returns_zero {S P : Type} `{BufferOps S P} (k : Config) (this p : positive)
    (s s' : Machine S) (x y z : Proc) (t t' : TrapState S) (h : Scheduler.Hart) (r : bool * (Z * Z))
    (Hfork : fork (k_tp k) (k_hash k) (k_waitMutex k) (k_trampoline k) (k_kernelPageTable k) this s = Ok (p, s'))
    (Hx : data s' !! this = Some x) (Hy : data s' !! p = Some y)
    (Hapart : trapFrame y + TRAP_FRAME_SIZE <= trapFrame x ∨ trapFrame x + TRAP_FRAME_SIZE <= trapFrame y)
    (Hhart : hart_of k t = Some h) (Hcur : Scheduler.current h = Some p)
    (Hz : data (machine_of t) !! p = Some z) (Hsame : trapFrame z = trapFrame y)
    (Hframe : ∀ i, 0 <= i < TRAP_FRAME_SIZE → ld8 (mem t) (trapFrame y + i) = ld8 (umem s') (trapFrame y + i))
    (Hrun : returnFork k false t = Ok (r, t')) :
  r = (false, (in_trampoline k (k_returnUser k), makeSatp (ppageTable z))) ∧
  (∃ st', status_of k t' = Some st' ∧ Riscv.has st' Riscv.SSTATUS_SPP = false ∧
    Riscv.has st' Riscv.SSTATUS_SIE = false ∧ Riscv.has (Riscv.returned_status st') Riscv.SSTATUS_SIE = true) ∧
  regs t' Riscv.Stvec = in_trampoline k (k_userVector k) ∧
  regs t' Riscv.Sepc = ld64 (umem s') (trapFrame x + tf_epc) ∧
  ld64 (mem t') (trapFrame y + tf_a 0) = 0 ∧
  ∀ off, 40 <= off → off + 8 <= TRAP_FRAME_SIZE → off + 8 <= tf_a 0 ∨ tf_a 0 + 8 <= off →
    ld64 (mem t') (trapFrame y + off) = ld64 (umem s') (trapFrame x + off).
Proof.
  destruct (fork_frames _ _ _ _ _ _ _ _ _ Hfork) as (x' & y' & m & Hx' & Hy' & Hm).
  rewrite Hx in Hx'. rewrite Hy in Hy'. injection Hx' as <-. injection Hy' as <-.
  assert (∀ off, 0 <= off → off + 8 <= TRAP_FRAME_SIZE →
    ld64 (mem t) (trapFrame y + off) = ld64 (umem s') (trapFrame y + off)) as Hmem.
  { intros off H0 H1. apply ldN_ext. intros i Hi. simpl in Hi. rewrite <- Z.add_assoc. apply Hframe. lia. }
  unfold returnFork in Hrun. rewrite (bind_ok _ _ _ _ _ (current_proc_eq k h p t Hhart Hcur)) in Hrun.
  apply bind_inv in Hrun as ([] & t1 & E1 & Hrun).
  destruct (on_scheduler_kept _ _ _ _ E1) as (Hm1 & Hd1 & _ & E1').
  destruct (unlock_current _ _ _ _ _ E1' Hhart) as (h1 & Hh1 & Hc1). rewrite Hcur in Hc1.
  apply bind_inv in Hrun as (u & t2 & [= _ <-] & Hrun). apply bind_inv in Hrun as (r' & t3 & E3 & [= <- <-]).
  destruct (runs_inv (returnUserTrap k) t1 (λ r s', r = (in_trampoline k (k_returnUser k), makeSatp (ppageTable z)) ∧
    s' = returned_state k (SpinMutex.sstatus (Scheduler.cpu h1)) z t1)) as (r2 & s2 & E & -> & ->).
  { apply (runs_returnUserTrap k t1 h1 p z); [done|done|by rewrite Hd1|done]. }
  rewrite E in E3. injection E3 as <- <-.
  destruct (trap_frame_stored (mem t1) (trapFrame z) (regs t1 Riscv.Satp) (u64 (kernelStack z + PAGE_SIZE))
    (k_userTrap k) (k_tp k)) as (_ & _ & _ & _ & E5 & E6).
  assert (status_of k t1 = Some (SpinMutex.sstatus (Scheduler.cpu h1))) as Hst by (unfold status_of, hart_of; by rewrite Hh1).
  assert (∀ off, 40 <= off → off + 8 <= TRAP_FRAME_SIZE →
    ld64 (mem (returned_state k (SpinMutex.sstatus (Scheduler.cpu h1)) z t1)) (trapFrame y + off) =
    ld64 (umem s') (trapFrame y + off)) as Hafter.
  { intros off H0 H1. rewrite <- Hmem, <- Hm1 by lia. rewrite <- Hsame. apply ldN_ext. intros i Hi. apply E6. lia. }
  destruct (Riscv.user_status (SpinMutex.sstatus (Scheduler.cpu h1))) as (B1 & B2 & B3).
  split_and!; [done|eexists; split; [by rewrite status_returned, Hst|]; by split_and!|done| | |].
  - trans (ld64 (mem t1) (trapFrame z + tf_epc)); [exact E5|]. rewrite Hm1, Hsame, Hmem by (unfold tf_epc, TRAP_FRAME_SIZE; lia).
    rewrite Hm. apply copied_frame; [done|unfold tf_epc, tf_a, TRAP_FRAME_SIZE; lia..].
  - rewrite Hafter by (unfold tf_a, TRAP_FRAME_SIZE; lia). rewrite Hm. by rewrite ldN_stN_eq.
  - intros off H0 H1 H2. rewrite Hafter by done. rewrite Hm. apply copied_frame; [done|lia|done|done].
Qed.


(** The child of [demo_opened]'s process, switched to by hart 0. *)
Definition demo_child (s : Machine BufferCache) : option (TrapState BufferCache) :=
  let hart := Scheduler.mkHart (SpinMutex.mkCpu 0 false 0) (Some 2%positive) (Some 2%positive) Scheduler.Resuming in
  let z := Scheduler.set_harts {[0 := hart]} (sched s) in
  snd <$> result_value (on_scheduler (Scheduler.lock 0 (Scheduler.ProcessLock 2))
    (mkTrap (λ _, 0) [] 0 (replicate 8 (replicate 5 0)) (mkSystem (set_sched z s) initialize))).

(** What the child is, and where it goes. *)
Definition demo_summary (r : result (positive * Machine BufferCache)) :=
  p_s ← result_value r;
  t ← demo_child p_s.2;
  h ← hart_of demo_config t;
  g ← result_value (returnFork demo_config false t);
  Some (p_s.1, trapFrame <$> data p_s.2 !! 1%positive, trapFrame <$> data p_s.2 !! 2%positive,
    ppageTable <$> data p_s.2 !! 2%positive, Scheduler.current h, g.1).

Lemma demo_child_kept s t : demo_child s = Some t →
  mem t = umem s ∧ data (machine_of t) = data s.
Proof.
  unfold demo_child. intros ([u t'] & E & ->)%fmap_Some.
  match type of E with result_value ?c = _ => destruct c as [[u' t2]|] eqn:Ec; [|done] end.
  injection E as <- <-. apply on_scheduler_kept in Ec as (Hm & Hd & _). split; [exact Hm|exact Hd].
Qed.

Lemma forked_child_returns_zero_witness : ∃ s' t t',
  fork 0 Z.abs 0x500000 0x300000 0x103000 1 demo_opened = Ok (2%positive, s') ∧ demo_child s' = Some t ∧
  returnFork demo_config false t = Ok ((false, (in_trampoline demo_config 0x300090, makeSatp 0x4000)), t') ∧
  (∃ st', status_of demo_config t' = Some st' ∧ Riscv.has st' Riscv.SSTATUS_SPP = false) ∧
  regs t' Riscv.Sepc = ld64 (umem s') (0x100000 + tf_epc) ∧ ld64 (mem t') (0x1000 + tf_a 0) = 0.
Proof.
  assert (demo_summary (fork 0 Z.abs 0x500000 0x300000 0x103000 1 demo_opened) =
    Some (2%positive, Some 0x100000, Some 0x1000, Some 0x4000, Some 2%positive,
      (false, (in_trampoline demo_config 0x300090, makeSatp 0x4000)))) as E by by vm_compute.
  revert E. destruct (fork 0 Z.abs 0x500000 0x300000 0x103000 1 demo_opened) as [[p s']|] eqn:Ef; [|done].
  unfold demo_summary. cbn [result_value mbind option_bind fst snd].
  destruct (demo_child s') as [t|] eqn:Et; [|done]. cbn [mbind option_bind].
  destruct (hart_of demo_config t) as [h|] eqn:Eh; [|done]. cbn [mbind option_bind].
  destruct (returnFork demo_config false t) as [[r t']|] eqn:Er; [|done]. cbn [result_value mbind option_bind fst].
  intros [= -> Ex Ey Ez Ec ->].
  apply fmap_Some in Ex as (x & Hx & Htx). apply fmap_Some in Ey as (y & Hy & Hty).
  rewrite Hy in Ez. injection Ez as Hpt. destruct (demo_child_kept s' t Et) as [Hm Hd].
  exists s', t, t'. split; [reflexivity|]. split; [exact Et|].
  destruct (forked_child_returns_zero demo_config 1 2 demo_opened s' x y y t t' h _ Ef Hx Hy
    ltac:(rewrite <- Htx, <- Hty; unfold TRAP_FRAME_SIZE; lia) Eh Ec ltac:(rewrite Hd; exact Hy) eq_refl
    ltac:(intros i _; by rewrite Hm) Er) as (_ & (st' & Hst & Hspp & _) & _ & Hs & Ha & _).
  rewrite Htx, Hty. split; [exact Er|]. split; [exists st'; exact (conj Hst Hspp)|]. split; [exact Hs|exact Ha].
Defined.
End ForkChild.
