(* ===== verification/Boot.v ===== *)
(** * Boot

    [kernel/boot/start.cpp] and [main.cpp], with [initializeKvmHart] of
    [kvm.cpp] and [initializeHart] of [ie.cpp].  [orfos_start] runs in machine
    mode on every hart.  The statements of [main] are the constructors of [stage];
    harts run their statements in any interleaving, and all but hart 0 wait for
    the flag [started]. *)

From S2P Require Import Prelude Riscv HashMap Address Page PageTable Uvm SpinMutex Queue Ring Uart Console Buffer Virtio FsState Inode File Scheduler Process Exec Syscall Trap.
Import Address Page PageTable Uvm Uart Console Buffer FsState Inode File Process Exec Syscall Trap.

#[local] Open Scope Z_scope.

Module Boot.

(** ** Definitions *)

(** *** [orfos_start] *)

Section start.
Context {S : Type}.
Variable k : Config.
(** The address of [main]. *)
Variable main_address : Z.

(** The value of [mstatus] with supervisor mode as the previous mode. *)
Definition to_supervisor (mstatus : Z) : Z :=
  Z.lor (Z.land mstatus (Z.lnot Riscv.MSTATUS_MPP_MASK)) Riscv.MSTATUS_MPP_S.

(** [orfos_start]: the place and the mode its [mret] goes to. *)
Definition start : M (TrapState S) (Z * Z) :=
  mstatus ← on_regs Riscv.read_mstatus;
  on_regs (Riscv.write_mstatus (to_supervisor mstatus)) ;;
  on_regs (Riscv.write_mepc main_address) ;;
  on_regs (Riscv.write_satp 0) ;;
  on_regs (Riscv.write_medeleg 0xffff) ;;
  on_regs (Riscv.write_mideleg 0xffff) ;;
  sie ← on_regs Riscv.read_sie;
  let sie := Z.lor sie Riscv.SIE_SEIE in
  let sie := Z.lor sie Riscv.SIE_STIE in
  let sie := Z.lor sie Riscv.SIE_SSIE in
  on_regs (Riscv.write_sie sie) ;;
  on_regs (Riscv.write_pmpcfg0 0xf) ;;
  on_regs (Riscv.write_pmpaddr0 0x3fffffffffffff) ;;
  initializeTimer k ;;
  mhartid ← on_regs Riscv.read_mhartid;
  on_regs (Riscv.write_tp mhartid) ;;
  on_regs (gets Riscv.mret_target).
End start.

(** *** [main] *)

(** The statements of [main], hart 0's first. *)
Inductive stage :=
  | ConsoleInit | Banner | PageInit | KvmInit | KvmHart | ProcessInit | SchedulerInit | IeHart | PlicInit
  | PlicHart | BufferInit | InodeInit | VirtioInit | DevicesInit | SyscallInit | UserInit | Publish
  | Wait | Hello.

#[export] Instance stage_eq_dec : EqDecision stage.
Proof. solve_decision. Defined.

(** The kernel while it boots: the registers of every hart, the rest (with the
    registers of no particular hart), the global pointers [kernelPageTable] and
    [scheduler], the registers of the disk, and [started]. *)
Record Boot := mkBoot {
  hart_regs : Z → Riscv.Regs;
  shared : TrapState BufferCache;
  kernelPageTable : option Z;
  scheduler : bool;
  disk : Virtio.mmio;
  started : bool;
}.

Definition set_kernelPageTable x s := mkBoot (hart_regs s) (shared s) x (scheduler s) (disk s) (started s).
Definition set_scheduler x s := mkBoot (hart_regs s) (shared s) (kernelPageTable s) x (disk s) (started s).
Definition set_disk x s := mkBoot (hart_regs s) (shared s) (kernelPageTable s) (scheduler s) x (started s).
Definition set_started x s := mkBoot (hart_regs s) (shared s) (kernelPageTable s) (scheduler s) (disk s) x.

(** An operation of hart [h]. *)
Definition on_hart {A} (h : Z) (c : M (TrapState BufferCache) A) : M Boot A := λ s,
  match c (set_regs (hart_regs s h) (shared s)) with
  | Ok (a, t) => Ok (a, mkBoot (λ h', if decide (h' = h) then regs t else hart_regs s h') t
      (kernelPageTable s) (scheduler s) (disk s) (started s))
  | Err f => Err f
  end.

Definition on_disk {A} (c : M Virtio.mmio A) : M Boot A := λ s,
  match c (disk s) with Ok (a, x) => Ok (a, set_disk x s) | Err f => Err f end.

(** ["ORFOS is booting...\n"] *)
Definition banner : bytes :=
  [79; 82; 70; 79; 83; 32; 105; 115; 32; 98; 111; 111; 116; 105; 110; 103; 46; 46; 46; 10].

(** ["Hart %d is starting..."] *)
Definition hello : bytes :=
  [72; 97; 114; 116; 32; 37; 100; 32; 105; 115; 32; 115; 116; 97; 114; 116; 105; 110; 103; 46; 46; 46].

Section main.
Variable k : Config.
(** The end of the kernel's text; the code of the first user program. *)
Variable eot : Z.
Variable initcode : bytes.
(** The disk, and the pages of its queues. *)
Variable virtio_device : Virtio.mmio → Z → Z.
Variables desc_page avail_page used_page : Z.

(** The parameters as hart [h] sees them. *)
Definition for_hart (h : Z) : Config :=
  mkConfig h (k_hash k) (k_address_of k) (k_waitMutex k) (k_timerMutex k) (k_ticks k) (k_scratch k)
    (k_kernelVector k) (k_timerVector k) (k_trampoline k) (k_userVector k) (k_returnUser k) (k_userTrap k)
    (k_kernelPages k) (k_kernelPageTable k) (k_name0 k) (k_entry_addr k) (k_elf_addr k) (k_prog_addr k)
    (k_uart k) (k_polls k) (k_bus k).

Definition mem_op {A} (h : Z) (c : M KMem A) : M Boot A := on_hart h (on_kernel_machine (on_mem c)).

(** [memory::initializeKvm] *)
Definition initialize_kvm (h : Z) : M Boot unit :=
  t ← mem_op h (initializeKvm eot (k_trampoline k));
  modify (set_kernelPageTable (Some t)).

(** [memory::initializeKvmHart] *)
Definition initializeKvmHart (h : Z) : M Boot unit :=
  t ← gets kernelPageTable;
  match t with
  | None => fail NullDeref
  | Some t => on_hart h (on_regs (Riscv.write_satp (makeSatp t)))
  end.

(** [process::initializeScheduler]: a new [Scheduler]. *)
Definition initializeScheduler (h : Z) : M Boot unit :=
  on_hart h (on_scheduler (modify (λ x, Scheduler.set_smutex SpinMutex.make
    (Scheduler.set_queue (Scheduler.heap x) Queue.make (Scheduler.set_table (HashMap.make 8) x))))) ;;
  modify (set_scheduler true).

(** [fs::initializeBufferCache] and [fs::initializeInode]: new, empty tables. *)
Definition initialize_buffers (h : Z) : M Boot unit :=
  on_hart h (on_kernel_machine (on_fs (on_cache (modify (λ c, initializeBufferCache (storage c) (current c)))))).

Definition initializeInode (h : Z) : M Boot unit :=
  on_hart h (on_kernel_machine (on_inode (modify (λ i, mkIFS (base i) (HashMap.make 8) (cells i) (kernel i))))).

(** [process::startUserInitProcess], which dereferences the kernel's table only
    through the processes it builds. *)
Definition start_user (h : Z) : M Boot unit :=
  t ← gets kernelPageTable;
  match t with
  | None => fail NullDeref
  | Some t => on_hart h (on_kernel_machine (startUserInitProcess (k_uart k) (k_polls k) h (k_hash k)
      (k_trampoline k) t (k_name0 k) (k_entry_addr k) initcode))
  end.

(** [initializeHart] of [ie.cpp]. *)
Definition initializeIeHart {S} : M (TrapState S) unit := on_regs (Riscv.write_stvec (k_kernelVector k)).

(** A statement of [main] on hart [h]. *)
Definition run_stage (h : Z) (st : stage) : M Boot unit :=
  match st with
  | ConsoleInit => on_hart h (on_kernel_machine (on_files (on_console Console.initialize)))
  | Banner => on_hart h (console_printf (for_hart h) banner [])
  | PageInit => mem_op h (Page.initialize (k_kernelPages k))
  | KvmInit => initialize_kvm h
  | KvmHart => initializeKvmHart h
  | ProcessInit => on_hart h (on_kernel_machine Process.initialize)
  | SchedulerInit => initializeScheduler h
  | IeHart => on_hart h initializeIeHart
  | PlicInit => on_hart h initializePlic
  | PlicHart => on_hart h (initializePlicHart (for_hart h))
  | BufferInit => initialize_buffers h
  | InodeInit => initializeInode h
  | VirtioInit => on_disk (Virtio.initializeVirtio virtio_device desc_page avail_page used_page)
  | DevicesInit => on_hart h (on_kernel_machine (on_files initializeDevices))
  | SyscallInit => on_hart h (on_system (modify (λ s, mkSystem (machine s) Syscall.initialize)))
  | UserInit => start_user h
  | Publish => modify (set_started true)
  | Wait => b ← gets started; if (b : bool) then mret tt else fail NoFuel
  | Hello => on_hart h (console_printf (for_hart h) hello [ArgInt h])
  end.

(** What [main] does on hart [h] before [scheduler->run()]. *)
Definition stages (h : Z) : list stage :=
  if h =? 0 then
    [ConsoleInit; Banner; PageInit; KvmInit; KvmHart; ProcessInit; SchedulerInit; IeHart; PlicInit; PlicHart;
     BufferInit; InodeInit; VirtioInit; DevicesInit; SyscallInit; UserInit; Publish]
  else [Wait; Hello; KvmHart; IeHart; PlicHart].

(** The harts run their statements in any order; one that waits stays. *)
Inductive step : Boot * (Z → list stage) → Boot * (Z → list stage) → Prop :=
  | step_stage h st rest s s' pcs :
      pcs h = st :: rest → run_stage h st s = Ok (tt, s') →
      step (s, pcs) (s', λ h', if decide (h' = h) then rest else pcs h').
End main.

(** ** Lemmas *)

#[local] Strategy expand [run_stage mem_op].

Section effects.
Variable k : Config.
Variable eot : Z.
Variable initcode : bytes.
Variable virtio_device : Virtio.mmio → Z → Z.
Variables desc_page avail_page used_page : Z.

#[local] Abbreviation run := (run_stage k eot initcode virtio_device desc_page avail_page used_page).

(** What an operation on [TrapState] leaves of the registers. *)
Lemma on_hart_inv {A} h (c : M (TrapState BufferCache) A) s a s' : on_hart h c s = Ok (a, s') →
  ∃ t, c (set_regs (hart_regs s h) (shared s)) = Ok (a, t) ∧
    kernelPageTable s' = kernelPageTable s ∧ scheduler s' = scheduler s ∧ started s' = started s ∧
    ∀ h', hart_regs s' h' = if decide (h' = h) then regs t else hart_regs s h'.
Proof.
  unfold on_hart. destruct (c _) as [[b t]|]; [|done]. intros [= <- <-]. exists t. by split_and!.
Qed.

(** What a statement changes of the globals and the registers. *)
Record effect (h : Z) (st : stage) (s s' : Boot) : Prop := {
  ef_table : kernelPageTable s' = kernelPageTable s ∨ st = KvmInit ∧ is_Some (kernelPageTable s');
  ef_init : st = KvmInit → is_Some (kernelPageTable s');
  ef_scheduler : scheduler s' = scheduler s || bool_decide (st = SchedulerInit);
  ef_started : started s' = started s || bool_decide (st = Publish);
  ef_wait : st = Wait → started s = true;
  ef_satp h' : hart_regs s' h' Riscv.Satp = hart_regs s h' Riscv.Satp ∨
    h' = h ∧ st = KvmHart;
  ef_kvm : st = KvmHart → ∃ t, kernelPageTable s = Some t ∧ hart_regs s' h Riscv.Satp = makeSatp t;
  ef_stvec h' : hart_regs s' h' Riscv.Stvec =
    if decide (h' = h ∧ st = IeHart) then k_kernelVector k else hart_regs s h' Riscv.Stvec;
}.

Lemma keeps_regs_kernel {A} (c : M (Machine BufferCache) A) : keeps regs (on_kernel_machine c).
Proof. by intros s a s' (m & _ & ->)%on_kernel_machine_inv. Qed.

Lemma keeps_regs_printf c f l : keeps regs (console_printf (S := BufferCache) c f l).
Proof. apply keeps_regs_kernel. Qed.

Lemma keeps_regs_store w a x : keeps regs (store (S := BufferCache) w a x).
Proof. unfold store. by apply keeps_modify. Qed.

Lemma keeps_regs_system {A} (c : M (System BufferCache) A) : keeps regs (on_system c).
Proof. intros s a s'. unfold on_system. destruct (c _) as [[b x]|]; [|done]. by intros [= _ <-]. Qed.

(** An operation that leaves the registers and the globals alone. *)
Definition quiet (s s' : Boot) : Prop :=
  kernelPageTable s' = kernelPageTable s ∧ scheduler s' = scheduler s ∧ started s' = started s ∧
  ∀ h, hart_regs s' h = hart_regs s h.

Lemma quiet_on_hart {A} h (c : M (TrapState BufferCache) A) s a s' :
  keeps regs c → on_hart h c s = Ok (a, s') → quiet s s'.
Proof.
  intros Hk (t & E & E1 & E2 & E3 & E4)%on_hart_inv. apply Hk in E. split_and!; [done..|].
  intros h'. rewrite E4. case_decide as Hd; [by subst; rewrite E|done].
Qed.

Lemma effect_quiet h st s s' : quiet s s' →
  st ∉ [KvmInit; SchedulerInit; Publish; Wait; KvmHart; IeHart] → effect h st s s'.
Proof.
  intros (E1 & E2 & E3 & Er) Hst.
  split; try (intros ->; exfalso; apply Hst; set_solver).
  - by left.
  - rewrite bool_decide_false, orb_false_r by (intros ->; set_solver). done.
  - rewrite bool_decide_false, orb_false_r by (intros ->; set_solver). done.
  - intros h'. left. by rewrite Er.
  - intros h'. rewrite decide_False by (intros [_ ->]; set_solver). by rewrite Er.
Qed.

Ltac quiet_stage E := apply effect_quiet; [|set_solver]; eapply quiet_on_hart; [|exact E];
  first [simple apply keeps_regs_printf|simple apply keeps_regs_kernel|apply keeps_regs_system
        |apply keeps_bind; [apply keeps_regs_store|intros ?; apply keeps_regs_store]].

(** The goals about other statements, and those that hold by the equations. *)
Ltac effect_rest E2 E3 :=
  try (intros ?; discriminate); rewrite ?E2, ?E3, ?orb_false_r, ?orb_true_r; try reflexivity; try (left; done).

Lemma effect_kvm_init h s s' : initialize_kvm k eot h s = Ok (tt, s') → effect h KvmInit s s'.
Proof.
  intros E. unfold initialize_kvm in E. apply bind_inv in E as (t & s1 & Hrun & E).
  apply (quiet_on_hart h (on_kernel_machine _)) in Hrun as (E1 & E2 & E3 & Er); [|apply keeps_regs_kernel].
  injection E as <-. split; simpl; effect_rest E2 E3.
  + right. eauto.
  + eauto.
  + intros h'. left. by rewrite Er.
  + intros h'. rewrite decide_False by (by intros [_ ?]). by rewrite Er.
Qed.

Lemma effect_kvm_hart h s s' : initializeKvmHart h s = Ok (tt, s') → effect h KvmHart s s'.
Proof.
  intros E. unfold initializeKvmHart in E. apply bind_inv in E as (o & s1 & Hrun & E).
  injection Hrun as <- <-. destruct (kernelPageTable s) as [t|] eqn:Et; [|done].
  apply on_hart_inv in E as (r & E & E1 & E2 & E3 & Er). injection E as <-.
  split; effect_rest E2 E3.
  + intros h'. rewrite Er. case_decide; [by right|by left].
  + intros _. exists t. split; [done|]. rewrite Er, decide_True by done. by apply Riscv.update_eq.
  + intros h'. rewrite Er. rewrite (decide_False (P := _ ∧ _)) by (by intros [_ ?]).
    case_decide; [subst; by apply Riscv.update_ne|done].
Qed.

Lemma effect_scheduler h s s' : initializeScheduler h s = Ok (tt, s') → effect h SchedulerInit s s'.
Proof.
  intros E. unfold initializeScheduler in E. apply bind_inv in E as (a & s1 & Hrun & E).
  apply quiet_on_hart in Hrun as (E1 & E2 & E3 & Er); [|apply keeps_regs_kernel].
  injection E as <-. split; simpl; effect_rest E2 E3.
  + intros h'. left. by rewrite Er.
  + intros h'. rewrite decide_False by (by intros [_ ?]). by rewrite Er.
Qed.

Lemma effect_stvec h s s' :
  on_hart h (on_regs (Riscv.write_stvec (k_kernelVector k))) s = Ok (tt, s') → effect h IeHart s s'.
Proof.
  intros (r & E & E1 & E2 & E3 & Er)%on_hart_inv. injection E as <-.
  split; effect_rest E2 E3.
  + intros h'. left. rewrite Er. case_decide; [subst; by apply Riscv.update_ne|done].
  + intros h'. rewrite Er. case_decide; [rewrite decide_True by done; by apply Riscv.update_eq|].
    by rewrite decide_False by (by intros [? _]).
Qed.

Lemma effect_virtio h s s' :
  on_disk (Virtio.initializeVirtio virtio_device desc_page avail_page used_page) s = Ok (tt, s') →
  effect h VirtioInit s s'.
Proof.
  unfold on_disk. destruct (Virtio.initializeVirtio _ _ _ _ _) as [[a x]|]; [|done].
  intros [= _ <-]. by apply effect_quiet; [|set_solver].
Qed.

Lemma effect_user h s s' : start_user k initcode h s = Ok (tt, s') → effect h UserInit s s'.
Proof.
  intros E. unfold start_user in E. apply bind_inv in E as (o & s1 & Hrun & E).
  injection Hrun as <- <-. destruct (kernelPageTable s) as [t|] eqn:Et; [|done]. quiet_stage E.
Qed.

Lemma effect_publish h s s' : modify (set_started true) s = Ok (tt, s') → effect h Publish s s'.
Proof.
  intros [= <-]. split; effect_rest (eq_refl true) (eq_refl true).
  intros h'. by rewrite decide_False by (by intros [_ ?]).
Qed.

Lemma effect_wait h s s' : (b ← gets started; if (b : bool) then mret tt else fail NoFuel) s = Ok (tt, s') →
  effect h Wait s s'.
Proof.
  intros (b & s1 & Hrun & E)%bind_inv. injection Hrun as <- <-.
  destruct (started s) eqn:Es; [|done]. injection E as <-.
  split; effect_rest Es Es.
  intros h'. by rewrite decide_False by (by intros [_ ?]).
Qed.

Lemma effect_run h st s s' : run h st s = Ok (tt, s') → effect h st s s'.
Proof.
  intros E. destruct st; cbn [run_stage] in E; unfold mem_op in E;
    first [ by apply effect_kvm_init | by apply effect_kvm_hart | by apply effect_scheduler
          | by apply effect_stvec | by apply effect_virtio | by apply effect_user | by apply effect_publish
          | by apply effect_wait | quiet_stage E ].
Qed.

(** *** The order of the statements *)

(** What holds between any two statements of any harts. *)
Record ordered (s : Boot) (pcs : Z → list stage) : Prop := {
  or_suffix h : pcs h `suffix_of` stages h;
  or_table : KvmInit ∉ pcs 0 → is_Some (kernelPageTable s);
  or_scheduler : SchedulerInit ∉ pcs 0 → scheduler s = true;
  or_started : started s = true → pcs 0 = [];
  or_waited h : h ≠ 0 → Wait ∉ pcs h → started s = true;
  or_satp h : KvmHart ∉ pcs h →
    ∃ t, kernelPageTable s = Some t ∧ hart_regs s h Riscv.Satp = makeSatp t;
  or_stvec h : IeHart ∉ pcs h → hart_regs s h Riscv.Stvec = k_kernelVector k;
}.

Lemma ordered_initial s : started s = false → ordered s stages.
Proof.
  intros Hs. assert (∀ h, KvmHart ∈ stages h ∧ IeHart ∈ stages h) as Hin.
  { intros h. unfold stages. destruct (h =? 0); set_solver. }
  split; try done.
  - intros H. exfalso. apply H. unfold stages. cbn [Z.eqb]. set_solver.
  - intros H. exfalso. apply H. unfold stages. cbn [Z.eqb]. set_solver.
  - by rewrite Hs.
  - intros h Hh Hw. exfalso. apply Hw. unfold stages. rewrite (proj2 (Z.eqb_neq _ _) Hh). set_solver.
  - intros h H. by destruct H, (Hin h).
  - intros h H. by destruct H, (Hin h).
Qed.

(** The places of the statements the order depends on. *)
Lemma suffix_cases {A} (x : A) l st rest : (st :: rest) `suffix_of` (x :: l) →
  (st = x ∧ rest = l) ∨ (st :: rest) `suffix_of` l.
Proof.
  intros [p E]. destruct p as [|y p]; injection E as -> ->; [by left|right]. by exists p.
Qed.

Lemma kvm_first rest : (KvmInit :: rest) `suffix_of` stages 0 → KvmHart ∈ rest.
Proof.
  unfold stages. cbn [Z.eqb]. intros H.
  repeat (apply suffix_cases in H as [[E ->]|H]; [simplify_eq; set_solver|]).
  by apply suffix_nil_inv in H.
Qed.

Lemma publish_last rest : (Publish :: rest) `suffix_of` stages 0 → rest = [].
Proof.
  unfold stages. cbn [Z.eqb]. intros H.
  repeat (apply suffix_cases in H as [[E ->]|H]; [simplify_eq; done|]).
  by apply suffix_nil_inv in H.
Qed.

(** A hart that no longer has to set up its page table has waited. *)
Lemma waited_first h l : h ≠ 0 → l `suffix_of` stages h → KvmHart ∉ l ∨ (∃ r, l = KvmHart :: r) → Wait ∉ l.
Proof.
  intros Hh. unfold stages. rewrite (proj2 (Z.eqb_neq _ _) Hh). destruct l as [|st rest]; [set_solver|].
  intros H Hk. repeat (apply suffix_cases in H as [[-> ->]|H];
    [destruct Hk as [Hk|[r Hk]]; [set_solver|simplify_eq; set_solver]|]).
  by apply suffix_nil_inv in H.
Qed.

(** The page table is there for a hart that is about to use it, and is not made
    again while a hart uses it. *)
Lemma table_ready s pcs h rest : ordered s pcs → pcs h = KvmHart :: rest → h ≠ 0 → is_Some (kernelPageTable s).
Proof.
  intros O E Hh. assert (Wait ∉ pcs h) as Hw.
  { apply (waited_first h); [done|apply (or_suffix _ _ O)|]. right. by exists rest. }
  apply (or_table _ _ O). rewrite (or_started _ _ O) by (by apply (or_waited _ _ O h)). set_solver.
Qed.

Lemma table_kept s pcs h rest : ordered s pcs → pcs 0 = KvmInit :: rest → KvmHart ∈ pcs h.
Proof.
  intros O E. destruct (decide (h = 0)) as [->|Hh].
  - rewrite E. apply elem_of_cons. right. apply kvm_first. rewrite <- E. apply (or_suffix _ _ O).
  - destruct (decide (KvmHart ∈ pcs h)) as [|Hn]; [done|exfalso].
    assert (Wait ∉ pcs h) as Hw by (apply (waited_first h); [done|apply (or_suffix _ _ O)|by left]).
    pose proof (or_started _ _ O (or_waited _ _ O h Hh Hw)) as E0. by rewrite E0 in E.
Qed.

(** Statements of one list only. *)
Lemma stage_hart h st rest : (st :: rest) `suffix_of` stages h →
  st ∈ [KvmInit; SchedulerInit; Publish] → h = 0.
Proof.
  intros H Hin. destruct (decide (h = 0)) as [|Hh]; [done|exfalso].
  assert (st ∈ stages h) as Hst by (destruct H as [p ->]; set_solver).
  unfold stages in Hst. rewrite (proj2 (Z.eqb_neq _ _) Hh) in Hst. set_solver.
Qed.

Lemma ordered_step s pcs h st rest s' : ordered s pcs → pcs h = st :: rest → run h st s = Ok (tt, s') →
  ordered s' (λ h', if decide (h' = h) then rest else pcs h').
Proof.
  intros O E Hrun%effect_run. pose proof (or_suffix _ _ O h) as Hsuf. rewrite E in Hsuf.
  pose proof (stage_hart h st rest Hsuf) as H0.
  assert (∀ x h', x ∉ (if decide (h' = h) then rest else pcs h') → x ∉ pcs h' ∨ h' = h ∧ st = x) as Hnot.
  { intros x h' Hx. case_decide as Hd; [subst; rewrite E|by left].
    destruct (decide (st = x)) as [->|]; [by right|left]. set_solver. }
  split.
  - intros h'. case_decide; [|apply O]. subst. destruct Hsuf as [p ->]. exists (p ++ [st]). by rewrite <- app_assoc.
  - intros Hn. destruct (Hnot _ _ Hn) as [Hn'|[<- ->]].
    + destruct (ef_table _ _ _ _ Hrun) as [->|[_ ?]]; [by apply O|done].
    + by apply (ef_init _ _ _ _ Hrun).
  - intros Hn. rewrite (ef_scheduler _ _ _ _ Hrun). destruct (Hnot _ _ Hn) as [Hn'|[<- ->]].
    + by rewrite (or_scheduler _ _ O Hn').
    + by rewrite bool_decide_true, orb_true_r.
  - rewrite (ef_started _ _ _ _ Hrun). intros [Hs|Hp%bool_decide_eq_true]%orb_prop.
    + pose proof (or_started _ _ O Hs) as E0. case_decide; [|done]. subst h. by rewrite E0 in E.
    + subst st. rewrite H0 in * by set_solver. rewrite decide_True by done. by apply publish_last.
  - intros h' Hh' Hn. rewrite (ef_started _ _ _ _ Hrun). destruct (Hnot _ _ Hn) as [Hn'|[<- ->]].
    + by rewrite (or_waited _ _ O h').
    + by rewrite (ef_wait _ _ _ _ Hrun).
  - intros h' Hn. destruct (Hnot _ _ Hn) as [Hn'|[<- ->]].
    + destruct (or_satp _ _ O h' Hn') as (t & Et & Es). exists t.
      destruct (ef_table _ _ _ _ Hrun) as [->|[-> _]].
      * split; [done|]. destruct (ef_satp _ _ _ _ Hrun h') as [->|[-> ->]]; [done|].
        exfalso. apply Hn'. rewrite E. set_solver.
      * exfalso. apply Hn'. rewrite (H0 ltac:(set_solver)) in E. by eapply table_kept.
    + destruct (ef_kvm _ _ _ _ Hrun eq_refl) as (t & Et & Es). exists t. split; [|done].
      by destruct (ef_table _ _ _ _ Hrun) as [->|[? _]].
  - intros h' Hn. rewrite (ef_stvec _ _ _ _ Hrun).
    destruct (decide (h' = h ∧ st = IeHart)) as [Hd|Hd]; [reflexivity|].
    destruct (Hnot _ _ Hn) as [Hn'|[-> ->]]; [by apply O|by exfalso; apply Hd].
Qed.

Lemma ordered_reachable s0 s pcs : started s0 = false →
  rtc (step k eot initcode virtio_device desc_page avail_page used_page) (s0, stages) (s, pcs) → ordered s pcs.
Proof.
  intros Hs H. apply (rtc_ind_r (λ x, ordered x.1 x.2) (s0, stages)) in H; [done|by apply ordered_initial|].
  intros y z _ Hstep O. destruct Hstep as [h st rest s1 s2 pcs1 E Hrun]. by eapply ordered_step.
Qed.
End effects.

(** *** Registers and the bus, on a state in full *)

Section full.
Context {S : Type}.
Variables (k : Config) (m : Riscv.Regs) (b : list access) (ti : Z) (sc : list (list Z)) (sys : System S).

Lemma read_full r : on_regs (Riscv.read r) (mkTrap m b ti sc sys) = Ok (m r, mkTrap m b ti sc sys).
Proof. done. Qed.

Lemma write_full r x : on_regs (Riscv.write r x) (mkTrap m b ti sc sys) =
  Ok (tt, mkTrap (Riscv.update r x m) b ti sc sys).
Proof. done. Qed.

Lemma load_full w a : load k w a (mkTrap m b ti sc sys) =
  Ok (wrap w (k_bus k b a), mkTrap m (b ++ [Uart.Read a]) ti sc sys).
Proof. done. Qed.

Lemma store_full w a x : store w a x (mkTrap m b ti sc sys) =
  Ok (tt, mkTrap m (b ++ [Uart.Write a (wrap w x)]) ti sc sys).
Proof. done. Qed.

Lemma scratch_full h i x l : sc !! Z.to_nat h = Some l → set_timerScratch h i x (mkTrap m b ti sc sys) =
  Ok (tt, mkTrap m b ti (<[Z.to_nat h := <[Z.to_nat i := x]> l]> sc) sys).
Proof. intros E. unfold set_timerScratch. simpl. by rewrite E. Qed.

Lemma scratch_outside h i x : sc !! Z.to_nat h = None →
  set_timerScratch h i x (mkTrap m b ti sc sys) = Err OutOfRange.
Proof. intros E. unfold set_timerScratch. simpl. by rewrite E. Qed.

Lemma target_full : on_regs (gets Riscv.mret_target) (mkTrap m b ti sc sys) =
  Ok (Riscv.mret_target m, mkTrap m b ti sc sys).
Proof. done. Qed.
End full.

(** *** The values [orfos_start] computes *)

Lemma mode_supervisor x :
  Z.shiftr (Z.land (Z.lor (to_supervisor x) Riscv.MSTATUS_MIE) Riscv.MSTATUS_MPP_MASK) 11 = 1.
Proof.
  apply Z.bits_inj'. intros i Hi. unfold to_supervisor.
  rewrite Z.shiftr_spec, Z.land_spec, !Z.lor_spec, Z.land_spec, Z.lnot_spec by lia.
  change Riscv.MSTATUS_MIE with 8. change Riscv.MSTATUS_MPP_S with 2048. change Riscv.MSTATUS_MPP_MASK with 6144.
  destruct (decide (i = 0)) as [->|]; [by rewrite andb_false_r|].
  destruct (decide (i = 1)) as [->|]; [by rewrite andb_false_r|].
  rewrite (Z.bits_above_log2 6144), andb_false_r by (try lia; change (Z.log2 6144) with 12; lia).
  symmetry. apply Z.bits_above_log2; [lia|]. change (Z.log2 1) with 0. lia.
Qed.

Lemma target_supervisor m a x : m Riscv.Mepc = a →
  m Riscv.Mstatus = Z.lor (to_supervisor x) Riscv.MSTATUS_MIE → Riscv.mret_target m = (a, 1).
Proof. intros E1 E2. unfold Riscv.mret_target. by rewrite E1, E2, mode_supervisor. Qed.

Lemma sie_enabled x :
  Z.land (Z.lor (Z.lor (Z.lor x Riscv.SIE_SEIE) Riscv.SIE_STIE) Riscv.SIE_SSIE) 0x222 = 0x222.
Proof.
  rewrite <- !Z.lor_assoc. change (Z.lor Riscv.SIE_SEIE (Z.lor Riscv.SIE_STIE Riscv.SIE_SSIE)) with 0x222.
  apply Z.bits_inj'. intros i Hi. rewrite Z.land_spec, Z.lor_spec.
  by destruct (Z.testbit x i), (Z.testbit 0x222 i).
Qed.

Lemma mtie_enabled x : Riscv.has (Z.lor x Riscv.MIE_MTIE) Riscv.MIE_MTIE = true.
Proof.
  unfold Riscv.MIE_MTIE. rewrite Riscv.has_testbit, Riscv.lor_set, Riscv.testbit_set_bits by done.
  by rewrite decide_True.
Qed.

(** Step through the accesses to registers and to the bus. *)
Ltac full_steps :=
  repeat first
    [ rewrite (bind_ok _ _ _ _ _ (read_full _ _ _ _ _ _))
    | rewrite (bind_ok _ _ _ _ _ (write_full _ _ _ _ _ _ _))
    | rewrite (bind_ok _ _ _ _ _ (load_full _ _ _ _ _ _ _ _))
    | rewrite (bind_ok _ _ _ _ _ (store_full _ _ _ _ _ _ _ _)) ].

(** The registers [initializeTimer] reads and writes on hart [h], and the row of
    [timerScrach] it leaves. *)
Lemma initializeTimer_full {S} (k : Config) m b ti sc (sys : System S) h l :
  m Riscv.Mhartid = h → sc !! Z.to_nat h = Some l → (Z.to_nat h < length sc)%nat →
  let l3 := <[3%nat := clintMtimeCmp h]> l in
  initializeTimer k (mkTrap m b ti sc sys) = Ok (tt, mkTrap
    (Riscv.update Riscv.Mie (Z.lor (m Riscv.Mie) Riscv.MIE_MTIE)
    (Riscv.update Riscv.Mstatus (Z.lor (m Riscv.Mstatus) Riscv.MSTATUS_MIE)
    (Riscv.update Riscv.Mtvec (k_timerVector k) (Riscv.update Riscv.Mscratch (k_scratch k h) m))))
    (b ++ [Uart.Read CLINT_MTIME; Uart.Write (clintMtimeCmp h) (u64 (u64 (k_bus k b CLINT_MTIME) + interval))])
    ti (<[Z.to_nat h := <[4%nat := interval]> l3]> (<[Z.to_nat h := l3]> sc)) sys).
Proof.
  intros Hm El Hl. cbv zeta.
  unfold initializeTimer, Riscv.read_mhartid, Riscv.read_mstatus, Riscv.write_mstatus, Riscv.write_mscratch,
    Riscv.write_mtvec, Riscv.read_mie, Riscv.write_mie.
  full_steps. cbv zeta. full_steps. rewrite Hm.
  rewrite (bind_ok _ _ _ _ _ (scratch_full _ _ _ _ _ h 3 _ l El)).
  rewrite (bind_ok _ _ _ _ _ (scratch_full _ _ _ _ _ h 4 _ _ (list_lookup_insert_eq _ _ _ Hl))).
  full_steps. rewrite <- app_assoc. reflexivity.
Qed.

Lemma initializeTimer_outside {S} (k : Config) m b ti sc (sys : System S) :
  sc !! Z.to_nat (m Riscv.Mhartid) = None → initializeTimer k (mkTrap m b ti sc sys) = Err OutOfRange.
Proof.
  intros E. unfold initializeTimer, Riscv.read_mhartid. full_steps. cbv zeta. full_steps.
  unfold mbind, M_bind. by rewrite scratch_outside.
Qed.

Ltac unfold_start :=
  unfold start, Riscv.read_mstatus, Riscv.write_mstatus, Riscv.write_mepc, Riscv.write_satp,
    Riscv.write_medeleg, Riscv.write_mideleg, Riscv.read_sie, Riscv.write_sie, Riscv.write_pmpcfg0,
    Riscv.write_pmpaddr0, Riscv.read_mhartid, Riscv.write_tp.

(** ** Properties *)

(** C15: no hart runs ahead of the initialisation.  In every interleaving of the
    harts, a hart other than the first that has stopped waiting finds hart 0 done
    and the kernel page table and the scheduler in place; a hart about to load
    the kernel page table always finds one; and a hart that enters the scheduler
    runs with that page table, which is never replaced, and with its traps going
    to the kernel's vector. *)
Theorem boot_order (k : Config) (eot : Z) (initcode : bytes) (virtio_device : Virtio.mmio → Z → Z)
    (desc_page avail_page used_page : Z) (s0 s : Boot) (pcs : Z → list stage)
    (Hstart : started s0 = false)
    (Hsteps : rtc (step k eot initcode virtio_device desc_page avail_page used_page) (s0, stages) (s, pcs)) :
  (∀ h, h ≠ 0 → Wait ∉ pcs h → pcs 0 = [] ∧ is_Some (kernelPageTable s) ∧ scheduler s = true) ∧
  (∀ h rest, pcs h = KvmHart :: rest → h ≠ 0 → is_Some (kernelPageTable s)) ∧
  (∀ h, pcs h = [] → ∃ t, kernelPageTable s = Some t ∧ scheduler s = true ∧
     hart_regs s h Riscv.Satp = makeSatp t ∧ hart_regs s h Riscv.Stvec = k_kernelVector k).
Proof.
  pose proof (ordered_reachable _ _ _ _ _ _ _ _ _ _ Hstart Hsteps) as O.
  assert (∀ h, h ≠ 0 → Wait ∉ pcs h → pcs 0 = []) as Hd.
  { intros h Hh Hw. by apply (or_started _ _ _ O), (or_waited _ _ _ O h). }
  split_and!.
  - intros h Hh Hw. pose proof (Hd h Hh Hw) as E. split_and!; [done| |];
      [apply (or_table _ _ _ O)|apply (or_scheduler _ _ _ O)]; rewrite E; set_solver.
  - intros h rest E Hh. by eapply table_ready.
  - intros h E. destruct (or_satp _ _ _ O h) as (t & Et & Es); [rewrite E; set_solver|].
    exists t. split_and!; [done| |done|].
    + apply (or_scheduler _ _ _ O). destruct (decide (h = 0)) as [<-|Hh]; [rewrite E; set_solver|].
      rewrite (Hd h Hh); [|rewrite E]; set_solver.
    + apply (or_stvec _ _ _ O). rewrite E. set_solver.
Qed.

(** Before [main], on the machine of [demo_trap]. *)
Definition demo_boot : Boot :=
  mkBoot (λ _ _, 0) (demo_trap false 0) None false [] false.

Definition demo_step : Boot * (Z → list stage) → Boot * (Z → list stage) → Prop :=
  step demo_config 0x80008000 [] (λ _ _, 0) 0x1000 0x2000 0x3000.

(** Hart 0 has run its first two statements. *)
Lemma boot_order_witness : ∃ s pcs,
  rtc demo_step (demo_boot, stages) (s, pcs) ∧ pcs 0 = drop 2 (stages 0) ∧ Wait ∈ pcs 1.
Proof.
  set (run := run_stage demo_config 0x80008000 [] (λ _ _, 0) 0x1000 0x2000 0x3000 0).
  assert (fst <$> result_value ((run ConsoleInit ;; run Banner) demo_boot) = Some tt) as E by by vm_compute.
  destruct ((run ConsoleInit ;; run Banner) demo_boot) as [[[] s]|] eqn:Er; [|done].
  apply bind_inv in Er as ([] & s1 & E1 & E2).
  set (pcs := λ h, if decide (h = 0) then drop 2 (stages 0)
    else (λ h, if decide (h = 0) then drop 1 (stages 0) else stages h) h).
  assert (rtc demo_step (demo_boot, stages) (s, pcs)) as Hs.
  { eapply rtc_l; [by apply (step_stage _ _ _ _ _ _ _ 0 ConsoleInit (drop 1 (stages 0)) _ s1)|].
    apply rtc_once. by apply (step_stage _ _ _ _ _ _ _ 0 Banner (drop 2 (stages 0))). }
  exists s, pcs. split_and!; [exact Hs|done|].
  destruct (decide (Wait ∈ pcs 1)) as [|Hn]; [done|].
  destruct (boot_order demo_config 0x80008000 [] (λ _ _, 0) 0x1000 0x2000 0x3000 demo_boot s pcs
    eq_refl Hs) as (Hk & _). by destruct (Hk 1 ltac:(done) Hn).
Defined.

(** C29: [orfos_start] leaves machine mode for [main].  On each of the eight harts
    it returns, with the [mret] going to [main] in supervisor mode, address
    translation off, all traps and interrupts delegated, the three supervisor
    interrupts and the machine timer enabled, the next timer interrupt one
    interval away and the hart number in [tp]; a ninth hart would write outside
    [timerScrach]. *)
Theorem start_enters_main {S : Type} (k : Config) (main_address : Z) (s : TrapState S)
    (Hscratch : length (timerScratch s) = 8%nat) (Hid : 0 <= regs s Riscv.Mhartid) :
  let h := regs s Riscv.Mhartid in
  if h <? NUM_CPUS then
    ∃ s', start k main_address s = Ok ((main_address, 1), s') ∧
      regs s' Riscv.Satp = 0 ∧ regs s' Riscv.Tp = h ∧
      regs s' Riscv.Medeleg = 0xffff ∧ regs s' Riscv.Mideleg = 0xffff ∧
      Z.land (regs s' Riscv.Sie) 0x222 = 0x222 ∧
      Riscv.has (regs s' Riscv.Mie) Riscv.MIE_MTIE = true ∧
      regs s' Riscv.Mtvec = k_timerVector k ∧ regs s' Riscv.Mscratch = k_scratch k h ∧
      bus s' = bus s ++ [Uart.Read CLINT_MTIME;
        Uart.Write (clintMtimeCmp h) (u64 (u64 (k_bus k (bus s) CLINT_MTIME) + interval))]
  else start k main_address s = Err OutOfRange.
Proof.
  destruct s as [r b ti sc sys]. cbn [regs bus timerScratch] in *. cbv zeta. set (h := r Riscv.Mhartid) in *.
  destruct (Z.ltb_spec h NUM_CPUS) as [Hh|Hh]; unfold NUM_CPUS in Hh.
  - destruct (lookup_lt_is_Some_2 sc (Z.to_nat h)) as [l El]; [lia|].
    unfold_start. full_steps. cbv zeta. full_steps.
    match goal with |- context [mbind _ (initializeTimer k) (mkTrap ?m b ti sc sys)] =>
      pose proof (initializeTimer_full k m b ti sc sys h l eq_refl El ltac:(lia)) as E end.
    rewrite (bind_ok _ _ _ _ _ E). full_steps. rewrite target_full.
    eexists. split; [f_equal; f_equal; by rewrite (target_supervisor _ main_address (r Riscv.Mstatus))|].
    cbn [regs bus]. split_and!; try reflexivity; [apply sie_enabled|apply mtie_enabled].
  - unfold_start. full_steps. cbv zeta. full_steps.
    match goal with |- context [mbind _ (initializeTimer k) (mkTrap ?m b ti sc sys)] =>
      pose proof (initializeTimer_outside k m b ti sc sys) as E end.
    unfold mbind at 1, M_bind at 1. rewrite E; [done|]. apply lookup_ge_None_2.
    change (length sc <= Z.to_nat h)%nat. lia.
Qed.
Lemma start_enters_main_witness : ∃ s' : TrapState BufferCache,
  start demo_config 0x80000100 (demo_trap false 0) = Ok ((0x80000100, 1), s') ∧ regs s' Riscv.Tp = 0.
Proof.
  destruct (start_enters_main demo_config 0x80000100 (demo_trap false 0) eq_refl ltac:(done))
    as (s' & E & _ & Et & _). exists s'. split; [exact E|exact Et].
Defined.

End Boot.
