(* ===== verification/Vectors.v ===== *)
(** * Traps, with the assembly around the handlers

    The vectors of [Asm] and the handlers of [Trap] together: an interrupt of the
    kernel from the interrupted instruction back to it, a system call from the
    stub of the user library back to its caller, and the timer interrupt of
    machine mode.  A [World] is the general registers and the state of [Trap]; its
    control registers and its memory are what the assembly sees. *)

From S2P Require Import Prelude Riscv HashMap Address Asm Page PageTable Uvm SpinMutex Ring Uart Console Buffer FsState Inode File Scheduler Process Exec Syscall Trap Boot.
Import Address Page PageTable Uvm Uart Console Buffer FsState Inode File Process Exec Syscall Trap.

#[local] Open Scope Z_scope.
#[local] Existing Instances Asm.gpr_eq_dec Riscv.reg_eq_dec.

Module Vectors.

(** ** Definitions *)

Record World {S : Type} := mkWorld {
  general : Asm.Gprs;
  kstate : TrapState S;
}.
Arguments World : clear implicits.
Arguments mkWorld {S} _ _.

Section state.
Context {S : Type}.

(** What the assembly sees. *)
Definition hart_view (w : World S) : Asm.Hart := Asm.mkHart (general w) (regs (kstate w)) (mem (kstate w)).

Definition on_hart {A} (c : M Asm.Hart A) : M (World S) A := λ w,
  match c (hart_view w) with
  | Ok (a, h) => Ok (a, mkWorld (Asm.gprs h) (with_mem (Asm.memory h) (set_regs (Asm.csrs h) (kstate w))))
  | Err f => Err f
  end.

Definition on_kernel {A} (c : M (TrapState S) A) : M (World S) A := λ w,
  match c (kstate w) with
  | Ok (a, s) => Ok (a, mkWorld (general w) s)
  | Err f => Err f
  end.

(** Control goes to the address [target]; the code that follows is the one at [here]. *)
Definition goes_to (target here : Z) : M (World S) unit := if target =? here then mret tt else fail OutOfRange.
End state.

Section operations.
Context {S P : Type} `{BufferOps S P}.
Variable k : Config.
Variable diskInterrupt : M S unit.
Variable uart_fuel : nat.
Variables away interrupts : M (TrapState S) unit.

(** The translation of addresses, and what a compiled function leaves in the
    general registers. *)
Variable translate : Z → Z → option Z.
Variable clobber : World S → Asm.Gprs.

(** A call of a compiled function.  It runs on the hart that [tp] names. *)
Definition compiled {A} (c : M (TrapState S) A) : M (World S) A := λ w,
  if decide (general w Asm.Tp = k_tp k) then
    match c (kstate w) with
    | Ok (a, s) => Ok (a, mkWorld (clobber w) s)
    | Err f => Err f
    end
  else Err OutOfRange.

(** [orfos_kernelVector]; [link] is the address behind its call. *)
Definition orfos_kernelVector (link : Z) : M (World S) Z :=
  on_hart (Asm.kernelVector_entry translate link) ;;
  compiled (kernelTrap k diskInterrupt uart_fuel away) ;;
  on_hart (Asm.kernelVector_exit translate) ;;
  on_kernel (Trap.sret k).

(** An interrupt is taken in the kernel at [pc]: the place it returns to. *)
Definition kernel_interrupt (link pc cause : Z) : M (World S) Z :=
  on_kernel (take_interrupt k pc cause) ;;
  vector ← on_kernel (on_regs Riscv.read_stvec);
  goes_to vector (k_kernelVector k) ;;
  orfos_kernelVector link.

(** A trap is taken in user mode. *)
Definition take_user_trap (pc cause : Z) : M (TrapState S) unit :=
  st ← read_sstatus k;
  modify (λ s, set_regs (Riscv.taken_regs pc cause (regs s)) s) ;;
  write_sstatus k (Riscv.taken_status false st).

(** A trap of a user program at [pc]: the place it goes on at, unless the process
    has left. *)
Definition user_trap (pc cause : Z) : M (World S) (option Z) :=
  on_kernel (take_user_trap pc cause) ;;
  vector ← on_kernel (on_regs Riscv.read_stvec);
  goes_to vector (in_trampoline k (k_userVector k)) ;;
  f ← on_hart (Asm.orfos_userVector translate);
  goes_to f (k_userTrap k) ;;
  r ← compiled (userTrap k diskInterrupt uart_fuel away interrupts);
  match r with
  | None => mret None
  | Some (target, satp) =>
      goes_to target (in_trampoline k (k_returnUser k)) ;;
      on_hart (Asm.set_gpr Asm.A0 satp) ;;
      on_hart (Asm.orfos_returnUser translate) ;;
      pc ← on_kernel (Trap.sret k);
      mret (Some pc)
  end.

(** A stub of the user library, whose [ecall] is at [pc]: the place its [ret] goes
    to. *)
Definition stub (key pc : Z) : M (World S) (option Z) :=
  on_hart (Asm.run translate (Asm.stub_code key)) ;;
  back ← user_trap pc 8;
  match back with
  | None => mret None
  | Some back => goes_to back (u64 (pc + 4)) ;; on_hart (Asm.get_gpr Asm.Ra) ≫= λ a, mret (Some a)
  end.
End operations.

(** ** Lemmas *)

Section rules.
Context {S P : Type} `{BufferOps S P}.
Variable k : Config.
Variable diskInterrupt : M S unit.
Variable uart_fuel : nat.
Variables away interrupts : M (TrapState S) unit.
Variable translate : Z → Z → option Z.
Variable clobber : World S → Asm.Gprs.
Implicit Types (w : World S) (s : TrapState S).

Lemma runs_on_hart {A} (c : M Asm.Hart A) w (Q : A → World S → Prop) :
  runs c (hart_view w) (λ a h, Q a (mkWorld (Asm.gprs h) (with_mem (Asm.memory h) (set_regs (Asm.csrs h) (kstate w))))) →
  runs (on_hart c) w Q.
Proof. unfold runs, on_hart. by destruct (c (hart_view w)) as [[]|]. Qed.

Lemma runs_on_kernel {A} (c : M (TrapState S) A) w (Q : A → World S → Prop) :
  runs c (kstate w) (λ a s, Q a (mkWorld (general w) s)) → runs (on_kernel c) w Q.
Proof. unfold runs, on_kernel. by destruct (c (kstate w)) as [[]|]. Qed.

Lemma runs_goes_to target here w (Q : unit → World S → Prop) :
  target = here → Q tt w → runs (goes_to target here) w Q.
Proof. intros -> HQ. unfold goes_to. by rewrite Z.eqb_refl. Qed.

Lemma runs_compiled {A} (c : M (TrapState S) A) w (Q : A → World S → Prop) :
  general w Asm.Tp = k_tp k → runs c (kstate w) (λ a s, Q a (mkWorld (clobber w) s)) →
  runs (compiled k clobber c) w Q.
Proof.
  intros Htp HQ. unfold runs, compiled in *. rewrite decide_True by done. by destruct (c (kstate w)) as [[]|].
Qed.

Lemma runs_on_regs_read r s (Q : Z → TrapState S → Prop) : Q (regs s r) s → runs (on_regs (Riscv.read r)) s Q.
Proof. intros HQ. unfold runs. by rewrite read_reg_eq. Qed.

Lemma runs_read_sstatus st s (Q : Z → TrapState S → Prop) :
  status_of k s = Some st → Q st s → runs (read_sstatus k) s Q.
Proof. intros E HQ. unfold runs. by rewrite read_sstatus_eq, E. Qed.

Lemma runs_take st pc cause sup s (Q : unit → TrapState S → Prop) : status_of k s = Some st →
  Q tt (with_status k (Riscv.taken_status sup st) (set_regs (Riscv.taken_regs pc cause (regs s)) s)) →
  runs (st ← read_sstatus k; modify (λ s, set_regs (Riscv.taken_regs pc cause (regs s)) s) ;;
    write_sstatus k (Riscv.taken_status sup st)) s Q.
Proof. intros E HQ. runs_step. apply (runs_read_sstatus st); [done|]. runs_step. runs_step. exact HQ. Qed.

Lemma runs_sret st s (Q : Z → TrapState S → Prop) : status_of k s = Some st →
  Q (regs s Riscv.Sepc) (with_status k (Riscv.returned_status st) s) → runs (Trap.sret k) s Q.
Proof. intros E HQ. unfold Trap.sret. runs_step. apply (runs_read_sstatus st); [done|]. runs_step. exact HQ. Qed.

(** What the assembly changes of the kernel's state. *)
Lemma status_hart m r s : status_of k (with_mem m (set_regs r s)) = status_of k s.
Proof. done. Qed.

Lemma mem_with m s : mem (with_mem m s) = m.
Proof. done. Qed.

(** *** An interrupt of the kernel *)

(** The state in which [orfos_kernelTrap] is called. *)
Definition at_kernelTrap (pc cause pa st : Z) w : TrapState S :=
  let g := Asm.put Asm.Sp (general w Asm.Sp - 256) (general w) in
  with_mem (Asm.saved g pa Asm.stack_slots (mem (kstate w)))
    (with_status k (Riscv.taken_status true st) (set_regs (Riscv.taken_regs pc cause (regs (kstate w))) (kstate w))).
Lemma hart_same s : with_mem (mem s) (set_regs (regs s) s) = s.
Proof. by destruct s as [? ? ? ? [[[[? ? ? []] ? ? ?] ? ? ? ?] ?]]. Qed.

Lemma runs_kernel_interrupt link pc cause pa st w s2 st2 (Q : Z → World S → Prop) :
  status_of k (kstate w) = Some st → regs (kstate w) Riscv.Stvec = k_kernelVector k → general w Asm.Tp = k_tp k →
  Asm.maps translate (regs (kstate w) Riscv.Satp) (u64 (general w Asm.Sp - 256)) pa 256 →
  (∀ w', clobber w' Asm.Sp = general w' Asm.Sp) →
  kernelTrap k diskInterrupt uart_fuel away (at_kernelTrap pc cause pa st w) = Ok (tt, s2) →
  regs s2 Riscv.Satp = regs (kstate w) Riscv.Satp → status_of k s2 = Some st2 →
  (∀ a, pa <= a < pa + 256 → ld8 (mem s2) a = ld8 (mem (at_kernelTrap pc cause pa st w)) a) →
  (∀ g, (∀ r, r ≠ Asm.Zero → r ≠ Asm.Tp → 0 <= general w r < 2 ^ 64 → g r = general w r) →
     Q (regs s2 Riscv.Sepc) (mkWorld g (with_status k (Riscv.returned_status st2) s2))) →
  runs (kernel_interrupt k diskInterrupt uart_fuel away translate clobber link pc cause) w Q.
Proof.
  intros Hst Hvec Htp Hmap Hsp Hrun Hsatp Hst2 Hfr HQ. unfold kernel_interrupt. runs_step. apply runs_on_kernel.
  apply (runs_take st pc cause true); [done|]. runs_step. apply runs_on_kernel, runs_on_regs_read.
  runs_step. apply runs_goes_to; [exact Hvec|]. unfold orfos_kernelVector. runs_step. apply runs_on_hart.
  set (h := hart_view _). apply (Asm.runs_kernelVector_entry translate link h pa); [exact Hmap|].
  runs_step. apply runs_compiled; [exact Htp|].
  eapply runs_ok; [exact Hrun|]. runs_step. apply runs_on_hart.
  assert (∀ a, pa <= a < pa + 256 → ld8 (mem s2) a = ld8 (Asm.memory (Asm.at_call link pa h)) a) as Hfr' by exact Hfr.
  set (w2 := mkWorld (clobber _) s2).
  assert (general w2 Asm.Sp = u64 (general w Asm.Sp - 256)) as Hsp2.
  { unfold w2. cbn [general]. rewrite Hsp. cbn [general]. unfold Asm.at_call. cbv zeta. cbn [Asm.gprs].
    rewrite Asm.put_ne by done. by apply Asm.put_eq. }
  apply (Asm.runs_kernelVector_exit translate (hart_view w2) pa).
  - cbn [hart_view Asm.csrs Asm.gprs kstate w2]. rewrite Hsatp. rewrite Hsp2. exact Hmap.
  - cbn [hart_view Asm.memory Asm.gprs kstate w2]. rewrite Hsp2. rewrite <- (Asm.at_call_sp link pa h : _ = u64 (general w Asm.Sp - 256)).
    apply ldN_ext. intros i Hi. simpl in Hi. apply Hfr'. lia.
  - apply runs_on_kernel. cbn [kstate Asm.gprs Asm.memory Asm.csrs Asm.set_gprs hart_view w2]. rewrite hart_same.
    apply (runs_sret st2); [exact Hst2|]. apply HQ.
    intros r H0 H1 Hr. exact (Asm.after_call_gprs link pa h (hart_view w2) r Hfr' H0 H1 Hr).
Qed.
(** *** A trap of a user program *)

(** The hart runs the process [p]. *)
Definition running (p : positive) (x : Proc) s : Prop :=
  ∃ t, hart_of k s = Some t ∧ Scheduler.current t = Some p ∧ data (machine_of s) !! p = Some x.

Definition user_satp (x : Proc) : Z := u64 (makeSatp (ppageTable x)).

(** The hart is in the program of [p], and ready for a trap. *)
Record in_user (p : positive) (x : Proc) w : Prop := {
  iu_running : running p x (kstate w);
  iu_stvec : regs (kstate w) Riscv.Stvec = in_trampoline k (k_userVector k);
  iu_satp : regs (kstate w) Riscv.Satp = user_satp x;
  iu_frame : Asm.maps translate (user_satp x) TRAPFRAME (trapFrame x) 288;
  iu_trap : ld64 (mem (kstate w)) (trapFrame x + tf_kernel_trap) = k_userTrap k;
  iu_hartid : ld64 (mem (kstate w)) (trapFrame x + tf_kernel_hartid) = k_tp k;
  iu_table : syscallMap (system (kstate w)) = initialize;
}.

(** The registers in the trap frame at [tf]. *)
Definition user_registers (g : Asm.Gprs) (m : pmem) (tf : Z) : pmem :=
  st64 (Asm.saved g tf (Asm.but Asm.A0 Asm.user_slots) m) (tf + tf_a 0) (u64 (g Asm.A0)).

(** The state behind the entry code of the trampoline. *)
Definition at_userTrap (pc cause st : Z) (x : Proc) w : TrapState S :=
  let s := kstate w in
  let m := user_registers (general w) (mem s) (trapFrame x) in
  with_mem m (set_regs (Riscv.update Riscv.Satp (ld64 m (trapFrame x + tf_kernel_satp))
      (Riscv.update Riscv.Sscratch (general w Asm.A0) (Riscv.taken_regs pc cause (regs s))))
    (with_status k (Riscv.taken_status false st) s)).

(** The state in which [userTrap], called in [s] for a system call, has enabled
    interrupts. *)
Definition called (st : Z) (x : Proc) s : TrapState S :=
  let m := st64 (mem s) (trapFrame x + tf_epc) (regs s Riscv.Sepc) in
  let m := st64 m (trapFrame x + tf_epc) (u64 (ld64 m (trapFrame x + tf_epc) + 4)) in
  with_status k (Z.lor st Riscv.SSTATUS_SIE)
    (with_mem m (set_regs (Riscv.update Riscv.Stvec (k_kernelVector k) (regs s)) s)).

(** The same for a system call at [pc] of the program. *)
Definition at_syscall (pc st : Z) (x : Proc) w : TrapState S :=
  called (Riscv.taken_status false st) x (at_userTrap pc 8 st x w).

Lemma user_slot q : q ∈ Asm.user_slots → 40 <= q.2 ∧ q.2 + 8 <= 288.
Proof.
  intros Hq. assert (Forall (λ q : Asm.gpr * Z, 40 <= q.2 ∧ q.2 + 8 <= 288) Asm.user_slots) as HF
    by (repeat (apply Forall_cons; split; [simpl; lia|]); by apply Forall_nil).
  rewrite Forall_forall in HF. by apply HF.
Qed.

Lemma a0_slot q : q ∈ Asm.user_slots → q.1 = Asm.A0 → q.2 = tf_a 0.
Proof.
  intros Hq. assert (Forall (λ q : Asm.gpr * Z, q.1 = Asm.A0 → q.2 = tf_a 0) Asm.user_slots) as HF by (repeat constructor; by intros [=]).
  rewrite Forall_forall in HF. by apply HF.
Qed.

Lemma other_slot q : q ∈ Asm.user_slots → q.1 ≠ Asm.A0 → q.2 + 8 <= 112 ∨ 120 <= q.2.
Proof.
  intros Hq. assert (Forall (λ q : Asm.gpr * Z, q.1 ≠ Asm.A0 → q.2 + 8 <= 112 ∨ 120 <= q.2) Asm.user_slots) as HF.
  { repeat (apply Forall_cons; split; [simpl; intros ?; first [done|lia]|]); by apply Forall_nil. }
  rewrite Forall_forall in HF. by apply HF.
Qed.

(** The entry code stores behind the kernel's members of the frame. *)
Lemma registers_header g m tf o : 0 <= o → o + 8 <= 40 → ld64 (user_registers g m tf) (tf + o) = ld64 m (tf + o).
Proof.
  intros H0 H1. apply ldN_ext. intros i Hi. simpl in Hi. unfold user_registers, tf_a.
  rewrite ld8_stN_ne by (simpl; lia). apply Asm.saved_other. intros q [_ [Hq _]%user_slot]%list_elem_of_filter. lia.
Qed.

Lemma registers_slot g m tf q : q ∈ Asm.user_slots → 0 <= g q.1 < 2 ^ 64 →
  ld64 (user_registers g m tf) (tf + q.2) = g q.1.
Proof.
  intros Hq Hr. unfold user_registers. destruct (decide (q.1 = Asm.A0)) as [E|Hne].
  - rewrite (a0_slot q Hq E), E in *. rewrite Asm.ld64_st64_eq, wrap_wrap. by apply wrap_small.
  - assert (q ∈ Asm.but Asm.A0 Asm.user_slots) as Hin by by apply list_elem_of_filter.
    rewrite Asm.ld64_st64_ne by (pose proof (other_slot q Hq Hne); unfold tf_a; lia).
    rewrite (Asm.saved_slot _ _ 288) by (done || apply Asm.placed_user_but). by apply wrap_small.
Qed.

Lemma hart_with x s : hart_of k (with_status k x s) = put_sstatus x <$> hart_of k s.
Proof. unfold hart_of, with_status. simpl. apply lookup_alter_eq. Qed.

Lemma running_status y p x s : running p x s → running p x (with_status k y s).
Proof.
  intros (t & Ht & Hc & Hp). exists (put_sstatus y t). split_and!; [by rewrite hart_with, Ht|done|exact Hp].
Qed.

Lemma running_hart p x m r s : running p x s → running p x (with_mem m (set_regs r s)).
Proof. done. Qed.

Lemma running_regs p x r s : running p x s → running p x (set_regs r s).
Proof. done. Qed.

Lemma running_sstatus p x s : running p x s → is_Some (status_of k s).
Proof. intros (t & Ht & _). unfold status_of. rewrite Ht. eauto. Qed.

Lemma runs_current p x s (Q : positive → TrapState S → Prop) : running p x s → Q p s → runs (current_proc k) s Q.
Proof. intros (t & Ht & Hc & _) HQ. unfold runs. by rewrite (current_proc_eq k t p s Ht Hc). Qed.

Lemma runs_proc p x s (Q : Proc → TrapState S → Prop) :
  running p x s → Q x s → runs (on_kernel_machine (get_proc p)) s Q.
Proof. intros (t & _ & _ & Hp) HQ. unfold runs. by rewrite (get_proc_eq p x s Hp). Qed.

Lemma taken_user st : Riscv.has (Riscv.taken_status false st) Riscv.SSTATUS_SPP = false.
Proof.
  unfold Riscv.taken_status, Riscv.SSTATUS_SPP. rewrite Riscv.has_testbit, Riscv.testbit_set_bits by done.
  by rewrite decide_True.
Qed.
Lemma runs_put_tf tf off y s (Q : unit → TrapState S → Prop) :
  Q tt (with_mem (st64 (mem s) (tf + off) y) s) → runs (on_kernel_machine (set_tf tf off y)) s Q.
Proof. done. Qed.

Lemma runs_get_tf tf off s (Q : Z → TrapState S → Prop) :
  Q (ld64 (mem s) (tf + off)) s → runs (on_kernel_machine (get_tf tf off)) s Q.
Proof. intros HQ. unfold runs. by rewrite get_tf_eq. Qed.

Lemma runs_enable st s (Q : bool → TrapState S → Prop) (c : M (TrapState S) bool) b s2 :
  status_of k s = Some st → (interrupts ;; c) (with_status k (Z.lor st Riscv.SSTATUS_SIE) s) = Ok (b, s2) →
  Q b s2 → runs (enable_interrupts k interrupts ;; c) s Q.
Proof.
  intros Hst E HQ. apply bind_inv in E as ([] & s1 & E1 & E2). runs_step. unfold enable_interrupts. runs_step.
  apply (runs_read_sstatus st); [done|]. runs_step. eapply runs_ok; [apply write_sstatus_eq|].
  eapply runs_ok; [exact E1|]. by eapply runs_ok.
Qed.

Lemma runs_handle_call p x cause st s b s2 (Q : bool → TrapState S → Prop) : cause = 8 → status_of k s = Some st →
  (interrupts ;; do_syscall k p) (with_status k (Z.lor st Riscv.SSTATUS_SIE)
    (with_mem (st64 (mem s) (trapFrame x + tf_epc) (u64 (ld64 (mem s) (trapFrame x + tf_epc) + 4))) s)) = Ok (b, s2) →
  Q b s2 → runs (handle_user k diskInterrupt uart_fuel away interrupts p x cause) s Q.
Proof.
  intros -> Hst E HQ. unfold handle_user. cbn [Z.eqb Pos.eqb]. runs_step. unfold skip_instruction. runs_step.
  apply runs_get_tf, runs_put_tf. by eapply runs_enable; [exact Hst|exact E|].
Qed.

(** [userTrap], for a system call that returns. *)
Lemma runs_userTrap p x x2 st s s2 (Q : option (Z * Z) → TrapState S → Prop) :
  running p x s → status_of k s = Some st → Riscv.has st Riscv.SSTATUS_SPP = false → regs s Riscv.Scause = 8 →
  (interrupts ;; do_syscall k p) (called st x s) = Ok (true, s2) → running p x2 s2 →
  (∀ st2, status_of k s2 = Some st2 →
     Q (Some (in_trampoline k (k_returnUser k), makeSatp (ppageTable x2))) (returned_state k st2 x2 s2)) →
  runs (userTrap k diskInterrupt uart_fuel away interrupts) s Q.
Proof.
  intros Hr Hst Hspp Hcause Hcall (t2 & Ht2 & Hc2 & Hp2) HQ. unfold userTrap. runs_step.
  apply (runs_read_sstatus st); [done|]. runs_step. apply runs_assert; [by rewrite Hspp|].
  runs_step. eapply runs_ok; [apply write_reg_eq|]. runs_step. apply (runs_current p x); [exact Hr|].
  runs_step. apply (runs_proc p x); [exact Hr|]. runs_step. apply runs_on_regs_read. runs_step. apply runs_put_tf.
  runs_step. apply runs_on_regs_read.
  runs_step. eapply runs_handle_call; [exact Hcause|exact Hst|exact Hcall|]. cbv beta iota. runs_step.
  apply (runs_returnUserTrap k s2 t2 p x2); [done..|]. runs_step. apply HQ.
  unfold status_of. by rewrite Ht2.
Qed.

(** The state of the program behind a trap that returned. *)
Definition back_in_user (x : Proc) st s : TrapState S :=
  let s := returned_state k st x s in
  let st' := Z.lor (Z.land (Z.land st (Z.lnot Riscv.SSTATUS_SIE)) (Z.lnot Riscv.SSTATUS_SPP)) Riscv.SSTATUS_SPIE in
  with_status k (Riscv.returned_status st') (set_regs (Riscv.update Riscv.Satp (user_satp x) (regs s)) s).

(** [returnUserTrap] stores in the kernel's members of the frame only. *)
Lemma back_slot x st s o : 40 <= o → ld64 (mem (back_in_user x st s)) (trapFrame x + o) = ld64 (mem s) (trapFrame x + o).
Proof.
  intros Ho. destruct (trap_frame_stored (mem s) (trapFrame x) (regs s Riscv.Satp) (u64 (kernelStack x + PAGE_SIZE))
    (k_userTrap k) (k_tp k)) as (_ & _ & _ & _ & _ & E). apply ldN_ext. intros i Hi. apply E. lia.
Qed.

Lemma returned_epc x st s : regs (returned_state k st x s) Riscv.Sepc = ld64 (mem s) (trapFrame x + tf_epc).
Proof.
  destruct (trap_frame_stored (mem s) (trapFrame x) (regs s Riscv.Satp) (u64 (kernelStack x + PAGE_SIZE))
    (k_userTrap k) (k_tp k)) as (_ & _ & _ & _ & E & _). exact E.
Qed.

Lemma back_status x st s : status_of k s = Some st →
  ∃ st', status_of k (back_in_user x st s) = Some st' ∧ Riscv.has st' Riscv.SSTATUS_SIE = true.
Proof.
  intros Hst. eexists. split; [|apply Riscv.user_status]. unfold back_in_user. cbv zeta. rewrite status_with.
  match goal with |- _ <$> status_of k (set_regs _ ?y) = _ =>
    change (status_of k (set_regs (Riscv.update Riscv.Satp (user_satp x) (regs y)) y)) with (status_of k y) end.
  by rewrite status_returned, Hst.
Qed.

Lemma running_returned p x y st s : running p x s → running p x (returned_state k st y s).
Proof. intros Hr. unfold returned_state. cbv zeta. apply (running_status _ p x), (running_status _ p x), Hr. Qed.

(** The program is ready for the next trap. *)
Lemma in_user_back p x st s g : running p x s → Asm.maps translate (user_satp x) TRAPFRAME (trapFrame x) 288 →
  0 <= k_userTrap k < 2 ^ 64 → 0 <= k_tp k < 2 ^ 64 → syscallMap (system s) = initialize →
  in_user p x (mkWorld g (back_in_user x st s)).
Proof.
  intros Hr Hm Ht Hh Htab. destruct (trap_frame_stored (mem s) (trapFrame x) (regs s Riscv.Satp) (u64 (kernelStack x + PAGE_SIZE))
    (k_userTrap k) (k_tp k)) as (_ & _ & E3 & E4 & _). rewrite (wrap_small _ _ Ht) in E3. rewrite (wrap_small _ _ Hh) in E4.
  split; try done.
  cbn [kstate]. by apply running_status, (running_returned p x x st).
Qed.

Lemma mem_same r s : with_mem (mem s) (set_regs r s) = set_regs r s.
Proof. by destruct s as [? ? ? ? [[[[? ? ? []] ? ? ?] ? ? ? ?] ?]]. Qed.

(** From the return of [userTrap] into the program. *)
Lemma runs_go_back x st g s (Q : option Z → World S → Prop) :
  status_of k s = Some st → Asm.maps translate (user_satp x) TRAPFRAME (trapFrame x) 288 →
  (∀ g', (∀ q, q ∈ Asm.user_slots → g' q.1 = ld64 (mem s) (trapFrame x + q.2)) →
     Q (Some (regs s Riscv.Sepc)) (mkWorld g' (with_status k (Riscv.returned_status st)
       (set_regs (Riscv.update Riscv.Satp (user_satp x) (regs s)) s)))) →
  runs (on_hart (Asm.set_gpr Asm.A0 (makeSatp (ppageTable x))) ;; on_hart (Asm.orfos_returnUser translate) ;;
    pc ← on_kernel (Trap.sret k); mret (Some pc)) (mkWorld g s) Q.
Proof.
  intros Hst Hm HQ. runs_step. apply runs_on_hart. unfold Asm.set_gpr. runs_step. cbn [kstate Asm.gprs Asm.memory Asm.csrs Asm.set_gprs hart_view].
  rewrite hart_same. runs_step. apply runs_on_hart. apply (Asm.runs_returnUser translate _ (trapFrame x)).
  { cbn [hart_view general Asm.gprs]. rewrite Asm.put_eq by done. exact Hm. }
  cbn [hart_view general Asm.gprs Asm.memory Asm.csrs kstate]. rewrite Asm.put_eq by done.
  intros h Em Ec Hg _. rewrite Em, Ec, mem_same. runs_step. apply runs_on_kernel. apply (runs_sret st); [exact Hst|].
  runs_step. by apply HQ.
Qed.

(** A system call, from the [ecall] to the instruction behind the [sret]. *)
Lemma runs_user_call p x x2 st pc w s2 (Q : option Z → World S → Prop) :
  in_user p x w → status_of k (kstate w) = Some st →
  (interrupts ;; do_syscall k p) (at_syscall pc st x w) = Ok (true, s2) → running p x2 s2 →
  Asm.maps translate (user_satp x2) TRAPFRAME (trapFrame x2) 288 →
  (∀ g st2, status_of k s2 = Some st2 → (∀ q, q ∈ Asm.user_slots → g q.1 = ld64 (mem s2) (trapFrame x2 + q.2)) →
     Q (Some (ld64 (mem s2) (trapFrame x2 + tf_epc))) (mkWorld g (back_in_user x2 st2 s2))) →
  runs (user_trap k diskInterrupt uart_fuel away interrupts translate clobber pc 8) w Q.
Proof.
  intros [Hr Hvec Hsatp Hm Htrap Hid _] Hst Hcall Hr2 Hm2 HQ. unfold user_trap. runs_step. apply runs_on_kernel.
  apply (runs_take st pc 8 false); [done|]. runs_step. apply runs_on_kernel, runs_on_regs_read.
  runs_step. apply runs_goes_to; [exact Hvec|]. runs_step. apply runs_on_hart.
  set (h := hart_view _). apply (Asm.runs_userVector translate h (trapFrame x)).
  { assert (Asm.csrs h Riscv.Satp = user_satp x) as -> by exact Hsatp. exact Hm. }
  set (m := st64 (Asm.saved _ _ _ _) _ _). intros h' Em Ec _ Etp. rewrite Em, Ec.
  assert (∀ o, 0 <= o → o + 8 <= 40 → ld64 m (trapFrame x + o) = ld64 (mem (kstate w)) (trapFrame x + o)) as Hh
    by exact (registers_header (general w) (mem (kstate w)) (trapFrame x)).
  runs_step. apply runs_goes_to. { rewrite (Hh 16) by lia. exact Htrap. }
  runs_step. apply runs_compiled. { cbn [general]. rewrite Etp, (Hh 32) by lia. exact Hid. }
  assert (ld64 m (trapFrame x) = ld64 m (trapFrame x + tf_kernel_satp)) as -> by (unfold tf_kernel_satp; by rewrite Z.add_0_r).
  eapply (runs_userTrap p x x2 (Riscv.taken_status false st)); [| |apply taken_user|done|exact Hcall|done|].
  - cbn [kstate]. by apply running_hart, running_status, running_regs.
  - cbn [kstate]. rewrite status_hart, status_with.
    match goal with |- _ <$> status_of k ?y = _ => change (status_of k y) with (status_of k (kstate w)) end.
    by rewrite Hst.
  - intros st2 Hst2. runs_step. apply runs_goes_to; [done|]. eapply runs_go_back; [|exact Hm2|].
    { by rewrite status_returned, Hst2. }
    intros g Hg. assert (ld64 (mem s2) (trapFrame x2 + tf_epc) =
      regs (returned_state k st2 x2 s2) Riscv.Sepc) as <-.
    { symmetry. apply returned_epc. }
    apply HQ; [done|]. intros q Hq. rewrite (Hg q Hq). destruct (user_slot q Hq). by apply (back_slot x2 st2 s2).
Qed.
(** *** A system call of the table *)

#[local] Abbreviation kernel_call p := (call (k_tp k) (k_hash k) (k_address_of k) (k_waitMutex k) (k_trampoline k)
  (k_kernelPages k) (k_kernelPageTable k) (k_name0 k) (k_entry_addr k) (k_elf_addr k) (k_prog_addr k) (k_uart k)
  (k_polls k) p).

(** The kernel is as in [s], and its machine is [m]. *)
Definition with_machine (m : Machine S) s : TrapState S := set_system (mkSystem m (syscallMap (system s))) s.

Lemma with_machine_same s : with_machine (machine_of s) s = s.
Proof. by destruct s as [? ? ? ? []]. Qed.

(** Nobody wrote to the trap frame of the process. *)
Definition undisturbed (x : Proc) s s' : Prop :=
  syscallMap (system s') = syscallMap (system s) ∧
  ∀ i, 0 <= i < 288 → ld8 (mem s') (trapFrame x + i) = ld8 (mem s) (trapFrame x + i).

Lemma undisturbed_word x s s' o : undisturbed x s s' → 0 <= o → o + 8 <= 288 →
  ld64 (mem s') (trapFrame x + o) = ld64 (mem s) (trapFrame x + o).
Proof. intros [_ E] H0 H1. apply ldN_ext. intros i Hi. simpl in Hi. rewrite <- !Z.add_assoc. apply E. lia. Qed.

(** The process [p], with interrupts enabled in [s0], makes the call [f], which
    returns [r]: interrupts that are taken first leave [s], and the call leaves the
    machine [m].  The process keeps the hart, and its frame is left alone. *)
Record served (p : positive) (x x2 : Proc) (f : SyscallFunc) (r : Z) s0 s (m : Machine S) : Prop := {
  sv_interrupts : interrupts s0 = Ok (tt, s);
  sv_running : running p x s;
  sv_kept : undisturbed x s0 s;
  sv_call : kernel_call p f (machine_of s) = Ok (Some r, m);
  sv_still : running p x2 (with_machine m s);
  sv_still_kept : undisturbed x s (with_machine m s);
  sv_frame : trapFrame x2 = trapFrame x;
  sv_mapped : Asm.maps translate (user_satp x2) TRAPFRAME (trapFrame x2) 288;
}.

Lemma do_syscall_ok p x f r s m : running p x s → syscallMap (system s) = initialize →
  table !! ld64 (mem s) (trapFrame x + tf_a 7) = Some f → kernel_call p f (machine_of s) = Ok (Some r, m) →
  do_syscall k p s = Ok (true, with_mem (st64 (mem (with_machine m s)) (trapFrame x + tf_a 0) r) (with_machine m s)).
Proof.
  intros (_ & _ & _ & Hp) Et Hf Ec. unfold with_machine. rewrite Et. unfold do_syscall, on_system.
  assert (system s = mkSystem (machine_of s) initialize) as -> by (rewrite <- Et; by destruct s as [? ? ? ? []]).
  rewrite (syscall_table _ _ _ _ _ _ _ _ _ _ _ _ _ _ _ x Hp). unfold on_machine. cbn [machine syscallMap].
  unfold dispatch. change (argument (machine_of s) x 7) with (ld64 (mem s) (trapFrame x + tf_a 7)). rewrite Hf.
  rewrite (bind_ok _ _ _ _ _ Ec). done.
Qed.

Lemma running_at_syscall p x y pc st w : running p x (kstate w) → running p x (at_syscall pc st y w).
Proof.
  intros Hr. unfold at_syscall, called. cbv zeta. apply running_status, running_hart.
  by apply running_hart, running_status.
Qed.

(** The words of the frame when the call is made. *)
Lemma at_syscall_mem pc st x w : mem (at_syscall pc st x w) =
  (let m := st64 (user_registers (general w) (mem (kstate w)) (trapFrame x)) (trapFrame x + tf_epc) pc in
   st64 m (trapFrame x + tf_epc) (u64 (ld64 m (trapFrame x + tf_epc) + 4))).
Proof. done. Qed.

Lemma at_syscall_epc pc st x w : 0 <= pc → pc + 4 < 2 ^ 64 →
  ld64 (mem (at_syscall pc st x w)) (trapFrame x + tf_epc) = pc + 4.
Proof.
  intros H0 H1. rewrite at_syscall_mem. cbv zeta. rewrite !Asm.ld64_st64_eq, wrap_wrap.
  rewrite (wrap_small 64 pc) by lia. apply wrap_small. lia.
Qed.

Lemma at_syscall_slot pc st x w q : q ∈ Asm.user_slots → 0 <= general w q.1 < 2 ^ 64 →
  ld64 (mem (at_syscall pc st x w)) (trapFrame x + q.2) = general w q.1.
Proof.
  intros Hq Hr. rewrite at_syscall_mem. cbv zeta. destruct (user_slot q Hq).
  rewrite !Asm.ld64_st64_ne by (unfold tf_epc; lia). by apply registers_slot.
Qed.

(** What a system call leaves in the program, when the frame is left alone but for
    the result. *)
Lemma runs_user_syscall p x x2 f r st pc w s m (Q : option Z → World S → Prop) :
  in_user p x w → status_of k (kstate w) = Some st → (∀ r, 0 <= general w r < 2 ^ 64) → 0 <= pc → pc + 4 < 2 ^ 64 →
  table !! general w Asm.A7 = Some f → served p x x2 f r (at_syscall pc st x w) s m →
  (∀ w', in_user p x2 w' → (∃ st', status_of k (kstate w') = Some st' ∧ Riscv.has st' Riscv.SSTATUS_SIE = true) →
     base (ifs (fstate (machine_of (kstate w')))) = base (ifs (fstate m)) →
     (∀ r', r' ≠ Asm.Zero → general w' r' = if decide (r' = Asm.A0) then u64 r else general w r') → Q (Some (pc + 4)) w') →
  runs (user_trap k diskInterrupt uart_fuel away interrupts translate clobber pc 8) w Q.
Proof.
  intros Hin Hst Hregs Hpc Hpc4 Hf [Hint Hr Hk Hcall Hr2 Hk2 Ef Hm2] HQ. pose proof Hin as [_ _ _ _ Htrap Hid Htab].
  assert (∀ q, q ∈ Asm.user_slots → ld64 (mem (with_machine m s)) (trapFrame x + q.2) = general w q.1) as Hslot.
  { intros q Hq. destruct (user_slot q Hq). rewrite (undisturbed_word x s), (undisturbed_word x (at_syscall pc st x w)) by (done || lia).
    by apply at_syscall_slot. }
  set (s3 := with_machine m s) in *. set (s2 := with_mem (st64 (mem s3) (trapFrame x + tf_a 0) r) s3).
  assert (∀ o, 0 <= o → o + 8 <= 112 ∨ 120 <= o → ld64 (mem s2) (trapFrame x + o) = ld64 (mem s3) (trapFrame x + o)) as Hs2.
  { intros o H0 Ho. unfold s2. rewrite mem_with. apply Asm.ld64_st64_ne. unfold tf_a. lia. }
  apply (runs_user_call p x x2 st pc w s2); [done..| |exact Hr2|exact Hm2|].
  - rewrite (bind_ok _ _ _ _ _ Hint). apply (do_syscall_ok p x f); [done| | |done].
    + destruct Hk as [-> _]. exact Htab.
    + rewrite (undisturbed_word x (at_syscall pc st x w)) by (done || (unfold tf_a; lia)).
      pose proof (at_syscall_slot pc st x w (Asm.A7, tf_a 7)) as E7. cbn [fst snd] in E7. rewrite E7; [exact Hf| |apply Hregs].
      apply (bool_decide_unpack _). by vm_compute.
  - intros g st2 Hst2 Hg. rewrite Ef in *. rewrite (Hs2 tf_epc) by (unfold tf_epc; lia).
    rewrite (undisturbed_word x s), (undisturbed_word x (at_syscall pc st x w)), at_syscall_epc by (done || (unfold tf_epc; lia)).
    apply HQ.
    + apply in_user_back; [done|by rewrite Ef|..].
      * rewrite <- Htrap. apply (ldN_range 8).
      * rewrite <- Hid. apply (ldN_range 8).
      * unfold s2. change (syscallMap _) with (syscallMap (system s3)). by rewrite (proj1 Hk2), (proj1 Hk).
    + by apply back_status.
    + done.
    + intros r' H0. destruct (Asm.has_user_slot r' H0) as [o Ho]. cbn [general]. rewrite (Hg _ Ho : g r' = _). case_decide as Er.
      * rewrite (a0_slot _ Ho Er). unfold s2. rewrite mem_with. apply Asm.ld64_st64_eq.
      * cbn [snd]. rewrite Hs2; [exact (Hslot _ Ho)|by destruct (user_slot _ Ho); simpl in *; lia|exact (other_slot _ Ho Er)].
Qed.

(** The stub calls with the key in [a7]. *)
Definition with_key (key : Z) w : World S := mkWorld (Asm.put Asm.A7 key (general w)) (kstate w).

Lemma runs_stub p x x2 f key r st pc w s m (Q : option Z → World S → Prop) :
  in_user p x w → status_of k (kstate w) = Some st → (∀ r, 0 <= general w r < 2 ^ 64) → 0 <= pc → pc + 4 < 2 ^ 64 →
  0 <= key < 2 ^ 64 → table !! key = Some f → served p x x2 f r (at_syscall pc st x (with_key key w)) s m →
  (∀ w', in_user p x2 w' → (∃ st', status_of k (kstate w') = Some st' ∧ Riscv.has st' Riscv.SSTATUS_SIE = true) →
     base (ifs (fstate (machine_of (kstate w')))) = base (ifs (fstate m)) → general w' Asm.A0 = u64 r →
     (∀ r', r' ≠ Asm.Zero → r' ≠ Asm.A0 → r' ≠ Asm.A7 → general w' r' = general w r') → Q (Some (general w Asm.Ra)) w') →
  runs (stub k diskInterrupt uart_fuel away interrupts translate clobber key pc) w Q.
Proof.
  intros [Hr Hvec Hsatp Hm Htrap Hid Htab] Hst Hregs Hpc Hpc4 Hkey Hf Hs HQ. unfold stub. runs_step. apply runs_on_hart.
  unfold Asm.stub_code. cbn [Asm.run Asm.execute]. runs_step. unfold Asm.set_gpr. runs_step. runs_step.
  cbn [kstate Asm.gprs Asm.memory Asm.csrs Asm.set_gprs hart_view]. rewrite hart_same. fold (with_key key w).
  assert (general (with_key key w) Asm.A7 = key) as E7 by (unfold with_key; cbn [general]; rewrite Asm.put_eq by done; by apply wrap_small).
  runs_step. eapply (runs_user_syscall p x x2 f r st pc (with_key key w) s m); [by split|done| |done..|by rewrite E7|done|].
  - intros r'. destruct (decide (r' = Asm.A7)) as [->|]; [by rewrite E7|].
    unfold with_key. cbn [general]. by rewrite Asm.put_ne.
  - intros w' Hin' Hst' Hb Hg. runs_step. apply runs_goes_to; [symmetry; apply wrap_small; lia|].
    runs_step. apply runs_on_hart. unfold Asm.get_gpr. runs_step. cbn [hart_view Asm.gprs Asm.memory Asm.csrs]. rewrite hart_same. runs_step.
    assert (∀ r', r' ≠ Asm.Zero → r' ≠ Asm.A0 → r' ≠ Asm.A7 → general w' r' = general w r') as Hsame.
    { intros r' H0 Ha0 Ha7. rewrite Hg, decide_False by done. unfold with_key. cbn [general]. by apply Asm.put_ne. }
    rewrite (Hsame Asm.Ra) by done. destruct w' as [g' s']. apply HQ; [done|done|exact Hb|by rewrite Hg, decide_True|done].
Qed.
End rules.

(** *** The timer interrupt of machine mode *)

(** [row] is the row of [timerScrach] at [sc] in memory. *)
Definition scratch_at (m : pmem) (sc : Z) (row : list Z) : Prop :=
  ∀ i x, row !! i = Some x → ld64 m (sc + 8 * Z.of_nat i) = x.

(** The vector of hart [id] can take a timer interrupt. *)
Record timer_ready (k : Config) (id : Z) (h : Asm.Hart) : Prop := {
  tr_scratch : Asm.csrs h Riscv.Mscratch = k_scratch k id;
  tr_compare : ld64 (Asm.memory h) (k_scratch k id + 24) = clintMtimeCmp id;
  tr_interval : ld64 (Asm.memory h) (k_scratch k id + 32) = interval;
}.

(** The area of the hart and its comparison register are addresses, apart from
    each other. *)
Definition timer_placed (k : Config) (id : Z) : Prop :=
  0 <= k_scratch k id ∧ k_scratch k id + 40 <= 2 ^ 64 ∧ 0 <= id < NUM_CPUS ∧
  (k_scratch k id + 40 <= clintMtimeCmp id ∨ clintMtimeCmp id + 8 <= k_scratch k id).

Lemma timer_memory_spec k id h : timer_ready k id h → timer_placed k id →
  let m := Asm.timer_memory (k_scratch k id) h in
  ld64 m (clintMtimeCmp id) = u64 (ld64 (Asm.memory h) (clintMtimeCmp id) + interval) ∧
  ld64 m (k_scratch k id + 24) = clintMtimeCmp id ∧ ld64 m (k_scratch k id + 32) = interval ∧
  ∀ a, a < k_scratch k id ∨ k_scratch k id + 24 <= a → a < clintMtimeCmp id ∨ clintMtimeCmp id + 8 <= a →
    ld8 m a = ld8 (Asm.memory h) a.
Proof.
  intros [_ Ec Ei] (H0 & H1 & Hid & Hd). unfold Asm.timer_memory. cbv zeta. rewrite Ec, Ei. split_and!.
  - by rewrite Asm.ld64_st64_eq, wrap_wrap.
  - by rewrite !Asm.ld64_st64_ne by lia.
  - by rewrite !Asm.ld64_st64_ne by lia.
  - intros a Ha Hb. by rewrite !ld8_stN_ne by (simpl; lia).
Qed.

Lemma initializeTimer_ready {S} (k : Config) (s : TrapState S) row :
  let id := regs s Riscv.Mhartid in
  timerScratch s !! Z.to_nat id = Some row → length row = 5%nat →
  ∃ s' row', initializeTimer k s = Ok (tt, s') ∧ timerScratch s' !! Z.to_nat id = Some row' ∧
    regs s' Riscv.Mtvec = k_timerVector k ∧
    ∀ h, Asm.csrs h Riscv.Mscratch = regs s' Riscv.Mscratch → scratch_at (Asm.memory h) (k_scratch k id) row' →
      timer_ready k id h.
Proof.
  intros id El Hl. destruct s as [r b ti sc sys]. cbn [regs timerScratch] in *. pose proof (lookup_lt_Some _ _ _ El) as Hlt.
  pose proof (Boot.initializeTimer_full k r b ti sc sys id row eq_refl El Hlt) as E. cbv zeta in E.
  eexists. exists (<[4%nat := interval]> (<[3%nat := clintMtimeCmp id]> row)). split; [exact E|].
  cbn [regs timerScratch]. split; [by apply list_lookup_insert_eq; rewrite length_insert|]. split; [done|].
  intros h Em Hs. split; [exact Em|..].
  - apply (Hs 3%nat). rewrite list_lookup_insert_ne by done. apply list_lookup_insert_eq. lia.
  - apply (Hs 4%nat). apply list_lookup_insert_eq. rewrite length_insert. lia.
Qed.

(** ** Properties *)

(** C30: The timer interrupt of machine mode keeps coming.  [initializeTimer] returns
    and leaves a hart ready for it: a ready hart that takes the interrupt runs
    [orfos_timerVector] back to the instruction it was at, with every general
    register and every other control register as it was and a software interrupt
    posted to the supervisor; the comparison register has moved by one interval,
    nothing else in memory has changed but three words of the hart's area, and the
    hart is ready for the next one. *)
Theorem timer_interrupt_repeats {S : Type} (k : Config) (s : TrapState S) (row : list Z)
    (Hrow : timerScratch s !! Z.to_nat (regs s Riscv.Mhartid) = Some row) (Hlen : length row = 5%nat)
    (Hplaced : timer_placed k (regs s Riscv.Mhartid)) :
  let id := regs s Riscv.Mhartid in
  (∃ s' row', initializeTimer k s = Ok (tt, s') ∧ timerScratch s' !! Z.to_nat id = Some row' ∧
    regs s' Riscv.Mtvec = k_timerVector k ∧
    ∀ h, Asm.csrs h Riscv.Mscratch = regs s' Riscv.Mscratch → scratch_at (Asm.memory h) (k_scratch k id) row' →
      timer_ready k id h) ∧
  ∀ h, timer_ready k id h → (∀ r, 0 <= Asm.gprs h r < 2 ^ 64) →
    ∃ h', Asm.orfos_timerVector Asm.bare h = Ok (Asm.csrs h Riscv.Mepc, h') ∧ timer_ready k id h' ∧
      (∀ r, Asm.gprs h' r = Asm.gprs h r) ∧ Asm.csrs h' Riscv.Sip = 2 ∧
      (∀ c, c ≠ Riscv.Sip → Asm.csrs h' c = Asm.csrs h c) ∧
      ld64 (Asm.memory h') (clintMtimeCmp id) = u64 (ld64 (Asm.memory h) (clintMtimeCmp id) + interval) ∧
      ∀ a, a < k_scratch k id ∨ k_scratch k id + 24 <= a → a < clintMtimeCmp id ∨ clintMtimeCmp id + 8 <= a →
        ld8 (Asm.memory h') a = ld8 (Asm.memory h) a.
Proof.
  intros id. split; [by apply (initializeTimer_ready k s row)|]. intros h Hr Hok.
  pose proof Hr as [Es Ec _]. destruct (timer_memory_spec k id h Hr Hplaced) as (M1 & M2 & M3 & M4).
  pose proof Hplaced as (H0 & H1 & Hid & Hd). fold id in H0, H1, Hid, Hd.
  assert (0 <= clintMtimeCmp id ∧ clintMtimeCmp id + 8 <= 2 ^ 64) as [C0 C1].
  { unfold clintMtimeCmp, CLINT, NUM_CPUS in *. lia. }
  destruct (runs_inv (Asm.orfos_timerVector Asm.bare) h (λ pc h', pc = Asm.csrs h Riscv.Mepc ∧
    Asm.memory h' = Asm.timer_memory (k_scratch k id) h ∧ (∀ r, Asm.gprs h' r = Asm.gprs h r) ∧ Asm.csrs h' Riscv.Sip = 2 ∧
    (∀ c, c ≠ Riscv.Sip → Asm.csrs h' c = Asm.csrs h c))) as (pc & h' & E & -> & Em & Hg & Hs & Hc).
  - apply Asm.runs_timerVector; rewrite ?Es, ?Ec; [done..| |by apply Asm.maps_bare|by apply Asm.maps_bare|]; [lia|].
    intros h' Em Ems Hs Hc Hg. split_and!; try done. intros c H2. destruct (decide (c = Riscv.Mscratch)) as [->|]; [congruence|by apply Hc].
  - exists h'. split; [exact E|]. rewrite Em. split; [split; rewrite ?Em; [by rewrite Hc|exact M2|exact M3]|].
    split; [exact Hg|]. split; [exact Hs|]. split; [exact Hc|]. split; [exact M1|exact M4].
Qed.

(** Hart 0 with its area of [timerScrach] in memory and its next interrupt at 7. *)
Definition demo_ready : Asm.Hart :=
  Asm.mkHart (λ r, if decide (r = Asm.A0) then 5 else 9)
    (λ c, if decide (c = Riscv.Mscratch) then 0x500300 else 0x80000000)
    (st64 (st64 (st64 ∅ (0x500300 + 24) (clintMtimeCmp 0)) (0x500300 + 32) interval) (clintMtimeCmp 0) 7).

Lemma timer_interrupt_repeats_witness : ∃ h1 h2,
  Asm.orfos_timerVector Asm.bare demo_ready = Ok (0x80000000, h1) ∧
  Asm.orfos_timerVector Asm.bare h1 = Ok (0x80000000, h2) ∧
  ld64 (Asm.memory h2) (clintMtimeCmp 0) = 2000007 ∧ Asm.gprs h2 Asm.A0 = 5 ∧ Asm.gprs h2 Asm.A1 = 9.
Proof.
  destruct (timer_interrupt_repeats demo_config (demo_trap false 0) (replicate 5 0)) as [_ Hstep].
  - reflexivity.
  - reflexivity.
  - unfold timer_placed. vm_compute. intuition congruence.
  - change (regs (demo_trap false 0) Riscv.Mhartid) with 0 in Hstep.
    destruct (Hstep demo_ready) as (h1 & E1 & R1 & G1 & _ & C1 & W1 & _).
    + split; vm_compute; reflexivity.
    + intros r. unfold demo_ready. cbn [Asm.gprs]. case_decide; lia.
    + destruct (Hstep h1 R1) as (h2 & E2 & _ & G2 & _ & _ & W2 & _).
      { intros r. rewrite G1. unfold demo_ready. cbn [Asm.gprs]. case_decide; lia. }
      exists h1, h2. split; [exact E1|]. rewrite E2, C1 by done. split; [done|]. rewrite W2, W1.
      split; [vm_compute; reflexivity|]. split; by rewrite G2, G1.
Defined.

(** C13: An interrupt leaves the kernel code it interrupts as it was, registers and all.
    When the hart is in the kernel at [pc] with interrupts on, takes an interrupt,
    and the handler returns, the vector returns to [pc] with every general register
    but [tp] as it was and interrupts on, and the status as it was except for the
    bits the processor changes; whatever the handler called, and whatever ran while
    the process was switched away, as long as it left the stack frame of the vector
    alone. *)
Theorem kernel_vector_transparent {S P : Type} `{BufferOps S P} (k : Config) (diskInterrupt : M S unit) (uart_fuel : nat)
    (away : M (TrapState S) unit) (translate : Z → Z → option Z) (clobber : World S → Asm.Gprs)
    (w : World S) (s : TrapState S) (link pc cause pa st : Z)
    (Hst : status_of k (kstate w) = Some st) (Hon : Riscv.has st Riscv.SSTATUS_SIE = true)
    (Hvec : regs (kstate w) Riscv.Stvec = k_kernelVector k) (Htp : general w Asm.Tp = k_tp k)
    (Hregs : ∀ r, 0 <= general w r < 2 ^ 64)
    (Hstack : Asm.maps translate (regs (kstate w) Riscv.Satp) (u64 (general w Asm.Sp - 256)) pa 256)
    (Habi : ∀ w', clobber w' Asm.Sp = general w' Asm.Sp)
    (Hrun : kernelTrap k diskInterrupt uart_fuel away (at_kernelTrap k pc cause pa st w) = Ok (tt, s))
    (Hhart : is_Some (status_of k s)) (Hsatp : regs s Riscv.Satp = regs (kstate w) Riscv.Satp)
    (Hframe : ∀ a, pa <= a < pa + 256 → ld8 (mem s) a = ld8 (mem (at_kernelTrap k pc cause pa st w)) a) :
  ∃ w' st', kernel_interrupt k diskInterrupt uart_fuel away translate clobber link pc cause w = Ok (pc, w') ∧
    (∀ r, r ≠ Asm.Zero → r ≠ Asm.Tp → general w' r = general w r) ∧
    status_of k (kstate w') = Some st' ∧
    (∀ j, 0 <= j → Z.testbit st' j = if decide (j = 5) then true else if decide (j = 8) then false else Z.testbit st j) ∧
    mem (kstate w') = mem s.
Proof.
  destruct (kernelTrap_restores k _ _ _ _ _ Hrun) as (Epc & st1 & Est & Hback). destruct Hhart as [st2 Est2].
  assert (st2 = Riscv.taken_status true st) as ->.
  { rewrite (Hback _ Est2). unfold at_kernelTrap in Est. cbv zeta in Est.
    match type of Est with status_of k (with_mem _ ?y) = _ => change (status_of k (with_mem _ y)) with (status_of k y) in Est end.
    rewrite status_with in Est. match type of Est with _ <$> status_of k (set_regs _ ?y) = _ =>
      change (status_of k (set_regs (Riscv.taken_regs pc cause (regs y)) y)) with (status_of k y) in Est end.
    rewrite Hst in Est. by injection Est as <-. }
  destruct (runs_inv (kernel_interrupt k diskInterrupt uart_fuel away translate clobber link pc cause) w (λ a w', a = pc ∧
    (∀ r, r ≠ Asm.Zero → r ≠ Asm.Tp → general w' r = general w r) ∧
    status_of k (kstate w') = Some (Riscv.returned_status (Riscv.taken_status true st)) ∧ mem (kstate w') = mem s))
    as (a & w' & E & -> & Hg & Hs & Hm).
  - eapply (runs_kernel_interrupt k diskInterrupt uart_fuel away translate clobber link pc cause pa st w s); [done..|].
    intros g Hg. split_and!; [exact Epc|by intros; apply Hg| |done]. cbn [kstate]. by rewrite status_with, Est2.
  - exists w', (Riscv.returned_status (Riscv.taken_status true st)). split_and!; [done..| |done].
    intros j Hj. by apply Riscv.returned_taken.
Qed.

(** An idle hart in the kernel, with its stack below [0x90100]. *)
Definition demo_kernel : World BufferCache :=
  mkWorld (λ r, if decide (r = Asm.Sp) then 0x90100 else if decide (r = Asm.Tp) then 0 else 7)
    (set_regs (Riscv.update Riscv.Stvec 0x80001000 (λ _, 0)) (demo_trap false 2)).

Definition demo_timer_cause : Z := 0x8000000000000001.

Definition demo_handler : result (unit * TrapState BufferCache) :=
  kernelTrap demo_config (mret tt) 1 (mret tt) (at_kernelTrap demo_config 0x80000000 demo_timer_cause 0x90000 2 demo_kernel).

Lemma demo_handler_runs : ∃ s, demo_handler = Ok (tt, s) ∧ status_of demo_config s = Some 0x120 ∧
  regs s Riscv.Satp = 0 ∧ ticks s = 1 ∧
  get_bytes 256 (mem s) 0x90000 =
    get_bytes 256 (mem (at_kernelTrap demo_config 0x80000000 demo_timer_cause 0x90000 2 demo_kernel)) 0x90000.
Proof.
  assert ((λ '(_, s), (status_of demo_config s, regs s Riscv.Satp, ticks s, get_bytes 256 (mem s) 0x90000)) <$> result_value demo_handler =
    Some (Some 0x120, 0, 1, get_bytes 256 (mem (at_kernelTrap demo_config 0x80000000 demo_timer_cause 0x90000 2 demo_kernel)) 0x90000)) as E
    by by vm_compute.
  revert E. destruct demo_handler as [[[] s]|]; [|done]. cbn [fmap option_fmap option_map result_value].
  intros E%Some_inj. rewrite !pair_equal_spec in E. destruct E as [[[E1 E2] E3] E4]. exists s.
  split; [reflexivity|]. split; [exact E1|]. split; [exact E2|]. split; [exact E3|exact E4].
Qed.

(** A clock interrupt of the idle hart, whose handler may leave anything in the
    registers but [sp] and [tp]. *)
Lemma kernel_vector_transparent_witness : ∃ w' : World BufferCache,
  kernel_interrupt demo_config (mret tt) 1 (mret tt) Asm.bare
    (λ w r, if decide (r = Asm.Sp) then general w r else if decide (r = Asm.Tp) then 0 else 99)
    0x80001100 0x80000000 demo_timer_cause demo_kernel = Ok (0x80000000, w') ∧
  general w' Asm.Sp = 0x90100 ∧ general w' Asm.A0 = 7 ∧ general w' Asm.S11 = 7.
Proof.
  destruct demo_handler_runs as (s & E & Es & Ep & _ & Em).
  destruct (kernel_vector_transparent demo_config (mret tt) 1 (mret tt) Asm.bare
    (λ w r, if decide (r = Asm.Sp) then general w r else if decide (r = Asm.Tp) then 0 else 99)
    demo_kernel s 0x80001100 0x80000000 demo_timer_cause 0x90000 2) as (w' & st' & Er & Hg & _).
  - by vm_compute.
  - by vm_compute.
  - reflexivity.
  - reflexivity.
  - intros r. unfold demo_kernel. cbn [general]. repeat case_decide; lia.
  - apply (Asm.maps_bare 0 0x90000); lia.
  - reflexivity.
  - exact E.
  - rewrite Es. eauto.
  - exact Ep.
  - intros a Ha. pose proof (f_equal (λ l : bytes, l !! Z.to_nat (a - 0x90000)) Em) as Eb. cbv beta in Eb.
    rewrite !lookup_get_bytes in Eb by lia. rewrite Z2Nat.id in Eb by lia. replace (0x90000 + (a - 0x90000)) with a in Eb by lia.
    apply Some_inj in Eb. exact Eb.
  - exists w'. split; [exact Er|]. split_and!; by apply Hg.
Defined.

(** C6: A system call returns to its caller.  A program calls a stub of the user library
    whose key is in the table of system calls; the process keeps the hart and its
    trap frame is not written to by the call or by interrupts.  Then the stub
    returns behind its call with the result in [a0] and every other register but
    [a7] as it was, with the page table of the process and interrupts on; and the hart is as ready for the next trap as it was for this one. *)
Theorem system_call_returns {S P : Type} `{BufferOps S P} (k : Config) (diskInterrupt : M S unit) (uart_fuel : nat)
    (away interrupts : M (TrapState S) unit) (translate : Z → Z → option Z) (clobber : World S → Asm.Gprs)
    (w : World S) (s : TrapState S) (m : Machine S) (p : positive) (x x2 : Proc) (f : SyscallFunc) (key r st pc : Z)
    (Hin : in_user k translate p x w) (Hst : status_of k (kstate w) = Some st)
    (Hregs : ∀ r, 0 <= general w r < 2 ^ 64) (Hpc : 0 <= pc) (Hpc4 : pc + 4 < 2 ^ 64)
    (Hkey : 0 <= key < 2 ^ 64) (Hf : table !! key = Some f)
    (Hserved : served k interrupts translate p x x2 f r (at_syscall k pc st x (with_key key w)) s m) :
  ∃ w' st', stub k diskInterrupt uart_fuel away interrupts translate clobber key pc w = Ok (Some (general w Asm.Ra), w') ∧
    general w' Asm.A0 = u64 r ∧
    (∀ r', r' ≠ Asm.Zero → r' ≠ Asm.A0 → r' ≠ Asm.A7 → general w' r' = general w r') ∧
    in_user k translate p x2 w' ∧ status_of k (kstate w') = Some st' ∧ Riscv.has st' Riscv.SSTATUS_SIE = true.
Proof.
  destruct (runs_inv (stub k diskInterrupt uart_fuel away interrupts translate clobber key pc) w (λ a w',
    a = Some (general w Asm.Ra) ∧ general w' Asm.A0 = u64 r ∧
    (∀ r', r' ≠ Asm.Zero → r' ≠ Asm.A0 → r' ≠ Asm.A7 → general w' r' = general w r') ∧ in_user k translate p x2 w' ∧
    ∃ st', status_of k (kstate w') = Some st' ∧ Riscv.has st' Riscv.SSTATUS_SIE = true)) as (a & w' & E & -> & E0 & Hg & Hin' & st' & Es & Hs).
  - by eapply (runs_stub k diskInterrupt uart_fuel away interrupts translate clobber p x x2 f key r st pc w s m).
  - by exists w', st'.
Qed.

(** The process of [demo_machine] in its program at [0x40], with its trap frame
    mapped, about to call [write] with the descriptor 5, which it has not opened. *)
Definition demo_translate (satp va : Z) : option Z :=
  if decide (TRAPFRAME <= va < TRAPFRAME + PAGE_SIZE) then Some (va - TRAPFRAME + 0x100000) else None.

Definition demo_user : World BufferCache :=
  let s := demo_trap true 0x20 in
  mkWorld (λ r, if decide (r = Asm.A0) then 5 else if decide (r = Asm.Ra) then 0x1234 else 7)
    (with_mem (st64 (mem s) (0x100000 + tf_kernel_trap) 0x80003000)
      (set_regs (Riscv.update Riscv.Stvec TRAMPOLINE (Riscv.update Riscv.Satp (user_satp demo_proc) (λ _, 0))) s)).

Lemma demo_frame_mapped satp : Asm.maps demo_translate satp TRAPFRAME 0x100000 288.
Proof.
  split; [by vm_compute|]. split; [by vm_compute|]. intros o Ho. unfold demo_translate.
  rewrite decide_True by (change PAGE_SIZE with 4096; lia). f_equal. lia.
Qed.

Lemma demo_in_user : in_user demo_config demo_translate 1 demo_proc demo_user.
Proof.
  split.
  - eexists. split; [reflexivity|]. split; reflexivity.
  - vm_compute; reflexivity.
  - vm_compute; reflexivity.
  - apply demo_frame_mapped.
  - vm_compute; reflexivity.
  - vm_compute; reflexivity.
  - reflexivity.
Qed.

Definition demo_frame : TrapState BufferCache := at_syscall demo_config 0x40 0x20 demo_proc (with_key WRITE demo_user).

Lemma demo_served : served demo_config (mret tt) demo_translate 1 demo_proc demo_proc Write minus_one demo_frame demo_frame
  (machine_of demo_frame).
Proof.
  assert (running demo_config 1 demo_proc demo_frame) as Hr by apply running_at_syscall, demo_in_user.
  assert (undisturbed demo_proc demo_frame demo_frame) as Hu by (split; [reflexivity|intros; reflexivity]).
  split; rewrite ?with_machine_same; [reflexivity|exact Hr|exact Hu| |exact Hr|exact Hu|reflexivity|apply demo_frame_mapped].
  apply (call_not_open _ _ _ _ _ _ _ _ _ _ _ _ _ 1 (machine_of demo_frame) demo_proc Write).
  - reflexivity.
  - unfold not_open. change (length (openFiles demo_proc)) with 0%nat. lia.
  - right. by left.
Qed.

Lemma system_call_returns_witness : ∃ w',
  stub demo_config (mret tt) 1 (mret tt) (mret tt) demo_translate (λ _ _, 99) WRITE 0x40 demo_user = Ok (Some 0x1234, w') ∧
  general w' Asm.A0 = 2 ^ 64 - 1 ∧ general w' Asm.S11 = 7 ∧ general w' Asm.Ra = 0x1234.
Proof.
  destruct (system_call_returns demo_config (mret tt) 1 (mret tt) (mret tt) demo_translate (λ _ _, 99) demo_user demo_frame
    (machine_of demo_frame) 1 demo_proc demo_proc Write WRITE minus_one 0x20 0x40) as (w' & st' & E & E0 & Hg & _).
  - exact demo_in_user.
  - vm_compute; reflexivity.
  - intros r. unfold demo_user. cbn [general]. repeat case_decide; lia.
  - lia.
  - lia.
  - unfold WRITE. lia.
  - vm_compute; reflexivity.
  - exact demo_served.
  - exists w'. split; [exact E|]. split; [exact E0|]. split; by apply Hg.
Defined.
End Vectors.
