(* ===== verification/UserWrite.v ===== *)
(** * A write, from the stub in a program to the disk

    The theorems of [Vectors] and [WriteCall] together: the registers of a program
    that calls [sys_write] of the user library, the trap, the system call, the file
    system with its log, and the way back.  The file has no definitions of the
    program. *)

From S2P Require Import Prelude Riscv HashMap Address Asm Page PageTable Uvm SpinMutex Uart Console Buffer FsState Log Txn Inode InodeWrite File FileWrite Scheduler Process Exec Syscall WriteCall Trap Vectors.
Import Address Page PageTable Uvm Uart Console Buffer FsState Log Txn Inode InodeWrite File FileWrite Process Syscall WriteCall Trap Vectors.

#[local] Open Scope Z_scope.
#[local] Existing Instances Asm.gpr_eq_dec Riscv.reg_eq_dec.

Module UserWrite.

(** ** Lemmas *)

Section lemmas.
Context {S P : Type} `{BufferOps S P} (dev : Z) `{!BufferLaws S P dev}.
Variable k : Config.
Variable interrupts : M (TrapState S) unit.
Variable translate : Z → Z → option Z.
Implicit Types (w : World S) (s : TrapState S).

(** The arguments of the call are the registers of the program. *)
Lemma argument_register pc st key x w s r n : undisturbed x (at_syscall k pc st x (with_key key w)) s →
  (r, tf_a n) ∈ Asm.user_slots → 0 <= tf_a n → tf_a n + 8 <= 288 → r ≠ Asm.A7 → 0 <= general w r < 2 ^ 64 →
  argument (machine_of s) x n = general w r.
Proof.
  intros Hu Hin H0 H1 Hne Hr. change (argument (machine_of s) x n) with (ld64 (mem s) (trapFrame x + tf_a n)).
  rewrite (undisturbed_word x _ s _ Hu) by done.
  assert (general (with_key key w) r = general w r) as E by by apply Asm.put_ne.
  pose proof (at_syscall_slot k pc st x (with_key key w) (r, tf_a n) Hin) as Es. cbn [fst snd] in Es. rewrite E in Es. by apply Es.
Qed.

(** The call serves the request. *)
Lemma write_served X p x s0 s (v : view P) D f y ip i bs :
  interrupts s0 = Ok (tt, s) → running k p x s → undisturbed x s0 s →
  Asm.maps translate (user_satp x) TRAPFRAME (trapFrame x) 288 →
  write_request dev X p (machine_of s) v x D f y ip i bs →
  ∃ (s' : FileState S) (v' : view P) (i' : Inode), let n := Z.of_nat (length bs) in
    served k interrupts translate p x x Write n s0 s (set_fstate s' (machine_of s)) ∧
    writing dev X s' v' f (set_offset (offset y + n) y) ip i' ∧ settled s' v' i' ∧
    disk_holds (fstate (machine_of s)) v i (offset y) bs (v_disk v').
Proof.
  intros Hint Hr Hu Hm Hq. destruct (write_call_runs dev (k_tp k) (k_hash k) (k_address_of k) (k_waitMutex k) (k_trampoline k)
    (k_kernelPages k) (k_kernelPageTable k) (k_name0 k) (k_entry_addr k) (k_elf_addr k) (k_prog_addr k) (k_uart k) (k_polls k)
    X p (machine_of s) v x D f y ip i bs Hq) as (s' & v' & i' & ws & E & Hw & Hset & Hk & Hd & _).
  exists s', v', i'. cbv zeta. split; [|done]. destruct Hr as (t & Ht & Hc & Hp). split; try done; [by exists t|by exists t|].
  split; [done|]. intros j Hj. unfold mem, with_machine, machine_of in *. simpl. unfold Exec.kern in *. simpl in *. by rewrite Hk.
Qed.
End lemmas.

(** ** Properties *)


(** *** A concrete program

    The process of [WriteCall.demo_writer] runs on hart 0.  Its trap frame is on the
    page [0x80000], which is mapped at [0x5000]: it writes the first three bytes of the
    frame, which are 1, 2 and 3. *)

Definition demo_translate (satp va : Z) : option Z :=
  if decide (TRAPFRAME <= va < TRAPFRAME + PAGE_SIZE) then Some (va - TRAPFRAME + 0x80000) else None.

Definition demo_state_of (m : KMem) : TrapState BufferCache :=
  let hart := Scheduler.mkHart (SpinMutex.mkCpu 0 false 0x20) (Some 1%positive) (Some 1%positive) Scheduler.Free in
  mkTrap (Riscv.update Riscv.Stvec TRAMPOLINE (Riscv.update Riscv.Satp (user_satp demo_writer) (λ _, 0))) [] 0 []
    (mkSystem (set_sched (Scheduler.set_harts {[0 := hart]} (sched (demo_state m))) (demo_state m)) initialize).

Definition demo_world : World BufferCache :=
  mkWorld (λ r, if decide (r = Asm.A0) then 0 else if decide (r = Asm.A1) then 0x5000 else if decide (r = Asm.A2) then 3
      else if decide (r = Asm.Ra) then 0x1234 else 7)
    (demo_state_of (mkKMem (st64 (st64 ∅ 0x80000 0x030201) (0x80000 + tf_kernel_trap) 0x80003000) 0 0)).

(** The memory when the call is made, and the frame in it. *)
Definition demo_called : TrapState BufferCache := at_syscall demo_config 0x40 0x20 demo_writer (with_key WRITE demo_world).

Definition demo_call_frame : bytes := get_bytes 288 (mem demo_called) 0x80000.

Lemma demo_running m : running demo_config 1 demo_writer (demo_state_of m).
Proof. eexists. split; [reflexivity|]. split; reflexivity. Qed.

Lemma writer_in_user : in_user demo_config demo_translate 1 demo_writer demo_world.
Proof.
  split; [apply demo_running|reflexivity|reflexivity| |vm_compute; reflexivity|vm_compute; reflexivity|reflexivity].
  split; [by vm_compute|]. split; [by vm_compute|]. intros o Ho. unfold demo_translate.
  rewrite decide_True by (change PAGE_SIZE with 4096; lia). f_equal. change (trapFrame demo_writer) with 0x80000. lia.
Qed.

Lemma demo_kept m : (∀ j b, demo_call_frame !! j = Some b → ld8 (kmem m) (0x80000 + Z.of_nat j) = b) →
  undisturbed demo_writer demo_called (demo_state_of m).
Proof.
  intros Hf. split; [reflexivity|]. intros i Hi. change (trapFrame demo_writer) with 0x80000.
  change (mem (demo_state_of m)) with (kmem m). rewrite <- (Z2Nat.id i) by lia. apply Hf.
  unfold demo_call_frame. rewrite lookup_get_bytes by lia. done.
Qed.

Lemma get_bytes_range n (m : pmem) a : Forall (λ b, 0 <= b < 256) (get_bytes n m a).
Proof. revert a; induction n as [|n IH]; intros a; cbn [get_bytes]; constructor; [apply ld8_byte|apply IH]. Qed.

Lemma demo_general r : 0 <= general demo_world r < 2 ^ 64.
Proof. unfold demo_world. cbn [general]. repeat case_decide; lia. Qed.

Lemma demo_user_request m (D : Source 0x1000 true) : s_has D m 0x5000 demo_call_frame →
  (∀ j b, demo_call_frame !! j = Some b → ld8 (kmem m) (0x80000 + Z.of_nat j) = b) →
  write_request 1 {[60; 64]} 1 (machine_of (demo_state_of m)) demo_quiet_view demo_writer D 0
    (mkFile TInode 1 true true (Some 1%positive) 2) 1 demo_inode [1; 2; 3].
Proof.
  intros Hs Hf. pose proof (demo_kept m Hf) as Hu.
  assert (∀ r n, (r, tf_a n) ∈ Asm.user_slots → 0 <= n <= 2 → r ≠ Asm.A7 →
    argument (machine_of (demo_state_of m)) demo_writer n = general demo_world r) as Ha.
  { intros r n Hin Hn Hne. apply (argument_register demo_config 0x40 0x20 WRITE demo_writer demo_world); try done;
      [unfold tf_a; lia|unfold tf_a; lia|apply demo_general]. }
  pose proof (Ha Asm.A0 0 ltac:(apply (bool_decide_unpack _); by vm_compute) ltac:(done) ltac:(done)) as E0.
  pose proof (Ha Asm.A1 1 ltac:(apply (bool_decide_unpack _); by vm_compute) ltac:(done) ltac:(done)) as E1.
  pose proof (Ha Asm.A2 2 ltac:(apply (bool_decide_unpack _); by vm_compute) ltac:(done) ltac:(done)) as E2.
  change (general demo_world Asm.A0) with 0 in E0. change (general demo_world Asm.A1) with 0x5000 in E1.
  change (general demo_world Asm.A2) with 3 in E2. split; rewrite ?E0, ?E1, ?E2.
  - done.
  - by vm_compute.
  - reflexivity.
  - by vm_compute.
  - assert (∃ rest, demo_call_frame = [1; 2; 3] ++ rest) as [rest E].
    { exists (drop 3 demo_call_frame). vm_compute. reflexivity. }
    rewrite E in Hs. by apply (s_split _ _ D) in Hs as [Hs _].
  - simpl. lia.
  - done.
  - done.
  - apply demo_writing.
  - apply demo_mapped.
  - apply demo_settled.
Qed.

End UserWrite.
